(** * DASH/DART runtime: locality tree and task data dependencies

    A shallow embedding of two translation units of the DART runtime:

    - [dash/dart/base/locality.c]: the locality domain tree
      (module [Locality]);
    - the tasking data-dependency tracker (hash of dependency elements,
      unhandled remote dependencies, free list; module [Datadeps]).

    C integers are modelled as [Z] with conversions written out where the
    source converts, C strings as [string], heap-allocated linked lists as
    a finite map from addresses to nodes. *)

From Stdlib Require Import ZArith String Ascii List Lia Bool.
From Stdlib Require Import DecimalString DecimalN DecimalPos.
From stdpp Require Import base tactics option list gmap functions.

#[local] Set Warnings "-register-all,-clear-no-such-hyp".

#[local] Open Scope Z_scope.

(** Return codes of [dart_ret_t] used by the two units. *)
Inductive dart_ret_t := DART_OK | DART_ERR_INVAL.

(** Conversion of an integer value to a C [int] (two's complement,
    32 bit). *)
Definition cast_int (z : Z) : Z := (z + 2 ^ 31) mod 2 ^ 32 - 2 ^ 31.

(** Conversion of an integer value to [uint64_t]. *)
Definition cast_u64 (z : Z) : Z := z mod 2 ^ 64.

(* ====================================================================== *)
(** * Locality domains ([dash/dart/base/locality.c])                        *)
(* ====================================================================== *)

Module Locality.

Inductive dart_locality_scope_t :=
| DART_LOCALITY_SCOPE_UNDEFINED
| DART_LOCALITY_SCOPE_GLOBAL
| DART_LOCALITY_SCOPE_NODE
| DART_LOCALITY_SCOPE_MODULE
| DART_LOCALITY_SCOPE_NUMA
| DART_LOCALITY_SCOPE_CORE.

Record dart_hwinfo_t := mk_hwinfo {
  numa_id     : Z;
  cpu_id      : Z;
  num_cores   : Z;
  num_modules : Z;
  num_numa    : Z;
  min_threads : Z;
  max_threads : Z;
  min_cpu_mhz : Z;
  max_cpu_mhz : Z
}.

(** [dart_domain_locality_t].  The array [domains] is owned by its node,
    so the tree is an inductive type: [None] is the [NULL] pointer and
    [Some l] an allocated array whose cells are [l].  The [parent] back
    pointer of the C struct is the path prefix of a node (see [dptr]). *)
Inductive dart_domain_locality_t := mk_domain {
  domain_tag     : string;
  host           : string;
  scope          : dart_locality_scope_t;
  level          : Z;
  relative_index : Z;
  node_id        : Z;
  num_domains    : Z;
  domains        : option (list dart_domain_locality_t);
  hwinfo         : dart_hwinfo_t;
  num_nodes      : Z;
  num_units      : Z;
  unit_ids       : list Z
}.

(** [dart_host_topology_t], reduced to the fields [locality.c] reads. *)
Record dart_host_topology_t := mk_topology {
  topo_num_nodes : Z;
  host_names     : list string
}.

(** Field updates, written as in the source ([d->f = v]). *)
Definition set_domain_tag v d := mk_domain v (host d) (scope d) (level d) (relative_index d) (node_id d) (num_domains d) (domains d) (hwinfo d) (num_nodes d) (num_units d) (unit_ids d).
Definition set_host v d := mk_domain (domain_tag d) v (scope d) (level d) (relative_index d) (node_id d) (num_domains d) (domains d) (hwinfo d) (num_nodes d) (num_units d) (unit_ids d).
Definition set_scope v d := mk_domain (domain_tag d) (host d) v (level d) (relative_index d) (node_id d) (num_domains d) (domains d) (hwinfo d) (num_nodes d) (num_units d) (unit_ids d).
Definition set_level v d := mk_domain (domain_tag d) (host d) (scope d) v (relative_index d) (node_id d) (num_domains d) (domains d) (hwinfo d) (num_nodes d) (num_units d) (unit_ids d).
Definition set_relative_index v d := mk_domain (domain_tag d) (host d) (scope d) (level d) v (node_id d) (num_domains d) (domains d) (hwinfo d) (num_nodes d) (num_units d) (unit_ids d).
Definition set_node_id v d := mk_domain (domain_tag d) (host d) (scope d) (level d) (relative_index d) v (num_domains d) (domains d) (hwinfo d) (num_nodes d) (num_units d) (unit_ids d).
Definition set_num_domains v d := mk_domain (domain_tag d) (host d) (scope d) (level d) (relative_index d) (node_id d) v (domains d) (hwinfo d) (num_nodes d) (num_units d) (unit_ids d).
Definition set_domains v d := mk_domain (domain_tag d) (host d) (scope d) (level d) (relative_index d) (node_id d) (num_domains d) v (hwinfo d) (num_nodes d) (num_units d) (unit_ids d).
Definition set_hwinfo v d := mk_domain (domain_tag d) (host d) (scope d) (level d) (relative_index d) (node_id d) (num_domains d) (domains d) v (num_nodes d) (num_units d) (unit_ids d).
Definition set_num_nodes v d := mk_domain (domain_tag d) (host d) (scope d) (level d) (relative_index d) (node_id d) (num_domains d) (domains d) (hwinfo d) v (num_units d) (unit_ids d).
Definition set_num_units v d := mk_domain (domain_tag d) (host d) (scope d) (level d) (relative_index d) (node_id d) (num_domains d) (domains d) (hwinfo d) (num_nodes d) v (unit_ids d).
Definition set_unit_ids v d := mk_domain (domain_tag d) (host d) (scope d) (level d) (relative_index d) (node_id d) (num_domains d) (domains d) (hwinfo d) (num_nodes d) (num_units d) v.

Definition set_hw_num_modules v h := mk_hwinfo (numa_id h) (cpu_id h) (num_cores h) v (num_numa h) (min_threads h) (max_threads h) (min_cpu_mhz h) (max_cpu_mhz h).
Definition set_hw_num_numa v h := mk_hwinfo (numa_id h) (cpu_id h) (num_cores h) (num_modules h) v (min_threads h) (max_threads h) (min_cpu_mhz h) (max_cpu_mhz h).
Definition set_hw_num_cores v h := mk_hwinfo (numa_id h) (cpu_id h) v (num_modules h) (num_numa h) (min_threads h) (max_threads h) (min_cpu_mhz h) (max_cpu_mhz h).

(** ** C strings and number formatting *)

(** [sprintf("%d", z)]. *)
Definition sprintf_d (z : Z) : string :=
  match z with
  | Zneg p => String "-" (NilEmpty.string_of_uint (N.to_uint (Npos p)))
  | _ => NilEmpty.string_of_uint (N.to_uint (Z.to_N z))
  end.

Definition digit_of_ascii (c : ascii) : option (Decimal.uint -> Decimal.uint) :=
  match c with
  | "0"%char => Some Decimal.D0 | "1"%char => Some Decimal.D1
  | "2"%char => Some Decimal.D2 | "3"%char => Some Decimal.D3
  | "4"%char => Some Decimal.D4 | "5"%char => Some Decimal.D5
  | "6"%char => Some Decimal.D6 | "7"%char => Some Decimal.D7
  | "8"%char => Some Decimal.D8 | "9"%char => Some Decimal.D9
  | _ => None
  end.

(** Longest prefix of decimal digits of [s], and the rest of [s]. *)
Fixpoint take_digits (s : string) : Decimal.uint * string :=
  match s with
  | EmptyString => (Decimal.Nil, EmptyString)
  | String c s' =>
      match digit_of_ascii c with
      | Some d => let '(u, r) := take_digits s' in (d u, r)
      | None => (Decimal.Nil, s)
      end
  end.

(** [isspace] in the "C" locale. *)
Definition isspace (c : ascii) : bool :=
  let n := nat_of_ascii c in
  (Nat.eqb n 32 || (Nat.leb 9 n && Nat.leb n 13))%bool.

Fixpoint skip_spaces (s : string) : string :=
  match s with
  | String c s' => if isspace c then skip_spaces s' else s
  | EmptyString => s
  end.

Definition LONG_MAX : Z := 2 ^ 63 - 1.
Definition LONG_MIN : Z := - 2 ^ 63.

(** [strtol(nptr, &endptr, 10)] of the C library on an LP64 platform:
    white space is skipped, an optional sign is read, then the longest run
    of decimal digits; the value saturates at [LONG_MIN]/[LONG_MAX].  When
    there is no digit, the value is [0] and [endptr] is [nptr].  The result
    is the value and the rest of the string at [endptr]. *)
Definition strtol (nptr : string) : Z * string :=
  let s := skip_spaces nptr in
  let '(neg, body) :=
    match s with
    | String "-" r => (true, r)
    | String "+" r => (false, r)
    | _ => (false, s)
    end in
  match take_digits body with
  | (Decimal.Nil, _) => (0, nptr)
  | (u, rest) =>
      let v := Z.of_N (N.of_uint u) in
      ((if neg then Z.max LONG_MIN (- v) else Z.min LONG_MAX v), rest)
  end.

(** [strchr(s, '.')]: the suffix of [s] from the first dot, [None] for
    [NULL]. *)
Fixpoint strchr_dot (s : string) : option string :=
  match s with
  | EmptyString => None
  | String c s' => if Ascii.eqb c "." then Some s else strchr_dot s'
  end.


(** [strncpy(dst, src, n)] into a buffer of [n] characters. *)
Definition strncpy (src : string) (n : nat) : string := substring 0 n src.

(** The indices [0 .. n-1] of a [for (int i = 0; i < n; ++i)] loop. *)
Definition loop_range (n : Z) : list Z := map Z.of_nat (seq 0 (Z.to_nat n)).

(** ** Pointers into the domain tree *)

(** A pointer to a domain is [NULL], the address of the node reached from
    the root by a path of child indices, or an address outside every
    allocated array (the result of out-of-bounds pointer arithmetic). *)
Inductive dptr := DNull | DAt (path : list nat) | DWild.

Fixpoint domain_at (d : dart_domain_locality_t) (path : list nat)
  : option dart_domain_locality_t :=
  match path with
  | [] => Some d
  | i :: p =>
      match domains d with
      | Some l => match l !! i with Some c => domain_at c p | None => None end
      | None => None
      end
  end.

(** [domain->domains + idx], for the node at [path]. *)
Definition child_ptr (path : list nat) (d : dart_domain_locality_t) (idx : Z) : dptr :=
  match domains d with
  | None => if idx =? 0 then DNull else DWild
  | Some l =>
      if (0 <=? idx) && (idx <? Z.of_nat (length l))
      then DAt (path ++ [Z.to_nat idx]) else DWild
  end.

(** [a[i]] on a C array whose cells are [a]: [None] when the index is
    outside the array. *)
Definition array_at {A} (a : list A) (i : Z) : option A :=
  if i <? 0 then None else a !! Z.to_nat i.

Section Build.

(** Collaborators defined in other translation units
    ([host_topology.c], [unit_locality.c]) and constants of headers.
    [node_units] and [module_units] are
    [dart__base__host_topology__node_units] and [.._module_units]: the unit
    ids they hand back when they return [DART_OK], [None] when they return
    another code and leave their output parameters as they were. *)
Variable node_units : dart_host_topology_t -> string -> option (list Z).
Variable module_units : dart_host_topology_t -> string -> option (list Z).
(** [dart__base__unit_locality__at(unit, &loc)]: the [hwinfo.numa_id] of
    the unit locality it hands back when it returns [DART_OK], [None] when
    it returns another code. *)
Variable unit_numa_id : Z -> option Z.
Variable DART_LOCALITY_HOST_MAX_SIZE : nat.
(** Content of a cell returned by [malloc]. *)
Variable uninit : dart_domain_locality_t.

Definition dart__base__locality__domain_locality_init
  (loc : dart_domain_locality_t) : dart_domain_locality_t :=
  set_num_units (-1) (set_num_nodes (-1) (set_domains None (set_num_domains 0
    (set_level 0 (set_scope DART_LOCALITY_SCOPE_UNDEFINED
      (set_host EmptyString (set_domain_tag EmptyString loc))))))).

(** The four functions that fill a sub-domain return [None] for a run
    that does not return normally: a read of [host_names] or [unit_ids]
    outside the array; the use of what a collaborator was to hand back
    when it did not return [DART_OK] (its return code is not looked at,
    and the locals it was to set are not initialised); in
    [create_numa_subdomain], the abort of [DART_ASSERT_RETURNS]. *)
Definition dart__base__locality__create_global_subdomain
  (host_topology : dart_host_topology_t)
  (global_domain subdomain : dart_domain_locality_t) (rel_idx : Z)
  : option dart_domain_locality_t :=
  node_hostname ← array_at (host_names host_topology) rel_idx;
  let subdomain := set_host (strncpy node_hostname DART_LOCALITY_HOST_MAX_SIZE) subdomain in
  node_unit_ids ← node_units host_topology node_hostname;
  let num_node_units := Z.of_nat (length node_unit_ids) in
  let subdomain := set_node_id rel_idx subdomain in
  let subdomain := set_num_nodes 1 subdomain in
  let subdomain := set_num_units (cast_int num_node_units) subdomain in
  Some (set_unit_ids node_unit_ids subdomain).

Definition dart__base__locality__create_node_subdomain
  (host_topology : dart_host_topology_t)
  (node_domain subdomain : dart_domain_locality_t) (rel_idx : Z)
  : option dart_domain_locality_t :=
  module_hostname ← array_at (host_names host_topology) rel_idx;
  let subdomain := set_host (strncpy module_hostname DART_LOCALITY_HOST_MAX_SIZE) subdomain in
  module_unit_ids ← module_units host_topology module_hostname;
  let num_module_units := Z.of_nat (length module_unit_ids) in
  let subdomain := set_num_nodes 1 subdomain in
  let subdomain := set_num_units (cast_int num_module_units) subdomain in
  Some (set_unit_ids module_unit_ids subdomain).

Definition dart__base__locality__create_module_subdomain
  (host_topology : dart_host_topology_t)
  (module_domain subdomain : dart_domain_locality_t) (rel_idx : Z)
  : option dart_domain_locality_t :=
  let module_hostname := host module_domain in
  let subdomain := set_host (strncpy module_hostname DART_LOCALITY_HOST_MAX_SIZE) subdomain in
  module_unit_ids ← module_units host_topology module_hostname;
  (* both passes read the unit locality of every unit of the module; the
     return code of [dart__base__unit_locality__at] is not looked at *)
  _ ← mapM unit_numa_id module_unit_ids;
  (* first pass: count the units whose NUMA id is rel_idx;
     second pass: copy them in order *)
  let numa_unit_ids :=
    List.filter (fun u => match unit_numa_id u with
                          | Some module_unit_numa_id =>
                              module_unit_numa_id =? rel_idx
                          | None => false
                          end) module_unit_ids in
  let num_numa_units := Z.of_nat (length numa_unit_ids) in
  let subdomain :=
    set_hwinfo (set_hw_num_cores (cast_int num_numa_units)
                 (set_hw_num_numa 1 (set_hw_num_modules 1 (hwinfo subdomain))))
               subdomain in
  let subdomain := set_num_nodes 1 subdomain in
  let subdomain := set_num_units (cast_int num_numa_units) subdomain in
  Some (set_unit_ids numa_unit_ids subdomain).

(** Returns the sub-domain and the writes [(unit, domain_tag)] made to
    the unit locality map. *)
Definition dart__base__locality__create_numa_subdomain
  (host_topology : dart_host_topology_t)
  (numa_domain subdomain : dart_domain_locality_t) (rel_idx : Z)
  : option (dart_domain_locality_t * list (Z * string)) :=
  let num_uma_units := Z.quot (num_units numa_domain) (num_domains numa_domain) in
  let subdomain :=
    set_hwinfo (set_hw_num_modules 1 (hwinfo subdomain)) subdomain in
  let subdomain := set_num_nodes 1 subdomain in
  let subdomain :=
    set_hwinfo (set_hw_num_numa 1 (hwinfo subdomain)) subdomain in
  let subdomain :=
    set_hwinfo (set_hw_num_cores
                  (Z.quot (num_cores (hwinfo numa_domain)) (num_domains numa_domain))
                  (hwinfo subdomain)) subdomain in
  let subdomain := set_num_units (cast_int num_uma_units) subdomain in
  ids ← mapM (fun u =>
                let numa_unit_idx := cast_int (rel_idx * num_uma_units + u) in
                unit_id ← array_at (unit_ids numa_domain) numa_unit_idx;
                (* DART_ASSERT_RETURNS(dart__base__unit_locality__at(..)) *)
                _ ← unit_numa_id unit_id;
                Some unit_id)
             (loop_range (num_units subdomain));
  Some (set_unit_ids ids subdomain,
        map (fun unit_id => (unit_id, domain_tag subdomain)) ids).

(** First step of [create_subdomains]: number of sub-domains and their
    scope.  [Some None] is the [return DART_ERR_INVAL] of the undefined
    scope; [None] is a run that does not go on: the read of [host_names]
    outside the array, or the abort of [DART_ASSERT_RETURNS] when
    [module_units] does not return [DART_OK]. *)
Definition subdomain_layout
  (host_topology : dart_host_topology_t) (domain : dart_domain_locality_t)
  : option (option (dart_domain_locality_t * dart_locality_scope_t)) :=
  match scope domain with
  | DART_LOCALITY_SCOPE_UNDEFINED => Some None
  | DART_LOCALITY_SCOPE_GLOBAL =>
      Some (Some (set_num_domains (cast_int (topo_num_nodes host_topology)) domain,
                  DART_LOCALITY_SCOPE_NODE))
  | DART_LOCALITY_SCOPE_NODE =>
      Some (Some (set_num_domains (cast_int (num_modules (hwinfo domain))) domain,
                  DART_LOCALITY_SCOPE_MODULE))
  | DART_LOCALITY_SCOPE_MODULE =>
      let domain := set_num_domains (cast_int (num_numa (hwinfo domain))) domain in
      module_hostname ← array_at (host_names host_topology) (relative_index domain);
      module_unit_ids ← module_units host_topology module_hostname;
      let num_module_units := Z.of_nat (length module_unit_ids) in
      Some (Some (set_num_units (cast_int num_module_units) domain,
                  DART_LOCALITY_SCOPE_NUMA))
  | DART_LOCALITY_SCOPE_NUMA =>
      Some (Some (set_num_domains (cast_int (num_units domain)) domain,
                  DART_LOCALITY_SCOPE_CORE))
  | DART_LOCALITY_SCOPE_CORE =>
      Some (Some (set_num_domains 0 domain, DART_LOCALITY_SCOPE_UNDEFINED))
  end.

(** Body of the loop of [create_subdomains] up to the recursive call: the
    cell [domain->domains + rel_idx] after its initialisation, and the
    writes to the unit locality map; [None] for undefined behaviour. *)
Definition init_subdomain
  (host_topology : dart_host_topology_t) (domain : dart_domain_locality_t)
  (sub_scope : dart_locality_scope_t) (rel_idx : Z)
  : option (dart_domain_locality_t * list (Z * string)) :=
  let subdomain := dart__base__locality__domain_locality_init uninit in
  let subdomain := set_hwinfo (hwinfo domain) subdomain in
  let subdomain := set_scope sub_scope subdomain in
  let subdomain := set_relative_index rel_idx subdomain in
  let subdomain := set_level (level domain + 1) subdomain in
  let subdomain := set_node_id (node_id domain) subdomain in
  let subdomain := set_host (strncpy (host domain) DART_LOCALITY_HOST_MAX_SIZE) subdomain in
  let base := if 0 <? level domain then domain_tag domain else EmptyString in
  let subdomain :=
    set_domain_tag (base ++ String "." (sprintf_d rel_idx))%string subdomain in
  match scope domain with
  | DART_LOCALITY_SCOPE_GLOBAL =>
      subdomain ← dart__base__locality__create_global_subdomain
                    host_topology domain subdomain rel_idx;
      Some (subdomain, [])
  | DART_LOCALITY_SCOPE_NODE =>
      subdomain ← dart__base__locality__create_node_subdomain
                    host_topology domain subdomain rel_idx;
      Some (subdomain, [])
  | DART_LOCALITY_SCOPE_MODULE =>
      subdomain ← dart__base__locality__create_module_subdomain
                    host_topology domain subdomain rel_idx;
      Some (subdomain, [])
  | DART_LOCALITY_SCOPE_NUMA =>
      dart__base__locality__create_numa_subdomain
        host_topology domain subdomain rel_idx
  | DART_LOCALITY_SCOPE_CORE =>
      let subdomain :=
        set_hwinfo (set_hw_num_cores 1 (set_hw_num_numa 1
                     (set_hw_num_modules 1 (hwinfo subdomain)))) subdomain in
      let subdomain := set_num_nodes 1 subdomain in
      let subdomain := set_num_units 1 subdomain in
      unit_id ← array_at (unit_ids domain) rel_idx;
      Some (set_unit_ids [unit_id] subdomain, [])
  | DART_LOCALITY_SCOPE_UNDEFINED => Some (subdomain, [])
  end.

(** [dart__base__locality__create_subdomains].  The recursion descends one
    scope per call; [depth] bounds the number of nested calls.  The result
    is the return code, the domain with its subtree, and the writes to the
    unit locality map; [None] stands for a run that does not return
    normally (undefined behaviour, the abort of [DART_ASSERT_RETURNS], or
    more than [depth] nested calls).  The allocation of a positive number
    of cells is taken to succeed; a negative count converts to a size that
    no allocation can satisfy, so that [malloc] returns [NULL], and the
    loop is not entered. *)
Fixpoint create_subdomains_rec (depth : nat)
  (host_topology : dart_host_topology_t) (domain : dart_domain_locality_t)
  : option (dart_ret_t * dart_domain_locality_t * list (Z * string)) :=
  match depth with
  | O => None
  | S depth' =>
      match subdomain_layout host_topology domain with
      | None => None
      | Some None => Some (DART_ERR_INVAL, domain, [])
      | Some (Some (domain, sub_scope)) =>
          if num_domains domain =? 0
          then Some (DART_OK, set_domains None domain, [])
          else if num_domains domain <? 0
          then Some (DART_OK, set_domains None domain, [])
          else
            subs ← mapM (fun rel_idx =>
                           match init_subdomain host_topology domain sub_scope rel_idx with
                           | None => None
                           | Some (subdomain, w) =>
                               match create_subdomains_rec depth' host_topology subdomain with
                               | Some (DART_OK, subdomain', w') => Some (subdomain', w ++ w')
                               | _ => None
                               end
                           end)
                        (loop_range (num_domains domain));
            Some (DART_OK, set_domains (Some (subs.*1)) domain, concat (subs.*2))
      end
  end.

(** The scopes below [DART_LOCALITY_SCOPE_GLOBAL] are four levels deep and
    the call on a core domain is the fifth. *)
Definition dart__base__locality__create_subdomains
  (domain : dart_domain_locality_t) (host_topology : dart_host_topology_t) :=
  create_subdomains_rec 6 host_topology domain.

(** The root domain as [dart__base__locality__init] sets it up before it
    calls [create_subdomains]; the other fields of the static variable are
    zero. *)
Definition domain_root_init (hw : dart_hwinfo_t) (hostname : string)
  (size : Z) (num_nodes num_modules : Z) : dart_domain_locality_t :=
  mk_domain "." (strncpy hostname DART_LOCALITY_HOST_MAX_SIZE)
    DART_LOCALITY_SCOPE_GLOBAL 0 0 0 0 None
    (set_hw_num_modules (cast_int num_modules) hw)
    (cast_int num_nodes) (cast_int size) (loop_range size).

End Build.

(** ** Lookup by tag *)

(** The loop of [dart__base__locality__domain].  [dot_begin] is the rest
    of the tag from the current separator ([None] for [NULL]); each round
    consumes at least one character, [fuel] bounds the rounds.  The result
    is the return code and the pointer stored in [*locality]; [None] is
    undefined behaviour (a read through a pointer outside the tree). *)
Fixpoint domain_loop (fuel : nat) (root : dart_domain_locality_t)
  (domain : dptr) (dot_begin : option string) : option (dart_ret_t * option dptr) :=
  match dot_begin with
  | Some (String _ (String c part' as part_begin)) =>
      match fuel with
      | O => None
      | S fuel' =>
          let '(tag_part, dot_end) := strtol part_begin in
          let subdomain_idx := cast_int tag_part in
          match domain with
          | DNull => Some (DART_ERR_INVAL, None)
          | DWild => None
          | DAt path =>
              match domain_at root path with
              | None => None
              | Some d =>
                  if num_domains d <=? subdomain_idx
                  then Some (DART_ERR_INVAL, None)
                  else domain_loop fuel' root (child_ptr path d subdomain_idx)
                                   (Some dot_end)
              end
          end
      end
  | _ => Some (DART_OK, Some domain)
  end.

Definition dart__base__locality__domain (root : dart_domain_locality_t)
  (domain_tag : string) : option (dart_ret_t * option dptr) :=
  domain_loop (S (String.length domain_tag)) root (DAt []) (strchr_dot domain_tag).

(** ** Deletion *)

(** The loop of [domain_delete] over the first [n] cells of the child
    array, [del] being the recursive call; [None] when a cell is read past
    the end of the array. *)
Definition delete_cells
  (del : dart_domain_locality_t
         -> option (dart_ret_t * dart_domain_locality_t * list string))
  : list dart_domain_locality_t -> nat -> option (list string) :=
  fix go (l : list dart_domain_locality_t) (n : nat) {struct l} :=
    match n with
    | O => Some []
    | S n' =>
        match l with
        | [] => None
        | c :: r =>
            match del c with
            | None => None
            | Some (_, _, f1) =>
                match go r n' with
                | None => None
                | Some f2 => Some (f1 ++ f2)%list
                end
            end
        end
    end.

(** [dart__base__locality__domain_delete] on a non-null pointer.  The
    result is the return code, the domain afterwards, and the tags of the
    domains whose child array was released, in order; [None] is undefined
    behaviour (a child cell read past the end of the array).  Inside the
    loop the child count cannot be at or below the index, so the first
    check of the loop never fires; the return code of the recursive call
    is not looked at. *)
Fixpoint domain_delete (domain : dart_domain_locality_t)
  : option (dart_ret_t * dart_domain_locality_t * list string) :=
  let num_child_nodes := num_domains domain in
  let cleared := set_num_domains 0 (set_domains None domain) in
  if num_child_nodes <=? 0 then
    Some (DART_OK, cleared,
          match domains domain with Some _ => [domain_tag domain] | None => [] end)
  else
    match domains domain with
    | None => Some (DART_ERR_INVAL, domain, [])
    | Some cells =>
        match delete_cells domain_delete cells (Z.to_nat num_child_nodes) with
        | None => None
        | Some f => Some (DART_OK, cleared, (f ++ [domain_tag domain])%list)
        end
    end.

(** The public entry point takes a pointer; [None] is [NULL]. *)
Definition dart__base__locality__domain_delete
  (domain : option dart_domain_locality_t)
  : option (dart_ret_t * option dart_domain_locality_t * list string) :=
  match domain with
  | None => Some (DART_OK, None, [])
  | Some d =>
      match domain_delete d with
      | Some (r, d', f) => Some (r, Some d', f)
      | None => None
      end
  end.

(** ** Start-up and shut-down *)

Section Lifecycle.

Variable node_units : dart_host_topology_t -> string -> option (list Z).
Variable module_units : dart_host_topology_t -> string -> option (list Z).
Variable unit_numa_id : Z -> option Z.
Variable DART_LOCALITY_HOST_MAX_SIZE : nat.
Variable uninit : dart_domain_locality_t.

(** [dart__base__locality__init].  [hwinfo] and [size] are what
    [dart_hwinfo] and [dart_size] hand back, [host_topology] is the
    topology that [dart__base__host_topology__create] builds from the host
    names of the units, each [None] when the call does not return
    [DART_OK]; [unit_locality_init] is the return code of
    [dart__base__unit_locality__init]; [hostname] is what [gethostname]
    stores and [num_modules] the module count of the topology.  The
    result is the return code, the root domain and the writes to the unit
    locality map; [None] is the abort of a [DART_ASSERT_RETURNS], or
    undefined behaviour while the tree is built. *)
Definition dart__base__locality__init (hwinfo : option dart_hwinfo_t)
  (hostname : string) (size : option Z) (unit_locality_init : dart_ret_t)
  (host_topology : option dart_host_topology_t) (num_modules : Z)
  : option (dart_ret_t * dart_domain_locality_t * list (Z * string)) :=
  hw ← hwinfo;
  num_units ← size;
  match unit_locality_init with
  | DART_OK =>
      (* the host name of every unit is read from its unit locality *)
      _ ← mapM unit_numa_id (loop_range num_units);
      host_topology ← host_topology;
      let root :=
        domain_root_init DART_LOCALITY_HOST_MAX_SIZE hw hostname num_units
          (topo_num_nodes host_topology) num_modules in
      match dart__base__locality__create_subdomains node_units module_units
              unit_numa_id DART_LOCALITY_HOST_MAX_SIZE uninit root host_topology with
      | Some (DART_OK, root, w) => Some (DART_OK, root, w)
      | _ => None
      end
  | _ => None
  end.

End Lifecycle.

(** [dart__base__locality__finalize] on the root domain;
    [topology_delete] is the return code of
    [dart__base__host_topology__delete], which is called only when the
    deletion of the tree returns [DART_OK]. *)
Definition dart__base__locality__finalize (root : dart_domain_locality_t)
  (topology_delete : dart_ret_t)
  : option (dart_ret_t * dart_domain_locality_t) :=
  match domain_delete root with
  | None => None
  | Some (DART_OK, root, _) => Some (topology_delete, root)
  | Some (ret, root, _) => Some (ret, root)
  end.

(** ** Setting the sub-domains of a node *)

(** The tree after a write through the pointer [DAt path]: the node at
    [path] is replaced by [f] of it.  [None] when [path] is not the
    address of a node. *)
Fixpoint update_at (d : dart_domain_locality_t) (path : list nat)
  (f : dart_domain_locality_t -> dart_domain_locality_t)
  : option dart_domain_locality_t :=
  match path with
  | [] => Some (f d)
  | i :: p =>
      match domains d with
      | Some l =>
          match l !! i with
          | Some c =>
              match update_at c p f with
              | Some c' => Some (set_domains (Some (<[i := c']> l)) d)
              | None => None
              end
          | None => None
          end
      | None => None
      end
  end.

Section SetSubdomains.

(** Whether [malloc(0)] returns [NULL]. *)
Variable malloc_zero_null : bool.

(** The array [malloc(num_subdomains * sizeof(dart_domain_locality_t))]
    once the loop has filled it with [cells]: an allocation of a positive
    count succeeds, a negative count converts to a size no allocation can
    satisfy. *)
Definition malloc_subdomains (num_subdomains : Z)
  (cells : list dart_domain_locality_t)
  : option (list dart_domain_locality_t) :=
  if 0 <? num_subdomains then Some cells
  else if (num_subdomains =? 0) && negb malloc_zero_null then Some []
  else None.

(** [dart__base__locality__set_subdomains] on the tree below [root].
    [subdomains] is the caller's array, apart from the tree.  The result
    is the return code and the tree afterwards; [None] is undefined
    behaviour: a write through a pointer that is not the address of a
    node, or a read past the end of [subdomains]. *)
Definition dart__base__locality__set_subdomains (root : dart_domain_locality_t)
  (domain_tag : string) (subdomains : list dart_domain_locality_t)
  (num_subdomains : Z) : option (dart_ret_t * dart_domain_locality_t) :=
  match dart__base__locality__domain root domain_tag with
  | None => None
  | Some (DART_ERR_INVAL, _) => Some (DART_ERR_INVAL, root)
  | Some (DART_OK, Some (DAt path)) =>
      domain ← domain_at root path;
      let sub_level := level domain + 1 in
      cells ← mapM (fun subdom_idx =>
                      c ← subdomains !! Z.to_nat subdom_idx;
                      Some (set_domains None (set_num_domains 0
                              (set_level sub_level c))))
                   (loop_range num_subdomains);
      root' ← update_at root path (fun domain =>
                 set_domains (malloc_subdomains num_subdomains cells)
                   (set_num_domains num_subdomains domain));
      Some (DART_OK, root')
  | Some (DART_OK, _) => None
  end.

End SetSubdomains.

(** ** Unit locality *)

(** [dart_unit_locality_t], the fields [locality.c] writes. *)
Record dart_unit_locality_t := mk_unit_locality {
  ul_unit       : Z;
  ul_domain_tag : string;
  ul_host       : string;
  ul_hwinfo     : dart_hwinfo_t
}.

Definition set_hw_numa_id v h := mk_hwinfo v (cpu_id h) (num_cores h) (num_modules h) (num_numa h) (min_threads h) (max_threads h) (min_cpu_mhz h) (max_cpu_mhz h).
Definition set_hw_cpu_id v h := mk_hwinfo (numa_id h) v (num_cores h) (num_modules h) (num_numa h) (min_threads h) (max_threads h) (min_cpu_mhz h) (max_cpu_mhz h).
Definition set_hw_min_threads v h := mk_hwinfo (numa_id h) (cpu_id h) (num_cores h) (num_modules h) (num_numa h) v (max_threads h) (min_cpu_mhz h) (max_cpu_mhz h).
Definition set_hw_max_threads v h := mk_hwinfo (numa_id h) (cpu_id h) (num_cores h) (num_modules h) (num_numa h) (min_threads h) v (min_cpu_mhz h) (max_cpu_mhz h).
Definition set_hw_min_cpu_mhz v h := mk_hwinfo (numa_id h) (cpu_id h) (num_cores h) (num_modules h) (num_numa h) (min_threads h) (max_threads h) v (max_cpu_mhz h).
Definition set_hw_max_cpu_mhz v h := mk_hwinfo (numa_id h) (cpu_id h) (num_cores h) (num_modules h) (num_numa h) (min_threads h) (max_threads h) (min_cpu_mhz h) v.

Definition set_ul_unit v l := mk_unit_locality v (ul_domain_tag l) (ul_host l) (ul_hwinfo l).
Definition set_ul_domain_tag v l := mk_unit_locality (ul_unit l) v (ul_host l) (ul_hwinfo l).
Definition set_ul_host v l := mk_unit_locality (ul_unit l) (ul_domain_tag l) v (ul_hwinfo l).
Definition set_ul_hwinfo v l := mk_unit_locality (ul_unit l) (ul_domain_tag l) (ul_host l) v.

Section UnitLocality.

(** Constants of headers and of the build: the undefined unit id, the
    size of the host name buffer, whether [DART__ARCH__IS_MIC] is defined,
    and with [DART_ENABLE_HWLOC] the number of processing units that hwloc
    counts ([None] without hwloc). *)
Variable DART_UNDEFINED_UNIT_ID : Z.
Variable DART_LOCALITY_HOST_MAX_SIZE : nat.
Variable DART__ARCH__IS_MIC : bool.
Variable hwloc_n_cpus : option Z.

(** The pointer argument is [None] for [NULL]. *)
Definition dart__base__locality__unit_locality_init
  (loc : option dart_unit_locality_t)
  : dart_ret_t * option dart_unit_locality_t :=
  match loc with
  | None => (DART_ERR_INVAL, None)
  | Some loc =>
      let loc := set_ul_unit DART_UNDEFINED_UNIT_ID loc in
      let loc := set_ul_domain_tag EmptyString loc in
      let loc := set_ul_host EmptyString loc in
      let loc := set_ul_hwinfo (set_hw_numa_id (-1) (ul_hwinfo loc)) loc in
      let loc := set_ul_hwinfo (set_hw_cpu_id (-1) (ul_hwinfo loc)) loc in
      let loc := set_ul_hwinfo (set_hw_num_cores (-1) (ul_hwinfo loc)) loc in
      let loc := set_ul_hwinfo (set_hw_min_threads (-1) (ul_hwinfo loc)) loc in
      let loc := set_ul_hwinfo (set_hw_max_threads (-1) (ul_hwinfo loc)) loc in
      let loc := set_ul_hwinfo (set_hw_max_cpu_mhz (-1) (ul_hwinfo loc)) loc in
      let loc := set_ul_hwinfo (set_hw_min_cpu_mhz (-1) (ul_hwinfo loc)) loc in
      (DART_OK, Some loc)
  end.

(** [dart__base__locality__local_unit_new].  [myid], [hwinfo] and [dloc]
    are what [dart_myid], [dart_hwinfo] and [dart_domain_locality(".")]
    return.  [None] is undefined behaviour (the division by a core count
    of zero). *)
Definition dart__base__locality__local_unit_new (myid : Z)
  (hwinfo : dart_hwinfo_t) (dloc : dart_domain_locality_t)
  (loc : option dart_unit_locality_t)
  : option (dart_ret_t * option dart_unit_locality_t) :=
  match loc with
  | None => Some (DART_ERR_INVAL, None)
  | Some _ =>
      match dart__base__locality__unit_locality_init loc with
      | (DART_OK, Some loc) =>
          (* assign global domain to unit locality descriptor *)
          let loc := set_ul_domain_tag "." loc in
          let loc := set_ul_unit myid loc in
          let loc := set_ul_hwinfo hwinfo loc in
          let loc := set_ul_hwinfo (set_hw_num_cores 1 (ul_hwinfo loc)) loc in
          let loc :=
            set_ul_host (strncpy (host dloc) DART_LOCALITY_HOST_MAX_SIZE) loc in
          loc ←
            match hwloc_n_cpus with
            | Some n_cpus =>
                if 0 <? n_cpus then
                  if num_cores (Locality.hwinfo dloc) =? 0 then None
                  else
                    let loc :=
                      set_ul_hwinfo (set_hw_min_threads 1 (ul_hwinfo loc)) loc in
                    Some (set_ul_hwinfo
                            (set_hw_max_threads
                               (Z.quot n_cpus (num_cores (Locality.hwinfo dloc)))
                               (ul_hwinfo loc)) loc)
                else Some loc
            | None => Some loc
            end;
          let loc :=
            if DART__ARCH__IS_MIC then
              let hw := ul_hwinfo loc in
              let hw := if numa_id hw <? 0 then set_hw_numa_id 0 hw else hw in
              let hw := if num_cores hw <=? 0 then set_hw_num_cores 1 hw else hw in
              let hw :=
                if (min_cpu_mhz hw <=? 0) || (max_cpu_mhz hw <=? 0)
                then set_hw_max_cpu_mhz 1100 (set_hw_min_cpu_mhz 1100 hw)
                else hw in
              let hw := set_hw_min_threads (cast_int (num_cores hw * 4)) hw in
              let hw := set_hw_max_threads (cast_int (num_cores hw * 4)) hw in
              set_ul_hwinfo hw loc
            else loc in
          let hw := ul_hwinfo loc in
          let hw := if min_threads hw <=? 0 then set_hw_min_threads 1 hw else hw in
          let hw := if max_threads hw <=? 0 then set_hw_max_threads 1 hw else hw in
          let hw := if numa_id hw <? 0 then set_hw_numa_id 0 hw else hw in
          Some (DART_OK, Some (set_ul_hwinfo hw loc))
      | _ => None
      end
  end.

End UnitLocality.

(** ** Vocabulary of the statements about the tree *)

(** A string that does not start with a decimal digit. *)
Definition no_leading_digit (s : string) : Prop :=
  match s with
  | EmptyString => True
  | String c _ => digit_of_ascii c = None
  end.

(** The tag of the node reached by a path from the root. *)
Fixpoint render_path (path : list nat) : string :=
  match path with
  | [] => EmptyString
  | i :: p => String "." (sprintf_d (Z.of_nat i) ++ render_path p)
  end.

(** The tag prefix a domain hands to its sub-domains. *)
Definition tag_base (d : dart_domain_locality_t) : string :=
  if 0 <? level d then domain_tag d else EmptyString.

(** A domain and the scope of its sub-domains, as the first step of
    [create_subdomains] leaves them. *)
Definition laid_out
  (module_units : dart_host_topology_t -> string -> option (list Z))
  (topo : dart_host_topology_t)
  (d1 : dart_domain_locality_t) (sc : dart_locality_scope_t) : Prop :=
  exists d0, subdomain_layout module_units topo d0 = Some (Some (d1, sc)).

(** The child count of a node fits an [int] and is the length of its
    child array. *)
Definition node_ok (x : dart_domain_locality_t) : Prop :=
  num_domains x < 2 ^ 31
  /\ forall l, domains x = Some l -> length l = Z.to_nat (num_domains x).

(** The number of nested calls of [create_subdomains] below a scope. *)
Definition scope_rank (s : dart_locality_scope_t) : nat :=
  match s with
  | DART_LOCALITY_SCOPE_UNDEFINED => 0
  | DART_LOCALITY_SCOPE_CORE => 1
  | DART_LOCALITY_SCOPE_NUMA => 2
  | DART_LOCALITY_SCOPE_MODULE => 3
  | DART_LOCALITY_SCOPE_NODE => 4
  | DART_LOCALITY_SCOPE_GLOBAL => 5
  end.


(** The scope of the domains [k] levels below the global domain. *)
Definition scope_at_depth (k : nat) : dart_locality_scope_t :=
  nth k [DART_LOCALITY_SCOPE_GLOBAL; DART_LOCALITY_SCOPE_NODE;
         DART_LOCALITY_SCOPE_MODULE; DART_LOCALITY_SCOPE_NUMA;
         DART_LOCALITY_SCOPE_CORE] DART_LOCALITY_SCOPE_UNDEFINED.

(** The child count of a node is the number of cells of its child array,
    and a node without a child array has no positive child count. *)
Definition node_tight (x : dart_domain_locality_t) : Prop :=
  num_domains x < 2 ^ 31
  /\ match domains x with
     | None => num_domains x <= 0
     | Some l => length l = Z.to_nat (num_domains x)
     end.

(** Every node of a tree is tight. *)
Definition tree_tight (T : dart_domain_locality_t) : Prop :=
  forall path x, domain_at T path = Some x -> node_tight x.

(** The collaborators return [DART_OK] where the build calls them on a
    host of the topology: [node_units] and [module_units] for the host
    name, [module_units] also for the name as a domain holds it, cut to
    the size of the host buffer, and [dart__base__unit_locality__at] for
    the units of that module. *)
Definition hosts_known
  (node_units module_units : dart_host_topology_t -> string -> option (list Z))
  (unit_numa_id : Z -> option Z)
  (HOST_MAX : nat) (topo : dart_host_topology_t) : Prop :=
  forall h, h ∈ host_names topo ->
    is_Some (node_units topo h) /\ is_Some (module_units topo h)
    /\ exists ids,
         module_units topo (strncpy h HOST_MAX) = Some ids
         /\ forall u, u ∈ ids -> is_Some (unit_numa_id u).

(** What keeps the reads of [create_subdomains] on a domain inside the
    arrays, and its calls of the collaborators successful: the node and
    module counts are at most the number of host names; the relative
    index of a module domain is the index of a host name, and the units
    of its host and their localities are known; the unit count of a NUMA
    domain is an [int] and at most the number of its unit ids, whose
    localities are known. *)
Definition reads_in_range
  (module_units : dart_host_topology_t -> string -> option (list Z))
  (unit_numa_id : Z -> option Z)
  (topo : dart_host_topology_t) (d : dart_domain_locality_t) : Prop :=
  match scope d with
  | DART_LOCALITY_SCOPE_GLOBAL =>
      cast_int (topo_num_nodes topo) <= Z.of_nat (length (host_names topo))
      /\ cast_int (num_modules (hwinfo d)) <= Z.of_nat (length (host_names topo))
  | DART_LOCALITY_SCOPE_NODE =>
      cast_int (num_modules (hwinfo d)) <= Z.of_nat (length (host_names topo))
  | DART_LOCALITY_SCOPE_MODULE =>
      0 <= relative_index d < Z.of_nat (length (host_names topo))
      /\ exists ids,
           module_units topo (host d) = Some ids
           /\ forall u, u ∈ ids -> is_Some (unit_numa_id u)
  | DART_LOCALITY_SCOPE_NUMA =>
      - 2 ^ 31 <= num_units d < 2 ^ 31
      /\ num_units d <= Z.of_nat (length (unit_ids d))
      /\ forall u, u ∈ unit_ids d -> is_Some (unit_numa_id u)
  | _ => True
  end.

(** ** A concrete machine

    Eight units on two hosts, four units per host, two NUMA domains per
    module, unit [u] on NUMA domain [u mod 2]. *)

Definition example_hwinfo : dart_hwinfo_t := mk_hwinfo 0 0 4 1 2 1 1 (-1) (-1).

Definition example_topology : dart_host_topology_t :=
  mk_topology 2 ["h1"; "h2"]%string.

Definition example_units (t : dart_host_topology_t) (h : string)
  : option (list Z) :=
  if String.eqb h "h1" then Some [0; 1; 2; 3]
  else if String.eqb h "h2" then Some [4; 5; 6; 7] else None.

Definition example_numa_id (u : Z) : option Z :=
  if (0 <=? u) && (u <? 8) then Some (u mod 2) else None.

Definition example_uninit : dart_domain_locality_t :=
  mk_domain "?" "?" DART_LOCALITY_SCOPE_UNDEFINED 77 77 77 77 None
    example_hwinfo 77 77 [].

Definition example_root : dart_domain_locality_t :=
  domain_root_init 16 example_hwinfo "h1" 8 2 1.

Definition example_build :=
  dart__base__locality__create_subdomains example_units example_units
    example_numa_id 16 example_uninit example_root example_topology.

Definition example_tree : dart_domain_locality_t :=
  match example_build with
  | Some (_, t, _) => t
  | None => example_root
  end.

(** A domain whose child count is set while its child array is not. *)
Definition example_unspecified : dart_domain_locality_t :=
  set_num_domains 1
    (dart__base__locality__domain_locality_init example_uninit).

(** The writes to the unit locality map while the tree is built. *)
Definition example_writes : list (Z * string) :=
  match example_build with
  | Some (_, _, w) => w
  | None => []
  end.

(** The domain of the tree at a path. *)
Definition example_at (path : list nat) : dart_domain_locality_t :=
  default example_root (domain_at example_tree path).

(** Two sub-domains for a core domain, and a unit locality descriptor
    with arbitrary content. *)
Definition example_subdomains : list dart_domain_locality_t :=
  [set_domain_tag ".1.0.1.0.0" example_uninit;
   set_domain_tag ".1.0.1.0.1" example_uninit].

Definition example_unit_locality : dart_unit_locality_t :=
  mk_unit_locality 77 "?" "?" example_hwinfo.

(** A NUMA domain that counts three units and holds no unit id, and a
    topology of three nodes with one host name. *)
Definition example_numa_without_ids : dart_domain_locality_t :=
  set_scope DART_LOCALITY_SCOPE_NUMA
    (set_num_units 3 (set_unit_ids [] example_root)).

Definition example_short_topology : dart_host_topology_t :=
  mk_topology 3 ["h1"]%string.

End Locality.

(* ====================================================================== *)
(** * Task data dependencies (dependency hash)                              *)
(* ====================================================================== *)

Module Datadeps.

Definition DART_DEPHASH_SIZE : Z := 1024.

(** The dependency kinds; the first constant of the enumeration is the
    one a zeroed element carries. *)
Inductive dart_task_deptype_t :=
| DART_DEP_IN | DART_DEP_OUT | DART_DEP_INOUT | DART_DEP_DIRECT.

(** [dart_gptr_t]; [addr_or_offs] is the 64-bit union of [offset] and
    [addr]. *)
Record dart_gptr_t := mk_gptr {
  unitid : Z; segid : Z; flags : Z; addr_or_offs : Z
}.

Definition DART_GPTR_NULL : dart_gptr_t := mk_gptr 0 0 0 0.

Record dart_task_dep_t := mk_dep {
  type : dart_task_deptype_t; gptr : dart_gptr_t
}.

Record dart_phase_dep_t := mk_phase_dep {
  dep : dart_task_dep_t; dep_phase : Z
}.

Definition IS_OUT_DEP (taskdep : dart_task_dep_t) : bool :=
  match type taskdep with
  | DART_DEP_OUT | DART_DEP_INOUT => true
  | _ => false
  end.

Definition is_in_dep (taskdep : dart_task_dep_t) : bool :=
  match type taskdep with DART_DEP_IN => true | _ => false end.

(** Addresses are integers, [0] is [NULL].  A [taskref] is the union of a
    local task pointer and a remote task handle: one pointer-sized word. *)
Definition NULL : Z := 0.

Record dart_dephash_elem_t := mk_elem {
  next : Z; task : Z; taskdep : dart_task_dep_t; phase : Z
}.

(** The element [memset] to zero. *)
Definition zero_elem : dart_dephash_elem_t :=
  mk_elem NULL NULL (mk_dep DART_DEP_IN DART_GPTR_NULL) 0.

Inductive dart_task_state_t :=
| DART_TASK_CREATED | DART_TASK_READY | DART_TASK_RUNNING
| DART_TASK_FINISHED | DART_TASK_CANCELLED.

Definition is_finished (s : dart_task_state_t) : bool :=
  match s with DART_TASK_FINISHED => true | _ => false end.

(** The fields of [dart_task_t] the unit uses.  [successor] is the task
    list of local successors, newest first. *)
Record dart_task_t := mk_task {
  state : dart_task_state_t;
  task_phase : Z;
  unresolved_deps : Z;
  successor : list Z;
  remote_successor : Z
}.

(** Calls into the remote transport, in the order they are made. *)
Inductive message :=
| remote_datadep (d : dart_task_dep_t) (t : Z)
| remote_direct_taskdep (unit : Z) (local_task remote_task : Z)
| remote_release (unit : Z) (rtask : Z) (d : dart_task_dep_t).

(** The static variables of the unit, the element heap, the tasks, the
    transport calls made so far, and the tasks pushed on thread queues
    (thread, task). *)
Record memory := mk_state {
  heap : gmap Z dart_dephash_elem_t;
  tasks : gmap Z dart_task_t;
  local_deps : Z -> Z;
  freelist_head : Z;
  unhandled_remote_deps : Z;
  sent : list message;
  queued : list (Z * Z)
}.

Definition set_heap v s := mk_state v (tasks s) (local_deps s) (freelist_head s) (unhandled_remote_deps s) (sent s) (queued s).
Definition set_tasks v s := mk_state (heap s) v (local_deps s) (freelist_head s) (unhandled_remote_deps s) (sent s) (queued s).
Definition set_local_deps v s := mk_state (heap s) (tasks s) v (freelist_head s) (unhandled_remote_deps s) (sent s) (queued s).
Definition set_freelist_head v s := mk_state (heap s) (tasks s) (local_deps s) v (unhandled_remote_deps s) (sent s) (queued s).
Definition set_unhandled_remote_deps v s := mk_state (heap s) (tasks s) (local_deps s) (freelist_head s) v (sent s) (queued s).
Definition set_sent v s := mk_state (heap s) (tasks s) (local_deps s) (freelist_head s) (unhandled_remote_deps s) v (queued s).
Definition set_queued v s := mk_state (heap s) (tasks s) (local_deps s) (freelist_head s) (unhandled_remote_deps s) (sent s) v.

Definition set_next v e := mk_elem v (task e) (taskdep e) (phase e).
Definition set_task v e := mk_elem (next e) v (taskdep e) (phase e).
Definition set_taskdep v e := mk_elem (next e) (task e) v (phase e).
Definition set_phase v e := mk_elem (next e) (task e) (taskdep e) v.
Definition set_gptr_unitid v g := mk_gptr v (segid g) (flags g) (addr_or_offs g).
Definition set_gptr_offset v g := mk_gptr (unitid g) (segid g) (flags g) v.
Definition set_dep_gptr v d := mk_dep (type d) v.

Definition set_unresolved_deps v t := mk_task (state t) (task_phase t) v (successor t) (remote_successor t).
Definition set_successor v t := mk_task (state t) (task_phase t) (unresolved_deps t) v (remote_successor t).
Definition set_remote_successor v t := mk_task (state t) (task_phase t) (unresolved_deps t) (successor t) v.
Definition set_state v t := mk_task v (task_phase t) (unresolved_deps t) (successor t) (remote_successor t).

(** The state of the static storage at program start. *)
Definition initial_state : memory :=
  mk_state ∅ ∅ (fun _ => NULL) NULL NULL [] [].

(** ** Execution monad *)

Inductive assertion :=
| assert_task_not_null      (* DART_ASSERT(task.local != NULL) *)
| assert_elem_task_null     (* DART_ASSERT(elem->task.local == NULL) *)
| assert_task_not_present.  (* "Task already present in dependency hashmap!" *)

(** A run finishes with a value and a state, stops at a failed assertion,
    reads or writes through a pointer that is not allocated, or walks a
    list that does not end. *)
Inductive outcome (A : Type) :=
| Done (a : A) (s : memory)
| AssertFailed (a : assertion)
| Fault
| Diverge.
Arguments Done {A} a s.
Arguments AssertFailed {A} a.
Arguments Fault {A}.
Arguments Diverge {A}.

Definition M (A : Type) := memory -> outcome A.

Definition ret {A} (a : A) : M A := fun s => Done a s.

Definition bind {A B} (m : M A) (f : A -> M B) : M B :=
  fun s =>
    match m s with
    | Done a s' => f a s'
    | AssertFailed a => AssertFailed a
    | Fault => Fault
    | Diverge => Diverge
    end.

Notation "x <- m ;; k" := (bind m (fun x => k))
  (at level 100, m at next level, right associativity).
Notation "m ;;; k" := (bind m (fun _ => k))
  (at level 100, right associativity).

Definition get {A} (f : memory -> A) : M A := fun s => Done (f s) s.
Definition modify (f : memory -> memory) : M unit := fun s => Done tt (f s).
Definition fault {A} : M A := fun _ => Fault.
Definition diverge {A} : M A := fun _ => Diverge.
Definition DART_ASSERT (a : assertion) (b : bool) : M unit :=
  fun s => if b then Done tt s else AssertFailed a.

Definition read_elem (p : Z) : M dart_dephash_elem_t :=
  fun s => match heap s !! p with Some e => Done e s | None => Fault end.

Definition write_elem (p : Z) (f : dart_dephash_elem_t -> dart_dephash_elem_t) : M unit :=
  fun s => match heap s !! p with
           | Some e => Done tt (set_heap (<[p := f e]> (heap s)) s)
           | None => Fault
           end.

Definition read_task (p : Z) : M dart_task_t :=
  fun s => match tasks s !! p with Some t => Done t s | None => Fault end.

Definition write_task (p : Z) (f : dart_task_t -> dart_task_t) : M unit :=
  fun s => match tasks s !! p with
           | Some t => Done tt (set_tasks (<[p := f t]> (tasks s)) s)
           | None => Fault
           end.

Definition send (m : message) : M unit :=
  modify (fun s => set_sent (sent s ++ [m]) s).

(** Bound on the number of rounds of a walk over a list of elements: a
    list without a cycle has at most one node per allocated element. *)
Definition walk_bound : M nat := get (fun s => S (size (heap s))).

(** [calloc(1, sizeof(dart_dephash_elem_t))]: a zeroed element at an
    address that is not in use. *)
Definition unused_addr (h : gmap Z dart_dephash_elem_t) : Z :=
  1 + map_fold (fun k _ m => Z.max k m) 0 h.

Definition calloc_elem : M Z :=
  fun s => let p := unused_addr (heap s) in
           Done p (set_heap (<[p := zero_elem]> (heap s)) s).

(** [free(elem)]. *)
Definition free_elem (p : Z) : M unit :=
  fun s => match heap s !! p with
           | Some _ => Done tt (set_heap (delete p (heap s)) s)
           | None => Fault
           end.

(** [DART_INC32_AND_FETCH] and [DART_DEC32_AND_FETCH] on a task's
    [unresolved_deps]. *)
Definition inc_unresolved_deps (t : Z) : M Z :=
  tk <- read_task t ;;
  let v := cast_int (unresolved_deps tk + 1) in
  write_task t (set_unresolved_deps v) ;;; ret v.

Definition dec_unresolved_deps (t : Z) : M Z :=
  tk <- read_task t ;;
  let v := cast_int (unresolved_deps tk - 1) in
  write_task t (set_unresolved_deps v) ;;; ret v.

(** ** The hash *)

Definition hash_gptr (g : dart_gptr_t) : Z :=
  let offset := cast_u64 (addr_or_offs g) in
  let offset := Z.shiftr offset 3 in
  cast_int
    (Z.lxor (Z.lxor (Z.lxor offset (Z.shiftr offset 7)) (Z.shiftr offset 11))
            (Z.shiftr offset 17)
     mod DART_DEPHASH_SIZE).


(** ** Intrusive stacks *)

(** A variable holding the head of a list: a static variable, a cell of
    [local_deps], or a task's [remote_successor]. *)
Record lvalue := mk_lvalue { load : M Z; store : Z -> M unit }.

Definition lv_freelist_head : lvalue :=
  mk_lvalue (get freelist_head) (fun v => modify (set_freelist_head v)).

Definition lv_unhandled_remote_deps : lvalue :=
  mk_lvalue (get unhandled_remote_deps)
            (fun v => modify (set_unhandled_remote_deps v)).

Definition lv_local_deps (slot : Z) : lvalue :=
  mk_lvalue (get (fun s => local_deps s slot))
            (fun v => modify (fun s =>
               set_local_deps (fun i => if i =? slot then v else local_deps s i) s)).

Definition lv_remote_successor (t : Z) : lvalue :=
  mk_lvalue (tk <- read_task t ;; ret (remote_successor tk))
            (fun v => write_task t (set_remote_successor v)).

(** Modelled from the spec: the macros [DART_STACK_PUSH] and
    [DART_STACK_POP] come from a header that is not part of the sources at
    hand; the lists are intrusive singly-linked stacks, pushed and popped
    at the head. *)
Definition DART_STACK_PUSH (head : lvalue) (elem : Z) : M unit :=
  h <- load head ;;
  write_elem elem (set_next h) ;;;
  store head elem.

Definition DART_STACK_POP (head : lvalue) : M Z :=
  elem <- load head ;;
  if elem =? NULL then ret elem
  else
    e <- read_elem elem ;;
    store head (next e) ;;;
    write_elem elem (set_next NULL) ;;;
    ret elem.

Fixpoint for_each {A} (l : list A) (body : A -> M unit) : M unit :=
  match l with
  | [] => ret tt
  | x :: l' => body x ;;; for_each l' body
  end.

Definition loop_range (n : Z) : list Z := map Z.of_nat (seq 0 (Z.to_nat n)).

(** ** Allocation and recycling of elements *)

Definition dephash_allocate_elem (d : dart_task_dep_t) (t : Z) : M Z :=
  fh <- get freelist_head ;;
  elem <- (if fh =? NULL then ret NULL
           else
             fh' <- get freelist_head ;;
             if fh' =? NULL then ret NULL else DART_STACK_POP lv_freelist_head) ;;
  elem <- (if elem =? NULL then calloc_elem else ret elem) ;;
  DART_ASSERT assert_task_not_null (negb (t =? NULL)) ;;;
  e <- read_elem elem ;;
  DART_ASSERT assert_elem_task_null (task e =? NULL) ;;;
  write_elem elem (set_task t) ;;;
  write_elem elem (set_taskdep d) ;;;
  ret elem.

Definition dephash_recycle_elem (elem : Z) : M unit :=
  if elem =? NULL then ret tt
  else
    write_elem elem (fun _ => zero_elem) ;;;
    DART_STACK_PUSH lv_freelist_head elem.

Section Unit.

(** The id of the calling unit ([dart_myid]) and the resolution of a
    global pointer to its absolute offset ([dart_gptr_getoffset]). *)
Variable myid : Z.
Variable dart_gptr_getoffset : dart_gptr_t -> Z.

Definition dephash_add_local (d : dart_task_dep_t) (t : Z) : M dart_ret_t :=
  elem <- dephash_allocate_elem d t ;;
  tk <- read_task t ;;
  write_elem elem (set_phase (task_phase tk)) ;;;
  let slot := hash_gptr (gptr d) in
  DART_STACK_PUSH (lv_local_deps slot) elem ;;;
  ret DART_OK.

(** The loop of [check_unresolved_remote_deps]. *)
Fixpoint check_unresolved_loop (rounds : nat) (t : Z) (d : dart_task_dep_t)
  (elem prev : Z) : M unit :=
  match rounds with
  | O => diverge
  | S rounds' =>
      if elem =? NULL then ret tt
      else
        e <- read_elem elem ;;
        let nxt := next e in
        if addr_or_offs (gptr (taskdep e)) =? addr_or_offs (gptr d) then
          tk <- read_task t ;;
          (if phase e =? task_phase tk then
             (* move the remote request from unhandled into the task *)
             (if prev =? NULL
              then modify (set_unhandled_remote_deps (next e))
              else write_elem prev (set_next (next e))) ;;;
             DART_STACK_PUSH (lv_remote_successor t) elem
           else if phase e <? task_phase tk then
             send (remote_direct_taskdep (unitid (gptr (taskdep e))) t (task e)) ;;;
             inc_unresolved_deps t ;;; ret tt
           else ret tt) ;;;
          check_unresolved_loop rounds' t d nxt prev
        else
          check_unresolved_loop rounds' t d nxt elem
  end.

Definition check_unresolved_remote_deps (t : Z) (d : dart_task_dep_t)
  : M dart_ret_t :=
  head <- get unhandled_remote_deps ;;
  (if IS_OUT_DEP d && negb (head =? NULL) then
     n <- walk_bound ;;
     elem <- get unhandled_remote_deps ;;
     check_unresolved_loop n t d elem NULL
   else ret tt) ;;;
  ret DART_OK.

Fixpoint release_unhandled_loop (rounds : nat) (elem : Z) : M unit :=
  match rounds with
  | O => diverge
  | S rounds' =>
      if elem =? NULL then ret tt
      else
        e <- read_elem elem ;;
        let nxt := next e in
        send (remote_release (unitid (gptr (taskdep e))) (task e) (taskdep e)) ;;;
        dephash_recycle_elem elem ;;;
        release_unhandled_loop rounds' nxt
  end.

Definition dart_tasking_datadeps_release_unhandled_remote : M dart_ret_t :=
  n <- walk_bound ;;
  elem <- get unhandled_remote_deps ;;
  release_unhandled_loop n elem ;;;
  modify (set_unhandled_remote_deps NULL) ;;;
  ret DART_OK.

(** The walk of [handle_task] over the slot of a local dependency. *)
Fixpoint handle_task_walk (rounds : nat) (t : Z) (d : dart_task_dep_t)
  (elem : Z) : M unit :=
  match rounds with
  | O => diverge
  | S rounds' =>
      if elem =? NULL then ret tt
      else
        e <- read_elem elem ;;
        DART_ASSERT assert_task_not_present (negb (task e =? t)) ;;;
        if addr_or_offs (gptr (taskdep e)) =? addr_or_offs (gptr d) then
          ek <- read_task (task e) ;;
          (if negb (is_finished (state ek))
              && (IS_OUT_DEP d || (is_in_dep d && IS_OUT_DEP (taskdep e)))
           then
             inc_unresolved_deps t ;;;
             (* dart_tasking_tasklist_prepend *)
             write_task (task e) (fun k => set_successor (t :: successor k) k)
           else ret tt) ;;;
          if IS_OUT_DEP (taskdep e) then ret tt
          else handle_task_walk rounds' t d (next e)
        else handle_task_walk rounds' t d (next e)
  end.

Definition dart_tasking_datadeps_handle_task (t : Z)
  (deps : list dart_task_dep_t) : M dart_ret_t :=
  for_each deps (fun d0 =>
    (* translate the offset to an absolute address *)
    let d := set_dep_gptr (set_gptr_offset (cast_u64 (dart_gptr_getoffset (gptr d0)))
                                           (gptr d0)) d0 in
    let slot := hash_gptr (gptr d) in
    if negb (unitid (gptr d) =? myid) then
      send (remote_datadep d t)
    else
      n <- walk_bound ;;
      head <- load (lv_local_deps slot) ;;
      handle_task_walk n t d head ;;;
      dephash_add_local d t ;;;
      check_unresolved_remote_deps t d ;;;
      ret tt) ;;;
  ret DART_OK.

(** The walk of [handle_remote_task]: [Some r] when a local writer was
    found and the function returned [r], [None] when the slot holds
    none. *)
Fixpoint handle_remote_walk (rounds : nat) (d : dart_phase_dep_t)
  (remote_task origin : Z) (elem : Z) : M (option dart_ret_t) :=
  match rounds with
  | O => diverge
  | S rounds' =>
      if elem =? NULL then ret None
      else
        e <- read_elem elem ;;
        if (addr_or_offs (gptr (taskdep e)) =? addr_or_offs (gptr (dep d)))
           && IS_OUT_DEP (taskdep e)
        then
          let t := task e in
          tk <- read_task t ;;
          (if negb (is_finished (state tk)) then
             rs <- dephash_allocate_elem (dep d) remote_task ;;
             (* the taskdep's gptr unit is used to store the origin *)
             write_elem rs (fun r => set_taskdep
                              (set_dep_gptr (set_gptr_unitid origin (gptr (taskdep r)))
                                            (taskdep r)) r) ;;;
             write_elem rs (set_phase (dep_phase d)) ;;;
             DART_STACK_PUSH (lv_remote_successor t) rs
           else
             (* the task is already finished: send release immediately *)
             send (remote_release origin remote_task (dep d))) ;;;
          ret (Some DART_OK)
        else handle_remote_walk rounds' d remote_task origin (next e)
  end.

Definition dart_tasking_datadeps_handle_remote_task (d : dart_phase_dep_t)
  (remote_task origin : Z) : M dart_ret_t :=
  if negb (is_in_dep (dep d)) then ret DART_ERR_INVAL
  else
    let slot := hash_gptr (gptr (dep d)) in
    n <- walk_bound ;;
    head <- load (lv_local_deps slot) ;;
    found <- handle_remote_walk n d remote_task origin head ;;
    match found with
    | Some r => ret r
    | None =>
        (* cache this request and resolve it later *)
        rs <- dephash_allocate_elem (dep d) remote_task ;;
        write_elem rs (fun r => set_taskdep
                         (set_dep_gptr (set_gptr_unitid origin (gptr (taskdep r)))
                                       (taskdep r)) r) ;;;
        write_elem rs (set_phase (dep_phase d)) ;;;
        DART_STACK_PUSH lv_unhandled_remote_deps rs ;;;
        ret DART_OK
    end.

Definition dart_tasking_datadeps_handle_remote_direct
  (local_task remote_task origin : Z) : M dart_ret_t :=
  let d := mk_dep DART_DEP_DIRECT (set_gptr_unitid origin DART_GPTR_NULL) in
  rs <- dephash_allocate_elem d remote_task ;;
  DART_STACK_PUSH (lv_remote_successor local_task) rs ;;;
  ret DART_OK.

Definition dart_tasking_datadeps_end_phase (phase : Z) : M dart_ret_t :=
  (* nothing to be done for now *)
  ret DART_OK.

(** The walk of [send_direct_dependencies]; the transport call returns
    [DART_OK]. *)
Fixpoint send_direct_walk (rounds : nat) (remotedep : dart_dephash_elem_t)
  (elem : Z) : M unit :=
  match rounds with
  | O => diverge
  | S rounds' =>
      if elem =? NULL then ret tt
      else
        e <- read_elem elem ;;
        ek <- read_task (task e) ;;
        if unresolved_deps ek =? 0 then ret tt
        else
          (if (addr_or_offs (gptr (taskdep e))
                 =? addr_or_offs (gptr (taskdep remotedep)))
              && IS_OUT_DEP (taskdep e)
           then
             send (remote_direct_taskdep (unitid (gptr (taskdep remotedep)))
                                         (task e) (task remotedep)) ;;;
             inc_unresolved_deps (task e) ;;; ret tt
           else ret tt) ;;;
          send_direct_walk rounds' remotedep (next e)
  end.

Definition send_direct_dependencies (remotedep : Z) : M dart_ret_t :=
  r <- read_elem remotedep ;;
  match type (taskdep r) with
  | DART_DEP_DIRECT => ret DART_OK
  | _ =>
      let slot := hash_gptr (gptr (taskdep r)) in
      n <- walk_bound ;;
      head <- load (lv_local_deps slot) ;;
      send_direct_walk n r head ;;;
      ret DART_OK
  end.

Fixpoint release_remote_loop (rounds : nat) (rs : Z) : M unit :=
  match rounds with
  | O => diverge
  | S rounds' =>
      if rs =? NULL then ret tt
      else
        let tmp := rs in
        e <- read_elem tmp ;;
        let rs := next e in
        send_direct_dependencies tmp ;;;
        e <- read_elem tmp ;;
        send (remote_release (unitid (gptr (taskdep e))) (task e) (taskdep e)) ;;;
        dephash_recycle_elem tmp ;;;
        release_remote_loop rounds' rs
  end.

Definition release_remote_dependencies (t : Z) : M dart_ret_t :=
  n <- walk_bound ;;
  rs <- load (lv_remote_successor t) ;;
  release_remote_loop n rs ;;;
  store (lv_remote_successor t) NULL ;;;
  ret DART_OK.

(** The task list cells are released as the loop goes; the field
    [successor] itself is left as it was. *)
Definition dart_tasking_datadeps_release_local_task (thread t : Z)
  : M dart_ret_t :=
  release_remote_dependencies t ;;;
  tk <- read_task t ;;
  for_each (successor tk) (fun succ =>
    v <- dec_unresolved_deps succ ;;
    if v <? 0 then ret tt
    else if v =? 0 then modify (fun s => set_queued (queued s ++ [(thread, succ)]) s)
    else ret tt) ;;;
  ret DART_OK.

Fixpoint recycle_chain (rounds : nat) (elem : Z) : M unit :=
  match rounds with
  | O => diverge
  | S rounds' =>
      if elem =? NULL then ret tt
      else
        e <- read_elem elem ;;
        let tmp := next e in
        dephash_recycle_elem elem ;;;
        recycle_chain rounds' tmp
  end.

Definition dart_tasking_datadeps_reset : M dart_ret_t :=
  for_each (loop_range DART_DEPHASH_SIZE) (fun i =>
    n <- walk_bound ;;
    elem <- load (lv_local_deps i) ;;
    recycle_chain n elem) ;;;
  modify (set_local_deps (fun _ => NULL)) ;;;
  ret DART_OK.

Definition dart_tasking_datadeps_init : M dart_ret_t :=
  modify (set_local_deps (fun _ => NULL)) ;;;
  ret DART_OK.

Fixpoint free_chain (rounds : nat) (elem : Z) : M unit :=
  match rounds with
  | O => diverge
  | S rounds' =>
      if elem =? NULL then ret tt
      else
        e <- read_elem elem ;;
        let tmp := next e in
        free_elem elem ;;;
        free_chain rounds' tmp
  end.

Definition dart_tasking_datadeps_fini : M dart_ret_t :=
  dart_tasking_datadeps_reset ;;;
  n <- walk_bound ;;
  elem <- get freelist_head ;;
  free_chain n elem ;;;
  modify (set_freelist_head NULL) ;;;
  ret DART_OK.

End Unit.

(** ** Lists in the heap *)

(** [is_list h p l]: the [next] links from [p] visit the addresses [l], in
    order, and end at [NULL]. *)
Fixpoint is_list (h : gmap Z dart_dephash_elem_t) (p : Z) (l : list Z) : Prop :=
  match l with
  | [] => p = NULL
  | x :: l' => p = x /\ x <> NULL /\ exists e, h !! x = Some e /\ is_list h (next e) l'
  end.

(** The addresses reached from [p], for at most [n] links. *)
Fixpoint list_of (n : nat) (h : gmap Z dart_dephash_elem_t) (p : Z) : list Z :=
  match n with
  | O => []
  | S n' =>
      if p =? NULL then []
      else match h !! p with
           | Some e => p :: list_of n' h (next e)
           | None => [p]
           end
  end.

(** The release a unit sends for the element at [x]. *)
Definition release_of (h : gmap Z dart_dephash_elem_t) (x : Z) : message :=
  let e := default zero_elem (h !! x) in
  remote_release (unitid (gptr (taskdep e))) (task e) (taskdep e).

(** All fields of an element other than the link are zero. *)
Definition zeroed (e : dart_dephash_elem_t) : Prop :=
  task e = NULL /\ taskdep e = taskdep zero_elem /\ phase e = 0.

(** ** Ownership of elements

    Every list of the unit has a head: the free list, the unhandled
    list, the slots, and the remote successors of each task.  An element
    in use belongs to one of them. *)
Inductive owner :=
| own_free | own_unhandled | own_slot (i : Z) | own_task (t : Z).

#[global] Instance owner_eq_dec : EqDecision owner.
Proof. solve_decision. Defined.

(** The head of the list of an owner. *)
Definition heads (s : memory) (o : owner) : Z :=
  match o with
  | own_free => freelist_head s
  | own_unhandled => unhandled_remote_deps s
  | own_slot i => local_deps s i
  | own_task t =>
      match tasks s !! t with
      | Some tk => remote_successor tk
      | None => NULL
      end
  end.

(** The list from [p] is made of elements of owner [o]; the elements of
    the free list are zeroed. *)
Definition chain (h : gmap Z dart_dephash_elem_t) (own : Z -> option owner)
  (o : owner) (p : Z) : Prop :=
  exists l, is_list h p l
            /\ forall x, x ∈ l ->
                 own x = Some o
                 /\ (o = own_free -> exists e, h !! x = Some e /\ zeroed e).

(** The lists are well formed and disjoint: [own] names the list of each
    element in use, and only allocated addresses are in use. *)
Definition inv_at (own : Z -> option owner) (h : gmap Z dart_dephash_elem_t)
  (hd : owner -> Z) : Prop :=
  (forall o, chain h own o (hd o))
  /\ (forall x, is_Some (own x) -> is_Some (h !! x)).

Definition inv (s : memory) : Prop :=
  exists own, inv_at own (heap s) (heads s).

(** The free list holds zeroed elements only. *)
Definition free_list_zeroed (s : memory) : Prop :=
  exists l, is_list (heap s) (freelist_head s) l
            /\ forall x, x ∈ l -> exists e, heap s !! x = Some e /\ zeroed e.

(** A run from [s] does not stop at the assertion of
    [dephash_allocate_elem] on the element it takes, and a run that
    finishes does so in [Q]. *)
Definition wp {A} (m : M A) (Q : A -> memory -> Prop) (s : memory) : Prop :=
  match m s with
  | Done a s' => Q a s'
  | AssertFailed a => a <> assert_elem_task_null
  | Fault | Diverge => True
  end.

(** A task as the scheduler sets it up. *)
Definition new_task (ph : Z) : dart_task_t :=
  mk_task DART_TASK_CREATED ph 0 [] NULL.

(** ** The unit and its environment

    The entry points of the unit with their arguments, and what the
    scheduler does to a task: it sets up the task at an address, with no
    remote successor, and it changes the state, the phase, the count and
    the local successors of a task. *)
Inductive op :=
| op_task_new (t : Z) (ph : Z)
| op_task_update (t : Z) (st : dart_task_state_t) (ph : Z) (n : Z) (succ : list Z)
| op_init
| op_reset
| op_fini
| op_handle_task (t : Z) (deps : list dart_task_dep_t)
| op_handle_remote_task (d : dart_phase_dep_t) (remote_task origin : Z)
| op_handle_remote_direct (local_task remote_task origin : Z)
| op_release_local_task (thread t : Z)
| op_release_unhandled_remote
| op_end_phase (ph : Z).

Definition run_op (myid : Z) (getoffset : dart_gptr_t -> Z) (o : op) : M unit :=
  match o with
  | op_task_new t ph =>
      modify (fun s => set_tasks (<[t := new_task ph]> (tasks s)) s)
  | op_task_update t st ph n succ =>
      write_task t (fun tk => mk_task st ph n succ (remote_successor tk))
  | op_init => dart_tasking_datadeps_init ;;; ret tt
  | op_reset => dart_tasking_datadeps_reset ;;; ret tt
  | op_fini => dart_tasking_datadeps_fini ;;; ret tt
  | op_handle_task t deps =>
      dart_tasking_datadeps_handle_task myid getoffset t deps ;;; ret tt
  | op_handle_remote_task d remote_task origin =>
      dart_tasking_datadeps_handle_remote_task d remote_task origin ;;; ret tt
  | op_handle_remote_direct local_task remote_task origin =>
      dart_tasking_datadeps_handle_remote_direct local_task remote_task origin ;;;
      ret tt
  | op_release_local_task thread t =>
      dart_tasking_datadeps_release_local_task thread t ;;; ret tt
  | op_release_unhandled_remote =>
      dart_tasking_datadeps_release_unhandled_remote ;;; ret tt
  | op_end_phase ph => dart_tasking_datadeps_end_phase ph ;;; ret tt
  end.

Definition run_ops (myid : Z) (getoffset : dart_gptr_t -> Z) (ops : list op)
  : M unit :=
  for_each ops (run_op myid getoffset).

(** ** Vocabulary of the proofs about the lists *)

(** [p] is allocated and in no list. *)
Definition unowned (p : Z) (s : memory) : Prop :=
  exists own, inv_at own (heap s) (heads s)
              /\ own p = None /\ p <> NULL /\ is_Some (heap s !! p).

(** The heap and the heads are the same in both memories. *)
Definition same_lists (s s' : memory) : Prop :=
  heap s' = heap s /\ forall o, heads s' o = heads s o.

(** The invariant holds of the memory where the head of [o] is taken to be
    the cursor [c], and the heads in [S] are taken to be [NULL]. *)
Definition LI (S : owner -> Prop) (o : owner) (c : Z) (s : memory) : Prop :=
  exists own hd,
    inv_at own (heap s) hd /\ hd o = c
    /\ forall o', o' <> o -> hd o' = heads s o' \/ (S o' /\ hd o' = NULL).

(** The state of the sweep: the unhandled list is [A ++ K ++ R], the
    cursor is at [R], [prev] is the last element of [A], and [K] are the
    elements the sweep has left in place since it last advanced [prev]. *)
Definition CU (s : memory) (elem prev : Z) : Prop :=
  exists own A K R,
    inv_at own (heap s) (heads s)
    /\ is_list (heap s) (unhandled_remote_deps s) (A ++ K ++ R)
    /\ is_list (heap s) elem R
    /\ prev = default NULL (list.last A).

(** The slots below [k] are done. *)
Definition slots_done (k : Z) (o : owner) : Prop :=
  exists j, o = own_slot j /\ 0 <= j < k.


(** ** Vocabulary of the statements about single calls *)

(** A run that finishes does so in [Q]. *)
Definition post {A} (m : M A) (Q : A -> memory -> Prop) (s : memory) : Prop :=
  forall a s', m s = Done a s' -> Q a s'.

(** The slots are the same and every element is still allocated, with the
    task it had. *)
Definition tasks_kept (s s' : memory) : Prop :=
  local_deps s' = local_deps s
  /\ forall p e, heap s !! p = Some e ->
       exists e', heap s' !! p = Some e' /\ task e' = task e.

(** A call keeps the slots and the tasks of the elements. *)
Definition keeps_tasks {A} (m : M A) : Prop :=
  forall s, post m (fun _ s' => tasks_kept s s') s.

(** A dependency with the absolute offset of its global pointer, as
    [handle_task] translates it. *)
Definition absolute (getoffset : dart_gptr_t -> Z) (d : dart_task_dep_t)
  : dart_task_dep_t :=
  set_dep_gptr (set_gptr_offset (cast_u64 (getoffset (gptr d))) (gptr d)) d.

(** The count of a task after one of its dependencies is released, and
    whether the task is then ready to run. *)
Definition released (tk : dart_task_t) : dart_task_t :=
  set_unresolved_deps (cast_int (unresolved_deps tk - 1)) tk.

Definition ready (s : memory) (x : Z) : bool :=
  match tasks s !! x with
  | Some tk => unresolved_deps (released tk) =? 0
  | None => false
  end.

(** ** Vocabulary of the statements about remote requests *)

(** The element is a write (OUT or INOUT) of the address. *)
Definition writes_to (addr : Z) (e : dart_dephash_elem_t) : bool :=
  (addr_or_offs (gptr (taskdep e)) =? addr) && IS_OUT_DEP (taskdep e).

(** The element that [handle_remote_task] stores for a request: the
    remote task, the dependency with the origin in the unit of its global
    pointer, and the phase of the request. *)
Definition remote_elem (d : dart_phase_dep_t) (remote_task origin nxt : Z)
  : dart_dephash_elem_t :=
  mk_elem nxt remote_task
    (set_dep_gptr (set_gptr_unitid origin (gptr (dep d))) (dep d)) (dep_phase d).

(** The slot of a request holds no write of its address. *)
Definition no_local_writer (s : memory) (d : dart_phase_dep_t) : Prop :=
  exists l,
    is_list (heap s) (local_deps s (hash_gptr (gptr (dep d)))) l
    /\ forall x e, x ∈ l -> heap s !! x = Some e ->
         writes_to (addr_or_offs (gptr (dep d))) e = false.

(** The first write of the address of a request in its slot is the
    element [w]. *)
Definition first_local_writer (s : memory) (d : dart_phase_dep_t) (w : Z)
  (ew : dart_dephash_elem_t) : Prop :=
  exists l1 l2,
    is_list (heap s) (local_deps s (hash_gptr (gptr (dep d)))) (l1 ++ w :: l2)
    /\ (forall x e, x ∈ l1 -> heap s !! x = Some e ->
          writes_to (addr_or_offs (gptr (dep d))) e = false)
    /\ heap s !! w = Some ew
    /\ writes_to (addr_or_offs (gptr (dep d))) ew = true.

(** ** Vocabulary of the statements about local dependencies *)

(** The task is allocated and not finished. *)
Definition unfinished (s : memory) (q : Z) : bool :=
  match tasks s !! q with
  | Some k => negb (is_finished (state k))
  | None => false
  end.

(** The elements of a slot that the walk of [handle_task] looks at: all up
    to the first write of the address, that write included. *)
Fixpoint visited (h : gmap Z dart_dephash_elem_t) (addr : Z) (l : list Z)
  : list Z :=
  match l with
  | [] => []
  | x :: l' =>
      match h !! x with
      | Some e => if writes_to addr e then [x] else x :: visited h addr l'
      | None => []
      end
  end.

(** The element makes a new dependency [d] wait: it is on the same
    address, its task is not finished, and [d] is a write, or [d] is a
    read and the element is a write. *)
Definition must_wait (s : memory) (d : dart_task_dep_t) (x : Z) : bool :=
  match heap s !! x with
  | Some e =>
      (addr_or_offs (gptr (taskdep e)) =? addr_or_offs (gptr d))
      && unfinished s (task e)
      && (IS_OUT_DEP d || (is_in_dep d && IS_OUT_DEP (taskdep e)))
  | None => false
  end.

(** The tasks a new dependency [d] waits for, given the list of its
    slot. *)
Definition predecessors (s : memory) (d : dart_task_dep_t) (l : list Z)
  : list Z :=
  map (fun x => task (default zero_elem (heap s !! x)))
      (List.filter (must_wait s d)
         (visited (heap s) (addr_or_offs (gptr d)) l)).

(** The task with [n] more entries for [t] at the head of its local
    successors. *)
Definition add_successors (t : Z) (n : nat) (k : dart_task_t) : dart_task_t :=
  set_successor (repeat t n ++ successor k) k.

(** The count of a task after [n] increments. *)
Definition add_unresolved (n : nat) (k : dart_task_t) : dart_task_t :=
  set_unresolved_deps
    (Nat.iter n (fun u => cast_int (u + 1)) (unresolved_deps k)) k.

(** ** Vocabulary of the statement about the sweep of the parked requests *)

(** The parked request [x] is on the address of the dependency. *)
Definition on_address (h : gmap Z dart_dephash_elem_t) (d : dart_task_dep_t)
  (x : Z) : bool :=
  match h !! x with
  | Some e => addr_or_offs (gptr (taskdep e)) =? addr_or_offs (gptr d)
  | None => false
  end.

Definition phase_of (h : gmap Z dart_dephash_elem_t) (x : Z) : Z :=
  phase (default zero_elem (h !! x)).

(** The requests on the address that are of the phase [ph], and those of
    an earlier phase. *)
Definition same_phase (h : gmap Z dart_dephash_elem_t) (d : dart_task_dep_t)
  (ph : Z) (x : Z) : bool :=
  on_address h d x && (phase_of h x =? ph).

Definition earlier_phase (h : gmap Z dart_dephash_elem_t) (d : dart_task_dep_t)
  (ph : Z) (x : Z) : bool :=
  on_address h d x && (phase_of h x <? ph).

(** What the sweep leaves of the list of parked requests.  [pending]
    holds the requests on the address, of another phase, that were met
    since the last request on another address: they stay linked unless a
    request of the phase follows them. *)
Fixpoint left_over (h : gmap Z dart_dephash_elem_t) (d : dart_task_dep_t)
  (ph : Z) (pending l : list Z) : list Z :=
  match l with
  | [] => pending
  | x :: l' =>
      if on_address h d x then
        if phase_of h x =? ph then left_over h d ph [] l'
        else left_over h d ph (pending ++ [x]) l'
      else pending ++ x :: left_over h d ph [] l'
  end.

(** The direct dependency the sweep sends for the parked request [x]. *)
Definition direct_of (h : gmap Z dart_dephash_elem_t) (t x : Z) : message :=
  let e := default zero_elem (h !! x) in
  remote_direct_taskdep (unitid (gptr (taskdep e))) t (task e).

(** Every element of [h] is in [h'], with its task, dependency and
    phase. *)
Definition same_fields (h h' : gmap Z dart_dephash_elem_t) : Prop :=
  forall x e, h !! x = Some e ->
    exists e', h' !! x = Some e'
               /\ task e' = task e /\ taskdep e' = taskdep e /\ phase e' = phase e.

(** ** Vocabulary of the statements about [reset] and [fini] *)

(** The elements of the hash slots [0 .. DART_DEPHASH_SIZE - 1], slot by
    slot, where [Ls i] is the list of slot [i]. *)
Definition slot_elements (Ls : Z -> list Z) : list Z :=
  concat (map Ls (loop_range DART_DEPHASH_SIZE)).

(** ** Vocabulary of the statement about the release of remote successors *)

(** The task of the element at [x]. *)
Definition task_of (h : gmap Z dart_dephash_elem_t) (x : Z) : Z :=
  task (default zero_elem (h !! x)).

(** The task of the element at [x] still has unresolved dependencies. *)
Definition active (s : memory) (x : Z) : bool :=
  match tasks s !! task_of (heap s) x with
  | Some k => negb (unresolved_deps k =? 0)
  | None => false
  end.

(** The elements of a slot up to the first whose task has no unresolved
    dependency. *)
Fixpoint while_active (s : memory) (l : list Z) : list Z :=
  match l with
  | [] => []
  | x :: l' => if active s x then x :: while_active s l' else []
  end.

(** The writes of an address among them. *)
Definition active_writers (s : memory) (addr : Z) (l : list Z) : list Z :=
  List.filter (fun x => writes_to addr (default zero_elem (heap s !! x)))
              (while_active s l).

(** The elements that get a direct dependency when the remote successor
    [r] is released: none for a direct dependency, otherwise the active
    writers of its address in the slot of the address. *)
Definition later_writers (s : memory) (Ls : Z -> list Z) (r : Z) : list Z :=
  let er := default zero_elem (heap s !! r) in
  match type (taskdep er) with
  | DART_DEP_DIRECT => []
  | _ => active_writers s (addr_or_offs (gptr (taskdep er)))
           (Ls (hash_gptr (gptr (taskdep er))))
  end.

(** The transport calls for the remote successor [r]: the direct
    dependencies, then the release. *)
Definition release_messages (s : memory) (Ls : Z -> list Z) (r : Z)
  : list message :=
  let er := default zero_elem (heap s !! r) in
  map (fun x => remote_direct_taskdep (unitid (gptr (taskdep er)))
                  (task_of (heap s) x) (task er))
      (later_writers s Ls r)
  ++ [release_of (heap s) r].

(** The task with [n] more unresolved dependencies. *)
Definition add_count (n : nat) (k : dart_task_t) : dart_task_t :=
  set_unresolved_deps (unresolved_deps k + Z.of_nat n) k.

(** The number of direct dependencies that the release of the remote
    successors [R] gives to the task [q]. *)
Definition direct_dependencies (s : memory) (Ls : Z -> list Z) (R : list Z)
  (q : Z) : nat :=
  count_occ Z.eq_dec
    (map (task_of (heap s)) (concat (map (later_writers s Ls) R))) q.

(** The lists of the slots in two of the example runs: where T is
    registered, and where U is registered after T. *)
Definition slots_of_writer (i : Z) : list Z := if i =? 8 then [1] else [].

Definition slots_of_writers (i : Z) : list Z := if i =? 8 then [3; 1] else [].

(** ** Example runs *)

(** Unit 0, global pointers that already hold absolute offsets. *)
Definition example_myid : Z := 0.
Definition example_getoffset (g : dart_gptr_t) : Z := addr_or_offs g.

Definition local_dep (k : dart_task_deptype_t) (addr : Z) : dart_task_dep_t :=
  mk_dep k (mk_gptr example_myid 0 0 addr).

(** Three tasks A, B, C of phase 0 at the addresses 101, 102, 103. *)
Definition task_A : Z := 101.
Definition task_B : Z := 102.
Definition task_C : Z := 103.

Definition three_tasks : memory :=
  set_tasks (<[task_A := new_task 0]> (<[task_B := new_task 0]>
              (<[task_C := new_task 0]> ∅))) initial_state.

Definition register_A_B_C : M dart_ret_t :=
  dart_tasking_datadeps_handle_task example_myid example_getoffset task_A
    [local_dep DART_DEP_OUT 32768] ;;;
  dart_tasking_datadeps_handle_task example_myid example_getoffset task_B
    [local_dep DART_DEP_IN 32768] ;;;
  dart_tasking_datadeps_handle_task example_myid example_getoffset task_C
    [local_dep DART_DEP_OUT 32768].

(** Two remote read requests for address 0x2000 from unit 1, the first of
    phase 4 and the second of phase 2, reach the unit before a local
    writer; then a task of phase 4 registers a write of that address. *)
Definition task_T : Z := 201.

Definition one_task : memory :=
  set_tasks (<[task_T := new_task 4]> ∅) initial_state.

Definition remote_in (addr ph : Z) : dart_phase_dep_t :=
  mk_phase_dep (mk_dep DART_DEP_IN (mk_gptr example_myid 0 0 addr)) ph.

Definition two_remote_requests : M dart_ret_t :=
  dart_tasking_datadeps_handle_remote_task (remote_in 8192 4) 9001 1 ;;;
  dart_tasking_datadeps_handle_remote_task (remote_in 8192 2) 9002 1.

Definition requests_then_writer : M dart_ret_t :=
  two_remote_requests ;;;
  dart_tasking_datadeps_handle_task example_myid example_getoffset task_T
    [local_dep DART_DEP_OUT 8192].

(** The memory of the unit once the two requests are parked. *)
Definition parked_requests : memory :=
  match two_remote_requests one_task with
  | Done _ s => s
  | _ => one_task
  end.

(** The two parked requests are released at the end of the phase. *)
Definition release_requests : list op :=
  [op_task_new task_T 4;
   op_handle_remote_task (remote_in 8192 4) 9001 1;
   op_handle_remote_task (remote_in 8192 2) 9002 1;
   op_release_unhandled_remote].

Definition released_requests : memory :=
  match run_ops example_myid example_getoffset release_requests initial_state with
  | Done _ s => s
  | _ => initial_state
  end.

(** The memory once A, B and C are registered. *)
Definition registered_A_B_C : memory :=
  match register_A_B_C three_tasks with
  | Done _ s => s
  | _ => three_tasks
  end.

(** The unit sets up task T; two requests are parked; a writer of the
    address is registered. *)
Definition set_up_T : list op := [op_task_new task_T 4].

Definition park_requests : list op :=
  [op_task_new task_T 4;
   op_handle_remote_task (remote_in 8192 4) 9001 1;
   op_handle_remote_task (remote_in 8192 2) 9002 1].

Definition register_writer : list op :=
  [op_task_new task_T 4;
   op_handle_task task_T [local_dep DART_DEP_OUT 8192]].

Definition writer_registered : memory :=
  match run_ops example_myid example_getoffset register_writer initial_state with
  | Done _ s => s
  | _ => initial_state
  end.

(** The unit sets up the tasks A and B; A registers a write. *)
Definition register_A : list op :=
  [op_task_new task_A 0; op_task_new task_B 0;
   op_handle_task task_A [local_dep DART_DEP_OUT 32768]].

Definition A_registered : memory :=
  match run_ops example_myid example_getoffset register_A initial_state with
  | Done _ s => s
  | _ => initial_state
  end.

(** Task T writes an address, a remote unit asks to read it, and a later
    task U writes it again. *)
Definition task_U : Z := 202.

Definition write_read_write : list op :=
  [op_task_new task_T 4;
   op_handle_task task_T [local_dep DART_DEP_OUT 8192];
   op_handle_remote_task (remote_in 8192 4) 9001 1;
   op_task_new task_U 4;
   op_handle_task task_U [local_dep DART_DEP_OUT 8192]].

Definition written_read_written : memory :=
  match run_ops example_myid example_getoffset write_read_write initial_state with
  | Done _ s => s
  | _ => initial_state
  end.

End Datadeps.

(* ====================================================================== *)
(** * Facts about the integer conversions *)

Lemma cast_int_range z : - 2 ^ 31 <= cast_int z < 2 ^ 31.
Proof. unfold cast_int. pose proof (Z.mod_pos_bound (z + 2 ^ 31) (2 ^ 32)). lia. Qed.

Lemma cast_int_id z : - 2 ^ 31 <= z < 2 ^ 31 -> cast_int z = z.
Proof. intros H. unfold cast_int. rewrite Z.mod_small; lia. Qed.

Lemma cast_int_le z : 0 <= z -> cast_int z <= z.
Proof.
  intros Hz. unfold cast_int.
  pose proof (Z.mod_le (z + 2 ^ 31) (2 ^ 32) ltac:(lia) ltac:(lia)). lia.
Qed.

(* ====================================================================== *)
(** * Facts about the locality tree                                         *)
(* ====================================================================== *)

Module LocalityFacts.
Import Locality.

(** ** Printing and reading decimal numbers *)

Lemma take_digits_no_digit s : no_leading_digit s -> take_digits s = (Decimal.Nil, s).
Proof. destruct s as [|c s]; simpl; [done|]. by intros ->. Qed.

Lemma take_digits_string_of_uint u rest :
  no_leading_digit rest ->
  take_digits (NilEmpty.string_of_uint u ++ rest) = (u, rest).
Proof.
  intros Hr. induction u; simpl; rewrite ?IHu; auto using take_digits_no_digit.
Qed.

Lemma append_String c s r : (String c s ++ r)%string = String c (s ++ r).
Proof. reflexivity. Qed.

Lemma strtol_string_of_uint u rest :
  u <> Decimal.Nil -> no_leading_digit rest ->
  strtol (NilEmpty.string_of_uint u ++ rest)
  = (Z.min LONG_MAX (Z.of_N (N.of_uint u)), rest).
Proof.
  intros Hu Hr. unfold strtol.
  destruct u; [done|..]; cbn [NilEmpty.string_of_uint]; rewrite append_String;
    cbn [skip_spaces];
    (change (isspace _) with false; cbv iota);
    cbn [take_digits]; (change (digit_of_ascii _) with (Some Decimal.D0) ||
      change (digit_of_ascii _) with (Some Decimal.D1) ||
      change (digit_of_ascii _) with (Some Decimal.D2) ||
      change (digit_of_ascii _) with (Some Decimal.D3) ||
      change (digit_of_ascii _) with (Some Decimal.D4) ||
      change (digit_of_ascii _) with (Some Decimal.D5) ||
      change (digit_of_ascii _) with (Some Decimal.D6) ||
      change (digit_of_ascii _) with (Some Decimal.D7) ||
      change (digit_of_ascii _) with (Some Decimal.D8) ||
      change (digit_of_ascii _) with (Some Decimal.D9)); cbv iota;
    rewrite take_digits_string_of_uint by done; reflexivity.
Qed.

Lemma strtol_sprintf_d z rest :
  0 <= z <= LONG_MAX -> no_leading_digit rest ->
  strtol (sprintf_d z ++ rest) = (z, rest).
Proof.
  intros Hz Hr.
  assert (sprintf_d z = NilEmpty.string_of_uint (N.to_uint (Z.to_N z))) as ->.
  { destruct z; try done. lia. }
  rewrite strtol_string_of_uint; [|destruct (Z.to_N z); simpl; [done|apply Unsigned.to_uint_nonnil]|done].
  rewrite DecimalN.Unsigned.of_to, Z2N.id by lia. f_equal. lia.
Qed.

Lemma append_assoc (a b c : string) : ((a ++ b) ++ c = a ++ (b ++ c))%string.
Proof. induction a as [|x a IH]; [done|]. rewrite !append_String. by rewrite IH. Qed.

Lemma append_empty_r (a : string) : (a ++ "" = a)%string.
Proof. induction a as [|x a IH]; [done|]. rewrite append_String. by rewrite IH. Qed.

Lemma length_append (a b : string) :
  String.length (a ++ b) = (String.length a + String.length b)%nat.
Proof. induction a as [|x a IH]; [done|]. rewrite append_String. simpl. by rewrite IH. Qed.

(** ** Paths *)

Lemma render_path_no_digit p : no_leading_digit (render_path p).
Proof. by destruct p. Qed.

Lemma render_path_length p : (length p <= String.length (render_path p))%nat.
Proof. induction p; simpl; [lia|]. rewrite length_append. lia. Qed.


Lemma domain_at_app T pre suf :
  domain_at T (pre ++ suf) = (domain_at T pre) ≫= (fun d => domain_at d suf).
Proof.
  revert T. induction pre as [|i pre IH]; intros T; simpl; [done|].
  destruct (domains T) as [l|]; [|done]. destruct (l !! i); [|done]. apply IH.
Qed.

Lemma domain_at_snoc T pre i x :
  domain_at T (pre ++ [i]) = Some x ->
  exists d l, domain_at T pre = Some d /\ domains d = Some l /\ l !! i = Some x.
Proof.
  rewrite domain_at_app. destruct (domain_at T pre) as [d|]; simpl; [|done].
  destruct (domains d) as [l|] eqn:Ed; [|done]. destruct (l !! i) eqn:E; [|done].
  simpl. intros [= <-]. eauto 10.
Qed.

(** ** The tree built by [create_subdomains] *)

Section BuildFacts.

Variable node_units : dart_host_topology_t -> string -> option (list Z).
Variable module_units : dart_host_topology_t -> string -> option (list Z).
Variable unit_numa_id : Z -> option Z.
Variable HOST_MAX : nat.
Variable uninit : dart_domain_locality_t.
Variable topo : dart_host_topology_t.

Abbreviation layout := (subdomain_layout module_units topo).
Abbreviation init_sub :=
  (init_subdomain node_units module_units unit_numa_id HOST_MAX uninit topo).
Abbreviation laid_out := (Locality.laid_out module_units topo).
Abbreviation rec n :=
  (create_subdomains_rec node_units module_units unit_numa_id HOST_MAX uninit
     n topo).

Lemma loop_range_lookup n i x :
  loop_range n !! i = Some x -> x = Z.of_nat i /\ Z.of_nat i < n.
Proof.
  unfold loop_range. rewrite list_lookup_fmap.
  destruct (seq 0 (Z.to_nat n) !! i) as [k|] eqn:E; [|done].
  apply lookup_seq in E as [-> ?]. simpl. intros [= <-]. lia.
Qed.

Lemma loop_range_length n : length (loop_range n) = Z.to_nat n.
Proof. unfold loop_range. by rewrite length_map, length_seq. Qed.

Lemma array_at_nat {A} (a : list A) (i : nat) : array_at a (Z.of_nat i) = a !! i.
Proof.
  unfold array_at. destruct (Z.ltb_spec (Z.of_nat i) 0); [lia|].
  by rewrite Nat2Z.id.
Qed.

Lemma array_at_Some {A} (a : list A) i x :
  array_at a i = Some x -> 0 <= i /\ a !! Z.to_nat i = Some x.
Proof. unfold array_at. destruct (i <? 0) eqn:E; [done|]. intros H. split; [lia|done]. Qed.

(** The first step of [create_subdomains], scope by scope. *)
Lemma layout_inv d d1 sc :
  layout d = Some (Some (d1, sc)) ->
  match scope d with
  | DART_LOCALITY_SCOPE_UNDEFINED => False
  | DART_LOCALITY_SCOPE_GLOBAL =>
      d1 = set_num_domains (cast_int (topo_num_nodes topo)) d
      /\ sc = DART_LOCALITY_SCOPE_NODE
  | DART_LOCALITY_SCOPE_NODE =>
      d1 = set_num_domains (cast_int (num_modules (hwinfo d))) d
      /\ sc = DART_LOCALITY_SCOPE_MODULE
  | DART_LOCALITY_SCOPE_MODULE =>
      exists h ids,
        array_at (host_names topo) (relative_index d) = Some h
        /\ module_units topo h = Some ids
        /\ d1 = set_num_units (cast_int (Z.of_nat (length ids)))
                  (set_num_domains (cast_int (num_numa (hwinfo d))) d)
        /\ sc = DART_LOCALITY_SCOPE_NUMA
  | DART_LOCALITY_SCOPE_NUMA =>
      d1 = set_num_domains (cast_int (num_units d)) d
      /\ sc = DART_LOCALITY_SCOPE_CORE
  | DART_LOCALITY_SCOPE_CORE =>
      d1 = set_num_domains 0 d /\ sc = DART_LOCALITY_SCOPE_UNDEFINED
  end.
Proof.
  unfold subdomain_layout. destruct (scope d); try (by intros [= <- <-]).
  cbn [relative_index set_num_domains].
  destruct (array_at _ _) as [h|] eqn:Eh; [|done]. cbn [mbind option_bind].
  destruct (module_units topo h) as [ids|] eqn:Ei; [|done].
  cbn [mbind option_bind]. intros [= <- <-]. exists h, ids. done.
Qed.

Lemma layout_fields d d1 sc :
  layout d = Some (Some (d1, sc)) ->
  domain_tag d1 = domain_tag d /\ level d1 = level d /\ scope d1 = scope d
  /\ hwinfo d1 = hwinfo d /\ unit_ids d1 = unit_ids d
  /\ relative_index d1 = relative_index d
  /\ - 2 ^ 31 <= num_domains d1 < 2 ^ 31.
Proof.
  intros H%layout_inv. revert H. destruct (scope d) eqn:Es; [done|..]; intros H.
  3:destruct H as (h & ids & _ & _ & H).
  all: destruct H as [-> ->]; simpl; rewrite ?Es;
    repeat split; try apply cast_int_range; lia.
Qed.

Lemma init_sub_fields d sc i c w0 :
  init_sub d sc i = Some (c, w0) ->
  domain_tag c = (tag_base d ++ String "." (sprintf_d i))%string
  /\ level c = level d + 1
  /\ scope c = sc
  /\ relative_index c = i.
Proof.
  unfold init_subdomain, tag_base,
    dart__base__locality__create_global_subdomain,
    dart__base__locality__create_node_subdomain,
    dart__base__locality__create_module_subdomain,
    dart__base__locality__create_numa_subdomain.
  destruct (scope d); intros H; simplify_option_eq; done.
Qed.

(** One call of the recursion, unfolded. *)
Lemma rec_inv n d T w :
  rec (S n) d = Some (DART_OK, T, w) ->
  exists d1 sc,
    layout d = Some (Some (d1, sc))
    /\ T = set_domains (domains T) d1
    /\ match domains T with
       | None => num_domains d1 <= 0
       | Some l =>
           length l = Z.to_nat (num_domains d1)
           /\ 0 < num_domains d1
           /\ forall i c, l !! i = Some c ->
                Z.of_nat i < num_domains d1
                /\ exists sub w0 w',
                     init_sub d1 sc (Z.of_nat i) = Some (sub, w0)
                     /\ rec n sub = Some (DART_OK, c, w')
       end.
Proof.
  simpl. destruct (layout d) as [[[d1 sc]|]|] eqn:El; [|done..].
  destruct (num_domains d1 =? 0) eqn:En.
  { intros [= <- <-]. exists d1, sc. simpl. split_and!; auto. lia. }
  destruct (num_domains d1 <? 0) eqn:En'.
  { intros [= <- <-]. exists d1, sc. simpl. split_and!; auto. lia. }
  destruct (mapM _ _) as [subs|] eqn:Em; simpl; [|done].
  intros [= <- <-]. exists d1, sc. simpl. split_and!; auto.
  - rewrite length_fmap, <- (length_mapM _ _ _ Em). apply loop_range_length.
  - lia.
  - intros i c Hc. rewrite list_lookup_fmap in Hc.
    destruct (subs !! i) as [[c' w']|] eqn:Es; simplify_eq/=.
    apply mapM_Some in Em.
    destruct (Forall2_lookup_r _ _ _ _ _ Em Es) as (x & Hx & Hf).
    apply loop_range_lookup in Hx as [-> Hlt]. split; [done|].
    destruct (init_sub d1 sc (Z.of_nat i)) as [[sub w0]|] eqn:Ei; [|done].
    destruct (rec n sub) as [[[[] ?] ?]|] eqn:Er; simplify_eq/=. eauto 10.
Qed.

Lemma rec_fields n d T w :
  rec n d = Some (DART_OK, T, w) ->
  domain_tag T = domain_tag d /\ level T = level d /\ scope T = scope d
  /\ hwinfo T = hwinfo d /\ unit_ids T = unit_ids d
  /\ relative_index T = relative_index d
  /\ (scope d <> DART_LOCALITY_SCOPE_MODULE -> num_units T = num_units d)
  /\ - 2 ^ 31 <= num_domains T < 2 ^ 31
  /\ (forall l, domains T = Some l -> length l = Z.to_nat (num_domains T)).
Proof.
  destruct n; [done|]. intros H.
  destruct (rec_inv _ _ _ _ H) as (d1 & sc & Hl & HT & Hk).
  destruct (layout_fields _ _ _ Hl) as (?&?&?&?&?&?&?).
  rewrite HT. simpl. split_and!; try done; try lia.
  - intros Hs. apply layout_inv in Hl. revert Hl.
    destruct (scope d); try done; by intros [-> ->].
  - intros l Hd. rewrite Hd in Hk. by destruct Hk.
Qed.


(** Every node of the built tree is the result of a call of the recursion,
    on the root or on a cell initialised by [init_subdomain]. *)
Lemma built_node n d T w path x :
  rec n d = Some (DART_OK, T, w) ->
  domain_at T path = Some x ->
  exists m dx wx,
    rec m dx = Some (DART_OK, x, wx)
    /\ (path = [] /\ dx = d
        \/ exists pre i d1 sc w0,
             path = pre ++ [i] /\ laid_out d1 sc
             /\ init_sub d1 sc (Z.of_nat i) = Some (dx, w0)).
Proof.
  revert d T w path. induction n as [|n IH]; intros d T w path; [done|].
  intros H Hx. destruct path as [|i p].
  { simpl in Hx. simplify_eq. exists (S n), d, w. auto. }
  simpl in Hx. destruct (domains T) as [l|] eqn:Ed; [|done].
  destruct (l !! i) as [c|] eqn:Ei; [|done].
  destruct (rec_inv _ _ _ _ H) as (d1 & sc & Hl & HT & Hk).
  rewrite Ed in Hk. destruct Hk as (_ & _ & Hk).
  destruct (Hk _ _ Ei) as (_ & sub & w0 & w' & Hsub & Hc).
  destruct (IH _ _ _ _ Hc Hx) as (m & dx & wx & Hr & Ho).
  exists m, dx, wx. split; [done|]. right.
  destruct Ho as [[-> ->]|(pre & j & d1' & sc' & w0' & -> & Hlo & Hdx)].
  - exists [], i, d1, sc, w0. split_and!; [done|by exists d|done].
  - exists (i :: pre), j, d1', sc', w0'. split_and!; done.
Qed.

Lemma built_tags n d T w path x :
  rec n d = Some (DART_OK, T, w) ->
  0 <= level d ->
  domain_at T path = Some x ->
  0 <= level x
  /\ domain_tag x = match path with
                    | [] => domain_tag d
                    | _ => (tag_base d ++ render_path path)%string
                    end.
Proof.
  revert d T w path. induction n as [|n IH]; intros d T w path; [done|].
  intros H Hlev Hx. destruct path as [|i p].
  { simpl in Hx. simplify_eq. destruct (rec_fields _ _ _ _ H) as (?&?&?). split; [lia|done]. }
  simpl in Hx. destruct (domains T) as [l|] eqn:Ed; [|done].
  destruct (l !! i) as [c|] eqn:Ei; [|done].
  destruct (rec_inv _ _ _ _ H) as (d1 & sc & Hl & HT & Hk).
  rewrite Ed in Hk. destruct Hk as (_ & _ & Hk).
  destruct (Hk _ _ Ei) as (_ & sub & w0 & w' & Hsub & Hc).
  destruct (layout_fields _ _ _ Hl) as (Ht1 & Hl1 & _).
  destruct (init_sub_fields _ _ _ _ _ Hsub) as (Hts & Hls & _).
  destruct (IH _ _ _ _ Hc ltac:(lia) Hx) as [Hlx Htx]. split; [done|].
  rewrite Htx. unfold tag_base at 1. rewrite Hls.
  assert (tag_base d1 = tag_base d) as Hb by (unfold tag_base; by rewrite Hl1, Ht1).
  destruct (0 <? level d1 + 1) eqn:E; [|lia].
  rewrite Hts, Hb. destruct p; simpl.
  - by rewrite append_empty_r.
  - by rewrite append_assoc, !append_String.
Qed.

(** The lookup walks down a path of a well-formed tree. *)
Lemma domain_loop_path T :
  (forall path x, domain_at T path = Some x -> node_ok x) ->
  forall suf pre x fuel,
    domain_at T (pre ++ suf) = Some x ->
    (length suf <= fuel)%nat ->
    domain_loop fuel T (DAt pre) (Some (render_path suf))
    = Some (DART_OK, Some (DAt (pre ++ suf))).
Proof.
  intros Hok. induction suf as [|i p IH]; intros pre x fuel Hx Hf.
  { rewrite app_nil_r. by destruct fuel. }
  destruct fuel as [|fuel]; [simpl in Hf; lia|].
  assert (Hx' := Hx). rewrite (cons_middle i), app_assoc, domain_at_app in Hx'.
  destruct (domain_at T (pre ++ [i])) as [c|] eqn:Ec; [|done].
  destruct (domain_at_snoc _ _ _ _ Ec) as (d & l & Hd & Hdl & Hli).
  destruct (Hok _ _ Hd) as [Hn Hlen]. specialize (Hlen _ Hdl).
  apply lookup_lt_Some in Hli as Hlt.
  cbn [render_path domain_loop].
  destruct (sprintf_d (Z.of_nat i) ++ render_path p)%string as [|ch part] eqn:Es.
  { exfalso. revert Es. unfold sprintf_d. destruct (Z.of_nat i) eqn:Ez; [done| |lia].
    simpl. pose proof (Unsigned.to_uint_nonnil p0). by destruct (Pos.to_uint p0). }
  rewrite <- Es. rewrite strtol_sprintf_d;
    [|unfold LONG_MAX; lia|apply render_path_no_digit].
  rewrite cast_int_id by lia. rewrite Hd.
  destruct (num_domains d <=? Z.of_nat i) eqn:E; [lia|].
  unfold child_ptr. rewrite Hdl.
  destruct (0 <=? Z.of_nat i) eqn:E1; [|lia].
  destruct (Z.of_nat i <? Z.of_nat (length l)) eqn:E2; [|lia].
  simpl. rewrite Nat2Z.id.
  rewrite (IH (pre ++ [i]) x); [by rewrite <- app_assoc| |simpl in Hf; lia].
  by rewrite <- app_assoc.
Qed.


Abbreviation create_subdomains :=
  (dart__base__locality__create_subdomains node_units module_units unit_numa_id
     HOST_MAX uninit).

Lemma built_node_ok n d T w path x :
  rec n d = Some (DART_OK, T, w) -> domain_at T path = Some x -> node_ok x.
Proof.
  intros H Hx. destruct (built_node _ _ _ _ _ _ H Hx) as (m & dx & wx & Hr & _).
  destruct (rec_fields _ _ _ _ Hr) as (_&_&_&_&_&_&_&?&?). split; [lia|done].
Qed.

(** C5: in the tree that [create_subdomains] builds from the root domain
    (tag ".", level 0), the lookup of the tag of any node [d], the root
    included, returns [DART_OK] and the address of [d] itself. *)
Theorem C5_domain_of_tag root T w path d :
  domain_tag root = "."%string ->
  level root = 0 ->
  create_subdomains root topo = Some (DART_OK, T, w) ->
  domain_at T path = Some d ->
  dart__base__locality__domain T (domain_tag d)
  = Some (DART_OK, Some (DAt path)).
Proof.
  intros Htag Hlev H Hd.
  destruct (built_tags _ _ _ _ _ _ H ltac:(lia) Hd) as [_ Ht].
  rewrite Ht. unfold dart__base__locality__domain.
  destruct path as [|i p]; [by rewrite Htag|].
  unfold tag_base. rewrite Hlev. change (0 <? 0) with false. cbv iota.
  change (("" ++ render_path (i :: p))%string) with (render_path (i :: p)).
  assert (strchr_dot (render_path (i :: p)) = Some (render_path (i :: p))) as -> by done.
  apply (domain_loop_path T) with (pre := []) (x := d); [|done|].
  { intros q x Hx. exact (built_node_ok _ _ _ _ q x H Hx). } pose proof (render_path_length (i :: p)). lia.
Qed.

(** C4: in the locality tree built from a root of global scope, every
    domain of core scope holds one unit, one module, one NUMA domain and one
    core, and its only unit id is the entry of its parent's [unit_ids] at
    its relative index. *)
Theorem C4_core_leaf root T w path i parent leaf :
  scope root = DART_LOCALITY_SCOPE_GLOBAL ->
  create_subdomains root topo = Some (DART_OK, T, w) ->
  domain_at T path = Some parent ->
  domain_at T (path ++ [i]) = Some leaf ->
  scope leaf = DART_LOCALITY_SCOPE_CORE ->
  num_units leaf = 1
  /\ num_modules (hwinfo leaf) = 1
  /\ num_numa (hwinfo leaf) = 1
  /\ num_cores (hwinfo leaf) = 1
  /\ relative_index leaf = Z.of_nat i
  /\ exists u, unit_ids parent !! i = Some u /\ unit_ids leaf = [u].
Proof.
  intros Hroot H Hp Hleaf Hcore.
  destruct (domain_at_snoc _ _ _ _ Hleaf) as (p' & l & Hp' & Hl & Hi).
  rewrite Hp in Hp'. injection Hp' as <-.
  destruct (built_node _ _ _ _ _ _ H Hp) as (m & dp & wp & Hr & Ho).
  destruct m as [|m]; [done|].
  destruct (rec_inv _ _ _ _ Hr) as (d1 & sc & Hlay & HT & Hk).
  rewrite Hl in Hk. destruct Hk as (Hlen & _ & Hk).
  destruct (Hk _ _ Hi) as (Hlt & sub & w0 & w' & Hsub & Hc).
  destruct (rec_fields _ _ _ _ Hc) as (_ & _ & Hs & Hhw & Hids & Hri & Hnu & _).
  destruct (rec_fields _ _ _ _ Hr) as (_ & _ & _ & _ & Hpids & _).
  destruct (init_sub_fields _ _ _ _ _ Hsub) as (_ & _ & Hsc & Hrel).
  rewrite Hsc in Hs. rewrite Hcore in Hs. subst sc.
  (* the parent is a NUMA domain *)
  assert (scope dp = DART_LOCALITY_SCOPE_NUMA
          /\ d1 = set_num_domains (cast_int (num_units dp)) dp) as [Hnuma ->].
  { apply layout_inv in Hlay. revert Hlay. destruct (scope dp); try done;
      try (by intros [_ [=]]); [|by intros []].
    by intros (? & ? & _ & _ & _ & [=]). }
  (* hence a cell initialised below a module *)
  destruct Ho as [[-> ->]|(pre & j & dm & sc' & wm & -> & [d0 Hlo] & Hdp)];
    [congruence|].
  assert (exists ids, unit_ids dp = ids
                      /\ num_units dp = cast_int (Z.of_nat (length ids))
                      /\ num_cores (hwinfo dp) = cast_int (Z.of_nat (length ids)))
    as (ids & Hids' & Hnum & Hcores).
  { destruct (init_sub_fields _ _ _ _ _ Hdp) as (_ & _ & Hsc' & _).
    rewrite Hnuma in Hsc'. subst sc'.
    assert (scope dm = DART_LOCALITY_SCOPE_MODULE) as Hm.
    { destruct (layout_fields _ _ _ Hlo) as (_ & _ & Hsm & _). rewrite Hsm.
      apply layout_inv in Hlo. revert Hlo. destruct (scope d0); try done;
        try (by intros [_ [=]]). }
    revert Hdp. unfold init_subdomain. rewrite Hm.
    unfold dart__base__locality__create_module_subdomain.
    destruct (module_units topo _) as [mids|]; [|done].
    cbn [mbind option_bind]. destruct (mapM unit_numa_id mids); [|done].
    cbn -[cast_int List.filter]. intros [= <- _]. simpl. eauto. }
  set (k := cast_int (Z.of_nat (length ids))) in *.
  assert (Hk31 : - 2 ^ 31 <= k < 2 ^ 31) by apply cast_int_range.
  assert (Hkn : k <= Z.of_nat (length ids)) by (apply cast_int_le; lia).
  simpl in Hlt. rewrite Hnum, (cast_int_id k) in Hlt by done.
  (* the fields of the core cell *)
  rewrite Hsc in Hnu. rewrite Hnu, Hhw, Hids, Hri, Hrel by done.
  destruct (lookup_lt_is_Some_2 ids i ltac:(lia)) as [u Hu].
  revert Hsub. unfold init_subdomain. cbn [scope set_num_domains].
  rewrite Hnuma. unfold dart__base__locality__create_numa_subdomain.
  cbn -[Z.quot cast_int loop_range array_at mapM].
  rewrite Hnum, (cast_int_id k) by done.
  rewrite Z.quot_same by lia.
  change (cast_int 1) with 1. change (loop_range 1) with [0].
  cbn [mapM]. rewrite Z.mul_1_r, Z.add_0_r, cast_int_id by lia.
  rewrite array_at_nat, Hids', Hu. cbn [mbind option_bind].
  destruct (unit_numa_id u); [|done]. cbn -[Z.quot cast_int].
  intros [= <- _]. cbn -[Z.quot cast_int].
  split_and!; try done.
  - fold k in Hcores. rewrite Hcores. apply Z.quot_same. lia.
  - exists u. rewrite Hpids, Hids'. done.
Qed.

Lemma layout_scope d d1 sc :
  layout d = Some (Some (d1, sc)) ->
  host d1 = host d
  /\ node_id d1 = node_id d
  /\ (num_domains d1 <> 0 ->
      sc <> DART_LOCALITY_SCOPE_UNDEFINED
      /\ S (scope_rank sc) = scope_rank (scope d)).
Proof.
  intros H%layout_inv. revert H. destruct (scope d) eqn:Es; [done|..]; intros H.
  3:destruct H as (h & ids & _ & _ & H).
  all: destruct H as [-> ->]; simpl; rewrite ?Es; split_and!; try done;
    intros ?; try done; split; done.
Qed.

End BuildFacts.



Lemma C5_witness :
  dart__base__locality__domain example_tree ".1.0.1.0"
  = Some (DART_OK, Some (DAt [1; 0; 1; 0]%nat)).
Proof.
  refine (C5_domain_of_tag example_units example_units example_numa_id 16
            example_uninit example_topology example_root example_tree
            (match example_build with Some (_, _, w) => w | None => [] end)
            [1; 0; 1; 0]%nat
            (match domain_at example_tree [1; 0; 1; 0]%nat with
             | Some d => d | None => example_root end) _ _ _ _).
  all: vm_compute; reflexivity.
Defined.

Lemma C4_witness :
  let leaf := match domain_at example_tree [1; 0; 1; 0]%nat with
              | Some d => d | None => example_root end in
  let parent := match domain_at example_tree [1; 0; 1]%nat with
                | Some d => d | None => example_root end in
  num_units leaf = 1
  /\ num_modules (hwinfo leaf) = 1
  /\ num_numa (hwinfo leaf) = 1
  /\ num_cores (hwinfo leaf) = 1
  /\ relative_index leaf = Z.of_nat 0
  /\ exists u, unit_ids parent !! 0%nat = Some u /\ unit_ids leaf = [u].
Proof.
  intros leaf parent.
  refine (C4_core_leaf example_units example_units example_numa_id 16
            example_uninit example_topology example_root example_tree
            (match example_build with Some (_, _, w) => w | None => [] end)
            [1; 0; 1]%nat 0%nat parent leaf _ _ _ _ _);
    vm_compute; reflexivity.
Defined.


(** C6: the lookup does not reject a negative index.  On any root that
    has a child array, the tag ".-1" passes the range check and the call
    returns [DART_OK] with the address of a cell before the child array,
    where the claim asks for [DART_ERR_INVAL]. *)
Theorem C6_negative_index_accepted root cells :
  domains root = Some cells ->
  0 <= num_domains root ->
  dart__base__locality__domain root ".-1" = Some (DART_OK, Some DWild).
Proof.
  intros Hd Hn. unfold dart__base__locality__domain.
  change (strchr_dot ".-1") with (Some ".-1"%string).
  cbn [String.length domain_loop domain_at].
  change (strtol "-1") with (-1, ""%string). cbv iota beta.
  change (cast_int (-1)) with (-1).
  destruct (num_domains root <=? -1) eqn:E; [lia|].
  unfold child_ptr. rewrite Hd. reflexivity.
Qed.

Lemma C6_witness :
  dart__base__locality__domain example_tree ".-1" = Some (DART_OK, Some DWild).
Proof.
  refine (C6_negative_index_accepted example_tree
            (match domains example_tree with Some l => l | None => [] end) _ _).
  - vm_compute. reflexivity.
  - vm_compute. discriminate.
Defined.

(** An index past the last child is refused, an index in range is
    followed. *)
Lemma example_tree_lookups :
  dart__base__locality__domain example_tree ".2" = Some (DART_ERR_INVAL, None)
  /\ dart__base__locality__domain example_tree ".1.0"
     = Some (DART_OK, Some (DAt [1; 0]%nat)).
Proof. vm_compute. done. Qed.

(** ** Deletion *)

Lemma cleared_idem d :
  domains d = None -> num_domains d = 0 ->
  set_num_domains 0 (set_domains None d) = d.
Proof. destruct d; simpl; by intros -> ->. Qed.

(** C10, as the code has it: deleting [NULL] returns [DART_OK]; a call
    that returns [DART_OK] leaves the domain without children
    ([domains == NULL], [num_domains == 0]), and a second call returns
    [DART_OK] and changes nothing; a call that returns [DART_ERR_INVAL]
    is one on a domain with a positive child count and no child array, and
    it leaves the domain as it was; and on every domain with a positive
    child count and no child array the call returns [DART_ERR_INVAL] and
    leaves the domain as it was. *)
Theorem C10_delete_idempotent d r d' f :
  domain_delete d = Some (r, d', f) ->
  dart__base__locality__domain_delete None = Some (DART_OK, None, [])
  /\ (r = DART_OK ->
      domains d' = None /\ num_domains d' = 0
      /\ dart__base__locality__domain_delete (Some d')
         = Some (DART_OK, Some d', []))
  /\ (r = DART_ERR_INVAL ->
      d' = d /\ 0 < num_domains d /\ domains d = None)
  /\ (forall x, 0 < num_domains x -> domains x = None ->
        domain_delete x = Some (DART_ERR_INVAL, x, [])
        /\ dart__base__locality__domain_delete (Some x)
           = Some (DART_ERR_INVAL, Some x, [])).
Proof.
  intros H. split; [done|].
  assert (Hfwd : forall x, 0 < num_domains x -> domains x = None ->
                   domain_delete x = Some (DART_ERR_INVAL, x, [])).
  { intros [tg ho sc lv ri ni nd ds hw nn nu ui] Hn Hd. simpl in *.
    destruct (nd <=? 0) eqn:E; [lia|]. by rewrite Hd. }
  assert (Hlast : forall x, 0 < num_domains x -> domains x = None ->
                    domain_delete x = Some (DART_ERR_INVAL, x, [])
                    /\ dart__base__locality__domain_delete (Some x)
                       = Some (DART_ERR_INVAL, Some x, [])).
  { intros x Hn Hd. split; [by apply Hfwd|].
    unfold dart__base__locality__domain_delete. by rewrite Hfwd. }
  assert (r = DART_OK /\ d' = set_num_domains 0 (set_domains None d)
          \/ r = DART_ERR_INVAL /\ d' = d /\ 0 < num_domains d /\ domains d = None)
    as Hcases.
  { destruct d as [tg ho sc lv ri ni nd ds hw nn nu ui]. simpl in H.
    destruct (nd <=? 0) eqn:E; [left; by simplify_eq|].
    destruct ds as [cells|]; [|right; simplify_eq; split_and!; simpl; done || lia].
    match type of H with
    | match ?x with _ => _ end = _ => destruct x; [|done]
    end.
    left. by simplify_eq. }
  destruct Hcases as [[-> ->]|(-> & -> & Hn & Hd)].
  - split_and!; [|done|exact Hlast]. intros _. split_and!; try done.
  - split_and!; [done| |exact Hlast]. auto.
Qed.

Lemma domain_delete_eq d :
  domain_delete d
  = if num_domains d <=? 0 then
      Some (DART_OK, set_num_domains 0 (set_domains None d),
            match domains d with Some _ => [domain_tag d] | None => [] end)
    else
      match domains d with
      | None => Some (DART_ERR_INVAL, d, [])
      | Some cells =>
          match delete_cells domain_delete cells (Z.to_nat (num_domains d)) with
          | None => None
          | Some f =>
              Some (DART_OK, set_num_domains 0 (set_domains None d),
                    (f ++ [domain_tag d])%list)
          end
      end.
Proof. by destruct d. Qed.

Lemma delete_cells_ok del l : forall n,
  (n <= length l)%nat ->
  (forall c, c ∈ l -> is_Some (del c)) ->
  is_Some (delete_cells del l n).
Proof.
  induction l as [|c l IH]; intros [|n] Hn Hdel; simpl in *; try done; [lia|].
  destruct (Hdel c) as [[[r d] f] ->]; [by left|].
  destruct (IH n) as [f2 ->]; [lia| |done].
  intros c' Hc'. apply Hdel. by right.
Qed.

Section DeleteBuilt.

Variable node_units : dart_host_topology_t -> string -> option (list Z).
Variable module_units : dart_host_topology_t -> string -> option (list Z).
Variable unit_numa_id : Z -> option Z.
Variable HOST_MAX : nat.
Variable uninit : dart_domain_locality_t.
Variable topo : dart_host_topology_t.

(** Deleting a tree that [create_subdomains] built returns [DART_OK]. *)
Lemma domain_delete_built n : forall d T w,
  create_subdomains_rec node_units module_units unit_numa_id HOST_MAX uninit
    n topo d = Some (DART_OK, T, w) ->
  exists f,
    domain_delete T = Some (DART_OK, set_num_domains 0 (set_domains None T), f).
Proof.
  induction n as [|n IH]; intros d T w H; [done|].
  destruct (rec_inv _ _ _ _ _ _ _ _ _ _ H) as (d1 & sc & Hl & HT & Hk).
  rewrite domain_delete_eq.
  destruct (num_domains T <=? 0) eqn:E; [eauto|].
  assert (num_domains T = num_domains d1) as Hn by (by rewrite HT).
  destruct (domains T) as [l|] eqn:Hd; [|lia].
  destruct Hk as (Hlen & _ & Hk).
  destruct (delete_cells_ok domain_delete l (Z.to_nat (num_domains T)))
    as [f ->]; [lia| |eauto].
  intros c Hc. apply list_elem_of_lookup in Hc as [i Hi].
  destruct (Hk _ _ Hi) as (_ & sub & w0 & w' & _ & Hc).
  destruct (IH _ _ _ Hc) as [f ->]. done.
Qed.

End DeleteBuilt.

Lemma C10_witness :
  let d' := set_num_domains 0 (set_domains None example_tree) in
  domains d' = None /\ num_domains d' = 0
  /\ dart__base__locality__domain_delete (Some d') = Some (DART_OK, Some d', []).
Proof.
  refine (proj1 (proj2 (C10_delete_idempotent example_tree DART_OK _
    [".0.0.0"; ".0.0.1"; ".0.0"; ".0"; ".1.0.0"; ".1.0.1"; ".1.0"; ".1"; "."]%string
    _)) eq_refl).
  vm_compute. reflexivity.
Defined.

Lemma C10_counterexample :
  domain_delete example_unspecified
  = Some (DART_ERR_INVAL, example_unspecified, [])
  /\ num_domains example_unspecified = 1
  /\ ~ (forall d r d' f,
          domain_delete d = Some (r, d', f) ->
          r = DART_OK /\ domains d' = None /\ num_domains d' = 0).
Proof.
  split_and!; [done..|].
  intros H. by destruct (H example_unspecified _ _ _ eq_refl) as [? _].
Qed.

(** ** The lookup on a tight tree *)

Lemma sprintf_d_nonempty i : sprintf_d (Z.of_nat i) <> EmptyString.
Proof.
  unfold sprintf_d. destruct (Z.of_nat i) eqn:Ez; [done| |lia].
  simpl. pose proof (Unsigned.to_uint_nonnil p). by destruct (Pos.to_uint p).
Qed.

Lemma domain_loop_spec T :
  tree_tight T ->
  forall suf pre d fuel,
    domain_at T pre = Some d ->
    Forall (fun i => Z.of_nat i < 2 ^ 31) suf ->
    (length suf <= fuel)%nat ->
    domain_loop fuel T (DAt pre) (Some (render_path suf))
    = Some (match domain_at d suf with
            | Some _ => (DART_OK, Some (DAt (pre ++ suf)))
            | None => (DART_ERR_INVAL, None)
            end).
Proof.
  intros Hok. induction suf as [|i p IH]; intros pre d fuel Hd Hsm Hf.
  { rewrite app_nil_r. by destruct fuel. }
  destruct fuel as [|fuel]; [simpl in Hf; lia|].
  apply list.Forall_cons in Hsm as [Hi Hsm].
  destruct (Hok _ _ Hd) as [Hn Hlen].
  cbn [render_path domain_loop].
  destruct (sprintf_d (Z.of_nat i) ++ render_path p)%string as [|ch part] eqn:Es.
  { exfalso. pose proof (sprintf_d_nonempty i). by destruct (sprintf_d (Z.of_nat i)). }
  rewrite <- Es. rewrite strtol_sprintf_d;
    [|unfold LONG_MAX; lia|apply render_path_no_digit].
  rewrite cast_int_id by lia. rewrite Hd.
  cbn [domain_at].
  destruct (num_domains d <=? Z.of_nat i) eqn:E.
  { destruct (domains d) as [l|]; [|done].
    rewrite (lookup_ge_None_2 l i) by lia. done. }
  destruct (domains d) as [l|] eqn:Hdl; [|lia].
  unfold child_ptr. rewrite Hdl.
  destruct (0 <=? Z.of_nat i) eqn:E1; [|lia].
  destruct (Z.of_nat i <? Z.of_nat (length l)) eqn:E2; [|lia].
  simpl. rewrite Nat2Z.id.
  destruct (lookup_lt_is_Some_2 l i ltac:(lia)) as [c Hc]. rewrite Hc.
  rewrite (IH (pre ++ [i]) c); [by rewrite <- app_assoc| |done|simpl in Hf; lia].
  rewrite domain_at_app, Hd. simpl. by rewrite Hdl, Hc.
Qed.

Lemma domain_spec T path :
  tree_tight T ->
  Forall (fun i => Z.of_nat i < 2 ^ 31) path ->
  dart__base__locality__domain T (render_path path)
  = Some (match domain_at T path with
          | Some _ => (DART_OK, Some (DAt path))
          | None => (DART_ERR_INVAL, None)
          end).
Proof.
  intros Hok Hsm. unfold dart__base__locality__domain.
  destruct path as [|i p]; [done|].
  assert (strchr_dot (render_path (i :: p)) = Some (render_path (i :: p))) as -> by done.
  apply (domain_loop_spec T Hok (i :: p) [] T); [done|done|].
  pose proof (render_path_length (i :: p)). lia.
Qed.

(** The indices of a path of a tight tree fit an [int]. *)
Lemma tight_path_small T path x :
  tree_tight T -> domain_at T path = Some x ->
  Forall (fun i => Z.of_nat i < 2 ^ 31) path.
Proof.
  intros Hok. revert x. induction path as [|i p IH] using rev_ind; intros x Hx; [done|].
  destruct (domain_at_snoc _ _ _ _ Hx) as (d & l & Hd & Hdl & Hli).
  apply list.Forall_app. split; [by eapply IH|]. apply list.Forall_singleton.
  destruct (Hok _ _ Hd) as [Hn Hlen]. rewrite Hdl in Hlen.
  apply lookup_lt_Some in Hli. lia.
Qed.

(** ** The shape of the tree built by [create_subdomains] *)

Section BuildShape.

Variable node_units : dart_host_topology_t -> string -> option (list Z).
Variable module_units : dart_host_topology_t -> string -> option (list Z).
Variable unit_numa_id : Z -> option Z.
Variable HOST_MAX : nat.
Variable uninit : dart_domain_locality_t.
Variable topo : dart_host_topology_t.

Abbreviation layout := (subdomain_layout module_units topo).
Abbreviation init_sub :=
  (init_subdomain node_units module_units unit_numa_id HOST_MAX uninit topo).
Abbreviation rec n :=
  (create_subdomains_rec node_units module_units unit_numa_id HOST_MAX uninit
     n topo).
Abbreviation create_subdomains :=
  (dart__base__locality__create_subdomains node_units module_units unit_numa_id
     HOST_MAX uninit).
Abbreviation rec_inv := (rec_inv node_units module_units unit_numa_id HOST_MAX
  uninit topo).
Abbreviation rec_fields := (rec_fields node_units module_units unit_numa_id HOST_MAX
  uninit topo).
Abbreviation built_node := (built_node node_units module_units unit_numa_id HOST_MAX
  uninit topo).
Abbreviation layout_fields := (layout_fields module_units topo).
Abbreviation layout_inv := (layout_inv module_units topo).
Abbreviation layout_scope := (layout_scope module_units topo).
Abbreviation init_sub_fields := (init_sub_fields node_units module_units
  unit_numa_id HOST_MAX uninit topo).

(** One call of the recursion, with the writes to the unit locality
    map. *)
Lemma rec_inv_w n d T w :
  rec (S n) d = Some (DART_OK, T, w) ->
  exists d1 sc,
    layout d = Some (Some (d1, sc))
    /\ T = set_domains (domains T) d1
    /\ match domains T with
       | None => num_domains d1 <= 0 /\ w = []
       | Some l =>
           exists ws,
             w = concat ws /\ length ws = length l
             /\ forall i c wi, l !! i = Some c -> ws !! i = Some wi ->
                  exists sub w0 w',
                    init_sub d1 sc (Z.of_nat i) = Some (sub, w0)
                    /\ rec n sub = Some (DART_OK, c, w')
                    /\ wi = w0 ++ w'
       end.
Proof.
  simpl. destruct (layout d) as [[[d1 sc]|]|] eqn:El; [|done..].
  destruct (num_domains d1 =? 0) eqn:En.
  { intros [= <- <-]. exists d1, sc. simpl. split_and!; auto. lia. }
  destruct (num_domains d1 <? 0) eqn:En'.
  { intros [= <- <-]. exists d1, sc. simpl. split_and!; auto. lia. }
  destruct (mapM _ _) as [subs|] eqn:Em; simpl; [|done].
  intros [= <- <-]. exists d1, sc. simpl. split_and!; auto.
  exists (subs.*2). split_and!; [done|by rewrite !length_fmap|].
  intros i c wi Hc Hw. rewrite list_lookup_fmap in Hc. rewrite list_lookup_fmap in Hw.
  destruct (subs !! i) as [[c' w']|] eqn:Es; simplify_eq/=.
  apply mapM_Some in Em.
  destruct (Forall2_lookup_r _ _ _ _ _ Em Es) as (x & Hx & Hf).
  apply loop_range_lookup in Hx as [-> Hlt].
  destruct (init_sub d1 sc (Z.of_nat i)) as [[sub w0]|] eqn:Ei; [|done].
  destruct (rec n sub) as [[[[] ?] ?]|] eqn:Er; simplify_eq/=. eauto 10.
Qed.

Lemma rec_scope n d T w :
  rec n d = Some (DART_OK, T, w) ->
  scope d <> DART_LOCALITY_SCOPE_UNDEFINED /\ host T = host d.
Proof.
  destruct n; [done|]. intros H.
  destruct (rec_inv _ _ _ _ H) as (d1 & sc & Hl & HT & _).
  destruct (layout_scope _ _ _ Hl) as (Hh & _ & _). split.
  - intros Hs. apply layout_inv in Hl. by rewrite Hs in Hl.
  - rewrite HT. simpl. done.
Qed.

(** Scopes and levels go down the tree in step. *)
Lemma rec_depth n : forall d T w path x,
  rec n d = Some (DART_OK, T, w) ->
  domain_at T path = Some x ->
  (scope_rank (scope x) + length path = scope_rank (scope d))%nat
  /\ scope x <> DART_LOCALITY_SCOPE_UNDEFINED
  /\ level x = level d + Z.of_nat (length path).
Proof.
  induction n as [|n IH]; intros d T w path x H Hx; [done|].
  destruct path as [|i p].
  { simpl in Hx. simplify_eq.
    destruct (rec_fields _ _ _ _ H) as (_ & Hlev & Hs & _).
    destruct (rec_scope _ _ _ _ H) as [Hu _].
    rewrite Hs, Hlev. simpl. split_and!; [lia|done|lia]. }
  simpl in Hx. destruct (domains T) as [l|] eqn:Ed; [|done].
  destruct (l !! i) as [c|] eqn:Ei; [|done].
  destruct (rec_inv _ _ _ _ H) as (d1 & sc & Hl & HT & Hk).
  rewrite Ed in Hk. destruct Hk as (_ & Hpos & Hk).
  destruct (Hk _ _ Ei) as (Hlt & sub & w0 & w' & Hsub & Hc).
  destruct (layout_fields _ _ _ Hl) as (_ & Hl1 & _).
  destruct (layout_scope _ _ _ Hl) as (_ & _ & Hsc).
  destruct Hsc as [_ Hsc]; [lia|].
  destruct (init_sub_fields _ _ _ _ _ Hsub) as (_ & Hls & Hss & _).
  destruct (IH _ _ _ _ _ Hc Hx) as (Hr & Hu & Hlev).
  rewrite Hss in Hr. rewrite Hls, Hl1 in Hlev. simpl. split_and!; [lia|done|lia].
Qed.

Lemma built_tight n d T w : rec n d = Some (DART_OK, T, w) -> tree_tight T.
Proof.
  intros H path x Hx.
  destruct (built_node _ _ _ _ _ _ H Hx) as (m & dx & wx & Hr & _).
  destruct (rec_fields _ _ _ _ Hr) as (_&_&_&_&_&_&_&Hn&Hlen).
  split; [lia|]. destruct m as [|m]; [done|].
  destruct (rec_inv _ _ _ _ Hr) as (d1 & sc & Hl & HT & Hk).
  destruct (domains x) as [l|] eqn:Ed; [by apply Hlen|].
  rewrite HT. simpl. done.
Qed.

(** ** The build returns *)

Lemma array_at_lt {A} (a : list A) i :
  0 <= i < Z.of_nat (length a) ->
  exists x, array_at a i = Some x /\ x ∈ a.
Proof.
  intros Hi. unfold array_at. destruct (Z.ltb_spec i 0); [lia|].
  destruct (lookup_lt_is_Some_2 a (Z.to_nat i) ltac:(lia)) as [x Hx].
  exists x. split; [done|]. by eapply list_elem_of_lookup_2.
Qed.

Lemma layout_total d :
  hosts_known node_units module_units unit_numa_id HOST_MAX topo -> reads_in_range module_units unit_numa_id topo d ->
  scope d <> DART_LOCALITY_SCOPE_UNDEFINED ->
  exists d1 sc, layout d = Some (Some (d1, sc)).
Proof.
  intros Hk Hr Hs. unfold subdomain_layout. unfold reads_in_range in Hr.
  destruct (scope d); try done; eauto.
  destruct Hr as [Hri _]. cbn [relative_index set_num_domains].
  destruct (array_at_lt (host_names topo) _ Hri) as (h & -> & Hh).
  cbn [mbind option_bind].
  destruct (Hk h Hh) as (_ & [ids ->] & _). cbn [mbind option_bind]. eauto.
Qed.

(** A cell of the loop is initialised without a read outside the arrays,
    and the reads of the call on the cell stay inside them. *)
Lemma mapM_all_Some {A B} (f : A -> option B) (l : list A) :
  (forall x, x ∈ l -> is_Some (f x)) -> is_Some (mapM f l).
Proof.
  intros H. apply mapM_is_Some. apply list.Forall_forall. exact H.
Qed.

Lemma init_sub_total d d1 sc i :
  hosts_known node_units module_units unit_numa_id HOST_MAX topo ->
  reads_in_range module_units unit_numa_id topo d ->
  layout d = Some (Some (d1, sc)) ->
  0 <= i < num_domains d1 ->
  exists sub w0,
    init_sub d1 sc i = Some (sub, w0)
    /\ reads_in_range module_units unit_numa_id topo sub.
Proof.
  intros Hk Hr Hl Hi. destruct (layout_fields _ _ _ Hl) as (_ & _ & Hs1 & Hhw & Hids & _).
  destruct (layout_scope _ _ _ Hl) as (Hh1 & _ & _).
  apply layout_inv in Hl. unfold reads_in_range in Hr.
  unfold init_subdomain. rewrite Hs1. revert Hl Hr Hs1.
  destruct (scope d) eqn:Es; [done|..]; intros Hl Hr Hs1.
  - (* global: one node per host name *)
    destruct Hl as [-> ->]. destruct Hr as [Hn Hm]. simpl in Hi.
    unfold dart__base__locality__create_global_subdomain.
    destruct (array_at_lt (host_names topo) i ltac:(lia)) as (h & -> & Hh).
    cbn [mbind option_bind].
    destruct (Hk h Hh) as ([ids ->] & _ & _). cbn -[cast_int].
    eexists _, _. split; [done|]. unfold reads_in_range. simpl. done.
  - (* node: one module per host name *)
    destruct Hl as [-> ->]. simpl in Hi.
    unfold dart__base__locality__create_node_subdomain.
    destruct (array_at_lt (host_names topo) i ltac:(lia)) as (h & -> & Hh).
    cbn [mbind option_bind].
    destruct (Hk h Hh) as (_ & [ids ->] & Hcut). cbn -[cast_int].
    eexists _, _. split; [done|]. unfold reads_in_range. simpl.
    split; [lia|done].
  - (* module: the units of a NUMA id *)
    destruct Hl as (h & ids & _ & _ & -> & ->).
    destruct Hr as (_ & mids & Hmids & Hknown).
    unfold dart__base__locality__create_module_subdomain.
    cbn [host set_num_units set_num_domains]. rewrite Hmids.
    cbn [mbind option_bind].
    destruct (mapM_all_Some unit_numa_id mids Hknown) as [ns ->].
    cbn -[cast_int List.filter].
    eexists _, _. split; [done|]. unfold reads_in_range.
    cbn -[cast_int List.filter]. split_and!; [apply cast_int_range..| |].
    + apply cast_int_le. lia.
    + intros u Hu%list_elem_of_In. apply filter_In in Hu as [Hu _].
      by apply Hknown, list_elem_of_In.
  - (* NUMA: one unit per core *)
    destruct Hl as [-> ->]. destruct Hr as (Hint & Hlen & Hknown).
    rewrite cast_int_id in Hi by done. cbn [num_domains set_num_domains] in Hi.
    unfold dart__base__locality__create_numa_subdomain.
    cbn -[Z.quot cast_int loop_range array_at mapM].
    rewrite (cast_int_id (num_units d)) by done.
    rewrite Z.quot_same by lia.
    change (cast_int 1) with 1. change (loop_range 1) with [0].
    cbn [mapM]. rewrite Z.mul_1_r, Z.add_0_r, cast_int_id by lia.
    destruct (array_at_lt (unit_ids d) i ltac:(lia)) as (u & -> & Hu).
    cbn [mbind option_bind]. destruct (Hknown u Hu) as [k ->].
    cbn -[Z.quot cast_int]. eexists _, _. split; [done|].
    unfold reads_in_range. simpl. done.
  - destruct Hl as [-> ->]. simpl in Hi. lia.
Qed.

(** The recursion ends within the depth the entry point allows. *)
Lemma rec_total n d :
  hosts_known node_units module_units unit_numa_id HOST_MAX topo -> reads_in_range module_units unit_numa_id topo d ->
  scope d <> DART_LOCALITY_SCOPE_UNDEFINED ->
  (scope_rank (scope d) <= n)%nat ->
  exists T w, rec n d = Some (DART_OK, T, w).
Proof.
  intros Hk. revert d. induction n as [|n IH]; intros d Hr Hs Hn.
  { destruct (scope d); simpl in Hn; done || lia. }
  simpl. destruct (layout_total d Hk Hr Hs) as (d1 & sc & El). rewrite El.
  destruct (num_domains d1 =? 0) eqn:E0; [eauto|].
  destruct (num_domains d1 <? 0) eqn:E1; [eauto|].
  destruct (layout_scope _ _ _ El) as (_ & _ & Hsc).
  destruct Hsc as [Hsc Hrk]; [lia|].
  destruct (mapM _ _) as [subs|] eqn:Em; simpl; [eauto|].
  apply mapM_None_1, list.Exists_exists in Em as (x & Hx & Hnone). exfalso.
  apply list_elem_of_lookup in Hx as [i Hx].
  apply loop_range_lookup in Hx as [-> Hlt].
  destruct (init_sub_total d d1 sc (Z.of_nat i) Hk Hr El ltac:(lia))
    as (sub & w0 & Hsub & Hrs).
  rewrite Hsub in Hnone.
  destruct (init_sub_fields _ _ _ _ _ Hsub) as (_ & _ & Hss & _).
  destruct (IH sub Hrs) as (T & w & HT); [by rewrite Hss|rewrite Hss; lia|].
  by rewrite HT in Hnone.
Qed.

Lemma create_subdomains_total d :
  hosts_known node_units module_units unit_numa_id HOST_MAX topo -> reads_in_range module_units unit_numa_id topo d ->
  scope d <> DART_LOCALITY_SCOPE_UNDEFINED ->
  exists T w, create_subdomains d topo = Some (DART_OK, T, w).
Proof.
  intros Hk Hr Hs. apply rec_total; try done. destruct (scope d); simpl; lia.
Qed.

(** X1: [create_subdomains] returns [DART_ERR_INVAL], with the domain as
    it was, on a domain of undefined scope.  On a domain of any other
    scope it returns [DART_OK] when the collaborators return [DART_OK] on
    the hosts of the topology and their units, and the reads of the call
    stay inside [host_names] and [unit_ids]: the nested calls end within
    the five scopes, no call fails its [DART_ASSERT_RETURNS], and no read
    leaves an array. *)
Theorem create_subdomains_return_code d :
  let call :=
    dart__base__locality__create_subdomains node_units module_units
      unit_numa_id HOST_MAX uninit d topo in
  (scope d = DART_LOCALITY_SCOPE_UNDEFINED ->
   call = Some (DART_ERR_INVAL, d, []))
  /\ (scope d <> DART_LOCALITY_SCOPE_UNDEFINED ->
      hosts_known node_units module_units unit_numa_id HOST_MAX topo ->
      reads_in_range module_units unit_numa_id topo d ->
      exists T w, call = Some (DART_OK, T, w)).
Proof.
  intros call. subst call. split.
  - intros Hs. unfold dart__base__locality__create_subdomains. simpl.
    unfold subdomain_layout. by rewrite Hs.
  - intros Hs Hk Hr. by apply create_subdomains_total.
Qed.

Lemma rec_leaf n d T w :
  rec n d = Some (DART_OK, T, w) -> num_domains T = 0 -> domains T = None.
Proof.
  destruct n; [done|]. simpl.
  destruct (layout d) as [[[d1 sc]|]|]; [|done..].
  destruct (num_domains d1 =? 0) eqn:E0; [by intros [= <- <-]|].
  destruct (num_domains d1 <? 0) eqn:E1; [by intros [= <- <-]|].
  destruct (mapM _ _); simpl; [|done]. intros [= <- <-]. simpl. lia.
Qed.

(** X2: the tree built from a root of global scope is at most four levels
    deep below the root; the domains [k] levels down have the [k]-th scope
    (global, node, module, NUMA, core) and level [k] above the root's; a
    child count that is not negative is the number of cells of the child
    array, and the array is [NULL] when the count is zero; domains of core
    scope have no children. *)
Theorem built_tree_shape root T w path x :
  scope root = DART_LOCALITY_SCOPE_GLOBAL ->
  create_subdomains root topo = Some (DART_OK, T, w) ->
  domain_at T path = Some x ->
  (length path <= 4)%nat
  /\ scope x = scope_at_depth (length path)
  /\ level x = level root + Z.of_nat (length path)
  /\ (0 <= num_domains x ->
      match domains x with
      | None => num_domains x = 0
      | Some l => Z.of_nat (length l) = num_domains x /\ 0 < num_domains x
      end)
  /\ (scope x = DART_LOCALITY_SCOPE_CORE ->
      num_domains x = 0 /\ domains x = None).
Proof.
  intros Hg H Hx.
  destruct (rec_depth _ _ _ _ _ _ H Hx) as (Hr & Hu & Hlev).
  rewrite Hg in Hr. simpl in Hr.
  destruct (built_node _ _ _ _ _ _ H Hx) as (m & dx & wx & Hrx & _).
  destruct (built_tight _ _ _ _ H _ _ Hx) as [Hn Hlen].
  split_and!.
  - destruct (scope x); simpl in Hr; try done; lia.
  - unfold scope_at_depth.
    destruct (scope x) eqn:Es; simpl in Hr; try done;
      repeat (destruct path as [|? path]; simpl in Hr; try lia); done.
  - done.
  - intros H0. destruct (domains x) as [l|] eqn:Ed; [|lia].
    split; [lia|].
    destruct (decide (num_domains x = 0)) as [Hz|]; [|lia].
    by rewrite (rec_leaf _ _ _ _ Hrx Hz) in Ed.
  - intros Hc.
    assert (num_domains x = 0) as Hz.
    { destruct m as [|m]; [done|].
      destruct (rec_inv _ _ _ _ Hrx) as (d1 & sc & Hl & HT & _).
      destruct (rec_fields _ _ _ _ Hrx) as (_ & _ & Hs & _).
      rewrite HT. simpl. apply layout_inv in Hl.
      rewrite <- Hs, Hc in Hl. by destruct Hl as [-> _]. }
    split; [done|]. by apply (rec_leaf _ _ _ _ Hrx).
Qed.

(** X3: below a root of level 0, the tag of a domain spells the path of
    child indices that leads to it (".i.j.k"), and its relative index is
    the last index of the path. *)
Theorem built_tree_tags root T w pre i x :
  level root = 0 ->
  create_subdomains root topo = Some (DART_OK, T, w) ->
  domain_at T (pre ++ [i]) = Some x ->
  domain_tag x = render_path (pre ++ [i])
  /\ relative_index x = Z.of_nat i.
Proof.
  intros Hlev H Hx. split.
  - destruct (built_tags node_units module_units unit_numa_id HOST_MAX uninit
                topo _ _ _ _ _ _ H ltac:(lia) Hx) as [_ Ht].
    rewrite Ht. unfold tag_base. rewrite Hlev.
    change (0 <? 0) with false. cbv iota. by destruct pre.
  - destruct (built_node _ _ _ _ _ _ H Hx) as (m & dx & wx & Hrx & Ho).
    destruct (rec_fields _ _ _ _ Hrx) as (_ & _ & _ & _ & _ & Hri & _).
    destruct Ho as [[Hp _]|(pre' & j & d1 & sc & w0 & Hp & _ & Hsub)].
    { by destruct pre. }
    apply app_inj_tail in Hp as [_ <-].
    destruct (init_sub_fields _ _ _ _ _ Hsub) as (_ & _ & _ & Hrel).
    by rewrite Hri.
Qed.

(** X4: on a tree that [create_subdomains] built, the lookup of the tag
    that spells a path of child indices returns [DART_OK] and the address
    of the domain at that path when the path leads to a domain, and
    [DART_ERR_INVAL] when an index of the path is past the last child. *)
Theorem domain_lookup_built root T w path :
  create_subdomains root topo = Some (DART_OK, T, w) ->
  Forall (fun i => Z.of_nat i < 2 ^ 31) path ->
  dart__base__locality__domain T (render_path path)
  = Some (match domain_at T path with
          | Some _ => (DART_OK, Some (DAt path))
          | None => (DART_ERR_INVAL, None)
          end).
Proof.
  intros H Hsm. apply domain_spec; [|done]. by eapply built_tight.
Qed.

(** X5: the [i]-th sub-domain of a domain of module scope is of NUMA
    scope and holds, in their order, the units of the module's host whose
    NUMA id is [i]; its unit count is their number.  The units of the
    host and the unit locality of each of them were handed back with
    [DART_OK]. *)
Theorem numa_domain_units root T w path m i c :
  create_subdomains root topo = Some (DART_OK, T, w) ->
  domain_at T path = Some m ->
  scope m = DART_LOCALITY_SCOPE_MODULE ->
  domain_at T (path ++ [i]) = Some c ->
  scope c = DART_LOCALITY_SCOPE_NUMA
  /\ (exists ids,
        module_units topo (host m) = Some ids
        /\ unit_ids c
           = List.filter (fun u => match unit_numa_id u with
                                   | Some n => n =? Z.of_nat i
                                   | None => false
                                   end) ids
        /\ forall u, u ∈ ids -> is_Some (unit_numa_id u))
  /\ num_units c = cast_int (Z.of_nat (length (unit_ids c))).
Proof.
  intros H Hm Hs Hc.
  destruct (domain_at_snoc _ _ _ _ Hc) as (m' & l & Hm' & Hl & Hi).
  rewrite Hm in Hm'. injection Hm' as <-.
  destruct (built_node _ _ _ _ _ _ H Hm) as (k & dm & wm & Hr & _).
  destruct k as [|k]; [done|].
  destruct (rec_inv _ _ _ _ Hr) as (d1 & sc & Hlay & HT & Hk).
  rewrite Hl in Hk. destruct Hk as (_ & _ & Hk).
  destruct (Hk _ _ Hi) as (_ & sub & w0 & w' & Hsub & Hrc).
  destruct (rec_fields _ _ _ _ Hr) as (_ & _ & Hsm & _).
  destruct (rec_scope _ _ _ _ Hr) as [_ Hhm].
  destruct (rec_fields _ _ _ _ Hrc) as (_ & _ & Hsc & _ & Hids & _ & Hnu & _).
  destruct (init_sub_fields _ _ _ _ _ Hsub) as (_ & _ & Hss & _).
  destruct (layout_fields _ _ _ Hlay) as (_ & _ & Hs1 & _).
  destruct (layout_scope _ _ _ Hlay) as (Hh1 & _ & _).
  rewrite Hs in Hsm. rewrite <- Hsm in Hs1.
  assert (sc = DART_LOCALITY_SCOPE_NUMA) as ->.
  { apply layout_inv in Hlay. rewrite <- Hsm in Hlay.
    by destruct Hlay as (? & ? & _ & _ & _ & ->). }
  rewrite Hss in Hsc. split; [done|].
  rewrite Hids, Hnu by (by rewrite Hss).
  revert Hsub. unfold init_subdomain. rewrite Hs1.
  unfold dart__base__locality__create_module_subdomain.
  rewrite Hh1, <- Hhm.
  destruct (module_units topo (host m)) as [ids|]; [|done].
  cbn [mbind option_bind].
  destruct (mapM unit_numa_id ids) as [ns|] eqn:Ens; [|done].
  cbn -[cast_int List.filter]. intros [= <- _]. cbn -[cast_int List.filter].
  split; [|done]. exists ids. split_and!; [done..|].
  intros u Hu. apply mapM_Some in Ens.
  apply list_elem_of_lookup in Hu as [j Hj].
  destruct (Forall2_lookup_l _ _ _ _ _ Ens Hj) as (nk & _ & Hnk). by exists nk.
Qed.

Lemma rec_node_id n d T w :
  rec n d = Some (DART_OK, T, w) -> node_id T = node_id d.
Proof.
  destruct n; [done|]. intros H.
  destruct (rec_inv _ _ _ _ H) as (d1 & sc & Hl & HT & _).
  rewrite HT. simpl. by destruct (layout_scope _ _ _ Hl) as (_ & ? & _).
Qed.

(** X9: node and module domains take their units from the host topology
    by relative index.  The [i]-th sub-domain of the global domain is of
    node scope, has node id [i], the [i]-th host name of the topology and
    the units of that node; the [i]-th sub-domain of a node domain is of
    module scope, keeps the node id of the node, and has the [i]-th host
    name of the topology, whichever node it is under, and the units of
    the module of that name.  The unit count is the number of unit ids. *)
Theorem node_and_module_units root T w path p i c hostname :
  create_subdomains root topo = Some (DART_OK, T, w) ->
  domain_at T path = Some p ->
  domain_at T (path ++ [i]) = Some c ->
  host_names topo !! i = Some hostname ->
  (scope p = DART_LOCALITY_SCOPE_GLOBAL ->
   scope c = DART_LOCALITY_SCOPE_NODE
   /\ node_id c = Z.of_nat i
   /\ host c = strncpy hostname HOST_MAX
   /\ node_units topo hostname = Some (unit_ids c)
   /\ num_units c = cast_int (Z.of_nat (length (unit_ids c))))
  /\ (scope p = DART_LOCALITY_SCOPE_NODE ->
      scope c = DART_LOCALITY_SCOPE_MODULE
      /\ node_id c = node_id p
      /\ host c = strncpy hostname HOST_MAX
      /\ module_units topo hostname = Some (unit_ids c)
      /\ num_units c = cast_int (Z.of_nat (length (unit_ids c)))).
Proof.
  intros H Hp Hc Hh.
  destruct (domain_at_snoc _ _ _ _ Hc) as (p' & l & Hp' & Hl & Hi).
  rewrite Hp in Hp'. injection Hp' as <-.
  destruct (built_node _ _ _ _ _ _ H Hp) as (k & dp & wp & Hr & _).
  destruct k as [|k]; [done|].
  destruct (rec_inv _ _ _ _ Hr) as (d1 & sc & Hlay & HT & Hk).
  rewrite Hl in Hk. destruct Hk as (_ & _ & Hk).
  destruct (Hk _ _ Hi) as (_ & sub & w0 & w' & Hsub & Hrc).
  destruct (rec_fields _ _ _ _ Hr) as (_ & _ & Hsp & _).
  pose proof (rec_node_id _ _ _ _ Hr) as Hnp.
  destruct (rec_fields _ _ _ _ Hrc)
    as (_ & _ & Hsc & _ & Hids & Hri & Hnu & _).
  destruct (rec_scope _ _ _ _ Hrc) as [_ Hhc].
  pose proof (rec_node_id _ _ _ _ Hrc) as Hnc.
  destruct (init_sub_fields _ _ _ _ _ Hsub) as (_ & _ & Hss & Hrel).
  destruct (layout_fields _ _ _ Hlay) as (_ & _ & Hs1 & _).
  destruct (layout_scope _ _ _ Hlay) as (_ & Hn1 & _).
  assert (Harr : array_at (host_names topo) (Z.of_nat i) = Some hostname)
    by (by rewrite array_at_nat).
  split; intros Hs; rewrite Hs in Hsp; rewrite <- Hsp in Hs1.
  - assert (sc = DART_LOCALITY_SCOPE_NODE) as ->.
    { apply layout_inv in Hlay. rewrite <- Hsp in Hlay. by destruct Hlay. }
    rewrite Hss in Hsc. split; [done|].
    rewrite Hnc, Hhc, Hids, Hnu by (by rewrite Hss).
    revert Hsub. unfold init_subdomain. rewrite Hs1.
    unfold dart__base__locality__create_global_subdomain.
    rewrite Harr. cbn [mbind option_bind].
    destruct (node_units topo hostname) as [ids|]; [|done].
    cbn -[cast_int]. intros [= <- _]. cbn -[cast_int]. done.
  - assert (sc = DART_LOCALITY_SCOPE_MODULE) as ->.
    { apply layout_inv in Hlay. rewrite <- Hsp in Hlay. by destruct Hlay. }
    rewrite Hss in Hsc. split; [done|].
    rewrite Hnc, Hhc, Hids.
    (* the unit count of a module domain is set again when its own
       sub-domains are laid out *)
    assert (exists ids, module_units topo hostname = Some ids
                        /\ num_units c = cast_int (Z.of_nat (length ids)))
      as (ids & Hmu & ->).
    { destruct k as [|k]; [done|].
      destruct (rec_inv _ _ _ _ Hrc) as (c1 & sc1 & Hlc & HTc & _).
      rewrite HTc. apply layout_inv in Hlc. rewrite Hss in Hlc.
      destruct Hlc as (h & ids & Hh' & Hmu & -> & _).
      rewrite Hrel, Harr in Hh'. injection Hh' as <-.
      exists ids. split; [done|]. cbn -[cast_int]. done. }
    revert Hsub. unfold init_subdomain. rewrite Hs1.
    unfold dart__base__locality__create_node_subdomain.
    rewrite Harr. cbn [mbind option_bind]. rewrite Hmu.
    cbn -[cast_int]. intros [= <- _]. cbn -[cast_int]. by rewrite Hn1, Hnp.
Qed.

Lemma elem_of_concat {A} (x : A) (ls : list (list A)) :
  x ∈ concat ls <-> exists l, l ∈ ls /\ x ∈ l.
Proof.
  induction ls as [|l ls IH]; simpl.
  - split; [by intros ?%elem_of_nil|]. by intros (l & ?%elem_of_nil & _).
  - rewrite elem_of_app, IH. split.
    + intros [?|(l' & ? & ?)]; [exists l|exists l']; split; auto; by constructor.
    + intros (l' & [->|?]%elem_of_cons & ?); eauto.
Qed.

(** The writes a cell makes when it is initialised: one per unit of a
    cell below a NUMA domain, with the tag of the cell. *)
Lemma init_sub_writes d1 sc i sub w0 u tag :
  init_sub d1 sc i = Some (sub, w0) ->
  (u, tag) ∈ w0
  <-> scope d1 = DART_LOCALITY_SCOPE_NUMA
      /\ tag = domain_tag sub
      /\ u ∈ unit_ids sub.
Proof.
  unfold init_subdomain,
    dart__base__locality__create_global_subdomain,
    dart__base__locality__create_node_subdomain,
    dart__base__locality__create_module_subdomain,
    dart__base__locality__create_numa_subdomain.
  destruct (scope d1) eqn:Es; intros Hsub; simplify_option_eq;
    try (split; [by intros ?%elem_of_nil|by intros [? _]]).
  rewrite list_elem_of_fmap. split.
  - intros (v & [= -> ->] & Hv). done.
  - intros (_ & -> & Hu). eauto.
Qed.

Lemma rec_writes n : forall d T w u tag,
  rec n d = Some (DART_OK, T, w) ->
  (u, tag) ∈ w
  <-> exists path leaf,
        path <> [] /\ domain_at T path = Some leaf
        /\ scope leaf = DART_LOCALITY_SCOPE_CORE
        /\ domain_tag leaf = tag /\ u ∈ unit_ids leaf.
Proof.
  induction n as [|n IH]; intros d T w u tag H; [done|].
  destruct (rec_inv_w _ _ _ _ H) as (d1 & sc & Hl & HT & Hk).
  destruct (domains T) as [l|] eqn:Ed.
  2:{ destruct Hk as [_ ->]. split; [by intros ?%elem_of_nil|].
      intros (path & leaf & Hp & Hx & _). destruct path; [done|].
      simpl in Hx. by rewrite Ed in Hx. }
  destruct Hk as (ws & -> & Hlen & Hk).
  assert (Hcore : sc = DART_LOCALITY_SCOPE_CORE
                  <-> scope d1 = DART_LOCALITY_SCOPE_NUMA).
  { destruct (layout_fields _ _ _ Hl) as (_ & _ & -> & _).
    apply layout_inv in Hl. revert Hl.
    destruct (scope d) eqn:Es; [done|..]; intros Hl.
    3:destruct Hl as (? & ? & _ & _ & Hl).
    all: by destruct Hl as [_ ->]. }
  rewrite elem_of_concat. split.
  - intros (wi & Hwi & Hu). apply list_elem_of_lookup in Hwi as [i Hwi].
    destruct (lookup_lt_is_Some_2 l i) as [c Hc].
    { rewrite <- Hlen. by eapply lookup_lt_Some. }
    destruct (Hk _ _ _ Hc Hwi) as (sub & w0 & w' & Hsub & Hr & ->).
    apply elem_of_app in Hu as [Hu|Hu].
    + apply (init_sub_writes _ _ _ _ _ _ _ Hsub) in Hu as (Hs & -> & Hu).
      destruct (rec_fields _ _ _ _ Hr) as (Ht & _ & Hsc & _ & Hids & _).
      destruct (init_sub_fields _ _ _ _ _ Hsub) as (_ & _ & Hss & _).
      exists [i], c. simpl. rewrite Ed, Hc. split_and!; try done.
      * rewrite Hsc, Hss. by apply Hcore.
      * by rewrite Hids.
    + apply (IH _ _ _ _ _ Hr) in Hu as (p & leaf & Hp & Hx & ?).
      exists (i :: p), leaf. simpl. rewrite Ed, Hc. done.
  - intros (path & leaf & Hp & Hx & Hs & Ht & Hu).
    destruct path as [|i p]; [done|]. simpl in Hx. rewrite Ed in Hx.
    destruct (l !! i) as [c|] eqn:Hc; [|done].
    destruct (lookup_lt_is_Some_2 ws i) as [wi Hwi].
    { rewrite Hlen. by eapply lookup_lt_Some. }
    destruct (Hk _ _ _ Hc Hwi) as (sub & w0 & w' & Hsub & Hr & ->).
    exists (w0 ++ w'). split.
    { by eapply list_elem_of_lookup_2. }
    apply elem_of_app. destruct p as [|j p].
    + left. simpl in Hx. simplify_eq.
      destruct (rec_fields _ _ _ _ Hr) as (Ht & _ & Hsc & _ & Hids & _).
      destruct (init_sub_fields _ _ _ _ _ Hsub) as (_ & _ & Hss & _).
      apply (init_sub_writes _ _ _ _ _ _ _ Hsub). split_and!.
      * apply Hcore. by rewrite <- Hss, <- Hsc.
      * done.
      * by rewrite <- Hids.
    + right. apply (IH _ _ _ _ _ Hr). exists (j :: p), leaf. done.
Qed.

(** X6: the writes that [create_subdomains] makes to the unit locality
    map are, for every domain of core scope, the tag of that domain for
    each of its units, and nothing else. *)
Theorem unit_map_writes root T w u tag :
  scope root = DART_LOCALITY_SCOPE_GLOBAL ->
  create_subdomains root topo = Some (DART_OK, T, w) ->
  (u, tag) ∈ w
  <-> exists path leaf,
        domain_at T path = Some leaf
        /\ scope leaf = DART_LOCALITY_SCOPE_CORE
        /\ domain_tag leaf = tag /\ u ∈ unit_ids leaf.
Proof.
  intros Hg H. rewrite (rec_writes _ _ _ _ u tag H). split.
  - intros (path & leaf & _ & ?). eauto.
  - intros (path & leaf & Hx & Hs & ?). exists path, leaf. split; [|done].
    intros ->. simpl in Hx. simplify_eq.
    destruct (rec_fields _ _ _ _ H) as (_ & _ & Hsc & _). congruence.
Qed.

(** X7: start-up followed by shut-down.  When every collaborator returns
    [DART_OK] ([dart_hwinfo], [dart_size],
    [dart__base__unit_locality__init], the unit locality of every unit of
    the team, the host topology, and the units of its hosts) and the
    node and module counts are at most the number of host names,
    [dart__base__locality__init] returns [DART_OK] for every hardware
    description, host name and team size;
    [dart__base__locality__finalize] on the tree it built returns what
    the release of the host topology returns and leaves the root without
    children, and so does a second call, with what the release of the
    host topology returns then. *)
Theorem init_then_finalize hw hostname size num_modules
    topology_delete topology_delete' :
  (forall u, u ∈ loop_range size -> is_Some (unit_numa_id u)) ->
  hosts_known node_units module_units unit_numa_id HOST_MAX topo ->
  cast_int (topo_num_nodes topo) <= Z.of_nat (length (host_names topo)) ->
  cast_int num_modules <= Z.of_nat (length (host_names topo)) ->
  exists root w root',
    dart__base__locality__init node_units module_units unit_numa_id HOST_MAX
      uninit (Some hw) hostname (Some size) DART_OK (Some topo) num_modules
    = Some (DART_OK, root, w)
    /\ dart__base__locality__finalize root topology_delete
       = Some (topology_delete, root')
    /\ domains root' = None /\ num_domains root' = 0
    /\ dart__base__locality__finalize root' topology_delete'
       = Some (topology_delete', root').
Proof.
  intros Hu Hk Hn Hm. unfold dart__base__locality__init.
  cbn [mbind option_bind].
  destruct (mapM_all_Some unit_numa_id (loop_range size) Hu) as [ns ->].
  cbn [mbind option_bind].
  set (root0 := domain_root_init _ _ _ _ _ _).
  destruct (create_subdomains_total root0) as (T & w & H); [done| |done|].
  { unfold reads_in_range. cbn -[cast_int]. split; [done|].
    by rewrite (cast_int_id (cast_int num_modules)) by apply cast_int_range. }
  rewrite H. exists T, w, (set_num_domains 0 (set_domains None T)).
  destruct (domain_delete_built node_units module_units unit_numa_id HOST_MAX
              uninit topo _ _ _ _ H) as [f Hf].
  unfold dart__base__locality__finalize. rewrite Hf.
  split_and!; done.
Qed.

End BuildShape.

(** ** Setting the sub-domains of a node *)

Lemma loop_range_lookup_lt n i :
  Z.of_nat i < n -> loop_range n !! i = Some (Z.of_nat i).
Proof.
  intros Hi. unfold loop_range. rewrite list_lookup_fmap.
  rewrite lookup_seq_lt by lia. done.
Qed.

(** A write through the address of a node changes the subtree below that
    address and nothing else. *)
Lemma update_at_spec f : forall path T d,
  domain_at T path = Some d ->
  exists T',
    update_at T path f = Some T'
    /\ (forall r, domain_at T' (path ++ r) = domain_at (f d) r)
    /\ (tree_tight T -> tree_tight (f d) -> tree_tight T').
Proof.
  induction path as [|i p IH]; intros T d Hd.
  { simpl in Hd. simplify_eq. exists (f d). simpl. split_and!; done. }
  simpl in Hd. destruct (domains T) as [l|] eqn:Hl; [|done].
  destruct (l !! i) as [c|] eqn:Hc; [|done].
  destruct (IH c d Hd) as (c' & Hu & Hat & Ht).
  assert (Hlt : (i < length l)%nat) by (by eapply lookup_lt_Some).
  exists (set_domains (Some (<[i:=c']> l)) T). simpl. rewrite Hl, Hc, Hu.
  split_and!; [done| |].
  - intros r. rewrite list_lookup_insert_eq by done. apply Hat.
  - intros HT Hfd q x Hx. destruct q as [|j q].
    + simpl in Hx. simplify_eq. destruct (HT [] T eq_refl) as [Hn Hlen].
      rewrite Hl in Hlen. split; simpl; [done|]. by rewrite length_insert.
    + simpl in Hx. destruct (decide (i = j)) as [<-|Hne].
      * rewrite list_lookup_insert_eq in Hx by done.
        refine (Ht _ Hfd q x Hx).
        intros q' x' Hx'. apply (HT (i :: q')). simpl. by rewrite Hl, Hc.
      * rewrite list_lookup_insert_ne in Hx by done.
        apply (HT (j :: q)). simpl. by rewrite Hl.
Qed.

Section SetSubdomainsFacts.

Variable node_units : dart_host_topology_t -> string -> option (list Z).
Variable module_units : dart_host_topology_t -> string -> option (list Z).
Variable unit_numa_id : Z -> option Z.
Variable HOST_MAX : nat.
Variable uninit : dart_domain_locality_t.
Variable topo : dart_host_topology_t.
Variable malloc_zero_null : bool.

Abbreviation create_subdomains :=
  (dart__base__locality__create_subdomains node_units module_units unit_numa_id
     HOST_MAX uninit).
Abbreviation set_subdomains :=
  (dart__base__locality__set_subdomains malloc_zero_null).

(** The cell that [set_subdomains] makes of an entry of the caller's
    array. *)
Let new_cell (d c : dart_domain_locality_t) : dart_domain_locality_t :=
  set_domains None (set_num_domains 0 (set_level (level d + 1) c)).

Lemma set_subdomains_tight T path d subdomains n :
  tree_tight T ->
  domain_at T path = Some d ->
  0 < n < 2 ^ 31 ->
  (Z.to_nat n <= length subdomains)%nat ->
  exists T',
    set_subdomains T (render_path path) subdomains n = Some (DART_OK, T')
    /\ tree_tight T'
    /\ (exists d', domain_at T' path = Some d'
                   /\ d' = set_domains (domains d') (set_num_domains n d)
                   /\ num_domains d' = n)
    /\ (forall i, domain_at T' (path ++ [i])
                  = if decide (Z.of_nat i < n)
                    then new_cell d <$> subdomains !! i
                    else None).
Proof.
  intros HT Hd Hn Hlen.
  unfold dart__base__locality__set_subdomains.
  rewrite (domain_spec T path HT (tight_path_small _ _ _ HT Hd)), Hd. simpl.
  rewrite Hd. simpl.
  destruct (mapM (fun subdom_idx : Z =>
                    c ← subdomains !! Z.to_nat subdom_idx;
                    Some (set_domains None (set_num_domains 0
                            (set_level (level d + 1) c))))
                 (loop_range n)) as [cells|] eqn:Em.
  2:{ exfalso. apply mapM_None_1, list.Exists_exists in Em as (x & Hx & Hnone).
      apply list_elem_of_lookup in Hx as [i Hx].
      apply loop_range_lookup in Hx as [-> Hi].
      rewrite Nat2Z.id in Hnone.
      destruct (lookup_lt_is_Some_2 subdomains i ltac:(lia)) as [c Hc].
      by rewrite Hc in Hnone. }
  simpl.
  assert (Hcells : forall i, cells !! i
                   = if decide (Z.of_nat i < n)
                     then new_cell d <$> subdomains !! i else None).
  { intros i. apply mapM_Some in Em. destruct (decide (Z.of_nat i < n)) as [Hi|Hi].
    - destruct (Forall2_lookup_l _ _ _ i _ Em (loop_range_lookup_lt n i Hi))
        as (y & Hy & Hf).
      rewrite Nat2Z.id in Hf. rewrite Hy.
      destruct (subdomains !! i); simpl in *; by simplify_eq.
    - apply lookup_ge_None_2. apply list.Forall2_length in Em.
      rewrite <- Em, loop_range_length. lia. }
  assert (Hclen : length cells = Z.to_nat n).
  { apply length_mapM in Em. by rewrite <- Em, loop_range_length. }
  set (f := fun domain : dart_domain_locality_t =>
              set_domains (malloc_subdomains malloc_zero_null n cells)
                (set_num_domains n domain)).
  destruct (update_at_spec f path T d Hd) as (T' & Hu & Hat & Ht).
  rewrite Hu. simpl. exists T'.
  assert (Hfd : domains (f d) = Some cells).
  { unfold f, malloc_subdomains. simpl. destruct (0 <? n) eqn:E; [done|lia]. }
  split_and!; [done| | |].
  - apply Ht; [done|]. intros q x Hx. destruct q as [|i q].
    + cbn [domain_at] in Hx. simplify_eq. split; [simpl; lia|]. rewrite Hfd. done.
    + cbn [domain_at] in Hx. rewrite Hfd, Hcells in Hx.
      destruct (decide (Z.of_nat i < n)); [|done].
      destruct (subdomains !! i) as [c|]; [|done]. simpl in Hx.
      destruct q; simpl in Hx; [|done]. simplify_eq. split; simpl; done || lia.
  - exists (f d). specialize (Hat []). rewrite app_nil_r in Hat.
    split_and!; [done| |done]. unfold f. by destruct d.
  - intros i. rewrite Hat. cbn [domain_at]. rewrite Hfd, Hcells.
    destruct (decide (Z.of_nat i < n)); [|done].
    by destruct (subdomains !! i).
Qed.

(** X8: [set_subdomains] and the lookup.  On a tree that
    [create_subdomains] built, with the tag that spells the path of a
    domain [d], a positive count [n] and an array of at least [n]
    sub-domains, the call returns [DART_OK]; afterwards the [i]-th child
    of [d] is the [i]-th entry of the array, one level below [d] and
    without children of its own, the lookup of the tag of [d] extended by
    ".i" returns its address for [i < n] and [DART_ERR_INVAL] for
    [i >= n].  With a tag that spells a path which leaves the tree, the
    call returns [DART_ERR_INVAL] and the tree is as it was. *)
Theorem set_subdomains_lookup root T w path d subdomains n :
  create_subdomains root topo = Some (DART_OK, T, w) ->
  domain_at T path = Some d ->
  0 < n < 2 ^ 31 ->
  (Z.to_nat n <= length subdomains)%nat ->
  exists T',
    set_subdomains T (render_path path) subdomains n = Some (DART_OK, T')
    /\ (forall i c,
          Z.of_nat i < n -> subdomains !! i = Some c ->
          domain_at T' (path ++ [i])
          = Some (set_domains None (set_num_domains 0
                    (set_level (level d + 1) c))))
    /\ (forall i,
          Z.of_nat i < 2 ^ 31 ->
          dart__base__locality__domain T' (render_path (path ++ [i]))
          = Some (if decide (Z.of_nat i < n)
                  then (DART_OK, Some (DAt (path ++ [i])))
                  else (DART_ERR_INVAL, None)))
    /\ (forall path',
          Forall (fun i => Z.of_nat i < 2 ^ 31) path' ->
          domain_at T path' = None ->
          set_subdomains T (render_path path') subdomains n
          = Some (DART_ERR_INVAL, T)).
Proof.
  intros H Hd Hn Hlen.
  assert (HT : tree_tight T)
    by exact (built_tight node_units module_units unit_numa_id HOST_MAX uninit
                topo _ _ _ _ H).
  destruct (set_subdomains_tight T path d subdomains n HT Hd Hn Hlen)
    as (T' & Hset & HT' & (d' & Hd' & _) & Hch).
  exists T'. split_and!; [done| | |].
  - intros i c Hi Hc. rewrite Hch, Hc. by destruct (decide (Z.of_nat i < n)).
  - intros i Hi. rewrite (domain_spec T' _ HT').
    2:{ apply list.Forall_app. split; [by eapply tight_path_small|].
        by apply list.Forall_singleton. }
    rewrite Hch. destruct (decide (Z.of_nat i < n)) as [Hlt|]; [|done].
    destruct (lookup_lt_is_Some_2 subdomains i ltac:(lia)) as [c ->]. done.
  - intros path' Hsm Hnone. unfold dart__base__locality__set_subdomains.
    by rewrite (domain_spec T path' HT Hsm), Hnone.
Qed.

End SetSubdomainsFacts.

(** ** Unit locality *)

Section UnitLocalityFacts.

Variable DART_UNDEFINED_UNIT_ID : Z.
Variable HOST_MAX : nat.
Variable DART__ARCH__IS_MIC : bool.
Variable hwloc_n_cpus : option Z.

Abbreviation local_unit_new :=
  (dart__base__locality__local_unit_new DART_UNDEFINED_UNIT_ID HOST_MAX
     DART__ARCH__IS_MIC hwloc_n_cpus).

(** X10: [local_unit_new] on a descriptor.  Unless hwloc counts
    processing units while the global domain has a core count of zero (a
    division by zero), the call returns [DART_OK] with a descriptor that
    does not depend on what the descriptor held before: the unit is the
    calling unit, the tag is ".", the host is the host of the global
    domain, the core count is 1, the thread counts are at least 1 and the
    NUMA id is not negative. *)
Theorem local_unit_new_normalised myid hwinfo dloc loc :
  (forall n, hwloc_n_cpus = Some n -> 0 < n ->
             num_cores (Locality.hwinfo dloc) <> 0) ->
  exists l,
    local_unit_new myid hwinfo dloc (Some loc) = Some (DART_OK, Some l)
    /\ (forall loc0,
          local_unit_new myid hwinfo dloc (Some loc0) = Some (DART_OK, Some l))
    /\ ul_unit l = myid
    /\ ul_domain_tag l = "."%string
    /\ ul_host l = strncpy (host dloc) HOST_MAX
    /\ num_cores (ul_hwinfo l) = 1
    /\ 1 <= min_threads (ul_hwinfo l)
    /\ 1 <= max_threads (ul_hwinfo l)
    /\ 0 <= numa_id (ul_hwinfo l).
Proof.
  intros Hdiv. unfold dart__base__locality__local_unit_new. simpl.
  destruct hwloc_n_cpus as [n|] eqn:Eh; simpl.
  - destruct (0 <? n) eqn:E0; simpl.
    + destruct (num_cores (Locality.hwinfo dloc) =? 0) eqn:Ec.
      { exfalso. apply (Hdiv n eq_refl); lia. }
      simpl. destruct DART__ARCH__IS_MIC; simpl;
        repeat match goal with
               | |- context [if ?b then _ else _] => destruct b eqn:?; simpl
               end;
        eexists; split_and!; try reflexivity; simpl in *; try lia; try done.
    + destruct DART__ARCH__IS_MIC; simpl;
        repeat match goal with
               | |- context [if ?b then _ else _] => destruct b eqn:?; simpl
               end;
        eexists; split_and!; try reflexivity; simpl in *; try lia; try done.
  - destruct DART__ARCH__IS_MIC; simpl;
      repeat match goal with
             | |- context [if ?b then _ else _] => destruct b eqn:?; simpl
             end;
      eexists; split_and!; try reflexivity; simpl in *; try lia; try done.
Qed.

End UnitLocalityFacts.

(** ** The theorems on the concrete machine *)

Lemma example_hosts_known :
  hosts_known example_units example_units example_numa_id 16 example_topology.
Proof.
  intros h [->|[->|[]%elem_of_nil]%elem_of_cons]%elem_of_cons;
    (split_and!; [eexists; vm_compute; reflexivity..|]);
    eexists; (split; [vm_compute; reflexivity|]);
    intros u Hu; repeat (apply elem_of_cons in Hu as [->|Hu];
                         [eexists; vm_compute; reflexivity|]);
    by apply elem_of_nil in Hu.
Qed.

(** Reads outside the arrays: the build on a NUMA domain whose unit count
    exceeds its unit ids, and the start-up on a topology with more nodes
    than host names, are undefined behaviour and have no result. *)
Lemma reads_outside_the_arrays :
  dart__base__locality__create_subdomains example_units example_units
    example_numa_id 16 example_uninit example_numa_without_ids
    example_topology = None
  /\ dart__base__locality__init example_units example_units example_numa_id
       16 example_uninit (Some example_hwinfo) "h1" (Some 8) DART_OK
       (Some example_short_topology) 1 = None.
Proof. vm_compute. done. Qed.

Lemma create_subdomains_return_code_witness :
  exists T w,
    dart__base__locality__create_subdomains example_units example_units
      example_numa_id 16 example_uninit example_root example_topology
    = Some (DART_OK, T, w).
Proof.
  refine (proj2 (create_subdomains_return_code example_units example_units
                   example_numa_id 16 example_uninit example_topology
                   example_root) _ _ _).
  - discriminate.
  - exact example_hosts_known.
  - vm_compute. split; discriminate.
Defined.

Lemma init_then_finalize_witness :
  exists root w root',
    dart__base__locality__init example_units example_units example_numa_id 16
      example_uninit (Some example_hwinfo) "h1" (Some 8) DART_OK
      (Some example_topology) 1
    = Some (DART_OK, root, w)
    /\ dart__base__locality__finalize root DART_OK = Some (DART_OK, root')
    /\ domains root' = None /\ num_domains root' = 0
    /\ dart__base__locality__finalize root' DART_ERR_INVAL
       = Some (DART_ERR_INVAL, root').
Proof.
  refine (init_then_finalize example_units example_units example_numa_id 16
            example_uninit example_topology example_hwinfo "h1" 8 1
            DART_OK DART_ERR_INVAL _ _ _ _).
  - intros u Hu. change (loop_range 8) with [0; 1; 2; 3; 4; 5; 6; 7] in Hu.
    repeat (apply elem_of_cons in Hu as [->|Hu];
            [eexists; vm_compute; reflexivity|]).
    by apply elem_of_nil in Hu.
  - exact example_hosts_known.
  - vm_compute. discriminate.
  - vm_compute. discriminate.
Defined.

Lemma built_tree_shape_witness :
  (length [1; 0; 1; 0]%nat <= 4)%nat
  /\ scope (example_at [1; 0; 1; 0]%nat) = scope_at_depth 4
  /\ level (example_at [1; 0; 1; 0]%nat) = level example_root + Z.of_nat 4
  /\ (0 <= num_domains (example_at [1; 0; 1; 0]%nat) ->
      match domains (example_at [1; 0; 1; 0]%nat) with
      | None => num_domains (example_at [1; 0; 1; 0]%nat) = 0
      | Some l => Z.of_nat (length l) = num_domains (example_at [1; 0; 1; 0]%nat)
                  /\ 0 < num_domains (example_at [1; 0; 1; 0]%nat)
      end)
  /\ (scope (example_at [1; 0; 1; 0]%nat) = DART_LOCALITY_SCOPE_CORE ->
      num_domains (example_at [1; 0; 1; 0]%nat) = 0
      /\ domains (example_at [1; 0; 1; 0]%nat) = None).
Proof.
  refine (built_tree_shape example_units example_units example_numa_id 16
            example_uninit example_topology example_root example_tree
            example_writes [1; 0; 1; 0]%nat (example_at [1; 0; 1; 0]%nat) _ _ _);
    vm_compute; reflexivity.
Defined.

Lemma built_tree_tags_witness :
  domain_tag (example_at [1; 0; 1]%nat) = ".1.0.1"%string
  /\ relative_index (example_at [1; 0; 1]%nat) = Z.of_nat 1.
Proof.
  refine (built_tree_tags example_units example_units example_numa_id 16
            example_uninit example_topology example_root example_tree
            example_writes [1; 0]%nat 1%nat (example_at [1; 0; 1]%nat) _ _ _);
    vm_compute; reflexivity.
Defined.

Lemma domain_lookup_built_witness :
  dart__base__locality__domain example_tree ".0.2"
  = Some (DART_ERR_INVAL, None).
Proof.
  refine (domain_lookup_built example_units example_units example_numa_id 16
            example_uninit example_topology example_root example_tree
            example_writes [0; 2]%nat _ _).
  - vm_compute. reflexivity.
  - repeat constructor.
Defined.

Lemma numa_domain_units_witness :
  scope (example_at [0; 0; 1]%nat) = DART_LOCALITY_SCOPE_NUMA
  /\ (exists ids,
        example_units example_topology (host (example_at [0; 0]%nat)) = Some ids
        /\ unit_ids (example_at [0; 0; 1]%nat)
           = List.filter (fun u => match example_numa_id u with
                                   | Some n => n =? Z.of_nat 1
                                   | None => false
                                   end) ids
        /\ forall u, u ∈ ids -> is_Some (example_numa_id u))
  /\ num_units (example_at [0; 0; 1]%nat)
     = cast_int (Z.of_nat (length (unit_ids (example_at [0; 0; 1]%nat)))).
Proof.
  refine (numa_domain_units example_units example_units example_numa_id 16
            example_uninit example_topology example_root example_tree
            example_writes [0; 0]%nat (example_at [0; 0]%nat) 1%nat
            (example_at [0; 0; 1]%nat) _ _ _ _);
    vm_compute; reflexivity.
Defined.

Lemma node_and_module_units_witness :
  (scope (example_at [1]%nat) = DART_LOCALITY_SCOPE_GLOBAL ->
   scope (example_at [1; 0]%nat) = DART_LOCALITY_SCOPE_NODE
   /\ node_id (example_at [1; 0]%nat) = Z.of_nat 0
   /\ host (example_at [1; 0]%nat) = strncpy "h1" 16
   /\ example_units example_topology "h1" = Some (unit_ids (example_at [1; 0]%nat))
   /\ num_units (example_at [1; 0]%nat)
      = cast_int (Z.of_nat (length (unit_ids (example_at [1; 0]%nat)))))
  /\ (scope (example_at [1]%nat) = DART_LOCALITY_SCOPE_NODE ->
      scope (example_at [1; 0]%nat) = DART_LOCALITY_SCOPE_MODULE
      /\ node_id (example_at [1; 0]%nat) = node_id (example_at [1]%nat)
      /\ host (example_at [1; 0]%nat) = strncpy "h1" 16
      /\ example_units example_topology "h1"
         = Some (unit_ids (example_at [1; 0]%nat))
      /\ num_units (example_at [1; 0]%nat)
         = cast_int (Z.of_nat (length (unit_ids (example_at [1; 0]%nat))))).
Proof.
  refine (node_and_module_units example_units example_units example_numa_id 16
            example_uninit example_topology example_root example_tree
            example_writes [1]%nat (example_at [1]%nat) 0%nat
            (example_at [1; 0]%nat) "h1" _ _ _ _);
    vm_compute; reflexivity.
Defined.

Lemma unit_map_writes_witness :
  (3, ".1.0.1.1"%string) ∈ example_writes
  <-> exists path leaf,
        domain_at example_tree path = Some leaf
        /\ scope leaf = DART_LOCALITY_SCOPE_CORE
        /\ domain_tag leaf = ".1.0.1.1"%string /\ 3 ∈ unit_ids leaf.
Proof.
  refine (unit_map_writes example_units example_units example_numa_id 16
            example_uninit example_topology example_root example_tree
            example_writes 3 ".1.0.1.1" _ _);
    vm_compute; reflexivity.
Defined.

Lemma set_subdomains_lookup_witness :
  exists T',
    dart__base__locality__set_subdomains false example_tree ".1.0.1.0"
      example_subdomains 2 = Some (DART_OK, T')
    /\ (forall i c,
          Z.of_nat i < 2 -> example_subdomains !! i = Some c ->
          domain_at T' ([1; 0; 1; 0]%nat ++ [i])
          = Some (set_domains None (set_num_domains 0
                    (set_level (level (example_at [1; 0; 1; 0]%nat) + 1) c))))
    /\ (forall i,
          Z.of_nat i < 2 ^ 31 ->
          dart__base__locality__domain T' (render_path ([1; 0; 1; 0]%nat ++ [i]))
          = Some (if decide (Z.of_nat i < 2)
                  then (DART_OK, Some (DAt ([1; 0; 1; 0]%nat ++ [i])))
                  else (DART_ERR_INVAL, None)))
    /\ (forall path',
          Forall (fun i => Z.of_nat i < 2 ^ 31) path' ->
          domain_at example_tree path' = None ->
          dart__base__locality__set_subdomains false example_tree
            (render_path path') example_subdomains 2
          = Some (DART_ERR_INVAL, example_tree)).
Proof.
  refine (set_subdomains_lookup example_units example_units example_numa_id 16
            example_uninit example_topology false example_root
            example_tree example_writes [1; 0; 1; 0]%nat
            (example_at [1; 0; 1; 0]%nat) example_subdomains 2 _ _ _ _).
  - vm_compute. reflexivity.
  - vm_compute. reflexivity.
  - lia.
  - simpl. lia.
Defined.

Lemma local_unit_new_normalised_witness :
  exists l,
    dart__base__locality__local_unit_new (-1) 16 false (Some 8) 5 example_hwinfo
      example_tree (Some example_unit_locality) = Some (DART_OK, Some l)
    /\ (forall loc0,
          dart__base__locality__local_unit_new (-1) 16 false (Some 8) 5
            example_hwinfo example_tree (Some loc0) = Some (DART_OK, Some l))
    /\ ul_unit l = 5
    /\ ul_domain_tag l = "."%string
    /\ ul_host l = strncpy (host example_tree) 16
    /\ num_cores (ul_hwinfo l) = 1
    /\ 1 <= min_threads (ul_hwinfo l)
    /\ 1 <= max_threads (ul_hwinfo l)
    /\ 0 <= numa_id (ul_hwinfo l).
Proof.
  refine (local_unit_new_normalised (-1) 16 false (Some 8) 5 example_hwinfo
            example_tree example_unit_locality _).
  intros n [= <-] _. vm_compute. discriminate.
Defined.

End LocalityFacts.

(* ====================================================================== *)
(** * Facts about the data dependencies                                     *)
(* ====================================================================== *)

Module DatadepsFacts.
Import Datadeps.

(** C7: the slot of a global pointer whose absolute offset is [addr] is
    [((addr>>3) ^ (addr>>10) ^ (addr>>14) ^ (addr>>20)) mod 1024], a slot
    of the table of [DART_DEPHASH_SIZE = 1024] cells. *)
Theorem C7_hash_gptr g :
  0 <= addr_or_offs g < 2 ^ 64 ->
  let addr := addr_or_offs g in
  hash_gptr g
  = Z.lxor (Z.lxor (Z.lxor (Z.shiftr addr 3) (Z.shiftr addr 10)) (Z.shiftr addr 14))
           (Z.shiftr addr 20) mod 1024
  /\ DART_DEPHASH_SIZE = 1024
  /\ 0 <= hash_gptr g < DART_DEPHASH_SIZE.
Proof.
  intros Hr addr. unfold hash_gptr, cast_u64, DART_DEPHASH_SIZE.
  rewrite (Z.mod_small (addr_or_offs g)) by done. fold addr.
  rewrite !Z.shiftr_shiftr by lia. simpl (3 + _).
  set (x := Z.lxor _ _).
  pose proof (Z.mod_pos_bound x 1024 ltac:(lia)).
  rewrite cast_int_id by lia. auto.
Qed.

Lemma C7_witness :
  let g := mk_gptr 0 0 0 32768 in
  hash_gptr g
  = Z.lxor (Z.lxor (Z.lxor (Z.shiftr 32768 3) (Z.shiftr 32768 10)) (Z.shiftr 32768 14))
           (Z.shiftr 32768 20) mod 1024
  /\ DART_DEPHASH_SIZE = 1024
  /\ 0 <= hash_gptr g < DART_DEPHASH_SIZE.
Proof. apply (C7_hash_gptr (mk_gptr 0 0 0 32768)). simpl. lia. Defined.

(** C8: a remote dependency whose kind is not [DART_DEP_IN] is refused
    with [DART_ERR_INVAL] and the memory of the unit is left as it was: no
    element is added to a slot, to the unhandled list or to a task, and
    nothing is sent. *)
Theorem C8_remote_kind_not_in d remote_task origin s :
  type (dep d) <> DART_DEP_IN ->
  dart_tasking_datadeps_handle_remote_task d remote_task origin s
  = Done DART_ERR_INVAL s.
Proof.
  intros Hk. unfold dart_tasking_datadeps_handle_remote_task, is_in_dep.
  by destruct (type (dep d)).
Qed.

Lemma C8_witness :
  dart_tasking_datadeps_handle_remote_task
    (mk_phase_dep (local_dep DART_DEP_OUT 8192) 3) 9001 1 one_task
  = Done DART_ERR_INVAL one_task.
Proof. apply C8_remote_kind_not_in. simpl. discriminate. Defined.

(** C2: tasks A (OUT), B (IN) and C (OUT) on address 0x8000, phase 0,
    registered in this order on an empty hash: B is a successor of A, C a
    successor of B and of A, and there is no other edge; the counts of
    unresolved dependencies are 0, 1 and 2. *)
Theorem C2_out_in_out :
  exists s,
    register_A_B_C three_tasks = Done DART_OK s
    /\ successor <$> tasks s !! task_A = Some [task_C; task_B]
    /\ successor <$> tasks s !! task_B = Some [task_C]
    /\ successor <$> tasks s !! task_C = Some []
    /\ unresolved_deps <$> tasks s !! task_A = Some 0
    /\ unresolved_deps <$> tasks s !! task_B = Some 1
    /\ unresolved_deps <$> tasks s !! task_C = Some 2
    /\ remote_successor <$> tasks s !! task_A = Some NULL
    /\ remote_successor <$> tasks s !! task_B = Some NULL
    /\ remote_successor <$> tasks s !! task_C = Some NULL
    /\ sent s = [].
Proof.
  destruct (register_A_B_C three_tasks) as [r s| | |] eqn:E;
    try (vm_compute in E; discriminate).
  exists s. revert E. vm_compute.
  intros [= <- <-]. repeat split.
Qed.


(** C3: with two parked requests for the address a task writes, the
    first of an earlier phase and the second of the task's phase, the sweep
    sends the direct dependency for the first and moves the second to the
    task, and the first request is no longer in the unhandled list
    afterwards: the splice of the second goes through a [prev] that was
    not advanced over the first. *)
Theorem C3_kept_request_is_dropped :
  list_of 8 (heap parked_requests) (unhandled_remote_deps parked_requests) = [2; 1]
  /\ phase <$> heap parked_requests !! 2 = Some 2
  /\ phase <$> heap parked_requests !! 1 = Some 4
  /\ exists s,
       requests_then_writer one_task = Done DART_OK s
       /\ sent s = [remote_direct_taskdep 1 task_T 9002]
       /\ unresolved_deps <$> tasks s !! task_T = Some 1
       /\ (list_of 8 (heap s) <$> (remote_successor <$> tasks s !! task_T)) = Some [1]
       /\ list_of 8 (heap s) (unhandled_remote_deps s) = []
       /\ list_of 8 (heap s) (freelist_head s) = [].
Proof.
  split_and!; [vm_compute; reflexivity..|].
  destruct (requests_then_writer one_task) as [r s| | |] eqn:E;
    try (vm_compute in E; discriminate).
  exists s. revert E. vm_compute. intros [= <- <-]. repeat split.
Qed.

Lemma C1_counterexample :
  dart_tasking_datadeps_end_phase 4 parked_requests = Done DART_OK parked_requests
  /\ list_of 8 (heap parked_requests) (unhandled_remote_deps parked_requests) = [2; 1]
  /\ sent parked_requests = [].
Proof. split_and!; vm_compute; reflexivity. Qed.

(** ** Lists in the heap *)

Lemma is_list_functional h p l1 l2 :
  is_list h p l1 -> is_list h p l2 -> l1 = l2.
Proof.
  revert p l2. induction l1 as [|x l1 IH]; intros p [|y l2]; simpl.
  - done.
  - intros -> (<- & Hy & _). done.
  - intros (-> & Hx & _) ->. done.
  - intros (-> & _ & e & He & H1) (<- & _ & e' & He' & H2).
    simplify_eq. f_equal. eauto.
Qed.

Lemma is_list_elem h p l x :
  is_list h p l -> x ∈ l -> x <> NULL /\ is_Some (h !! x).
Proof.
  revert p. induction l as [|y l IH]; intros p; simpl; [by rewrite elem_of_nil|].
  intros (-> & Hy & e & He & Hl). rewrite elem_of_cons. intros [->|Hx]; eauto.
Qed.

Lemma is_list_suffix h p l1 l2 :
  is_list h p (l1 ++ l2) -> exists q, is_list h q l2.
Proof.
  revert p. induction l1 as [|y l1 IH]; intros p; simpl; [eauto|].
  intros (-> & Hy & e & He & Hl). eauto.
Qed.

Lemma is_list_NoDup h p l : is_list h p l -> NoDup l.
Proof.
  revert p. induction l as [|x l IH]; intros p; simpl; [constructor|].
  intros (-> & Hx & e & He & Hl). constructor; [|eauto].
  intros Hin. apply list_elem_of_split in Hin as (l1 & l2 & ->).
  destruct (is_list_suffix _ _ _ _ Hl) as [q Hq]. simpl in Hq.
  destruct Hq as (-> & _ & e' & He' & Hq). simplify_eq.
  pose proof (is_list_functional _ _ _ _ Hl Hq) as Heq.
  apply (f_equal length) in Heq. rewrite length_app in Heq. simpl in Heq. lia.
Qed.

Lemma is_list_insert h p l x e :
  is_list h p l -> x ∉ l -> is_list (<[x := e]> h) p l.
Proof.
  revert p. induction l as [|y l IH]; intros p; simpl; [done|].
  intros (-> & Hy & e' & He' & Hl). rewrite not_elem_of_cons. intros [Hne Hx].
  split_and!; [done..|]. exists e'. rewrite lookup_insert_ne by done. eauto.
Qed.

Lemma is_list_delete h p l x :
  is_list h p l -> x ∉ l -> is_list (delete x h) p l.
Proof.
  revert p. induction l as [|y l IH]; intros p; simpl; [done|].
  intros (-> & Hy & e' & He' & Hl). rewrite not_elem_of_cons. intros [Hne Hx].
  split_and!; [done..|]. exists e'. rewrite lookup_delete_ne by done. eauto.
Qed.

Lemma is_list_length h p l : is_list h p l -> (length l <= size h)%nat.
Proof.
  intros Hl. pose proof (is_list_NoDup _ _ _ Hl) as Hnd.
  rewrite <- size_dom, <- (size_list_to_set (C := gset Z) l) by done.
  apply subseteq_size. intros x Hx. rewrite elem_of_list_to_set in Hx.
  apply elem_of_dom. by eapply is_list_elem.
Qed.

Lemma list_of_is_list h p l n :
  is_list h p l -> (length l < n)%nat -> list_of n h p = l.
Proof.
  revert p n. induction l as [|x l IH]; intros p [|n]; simpl; try lia.
  - by intros ->.
  - intros (-> & Hx & e & He & Hl) Hn.
    destruct (x =? NULL) eqn:E; [unfold NULL in *; lia|].
    rewrite He. f_equal. apply IH; [done|lia].
Qed.

(** ** Recycling *)

Lemma dephash_recycle_elem_eq x e s :
  x <> NULL -> heap s !! x = Some e ->
  dephash_recycle_elem x s
  = Done tt (set_freelist_head x
               (set_heap (<[x := set_next (freelist_head s) zero_elem]> (heap s)) s)).
Proof.
  intros Hx He. unfold dephash_recycle_elem.
  destruct (x =? NULL) eqn:E; [unfold NULL in *; lia|].
  unfold DART_STACK_PUSH, bind, write_elem, lv_freelist_head, load, store, get, modify.
  simpl. rewrite He. simpl. rewrite lookup_insert_eq. simpl.
  by rewrite insert_insert_eq.
Qed.

Lemma release_unhandled_loop_spec l : forall n p s,
  is_list (heap s) p l -> (length l < n)%nat ->
  exists s',
    release_unhandled_loop n p s = Done tt s'
    /\ sent s' = sent s ++ map (release_of (heap s)) l
    /\ unhandled_remote_deps s' = unhandled_remote_deps s
    /\ tasks s' = tasks s /\ local_deps s' = local_deps s
    /\ (forall x, x ∈ l -> exists e, heap s' !! x = Some e /\ zeroed e)
    /\ (forall y, y ∉ l -> heap s' !! y = heap s !! y)
    /\ (forall F, is_list (heap s) (freelist_head s) F ->
          (forall x, x ∈ l -> x ∉ F) ->
          is_list (heap s') (freelist_head s') (rev l ++ F))
    /\ queued s' = queued s.
Proof.
  induction l as [|x l IH]; intros n p s Hl Hn.
  { simpl in Hl. subst p. destruct n; [simpl in Hn; lia|].
    eexists. simpl. split; [reflexivity|]. rewrite app_nil_r.
    split_and!; try done. by intros x ?%elem_of_nil. }
  destruct n as [|n]; [simpl in Hn; lia|].
  pose proof (is_list_NoDup _ _ _ Hl) as Hnd. apply list.NoDup_cons in Hnd as [Hx _].
  destruct Hl as (-> & Hx0 & e & He & Hl).
  cbn [release_unhandled_loop].
  destruct (x =? NULL) eqn:E; [unfold NULL in *; lia|].
  unfold bind at 1. unfold read_elem at 1. rewrite He.
  unfold bind at 1. unfold send, modify.
  unfold bind at 1.
  erewrite dephash_recycle_elem_eq; [|done|exact He].
  match goal with |- context [release_unhandled_loop n (next e) ?s1] =>
    destruct (IH n (next e) s1)
      as (s' & Hrun & Hsent & Hunh & Htk & Hld & Hz & Hfr & HF & Hq)
  end.
  { simpl. by apply is_list_insert. }
  { simpl in Hn. lia. }
  exists s'. split; [done|]. simpl in *. rewrite Hsent, Hunh, Htk, Hld, Hq.
  split_and!; try done.
  - rewrite <- app_assoc. f_equal. simpl. f_equal.
    + unfold release_of. by rewrite He.
    + apply map_ext_in. intros y Hy. unfold release_of.
      rewrite lookup_insert_ne; [done|]. intros ->. apply Hx.
      by apply list_elem_of_In.
  - intros y [->|Hy]%elem_of_cons; [|by apply Hz].
    rewrite Hfr by done. rewrite lookup_insert_eq.
    eexists. split; [done|]. done.
  - intros y [Hyx Hy]%not_elem_of_cons. rewrite Hfr by done.
    by rewrite lookup_insert_ne.
  - intros F HlF Hd. rewrite <- app_assoc. simpl.
    assert (HxF : x ∉ F) by (apply Hd; by left).
    apply HF.
    + simpl. split_and!; [done..|]. eexists.
      rewrite lookup_insert_eq. split; [done|]. simpl. by apply is_list_insert.
    + intros y Hy. rewrite not_elem_of_cons. split.
      * by intros ->.
      * apply Hd. by right.
Qed.

(** C1, as the code has it: [end_phase] returns [DART_OK] and does
    nothing; it is [release_unhandled_remote] that sends one release to the
    origin of every entry of the unhandled list, in list order, recycles
    the entries and leaves the list empty, whatever the list was.  To
    recycle an entry is to set its fields to zero and to push it on the
    free list: the entries end up in front of the free list, the last one
    first, and no other element changes. *)
Theorem C1_release_unhandled_remote s l :
  is_list (heap s) (unhandled_remote_deps s) l ->
  (forall ph, dart_tasking_datadeps_end_phase ph s = Done DART_OK s)
  /\ exists s',
       dart_tasking_datadeps_release_unhandled_remote s = Done DART_OK s'
       /\ unhandled_remote_deps s' = NULL
       /\ sent s' = sent s ++ map (release_of (heap s)) l
       /\ (forall x, x ∈ l -> exists e, heap s' !! x = Some e /\ zeroed e)
       /\ (forall y, y ∉ l -> heap s' !! y = heap s !! y)
       /\ (forall F, is_list (heap s) (freelist_head s) F ->
             (forall x, x ∈ l -> x ∉ F) ->
             is_list (heap s') (freelist_head s') (rev l ++ F)).
Proof.
  intros Hl. split; [done|].
  unfold dart_tasking_datadeps_release_unhandled_remote, walk_bound.
  unfold bind at 1. unfold get at 1. unfold bind at 1. unfold get at 1.
  destruct (release_unhandled_loop_spec l (S (size (heap s)))
              (unhandled_remote_deps s) s Hl)
    as (s' & Hrun & Hsent & _ & _ & _ & Hz & Hfr & HF & _).
  { pose proof (is_list_length _ _ _ Hl). lia. }
  unfold bind at 1. rewrite Hrun. eexists. split; [reflexivity|]. done.
Qed.

Lemma C1_witness :
  exists s',
    dart_tasking_datadeps_release_unhandled_remote parked_requests = Done DART_OK s'
    /\ unhandled_remote_deps s' = NULL
    /\ sent s' = sent parked_requests
                 ++ map (release_of (heap parked_requests)) [2; 1]
    /\ (forall x, x ∈ [2; 1] -> exists e, heap s' !! x = Some e /\ zeroed e)
    /\ (forall y, y ∉ [2; 1] -> heap s' !! y = heap parked_requests !! y)
    /\ (forall F, is_list (heap parked_requests) (freelist_head parked_requests) F ->
          (forall x, x ∈ [2; 1] -> x ∉ F) ->
          is_list (heap s') (freelist_head s') (rev [2; 1] ++ F)).
Proof.
  refine (proj2 (C1_release_unhandled_remote parked_requests [2; 1] _)).
  vm_compute. repeat split; try discriminate; eexists; (split; [reflexivity|]);
  repeat split; try discriminate; eexists; (split; [reflexivity|]); reflexivity.
Defined.

(** ** Rules of [wp] *)

Lemma wp_bind {A B} (m : M A) (f : A -> M B) Q s :
  wp m (fun a s' => wp (f a) Q s') s -> wp (bind m f) Q s.
Proof. unfold wp, bind. by destruct (m s). Qed.

Lemma wp_ret {A} (a : A) (Q : A -> memory -> Prop) s : Q a s -> wp (ret a) Q s.
Proof. done. Qed.

Lemma wp_mono {A} (m : M A) (Q Q' : A -> memory -> Prop) s :
  wp m Q s -> (forall a s', Q a s' -> Q' a s') -> wp m Q' s.
Proof. unfold wp. destruct (m s); auto. Qed.

Lemma wp_get {A} (f : memory -> A) (Q : A -> memory -> Prop) s :
  Q (f s) s -> wp (get f) Q s.
Proof. done. Qed.

Lemma wp_modify f (Q : unit -> memory -> Prop) s :
  Q tt (f s) -> wp (modify f) Q s.
Proof. done. Qed.

Lemma wp_send m (Q : unit -> memory -> Prop) s :
  Q tt (set_sent (sent s ++ [m]) s) -> wp (send m) Q s.
Proof. done. Qed.

Lemma wp_diverge {A} (Q : A -> memory -> Prop) s : wp diverge Q s.
Proof. done. Qed.

Lemma wp_read_elem p (Q : dart_dephash_elem_t -> memory -> Prop) s :
  (forall e, heap s !! p = Some e -> Q e s) -> wp (read_elem p) Q s.
Proof. unfold wp, read_elem. destruct (heap s !! p); auto. Qed.

Lemma wp_write_elem p f (Q : unit -> memory -> Prop) s :
  (forall e, heap s !! p = Some e -> Q tt (set_heap (<[p := f e]> (heap s)) s)) ->
  wp (write_elem p f) Q s.
Proof. unfold wp, write_elem. destruct (heap s !! p); auto. Qed.

Lemma wp_read_task p (Q : dart_task_t -> memory -> Prop) s :
  (forall t, tasks s !! p = Some t -> Q t s) -> wp (read_task p) Q s.
Proof. unfold wp, read_task. destruct (tasks s !! p); auto. Qed.

Lemma wp_write_task p f (Q : unit -> memory -> Prop) s :
  (forall t, tasks s !! p = Some t -> Q tt (set_tasks (<[p := f t]> (tasks s)) s)) ->
  wp (write_task p f) Q s.
Proof. unfold wp, write_task. destruct (tasks s !! p); auto. Qed.

Lemma wp_assert a b (Q : unit -> memory -> Prop) s :
  (b = true -> Q tt s) ->
  (b = false -> a <> assert_elem_task_null) ->
  wp (DART_ASSERT a b) Q s.
Proof. unfold wp, DART_ASSERT. destruct b; auto. Qed.

Lemma wp_for_each {A} (l : list A) (body : A -> M unit) (I : memory -> Prop) s :
  (forall x s, I s -> wp (body x) (fun _ => I) s) ->
  I s -> wp (for_each l body) (fun _ => I) s.
Proof.
  intros Hb. revert s. induction l as [|x l IH]; intros s Hs; simpl; [done|].
  apply wp_bind. eapply wp_mono; [by apply Hb|]. intros [] s' Hs'. by apply IH.
Qed.

(** ** The heads of the lists *)

Lemma heads_set_heap v s o : heads (set_heap v s) o = heads s o.
Proof. by destruct o. Qed.

Lemma heads_set_sent v s o : heads (set_sent v s) o = heads s o.
Proof. by destruct o. Qed.

Lemma heads_set_queued v s o : heads (set_queued v s) o = heads s o.
Proof. by destruct o. Qed.

Lemma heads_set_freelist_head v s o :
  heads (set_freelist_head v s) o = <[own_free := v]> (heads s) o.
Proof. by destruct o. Qed.

Lemma heads_set_unhandled v s o :
  heads (set_unhandled_remote_deps v s) o = <[own_unhandled := v]> (heads s) o.
Proof. by destruct o. Qed.

Lemma heads_set_slot slot v s o :
  heads (set_local_deps (fun i => if i =? slot then v else local_deps s i) s) o
  = <[own_slot slot := v]> (heads s) o.
Proof.
  destruct o as [| |i|t]; try done. simpl.
  destruct (decide (own_slot slot = own_slot i)) as [[= ->]|Hne].
  - by rewrite fn_lookup_insert, Z.eqb_refl.
  - rewrite fn_lookup_insert_ne by done.
    destruct (i =? slot) eqn:E; [|done]. apply Z.eqb_eq in E. congruence.
Qed.

(** A task update that keeps the remote successors keeps the heads. *)
Lemma heads_update_task t tk tk' s o :
  tasks s !! t = Some tk ->
  remote_successor tk' = remote_successor tk ->
  heads (set_tasks (<[t := tk']> (tasks s)) s) o = heads s o.
Proof.
  intros Ht Hr. destruct o as [| |i|t']; try done. simpl.
  destruct (decide (t = t')) as [->|Hne].
  - by rewrite lookup_insert_eq, Ht.
  - by rewrite lookup_insert_ne.
Qed.

Lemma heads_set_remote_successor t tk v s o :
  tasks s !! t = Some tk ->
  heads (set_tasks (<[t := set_remote_successor v tk]> (tasks s)) s) o
  = <[own_task t := v]> (heads s) o.
Proof.
  intros Ht. destruct o as [| |i|t']; try done. simpl.
  destruct (decide (t = t')) as [->|Hne].
  - by rewrite lookup_insert_eq, fn_lookup_insert.
  - rewrite lookup_insert_ne by done. rewrite fn_lookup_insert_ne; [done|congruence].
Qed.

Lemma fn_insert_ext {A B} `{EqDecision A} (f g : A -> B) a v o :
  (forall o, f o = g o) -> <[a := v]> f o = <[a := v]> g o.
Proof.
  intros H. destruct (decide (a = o)) as [->|Hne].
  - by rewrite !fn_lookup_insert.
  - by rewrite !fn_lookup_insert_ne.
Qed.

(** ** The invariant under the steps of the unit *)

Lemma zeroed_set_next v e : zeroed e -> zeroed (set_next v e).
Proof. done. Qed.

Lemma zeroed_zero_elem : zeroed zero_elem.
Proof. done. Qed.

Lemma is_list_agree h h' p l :
  is_list h p l -> (forall x, x ∈ l -> h' !! x = h !! x) -> is_list h' p l.
Proof.
  revert p. induction l as [|y l IH]; intros p; simpl; [done|].
  intros (-> & Hy & e & He & Hl) Hag. split_and!; [done..|]. exists e. split.
  - rewrite Hag; [done|]. by left.
  - apply IH; [done|]. intros x Hx. apply Hag. by right.
Qed.

(** A change of the heap and of the owner at [x] alone keeps the lists of
    the owners that do not own [x]. *)
Lemma chain_frame h h' own own' o p x :
  chain h own o p ->
  own x <> Some o ->
  (forall y, y <> x -> h' !! y = h !! y) ->
  (forall y, y <> x -> own' y = own y) ->
  chain h' own' o p.
Proof.
  intros (l & Hl & Hown) Hx Hh Ho. exists l.
  assert (Hne : forall y, y ∈ l -> y <> x).
  { intros y Hy ->. by destruct (Hown _ Hy). }
  split.
  - apply (is_list_agree h); [done|]. intros y Hy. apply Hh. by apply Hne.
  - intros y Hy. destruct (Hown _ Hy) as [H1 H2]. rewrite Ho by by apply Hne.
    split; [done|]. rewrite Hh by by apply Hne. done.
Qed.

Lemma inv_at_ext own h hd hd' :
  (forall o, hd' o = hd o) -> inv_at own h hd -> inv_at own h hd'.
Proof. intros He [Hc Hd]. split; [|done]. intros o. rewrite He. apply Hc. Qed.

Lemma chain_null h own o : chain h own o NULL.
Proof. exists []. split; [done|]. intros x Hx. by apply elem_of_nil in Hx. Qed.

(** A head may be reset to [NULL]: the elements of its list are lost. *)
Lemma inv_at_null own h hd hd' :
  (forall o, hd' o = hd o \/ hd' o = NULL) -> inv_at own h hd -> inv_at own h hd'.
Proof.
  intros He [Hc Hd]. split; [|done]. intros o.
  destruct (He o) as [->| ->]; [apply Hc|apply chain_null].
Qed.

Lemma inv_at_fresh own h hd p : inv_at own h hd -> h !! p = None -> own p = None.
Proof.
  intros [_ Hd] Hp. destruct (own p) eqn:E; [|done].
  destruct (Hd p) as [e He]; [by rewrite E|congruence].
Qed.

Lemma inv_at_write own h hd p e :
  inv_at own h hd -> own p = None -> inv_at own (<[p := e]> h) hd.
Proof.
  intros [Hc Hd] Hp. split.
  - intros o. apply (chain_frame h _ own _ _ _ p); [apply Hc|congruence| |done].
    intros y Hy. by rewrite lookup_insert_ne.
  - intros x Hx. destruct (decide (x = p)) as [->|Hne].
    + by rewrite lookup_insert_eq.
    + rewrite lookup_insert_ne by done. by apply Hd.
Qed.

Lemma inv_at_delete own h hd p :
  inv_at own h hd -> own p = None -> inv_at own (delete p h) hd.
Proof.
  intros [Hc Hd] Hp. split.
  - intros o. apply (chain_frame h _ own _ _ _ p); [apply Hc|congruence| |done].
    intros y Hy. by rewrite lookup_delete_ne.
  - intros x Hx. destruct (decide (x = p)) as [->|Hne].
    + rewrite Hp in Hx. by destruct Hx.
    + rewrite lookup_delete_ne by done. by apply Hd.
Qed.

(** Taking the head off a list. *)
Lemma inv_at_pop own h hd o x :
  inv_at own h hd -> hd o = x -> x <> NULL ->
  exists e, h !! x = Some e
            /\ (o = own_free -> zeroed e)
            /\ inv_at (<[x := None]> own) h (<[o := next e]> hd).
Proof.
  intros [Hc Hd] Ho Hx. destruct (Hc o) as (l & Hl & Hown). rewrite Ho in Hl.
  destruct l as [|y l]; [done|].
  pose proof (is_list_NoDup _ _ _ Hl) as Hnd. apply NoDup_cons_1_1 in Hnd as Hxl.
  destruct Hl as (<- & _ & e & He & Hl). exists e.
  destruct (Hown x) as [Hox Hz]; [by left|].
  split_and!; [done| |].
  { intros ->. destruct (Hz eq_refl) as (e' & He' & Hzz). by simplify_eq. }
  split.
  - intros o'. destruct (decide (o = o')) as [<-|Hne].
    + rewrite fn_lookup_insert. exists l. split; [done|]. intros y Hy.
      rewrite fn_lookup_insert_ne by (intros ->; done).
      apply Hown. by right.
    + rewrite fn_lookup_insert_ne by done.
      apply (chain_frame h _ own _ _ _ x); [apply Hc|congruence|done|].
      intros y Hy. by rewrite fn_lookup_insert_ne.
  - intros y Hy. destruct (decide (x = y)) as [<-|Hne].
    + rewrite fn_lookup_insert in Hy. by destruct Hy.
    + rewrite fn_lookup_insert_ne in Hy by done. by apply Hd.
Qed.

(** Putting an element that is in no list at the head of a list. *)
Lemma inv_at_push own h hd o p e :
  inv_at own h hd -> own p = None -> h !! p = Some e -> p <> NULL ->
  (o = own_free -> zeroed e) ->
  inv_at (<[p := Some o]> own) (<[p := set_next (hd o) e]> h) (<[o := p]> hd).
Proof.
  intros [Hc Hd] Hp He Hp0 Hz. split.
  - intros o'. destruct (decide (o = o')) as [<-|Hne].
    + rewrite fn_lookup_insert. destruct (Hc o) as (l & Hl & Hown).
      assert (Hpl : p ∉ l).
      { intros Hin. destruct (Hown _ Hin). congruence. }
      exists (p :: l). split.
      * simpl. split_and!; [done..|]. eexists. rewrite lookup_insert_eq.
        split; [done|]. simpl. by apply is_list_insert.
      * intros y Hy. apply elem_of_cons in Hy as [->|Hy].
        { rewrite fn_lookup_insert. split; [done|]. intros Ho.
          eexists. rewrite lookup_insert_eq. split; [done|].
          apply zeroed_set_next. auto. }
        { assert (y <> p) by (intros ->; done).
          rewrite fn_lookup_insert_ne by done. rewrite lookup_insert_ne by done.
          by apply Hown. }
    + rewrite fn_lookup_insert_ne by done.
      apply (chain_frame h _ own _ _ _ p); [apply Hc|congruence| |].
      * intros y Hy. by rewrite lookup_insert_ne.
      * intros y Hy. by rewrite fn_lookup_insert_ne.
  - intros y Hy. destruct (decide (p = y)) as [<-|Hne].
    + by rewrite lookup_insert_eq.
    + rewrite lookup_insert_ne by done. rewrite fn_lookup_insert_ne in Hy by done.
      by apply Hd.
Qed.

Ltac wp_step :=
  lazymatch goal with
  | |- wp (bind _ _) _ _ => apply wp_bind
  | |- wp (ret _) _ _ => apply wp_ret
  | |- wp (get _) _ _ => apply wp_get
  | |- wp (modify _) _ _ => apply wp_modify
  | |- wp (send _) _ _ => apply wp_send
  | |- wp diverge _ _ => apply wp_diverge
  | |- wp (read_elem _) _ _ =>
      apply wp_read_elem; let e := fresh "e" in let H := fresh "He" in
      intros e H; simpl in H
  | |- wp (write_elem _ _) _ _ =>
      apply wp_write_elem; let e := fresh "e" in let H := fresh "He" in
      intros e H; simpl in H
  | |- wp (read_task _) _ _ =>
      apply wp_read_task; let e := fresh "tk" in let H := fresh "Htk" in
      intros e H; simpl in H
  | |- wp (write_task _ _) _ _ =>
      apply wp_write_task; let e := fresh "tk" in let H := fresh "Htk" in
      intros e H; simpl in H
  end.

Ltac wp_go := repeat (first [wp_step | progress cbv beta iota]; try simplify_eq).

(** ** Allocation *)

Lemma unused_addr_spec (h : gmap Z dart_dephash_elem_t) :
  h !! unused_addr h = None /\ unused_addr h <> NULL.
Proof.
  unfold unused_addr.
  assert (0 <= map_fold (fun k _ m => Z.max k m) 0 h
          /\ forall k, is_Some (h !! k) -> k <= map_fold (fun k _ m => Z.max k m) 0 h)
    as [H0 Hmax].
  { apply (map_fold_weak_ind (fun r (m : gmap Z dart_dephash_elem_t) =>
             0 <= r /\ forall k, is_Some (m !! k) -> k <= r)).
    - split; [done|]. intros k [e He]. by rewrite lookup_empty in He.
    - intros i x m r Hi [Hr Hm]. split; [lia|]. intros k Hk.
      destruct (decide (i = k)) as [->|Hne]; [lia|].
      rewrite lookup_insert_ne in Hk by done. specialize (Hm _ Hk). lia. }
  split; [|unfold NULL; lia].
  destruct (h !! _) eqn:E; [|done]. specialize (Hmax _ (mk_is_Some _ _ E)). lia.
Qed.

Lemma same_lists_refl s : same_lists s s.
Proof. done. Qed.

Lemma same_lists_trans s1 s2 s3 :
  same_lists s1 s2 -> same_lists s2 s3 -> same_lists s1 s3.
Proof. intros [H1 H2] [H3 H4]. split; [congruence|]. intros o. by rewrite H4. Qed.

Lemma same_lists_inv s s' : same_lists s s' -> inv s -> inv s'.
Proof.
  intros [Hh Hd] [own Hi]. exists own. rewrite Hh. by apply (inv_at_ext _ _ (heads s)).
Qed.

Lemma same_lists_unowned p s s' : same_lists s s' -> unowned p s -> unowned p s'.
Proof.
  intros [Hh Hd] (own & Hi & ?). exists own. rewrite Hh.
  split; [by apply (inv_at_ext _ _ (heads s))|done].
Qed.

Lemma same_lists_sent v s : same_lists s (set_sent v s).
Proof. split; [done|]. intros o. apply heads_set_sent. Qed.

Lemma same_lists_queued v s : same_lists s (set_queued v s).
Proof. split; [done|]. intros o. apply heads_set_queued. Qed.

Lemma same_lists_task t tk tk' s :
  tasks s !! t = Some tk -> remote_successor tk' = remote_successor tk ->
  same_lists s (set_tasks (<[t := tk']> (tasks s)) s).
Proof. intros Ht Hr. split; [done|]. intros o. by eapply heads_update_task. Qed.

Lemma unowned_write p e s :
  unowned p s -> unowned p (set_heap (<[p := e]> (heap s)) s).
Proof.
  intros (own & Hi & Hp & Hp0 & _). exists own. simpl. split_and!; try done.
  - apply (inv_at_ext _ _ (heads s)); [intros o; apply heads_set_heap|].
    by apply inv_at_write.
  - by rewrite lookup_insert_eq.
Qed.

Lemma wp_calloc_elem s :
  inv s ->
  wp calloc_elem (fun p s' => unowned p s' /\ heap s' !! p = Some zero_elem) s.
Proof.
  intros [own Hi]. unfold wp, calloc_elem.
  destruct (unused_addr_spec (heap s)) as [Hf Hn]. split.
  - exists own. simpl. split_and!; try done.
    + apply (inv_at_ext _ _ (heads s)); [intros o; apply heads_set_heap|].
      apply inv_at_write; [done|]. by eapply inv_at_fresh.
    + by eapply inv_at_fresh.
    + by rewrite lookup_insert_eq.
  - simpl. by rewrite lookup_insert_eq.
Qed.

Lemma wp_pop_free s :
  inv s ->
  wp (DART_STACK_POP lv_freelist_head)
     (fun p s' => p = NULL /\ inv s'
                  \/ unowned p s' /\ exists e, heap s' !! p = Some e /\ zeroed e) s.
Proof.
  intros [own Hi]. unfold DART_STACK_POP, lv_freelist_head, load, store.
  wp_go. destruct (freelist_head s =? NULL) eqn:E.
  { wp_go. left. split; [by apply Z.eqb_eq|]. by exists own. }
  apply Z.eqb_neq in E.
  destruct (inv_at_pop own _ _ own_free _ Hi eq_refl E) as (e & He & Hz & Hi').
  change (heads s own_free) with (freelist_head s) in *.
  wp_go. right. split.
  - exists (<[freelist_head s := None]> own). simpl. split_and!; try done.
    + apply (inv_at_ext _ _ (<[own_free := next e]> (heads s))).
      { intros o. by rewrite heads_set_heap, heads_set_freelist_head. }
      apply inv_at_write; [done|]. by rewrite fn_lookup_insert.
    + by rewrite fn_lookup_insert.
    + by rewrite lookup_insert_eq.
  - simpl. rewrite lookup_insert_eq. eexists. split; [done|].
    apply zeroed_set_next. auto.
Qed.

(** The element that [dephash_allocate_elem] takes passes the assertion,
    and the element it returns is in no list. *)
Lemma wp_allocate d t s :
  inv s -> wp (dephash_allocate_elem d t) unowned s.
Proof.
  intros Hi. unfold dephash_allocate_elem.
  wp_go.
  apply (wp_mono _ (fun p s' => p = NULL /\ inv s'
            \/ unowned p s' /\ exists e, heap s' !! p = Some e /\ zeroed e)).
  { destruct (freelist_head s =? NULL) eqn:E; [wp_step; by left|].
    wp_go. rewrite E. by apply wp_pop_free. }
  intros p s1 Hp. wp_step.
  apply (wp_mono _ (fun p s' =>
            unowned p s' /\ exists e, heap s' !! p = Some e /\ zeroed e)).
  { destruct Hp as [[-> Hi1]|Hp].
    - change (NULL =? NULL) with true. cbv iota.
      eapply wp_mono; [by apply wp_calloc_elem|].
      intros q s2 [Hq He]. split; [done|]. eexists. split; [done|].
      apply zeroed_zero_elem.
    - destruct Hp as [Hu Hz].
      assert (p <> NULL) as Hp0 by (destruct Hu as (? & _ & _ & ? & _); done).
      destruct (p =? NULL) eqn:E; [apply Z.eqb_eq in E; done|].
      by wp_step. }
  clear p s1 Hp. intros p s1 [Hu (e & He & Hz)].
  wp_step. apply wp_assert; [|done]. intros _.
  wp_go.
  apply wp_assert.
  2:{ destruct Hz as [Ht _]. rewrite Ht. done. }
  intros _. wp_go.
  do 2 apply unowned_write. done.
Qed.

(** ** Pushing *)

Lemma unowned_push_at p o s s' e :
  unowned p s -> heap s !! p = Some e ->
  (o = own_free -> zeroed e) ->
  heap s' = <[p := set_next (heads s o) e]> (heap s) ->
  (forall o', heads s' o' = <[o := p]> (heads s) o') ->
  inv s'.
Proof.
  intros (own & Hi & Hp & Hp0 & _) He Hz Hh Hd.
  exists (<[p := Some o]> own). rewrite Hh.
  apply (inv_at_ext _ _ (<[o := p]> (heads s))); [done|].
  by apply inv_at_push.
Qed.

Lemma wp_push_free p s :
  unowned p s -> (forall e, heap s !! p = Some e -> zeroed e) ->
  wp (DART_STACK_PUSH lv_freelist_head p) (fun _ => inv) s.
Proof.
  intros Hu Hz. unfold DART_STACK_PUSH, lv_freelist_head, load, store.
  wp_go.
  eapply (unowned_push_at p own_free s); [done|done|auto|done|].
  intros o. by rewrite heads_set_freelist_head.
Qed.

Lemma wp_push_unhandled p s :
  unowned p s ->
  wp (DART_STACK_PUSH lv_unhandled_remote_deps p) (fun _ => inv) s.
Proof.
  intros Hu. unfold DART_STACK_PUSH, lv_unhandled_remote_deps, load, store.
  wp_go.
  eapply (unowned_push_at p own_unhandled s); [done|done|done|done|].
  intros o. by rewrite heads_set_unhandled.
Qed.

Lemma wp_push_slot i p s :
  unowned p s ->
  wp (DART_STACK_PUSH (lv_local_deps i) p) (fun _ => inv) s.
Proof.
  intros Hu. unfold DART_STACK_PUSH, lv_local_deps, load, store.
  wp_go.
  eapply (unowned_push_at p (own_slot i) s); [done|done|done|done|].
  intros o. rewrite heads_set_slot. apply fn_insert_ext. intros o'.
  apply heads_set_heap.
Qed.

Lemma wp_push_task t p s :
  unowned p s ->
  wp (DART_STACK_PUSH (lv_remote_successor t) p) (fun _ => inv) s.
Proof.
  intros Hu. unfold DART_STACK_PUSH, lv_remote_successor, load, store.
  wp_go.
  eapply (unowned_push_at p (own_task t) s); [done|done|done| |].
  - simpl. by rewrite Htk.
  - intros o.
    rewrite (heads_set_remote_successor t tk p (set_heap _ s)) by exact Htk.
    apply fn_insert_ext.
    intros o'. apply heads_set_heap.
Qed.

(** ** Walks that change no list *)

Lemma wp_inc_unresolved_deps t s0 s :
  same_lists s0 s ->
  wp (inc_unresolved_deps t) (fun _ s' => same_lists s0 s') s.
Proof.
  intros H0. unfold inc_unresolved_deps. wp_go.
  eapply same_lists_trans; [done|]. by eapply same_lists_task.
Qed.

Lemma wp_dec_unresolved_deps t s0 s :
  same_lists s0 s ->
  wp (dec_unresolved_deps t) (fun _ s' => same_lists s0 s') s.
Proof.
  intros H0. unfold dec_unresolved_deps. wp_go.
  eapply same_lists_trans; [done|]. by eapply same_lists_task.
Qed.

Lemma wp_handle_task_walk n t d : forall elem s0 s,
  same_lists s0 s ->
  wp (handle_task_walk n t d elem) (fun _ s' => same_lists s0 s') s.
Proof.
  induction n as [|n IH]; intros elem s0 s H0; simpl; [done|].
  destruct (elem =? NULL); [by wp_go|].
  wp_go. apply wp_assert; [|done]. intros _.
  destruct (_ =? _); [|by apply IH].
  wp_go.
  apply (wp_mono _ (fun _ s' => same_lists s0 s')).
  { destruct (_ && _); [|by wp_go].
    wp_step. eapply wp_mono; [by apply wp_inc_unresolved_deps|].
    intros ? s1 H1; simpl in H1. wp_go. eapply same_lists_trans; [done|].
    by eapply (same_lists_task _ tk0). }
  intros ? s1 H1; simpl in H1. destruct (IS_OUT_DEP _); [by wp_go|by apply IH].
Qed.

Lemma wp_send_direct_walk n r : forall elem s0 s,
  same_lists s0 s ->
  wp (send_direct_walk n r elem) (fun _ s' => same_lists s0 s') s.
Proof.
  induction n as [|n IH]; intros elem s0 s H0; simpl; [done|].
  destruct (elem =? NULL); [by wp_go|].
  wp_go. destruct (_ =? 0); [by wp_go|].
  wp_step.
  apply (wp_mono _ (fun _ s' => same_lists s0 s')); [|intros; by apply IH].
  destruct (_ && _); [|by wp_go].
  wp_go. eapply wp_mono.
  { apply wp_inc_unresolved_deps. eapply same_lists_trans; [done|].
    apply same_lists_sent. }
  intros ? s1 H1; simpl in H1. by wp_go.
Qed.

Lemma wp_send_direct_dependencies p s0 s :
  same_lists s0 s ->
  wp (send_direct_dependencies p) (fun _ s' => same_lists s0 s') s.
Proof.
  intros H0. unfold send_direct_dependencies, walk_bound, lv_local_deps, load.
  wp_go.
  destruct (type _); wp_go; try done;
    (eapply wp_mono; [by apply wp_send_direct_walk|]); intros ? s1 H1; simpl in H1; by wp_go.
Qed.

(** ** Loops that recycle a list *)

Lemma LI_same_lists S o c s s' : same_lists s s' -> LI S o c s -> LI S o c s'.
Proof.
  intros [Hh Hd] (own & hd & Hi & Hc & Ho). exists own, hd. rewrite Hh.
  split_and!; [done..|]. intros o' Ho'. rewrite Hd. auto.
Qed.

Lemma LI_inv o s : inv s -> LI (fun _ => False) o (heads s o) s.
Proof. intros [own Hi]. exists own, (heads s). auto. Qed.

(** At the end of a loop the head is reset to [NULL]. *)
Lemma LI_done S o c s s' :
  LI S o c s ->
  heap s' = heap s ->
  (forall o', (o' = o \/ S o') /\ heads s' o' = NULL
              \/ o' <> o /\ ~ S o' /\ heads s' o' = heads s o') ->
  inv s'.
Proof.
  intros (own & hd & Hi & Hc & Ho) Hh Hd. exists own. rewrite Hh.
  apply (inv_at_null _ _ hd); [|done]. intros o'.
  destruct (Hd o') as [[_ ->]|(Hne & HS & ->)]; [by right|].
  destruct (Ho o' Hne) as [->|[? _]]; [by left|done].
Qed.

Lemma LI_recycle S o x e s :
  o <> own_free -> ~ S own_free ->
  LI S o x s -> x <> NULL -> heap s !! x = Some e ->
  wp (dephash_recycle_elem x) (fun _ s' => LI S o (next e) s') s.
Proof.
  intros Ho HS (own & hd & Hi & Hc & Hv) Hx He.
  unfold wp. rewrite (dephash_recycle_elem_eq x e) by done.
  destruct (inv_at_pop own _ _ o x Hi Hc Hx) as (e' & He' & _ & Hi1).
  assert (e' = e) as -> by congruence.
  apply (inv_at_write _ _ _ x zero_elem) in Hi1; [|by rewrite fn_lookup_insert].
  apply (inv_at_push _ _ _ own_free x zero_elem) in Hi1;
    [|by rewrite fn_lookup_insert|by rewrite lookup_insert_eq|done|done].
  rewrite insert_insert_eq, fn_lookup_insert_ne in Hi1 by done.
  assert (hd own_free = freelist_head s) as Hfree.
  { destruct (Hv own_free) as [->|[? _]]; done. }
  rewrite Hfree in Hi1.
  eexists _, _. split_and!; [exact Hi1| |].
  - rewrite fn_lookup_insert_ne by done. by rewrite fn_lookup_insert.
  - intros o' Ho'. rewrite heads_set_freelist_head.
    destruct (decide (own_free = o')) as [<-|Hne].
    + left. by rewrite !fn_lookup_insert.
    + rewrite !fn_lookup_insert_ne by done. rewrite heads_set_heap. auto.
Qed.

Lemma wp_recycle_chain S o :
  o <> own_free -> ~ S own_free ->
  forall n c s,
    LI S o c s -> wp (recycle_chain n c) (fun _ s' => LI S o NULL s') s.
Proof.
  intros Ho HS. induction n as [|n IH]; intros c s Hli; simpl; [done|].
  destruct (c =? NULL) eqn:E.
  { apply Z.eqb_eq in E. subst c. by wp_go. }
  apply Z.eqb_neq in E. wp_go.
  eapply wp_mono; [by eapply LI_recycle|]. intros ? s1 H1; simpl in H1. by apply IH.
Qed.

Lemma wp_release_unhandled_loop n : forall c s,
  LI (fun _ => False) own_unhandled c s ->
  wp (release_unhandled_loop n c)
     (fun _ s' => LI (fun _ => False) own_unhandled NULL s') s.
Proof.
  induction n as [|n IH]; intros c s Hli; simpl; [done|].
  destruct (c =? NULL) eqn:E.
  { apply Z.eqb_eq in E. subst c. by wp_go. }
  apply Z.eqb_neq in E. wp_go.
  eapply wp_mono.
  { eapply (LI_recycle (fun _ => False) own_unhandled c e); [done|auto| |done|done].
    eapply LI_same_lists; [apply same_lists_sent|done]. }
  intros ? s1 H1; simpl in H1. by apply IH.
Qed.

Lemma wp_release_remote_loop t n : forall c s,
  LI (fun _ => False) (own_task t) c s ->
  wp (release_remote_loop n c)
     (fun _ s' => LI (fun _ => False) (own_task t) NULL s') s.
Proof.
  induction n as [|n IH]; intros c s Hli; simpl; [done|].
  destruct (c =? NULL) eqn:E.
  { apply Z.eqb_eq in E. subst c. by wp_go. }
  apply Z.eqb_neq in E. wp_go.
  eapply wp_mono; [by apply wp_send_direct_dependencies|].
  intros ? s1 H1; simpl in H1. wp_go.
  assert (e0 = e) as -> by (destruct H1 as [Hh _]; congruence).
  eapply wp_mono.
  { eapply (LI_recycle (fun _ => False) (own_task t) c e); [done|auto| |done|done].
    eapply LI_same_lists; [apply same_lists_sent|].
    eapply LI_same_lists; done. }
  intros ? s2 H2; simpl in H2. by apply IH.
Qed.

(** The loop of [fini] over the free list. *)
Lemma wp_free_chain n : forall c s,
  LI (fun _ => False) own_free c s ->
  wp (free_chain n c) (fun _ s' => LI (fun _ => False) own_free NULL s') s.
Proof.
  induction n as [|n IH]; intros c s Hli; simpl; [done|].
  destruct (c =? NULL) eqn:E.
  { apply Z.eqb_eq in E. subst c. by wp_go. }
  apply Z.eqb_neq in E. wp_go.
  unfold free_elem, wp at 1. rewrite He. apply IH.
  destruct Hli as (own & hd & Hi & Hc & Hv).
  destruct (inv_at_pop own _ _ own_free c Hi Hc E) as (e' & He' & _ & Hi1).
  assert (e' = e) as -> by congruence.
  apply (inv_at_delete _ _ _ c) in Hi1; [|by rewrite fn_lookup_insert].
  eexists _, _. split_and!; [exact Hi1|by rewrite fn_lookup_insert|].
  intros o' Ho'. rewrite fn_lookup_insert_ne by done. rewrite heads_set_heap. auto.
Qed.

(** ** Elements added by the entry points *)

Lemma wp_store_remote rs d origin t s :
  unowned rs s ->
  wp (write_elem rs (fun r => set_taskdep
                       (set_dep_gptr (set_gptr_unitid origin (gptr (taskdep r)))
                                     (taskdep r)) r) ;;;
      write_elem rs (set_phase (dep_phase d)) ;;;
      DART_STACK_PUSH (lv_remote_successor t) rs)
     (fun _ => inv) s.
Proof.
  intros Hu. wp_go. apply wp_push_task. by do 2 apply unowned_write.
Qed.

Lemma wp_handle_remote_walk n d rt origin : forall elem s,
  inv s -> wp (handle_remote_walk n d rt origin elem) (fun _ => inv) s.
Proof.
  induction n as [|n IH]; intros elem s Hi; simpl; [done|].
  destruct (elem =? NULL); [by wp_go|].
  wp_go. destruct (_ && _); [|by apply IH].
  wp_go.
  apply (wp_mono _ (fun _ => inv)); [|intros ? s1 H1; by wp_go].
  destruct (negb _).
  - wp_step. eapply wp_mono; [by apply wp_allocate|].
    intros rs s1 H1. by apply wp_store_remote.
  - wp_go. eapply same_lists_inv; [apply same_lists_sent|done].
Qed.

Lemma wp_handle_remote_task d rt origin s :
  inv s ->
  wp (dart_tasking_datadeps_handle_remote_task d rt origin) (fun _ => inv) s.
Proof.
  intros Hi. unfold dart_tasking_datadeps_handle_remote_task.
  destruct (negb _); [by wp_go|].
  unfold walk_bound, lv_local_deps, load. wp_go.
  eapply wp_mono; [by apply wp_handle_remote_walk|].
  intros [r|] s1 H1; simpl in H1; [by wp_go|].
  wp_step. eapply wp_mono; [by apply wp_allocate|].
  intros rs s2 H2. wp_go.
  eapply wp_mono.
  { apply wp_push_unhandled. by do 2 apply unowned_write. }
  intros ? s3 H3. by wp_go.
Qed.

Lemma wp_handle_remote_direct lt rt origin s :
  inv s ->
  wp (dart_tasking_datadeps_handle_remote_direct lt rt origin) (fun _ => inv) s.
Proof.
  intros Hi. unfold dart_tasking_datadeps_handle_remote_direct.
  wp_step. eapply wp_mono; [by apply wp_allocate|].
  intros rs s1 H1. wp_step.
  eapply wp_mono; [by apply wp_push_task|]. intros ? s2 H2. by wp_go.
Qed.

Lemma wp_dephash_add_local d t s :
  inv s -> wp (dephash_add_local d t) (fun _ => inv) s.
Proof.
  intros Hi. unfold dephash_add_local.
  wp_step. eapply wp_mono; [by apply wp_allocate|].
  intros p s1 H1. wp_go.
  eapply wp_mono; [apply wp_push_slot; by apply unowned_write|].
  intros ? s2 H2. by wp_go.
Qed.

(** ** The sweep over the unhandled list *)

Lemma is_list_middle h p L x R :
  is_list h p (L ++ x :: R) ->
  exists ex, h !! x = Some ex /\ is_list h (next ex) R.
Proof.
  revert p. induction L as [|y L IH]; intros p; simpl.
  - intros (-> & _ & e & He & Hl). eauto.
  - intros (-> & _ & e & He & Hl). eauto.
Qed.

Lemma is_list_unlink h p A a K x R ea ex :
  is_list h p (A ++ a :: K ++ x :: R) ->
  h !! a = Some ea -> h !! x = Some ex ->
  is_list (<[a := set_next (next ex) ea]> h) p (A ++ a :: R).
Proof.
  intros Hl Ha Hx. pose proof (is_list_NoDup _ _ _ Hl) as Hnd.
  revert p Hl Hnd. induction A as [|b A IH]; intros p; simpl.
  - intros (-> & Ha0 & e & He & Hl) Hnd. split_and!; [done..|].
    eexists. rewrite lookup_insert_eq. split; [done|]. simpl.
    destruct (is_list_middle _ _ _ _ _ Hl) as (ex' & Hx' & HR).
    assert (ex' = ex) as -> by congruence.
    apply is_list_insert; [done|].
    apply NoDup_cons_1_1 in Hnd. intros Hin. apply Hnd.
    apply elem_of_app. right. by right.
  - intros (-> & Hb0 & e & He & Hl) Hnd. split_and!; [done..|].
    assert (b <> a).
    { apply NoDup_cons_1_1 in Hnd. intros ->. apply Hnd.
      apply elem_of_app. right. by left. }
    exists e. rewrite lookup_insert_ne by done. split; [done|].
    apply IH; [done|]. by apply NoDup_cons_1_2 in Hnd.
Qed.

(** An element in the middle of a list is taken out through the link of an
    element before it; the elements between the two go with it. *)
Lemma inv_at_unlink own h hd o A a K x R ea ex :
  o <> own_free ->
  inv_at own h hd ->
  is_list h (hd o) (A ++ a :: K ++ x :: R) ->
  h !! a = Some ea -> h !! x = Some ex ->
  inv_at (<[x := None]> own) (<[a := set_next (next ex) ea]> h) hd.
Proof.
  intros Hof [Hc Hd] Hl Ha Hx.
  pose proof (is_list_NoDup _ _ _ Hl) as Hnd.
  destruct (Hc o) as (l & Hl' & Hown).
  pose proof (is_list_functional _ _ _ _ Hl' Hl) as ->.
  assert (Hxa : x <> a).
  { intros ->. apply list.NoDup_app in Hnd as (_ & _ & Hnd).
    apply NoDup_cons_1_1 in Hnd. apply Hnd. apply elem_of_app. right. by left. }
  assert (Hox : own x = Some o).
  { apply Hown. apply elem_of_app. right. right. apply elem_of_app. right. by left. }
  assert (Hoa : own a = Some o).
  { apply Hown. apply elem_of_app. right. by left. }
  split.
  - intros o'. destruct (decide (o' = o)) as [->|Hne].
    + exists (A ++ a :: R). split; [by eapply is_list_unlink|].
      intros y Hy. assert (y <> x).
      { intros ->. apply list.NoDup_app in Hnd as (_ & Hd1 & Hd2).
        apply elem_of_app in Hy as [Hy|Hy].
        - apply (Hd1 _ Hy). right. apply elem_of_app. right. by left.
        - apply list.NoDup_cons in Hd2 as [Hd2 Hd3].
          apply elem_of_cons in Hy as [->|Hy]; [done|].
          apply list.NoDup_app in Hd3 as (_ & _ & Hd3).
          by apply NoDup_cons_1_1 in Hd3. }
      rewrite fn_lookup_insert_ne by done. split; [|done].
      apply Hown. apply elem_of_app in Hy as [Hy|Hy]; apply elem_of_app; [by left|].
      right. apply elem_of_cons in Hy as [->|Hy]; [by left|].
      right. apply elem_of_app. right. by right.
    + apply (chain_frame (<[a := set_next (next ex) ea]> h) _ own _ _ _ x);
        [|congruence|done|].
      2:{ intros y Hy. by rewrite fn_lookup_insert_ne. }
      apply (chain_frame h _ own _ _ _ a); [apply Hc|congruence| |done].
      intros y Hy. by rewrite lookup_insert_ne.
  - intros y Hy. destruct (decide (x = y)) as [<-|Hne].
    + rewrite fn_lookup_insert in Hy. by destruct Hy.
    + rewrite fn_lookup_insert_ne in Hy by done.
      destruct (decide (a = y)) as [<-|Hne'].
      * by rewrite lookup_insert_eq.
      * rewrite lookup_insert_ne by done. by apply Hd.
Qed.

(** The same when there is no element before: the head moves. *)
Lemma inv_at_unlink_head own h hd o K x R ex :
  inv_at own h hd ->
  is_list h (hd o) (K ++ x :: R) ->
  h !! x = Some ex ->
  inv_at (<[x := None]> own) h (<[o := next ex]> hd).
Proof.
  intros [Hc Hd] Hl Hx.
  pose proof (is_list_NoDup _ _ _ Hl) as Hnd.
  destruct (Hc o) as (l & Hl' & Hown).
  pose proof (is_list_functional _ _ _ _ Hl' Hl) as ->.
  destruct (is_list_middle _ _ _ _ _ Hl) as (ex' & Hx' & HR).
  assert (ex' = ex) as -> by congruence.
  assert (Hox : own x = Some o).
  { apply Hown. apply elem_of_app. right. by left. }
  split.
  - intros o'. destruct (decide (o = o')) as [<-|Hne].
    + rewrite fn_lookup_insert. exists R. split; [done|].
      intros y Hy. assert (y <> x).
      { intros ->. apply list.NoDup_app in Hnd as (_ & _ & Hnd).
        by apply NoDup_cons_1_1 in Hnd. }
      rewrite fn_lookup_insert_ne by done.
      apply Hown. apply elem_of_app. right. by right.
    + rewrite fn_lookup_insert_ne by done.
      apply (chain_frame h _ own _ _ _ x); [apply Hc|congruence|done|].
      intros y Hy. by rewrite fn_lookup_insert_ne.
  - intros y Hy. destruct (decide (x = y)) as [<-|Hne].
    + rewrite fn_lookup_insert in Hy. by destruct Hy.
    + rewrite fn_lookup_insert_ne in Hy by done. by apply Hd.
Qed.

Lemma CU_init s : inv s -> CU s (unhandled_remote_deps s) NULL.
Proof.
  intros [own Hi]. destruct Hi as [Hc Hd] eqn:E.
  destruct (Hc own_unhandled) as (l & Hl & _).
  exists own, [], [], l. split_and!; done.
Qed.

Lemma CU_inv s elem prev : CU s elem prev -> inv s.
Proof. intros (own & ? & ? & ? & Hi & _). by exists own. Qed.

Lemma CU_same_lists s s' elem prev :
  same_lists s s' -> CU s elem prev -> CU s' elem prev.
Proof.
  intros [Hh Hd] (own & A & K & R & Hi & Hl & HR & Hp).
  exists own, A, K, R. rewrite Hh.
  change (unhandled_remote_deps s') with (heads s' own_unhandled). rewrite Hd.
  split_and!; try done. by apply (inv_at_ext _ _ (heads s)).
Qed.

Lemma CU_cursor s x prev e :
  CU s x prev -> x <> NULL -> heap s !! x = Some e ->
  exists own A K R,
    inv_at own (heap s) (heads s)
    /\ is_list (heap s) (unhandled_remote_deps s) (A ++ K ++ x :: R)
    /\ is_list (heap s) (next e) R
    /\ prev = default NULL (list.last A).
Proof.
  intros (own & A & K & R & Hi & Hl & HR & Hp) Hx He.
  destruct R as [|y R]; [done|]. destruct HR as (<- & _ & e' & He' & HR).
  assert (e' = e) as -> by congruence. by exists own, A, K, R.
Qed.

(** The cursor leaves the element in place. *)
Lemma CU_skip s x prev e :
  CU s x prev -> x <> NULL -> heap s !! x = Some e -> CU s (next e) prev.
Proof.
  intros H Hx He.
  destruct (CU_cursor _ _ _ _ H Hx He) as (own & A & K & R & Hi & Hl & HR & Hp).
  exists own, A, (K ++ [x]), R. split_and!; try done.
  by rewrite <- (app_assoc K), <- cons_middle.
Qed.

(** The cursor leaves the element in place and [prev] moves to it. *)
Lemma CU_advance s x prev e :
  CU s x prev -> x <> NULL -> heap s !! x = Some e -> CU s (next e) x.
Proof.
  intros H Hx He.
  destruct (CU_cursor _ _ _ _ H Hx He) as (own & A & K & R & Hi & Hl & HR & Hp).
  exists own, (A ++ K ++ [x]), [], R. split_and!; try done.
  - by rewrite <- !app_assoc, <- cons_middle.
  - by rewrite !app_assoc, list.last_snoc.
Qed.

Lemma last_null h p A R :
  is_list h p (A ++ R) -> default NULL (list.last A) = NULL -> A = [].
Proof.
  intros Hl Hn. destruct (list.last A) as [a|] eqn:E; [|by apply list.last_None in E].
  simpl in Hn. subst a. apply list.last_Some in E as [A' ->].
  destruct (is_list_elem _ _ _ NULL Hl); [|done].
  rewrite elem_of_app. left. rewrite elem_of_app. right. by left.
Qed.

Lemma nodup_parts (A0 : list Z) a K x R :
  NoDup (A0 ++ a :: K ++ x :: R) ->
  x <> a /\ (a ∉ R) /\ (x ∉ R) /\ (x ∉ A0 ++ a :: R).
Proof.
  rewrite !list.NoDup_app, !list.NoDup_cons, !list.NoDup_app, !list.NoDup_cons.
  set_solver.
Qed.

(** The element at the cursor goes to the task through the head of the
    list. *)
Lemma CU_splice_head s s' x e t :
  CU s x NULL -> x <> NULL -> heap s !! x = Some e ->
  heap s' = <[x := set_next (heads s (own_task t)) e]> (heap s) ->
  (forall o, heads s' o
             = <[own_task t := x]> (<[own_unhandled := next e]> (heads s)) o) ->
  CU s' (next e) NULL.
Proof.
  intros H Hx He Hh Hd.
  destruct (CU_cursor _ _ _ _ H Hx He) as (own & A & K & R & Hi & Hl & HR & Hp).
  symmetry in Hp. apply (last_null _ _ _ _ Hl) in Hp. subst A. simpl in Hl.
  pose proof (is_list_NoDup _ _ _ Hl) as Hnd.
  assert (x ∉ R) as HxR.
  { apply list.NoDup_app in Hnd as (_ & _ & Hnd). by apply NoDup_cons_1_1 in Hnd. }
  pose proof (inv_at_unlink_head own _ _ own_unhandled K x R e Hi Hl He) as Hi1.
  apply (inv_at_push _ _ _ (own_task t) x e) in Hi1;
    [|by rewrite fn_lookup_insert|done|done|done].
  rewrite fn_lookup_insert_ne in Hi1 by done. rewrite <- Hh in Hi1.
  eexists _, [], [], R. split_and!; [|simpl| |done].
  - apply (inv_at_ext _ _ _ _ Hd). exact Hi1.
  - change (unhandled_remote_deps s') with (heads s' own_unhandled).
    rewrite Hd, fn_lookup_insert_ne, fn_lookup_insert by done.
    rewrite Hh. by apply is_list_insert.
  - rewrite Hh. by apply is_list_insert.
Qed.

(** The element at the cursor goes to the task through the link of
    [prev]. *)
Lemma CU_splice_prev s s' x e a ea t :
  CU s x a -> x <> NULL -> a <> NULL ->
  heap s !! x = Some e -> heap s !! a = Some ea ->
  heap s' = <[x := set_next (heads s (own_task t)) e]>
              (<[a := set_next (next e) ea]> (heap s)) ->
  (forall o, heads s' o = <[own_task t := x]> (heads s) o) ->
  CU s' (next e) a.
Proof.
  intros H Hx Ha He Hea Hh Hd.
  destruct (CU_cursor _ _ _ _ H Hx He) as (own & A & K & R & Hi & Hl & HR & Hp).
  destruct (list.last A) as [a'|] eqn:E; [|done]. simpl in Hp. subst a'.
  apply list.last_Some in E as [A0 ->].
  rewrite <- app_assoc in Hl. simpl in Hl.
  pose proof (is_list_NoDup _ _ _ Hl) as Hnd.
  destruct (nodup_parts _ _ _ _ _ Hnd) as (Hxa & HaR & HxR & HxAR).
  pose proof (inv_at_unlink own _ _ own_unhandled A0 a K x R ea e
                ltac:(done) Hi Hl Hea He) as Hi1.
  apply (inv_at_push _ _ _ (own_task t) x e) in Hi1;
    [|by rewrite fn_lookup_insert|by rewrite lookup_insert_ne|done|done].
  rewrite <- Hh in Hi1.
  eexists _, (A0 ++ [a]), [], R. split_and!; [| | |by rewrite list.last_snoc].
  - apply (inv_at_ext _ _ _ _ Hd). exact Hi1.
  - change (unhandled_remote_deps s') with (heads s' own_unhandled).
    rewrite Hd, fn_lookup_insert_ne by done. rewrite Hh.
    rewrite <- app_assoc. simpl. apply is_list_insert; [|done].
    by eapply is_list_unlink.
  - rewrite Hh. apply is_list_insert; [|done]. by apply is_list_insert.
Qed.

Lemma CU_prev s x a e :
  CU s x a -> x <> NULL -> a <> NULL -> heap s !! x = Some e ->
  x <> a /\ is_Some (heap s !! a).
Proof.
  intros H Hx Ha He.
  destruct (CU_cursor _ _ _ _ H Hx He) as (own & A & K & R & Hi & Hl & HR & Hp).
  destruct (list.last A) as [a'|] eqn:E; [|done]. simpl in Hp. subst a'.
  apply list.last_Some in E as [A0 ->].
  rewrite <- app_assoc in Hl. simpl in Hl.
  pose proof (is_list_NoDup _ _ _ Hl) as Hnd.
  destruct (nodup_parts _ _ _ _ _ Hnd) as (Hxa & _). split; [done|].
  destruct (is_list_elem _ _ _ a Hl) as [_ ?]; [|done].
  apply elem_of_app. right. by left.
Qed.

Lemma wp_check_unresolved_loop n t d : forall elem prev s,
  CU s elem prev ->
  wp (check_unresolved_loop n t d elem prev) (fun _ => inv) s.
Proof.
  induction n as [|n IH]; intros elem prev s H; simpl; [done|].
  destruct (elem =? NULL) eqn:E; [wp_go; by eapply CU_inv|].
  apply Z.eqb_neq in E. wp_go.
  destruct (_ =? _); [|by eapply IH, CU_advance].
  wp_go.
  apply (wp_mono _ (fun _ s' => CU s' (next e) prev));
    [|intros ? s1 H1; by apply IH].
  destruct (phase e =? task_phase tk).
  - wp_step.
    unfold DART_STACK_PUSH, lv_remote_successor, load, store.
    destruct (prev =? NULL) eqn:Ep.
    + apply Z.eqb_eq in Ep. subst prev. wp_go.
      eapply (CU_splice_head s _ elem e t); [done..| |].
      * simpl. by rewrite Htk.
      * intros o.
        rewrite (heads_set_remote_successor t tk elem (set_heap _ _)) by exact Htk.
        apply fn_insert_ext. intros o'. rewrite heads_set_heap.
        apply heads_set_unhandled.
    + apply Z.eqb_neq in Ep.
      destruct (CU_prev _ _ _ _ H E Ep He) as [Hne [ea Hea]].
      wp_go. rewrite lookup_insert_ne in He0 by done.
      assert (e0 = e) as -> by congruence.
      eapply (CU_splice_prev s _ elem e prev ea t); [done..| |].
      * simpl. by rewrite Htk.
      * intros o.
        rewrite (heads_set_remote_successor t tk elem (set_heap _ _)) by exact Htk.
        apply fn_insert_ext. intros o'. by rewrite !heads_set_heap.
  - destruct (phase e <? task_phase tk).
    + wp_go. eapply wp_mono.
      { apply (wp_inc_unresolved_deps t s). apply same_lists_sent. }
      intros ? s1 H1; simpl in H1. wp_go.
      eapply CU_same_lists; [done|]. by eapply CU_skip.
    + wp_go. by eapply CU_skip.
Qed.

Lemma wp_check_unresolved_remote_deps t d s :
  inv s -> wp (check_unresolved_remote_deps t d) (fun _ => inv) s.
Proof.
  intros Hi. unfold check_unresolved_remote_deps, walk_bound. wp_go.
  apply (wp_mono _ (fun _ => inv)); [|intros ? s1 H1; by wp_go].
  destruct (_ && _); [|by wp_go].
  wp_go. by apply wp_check_unresolved_loop, CU_init.
Qed.

Section Unit.

Variable myid : Z.
Variable getoffset : dart_gptr_t -> Z.

Lemma wp_handle_task t deps s :
  inv s ->
  wp (dart_tasking_datadeps_handle_task myid getoffset t deps) (fun _ => inv) s.
Proof.
  intros Hi. unfold dart_tasking_datadeps_handle_task. wp_step.
  apply (wp_mono _ (fun _ => inv)); [|intros ? s1 H1; by wp_go].
  apply wp_for_each; [|done]. clear s Hi. intros d0 s Hi.
  destruct (negb _).
  { wp_go. eapply same_lists_inv; [apply same_lists_sent|done]. }
  unfold walk_bound, lv_local_deps, load. wp_go.
  eapply wp_mono; [by apply wp_handle_task_walk|].
  intros ? s1 H1; simpl in H1. wp_step.
  eapply wp_mono; [eapply wp_dephash_add_local, same_lists_inv; done|].
  intros ? s2 H2; simpl in H2. wp_step.
  eapply wp_mono; [by apply wp_check_unresolved_remote_deps|].
  intros ? s3 H3. by wp_go.
Qed.

End Unit.

Lemma wp_release_remote_dependencies t s :
  inv s -> wp (release_remote_dependencies t) (fun _ => inv) s.
Proof.
  intros Hi. unfold release_remote_dependencies, walk_bound, lv_remote_successor,
    load, store. wp_go.
  eapply wp_mono.
  { apply (wp_release_remote_loop t).
    pose proof (LI_inv (own_task t) s Hi) as Hli. simpl in Hli.
    by rewrite Htk in Hli. }
  intros ? s1 H1; simpl in H1. wp_go.
  eapply (LI_done _ _ _ s1); [done|done|]. intros o.
  rewrite (heads_set_remote_successor t tk0 NULL s1) by done.
  destruct (decide (own_task t = o)) as [<-|Hne].
  - left. by rewrite fn_lookup_insert; auto.
  - right. rewrite fn_lookup_insert_ne by done. auto.
Qed.

Lemma wp_release_local_task thread t s :
  inv s ->
  wp (dart_tasking_datadeps_release_local_task thread t) (fun _ => inv) s.
Proof.
  intros Hi. unfold dart_tasking_datadeps_release_local_task. wp_step.
  eapply wp_mono; [by apply wp_release_remote_dependencies|].
  intros ? s1 H1; simpl in H1. wp_go.
  apply (wp_mono _ (fun _ => inv)); [|intros ? s2 H2; by wp_go].
  apply wp_for_each; [|done]. intros succ s2 H2. wp_step.
  eapply wp_mono; [apply (wp_dec_unresolved_deps succ s2), same_lists_refl|].
  intros v s3 H3; simpl in H3.
  assert (inv s3) by by eapply same_lists_inv.
  destruct (v <? 0); [by wp_go|]. destruct (v =? 0); [|by wp_go].
  wp_go. eapply same_lists_inv; [apply same_lists_queued|done].
Qed.

Lemma wp_release_unhandled_remote s :
  inv s ->
  wp dart_tasking_datadeps_release_unhandled_remote (fun _ => inv) s.
Proof.
  intros Hi. unfold dart_tasking_datadeps_release_unhandled_remote, walk_bound.
  wp_go. eapply wp_mono.
  { apply wp_release_unhandled_loop. apply (LI_inv own_unhandled s Hi). }
  intros ? s1 H1; simpl in H1. wp_go.
  eapply (LI_done _ _ _ s1); [done|done|]. intros o.
  rewrite heads_set_unhandled.
  destruct (decide (own_unhandled = o)) as [<-|Hne].
  - left. by rewrite fn_lookup_insert; auto.
  - right. rewrite fn_lookup_insert_ne by done. auto.
Qed.

(** A loop over a range of indices, with an invariant that knows the
    index. *)
Lemma wp_for_each_seq (body : Z -> M unit) (I : Z -> memory -> Prop) m :
  forall a s,
    (forall k s, Z.of_nat a <= k < Z.of_nat (a + m) ->
                 I k s -> wp (body k) (fun _ => I (k + 1)) s) ->
    I (Z.of_nat a) s ->
    wp (for_each (map Z.of_nat (seq a m)) body)
       (fun _ => I (Z.of_nat (a + m))) s.
Proof.
  induction m as [|m IH]; intros a s Hb Hs; simpl.
  { by rewrite Nat.add_0_r. }
  apply wp_bind. eapply wp_mono; [apply Hb; [lia|done]|].
  intros ? s1 H1; simpl in H1.
  replace (a + S m)%nat with (S a + m)%nat by lia.
  apply IH.
  - intros k s2 Hk. apply Hb. lia.
  - by replace (Z.of_nat (S a)) with (Z.of_nat a + 1) by lia.
Qed.

Lemma wp_reset s : inv s -> wp dart_tasking_datadeps_reset (fun _ => inv) s.
Proof.
  intros Hi. unfold dart_tasking_datadeps_reset. wp_step.
  pose (I := fun k s => exists own hd,
               inv_at own (heap s) hd
               /\ forall o, hd o = heads s o \/ (slots_done k o /\ hd o = NULL)).
  apply (wp_mono _ (fun _ => I (Z.of_nat (0 + Z.to_nat DART_DEPHASH_SIZE)))).
  - apply (wp_for_each_seq _ I).
    + clear s Hi. intros k s Hk (own & hd & Hi & Hv).
      unfold walk_bound, lv_local_deps, load. wp_go.
      eapply wp_mono.
      { apply (wp_recycle_chain (slots_done k) (own_slot k));
          [done|by intros (j & ? & _)|].
        exists own, hd. split_and!; [done| |auto].
        destruct (Hv (own_slot k)) as [->|[(j & [= <-] & ?) _]]; [done|lia]. }
      intros ? s1 (own1 & hd1 & Hi1 & Hc1 & Hv1). exists own1, hd1.
      split; [done|]. intros o.
      destruct (decide (o = own_slot k)) as [->|Hne].
      * right. split; [|done]. exists k. split; [done|lia].
      * destruct (Hv1 o Hne) as [->|[(j & -> & ?) ->]]; [by left|].
        right. split; [|done]. exists j. split; [done|lia].
    + destruct Hi as [own Hi]. exists own, (heads s). auto.
  - intros ? s1 (own & hd & Hi1 & Hv). wp_go. exists own. simpl.
    apply (inv_at_null _ _ hd); [|done]. intros o.
    destruct o as [| |i|t]; simpl; auto.
    + destruct (Hv own_free) as [->|[(j & [=] & _) _]]; by left.
    + destruct (Hv own_unhandled) as [->|[(j & [=] & _) _]]; by left.
    + destruct (Hv (own_task t)) as [->|[(j & [=] & _) _]]; by left.
Qed.

Lemma wp_init s : inv s -> wp dart_tasking_datadeps_init (fun _ => inv) s.
Proof.
  intros [own Hi]. unfold dart_tasking_datadeps_init. wp_go.
  exists own. simpl. apply (inv_at_null _ _ (heads s)); [|done].
  intros [| |i|t]; simpl; auto.
Qed.

Lemma wp_fini s : inv s -> wp dart_tasking_datadeps_fini (fun _ => inv) s.
Proof.
  intros Hi. unfold dart_tasking_datadeps_fini, walk_bound. wp_step.
  eapply wp_mono; [by apply wp_reset|]. intros ? s1 H1. wp_go.
  eapply wp_mono.
  { apply wp_free_chain. apply (LI_inv own_free s1 H1). }
  intros ? s2 H2; simpl in H2. wp_go.
  eapply (LI_done _ _ _ s2); [done|done|]. intros o.
  rewrite heads_set_freelist_head.
  destruct (decide (own_free = o)) as [<-|Hne].
  - left. by rewrite fn_lookup_insert; auto.
  - right. rewrite fn_lookup_insert_ne by done. auto.
Qed.

(** ** Every run keeps the invariant *)

Lemma inv_initial : inv initial_state.
Proof.
  exists (fun _ => None). split.
  - intros [| |i|t]; apply chain_null.
  - intros x [o Ho]. done.
Qed.

Lemma wp_run_op myid getoffset o s :
  inv s -> wp (run_op myid getoffset o) (fun _ => inv) s.
Proof.
  intros Hi. destruct o; simpl.
  - wp_go. destruct Hi as [own Hi]. exists own. simpl.
    apply (inv_at_null _ _ (heads s)); [|done].
    intros [| |i|t']; simpl; auto.
    destruct (decide (t = t')) as [->|Hne].
    + rewrite lookup_insert_eq. by right.
    + rewrite lookup_insert_ne by done. by left.
  - wp_go. eapply same_lists_inv; [|done]. by eapply same_lists_task.
  - wp_step. eapply wp_mono; [by apply wp_init|]. intros; by wp_go.
  - wp_step. eapply wp_mono; [by apply wp_reset|]. intros; by wp_go.
  - wp_step. eapply wp_mono; [by apply wp_fini|]. intros; by wp_go.
  - wp_step. eapply wp_mono; [by apply wp_handle_task|]. intros; by wp_go.
  - wp_step. eapply wp_mono; [by apply wp_handle_remote_task|]. intros; by wp_go.
  - wp_step. eapply wp_mono; [by apply wp_handle_remote_direct|]. intros; by wp_go.
  - wp_step. eapply wp_mono; [by apply wp_release_local_task|]. intros; by wp_go.
  - wp_step. eapply wp_mono; [by apply wp_release_unhandled_remote|].
    intros; by wp_go.
  - by wp_go.
Qed.

Lemma wp_run_ops myid getoffset ops s :
  inv s -> wp (run_ops myid getoffset ops) (fun _ => inv) s.
Proof. intros Hi. apply wp_for_each; [|done]. intros. by apply wp_run_op. Qed.

Lemma inv_free_list_zeroed s : inv s -> free_list_zeroed s.
Proof.
  intros (own & Hc & _). destruct (Hc own_free) as (l & Hl & Hown).
  exists l. split; [done|]. intros x Hx. by destruct (Hown x Hx) as [_ ?]; auto.
Qed.

(** C9: the elements of the free list are zeroed.  [dephash_recycle_elem]
    zeroes an element and makes it the head of the free list; after any run
    of entry points of the unit from the initial memory every element of
    the free list is zeroed but for its link, and the assertion of
    [dephash_allocate_elem] on the element it takes holds, in the run and
    in any allocation after it. *)
Theorem C9_free_list_zeroed myid getoffset ops :
  run_ops myid getoffset ops initial_state <> AssertFailed assert_elem_task_null
  /\ forall s,
       run_ops myid getoffset ops initial_state = Done tt s ->
       free_list_zeroed s
       /\ (forall d t,
             dephash_allocate_elem d t s <> AssertFailed assert_elem_task_null)
       /\ (forall p e,
             p <> NULL -> heap s !! p = Some e ->
             exists s',
               dephash_recycle_elem p s = Done tt s'
               /\ freelist_head s' = p
               /\ heap s' !! p = Some (set_next (freelist_head s) zero_elem)).
Proof.
  pose proof (wp_run_ops myid getoffset ops initial_state inv_initial) as H.
  unfold wp in H. split.
  { destruct (run_ops _ _ _ _); congruence. }
  intros s Hs. rewrite Hs in H. split_and!.
  - by apply inv_free_list_zeroed.
  - intros d t. pose proof (wp_allocate d t s H) as Ha. unfold wp in Ha.
    destruct (dephash_allocate_elem d t s); congruence.
  - intros p e Hp He. eexists. split; [by eapply dephash_recycle_elem_eq|].
    simpl. by rewrite lookup_insert_eq.
Qed.

Lemma C9_witness :
  free_list_zeroed released_requests
  /\ (forall d t,
        dephash_allocate_elem d t released_requests
        <> AssertFailed assert_elem_task_null)
  /\ (forall p e,
        p <> NULL -> heap released_requests !! p = Some e ->
        exists s',
          dephash_recycle_elem p released_requests = Done tt s'
          /\ freelist_head s' = p
          /\ heap s' !! p
             = Some (set_next (freelist_head released_requests) zero_elem)).
Proof.
  refine (proj2 (C9_free_list_zeroed example_myid example_getoffset
                   release_requests) released_requests _).
  vm_compute. reflexivity.
Defined.

Lemma C9_counterexample :
  list_of 8 (heap released_requests) (freelist_head released_requests) = [1; 2]
  /\ heap released_requests !! 1 = Some (set_next 2 zero_elem)
  /\ set_next 2 zero_elem <> zero_elem.
Proof. split_and!; [vm_compute; reflexivity..|discriminate]. Qed.

(** ** The lists in every reachable memory *)

(** X11: after any run of the entry points from the initial memory, the
    free list, the list of unhandled remote dependencies, the list of every
    hash slot and the list of remote successors of every task are lists of
    allocated elements that end in [NULL], and no element is on two of
    them. *)
Theorem lists_apart myid getoffset ops s :
  run_ops myid getoffset ops initial_state = Done tt s ->
  (forall o, exists l, is_list (heap s) (heads s o) l)
  /\ (forall o o' l l' x,
        is_list (heap s) (heads s o) l -> is_list (heap s) (heads s o') l' ->
        x ∈ l -> x ∈ l' -> o = o').
Proof.
  intros Hrun.
  pose proof (wp_run_ops myid getoffset ops initial_state inv_initial) as H.
  unfold wp in H. rewrite Hrun in H. destruct H as (own & Hc & _). split.
  - intros o. destruct (Hc o) as (l & Hl & _). eauto.
  - intros o o' l l' x Hl Hl' Hx Hx'.
    destruct (Hc o) as (l0 & Hl0 & Ho). destruct (Hc o') as (l0' & Hl0' & Ho').
    rewrite (is_list_functional _ _ _ _ Hl Hl0) in Hx.
    rewrite (is_list_functional _ _ _ _ Hl' Hl0') in Hx'.
    destruct (Ho _ Hx) as [H1 _]. destruct (Ho' _ Hx') as [H2 _]. congruence.
Qed.

Lemma lists_apart_witness :
  (forall o, exists l, is_list (heap released_requests) (heads released_requests o) l)
  /\ (forall o o' l l' x,
        is_list (heap released_requests) (heads released_requests o) l ->
        is_list (heap released_requests) (heads released_requests o') l' ->
        x ∈ l -> x ∈ l' -> o = o').
Proof.
  refine (lists_apart example_myid example_getoffset release_requests
            released_requests _).
  vm_compute. reflexivity.
Defined.

(** ** Calls that finish where a given one does *)

Lemma post_bind {A B} (m : M A) (f : A -> M B) Q s :
  post m (fun a s' => post (f a) Q s') s -> post (bind m f) Q s.
Proof.
  unfold post, bind. intros H b s2. destruct (m s) eqn:E; try done.
  intros. eapply H; eauto.
Qed.

Lemma bind_Done {A B} (m : M A) (f : A -> M B) s b s2 :
  bind m f s = Done b s2 ->
  exists a s1, m s = Done a s1 /\ f a s1 = Done b s2.
Proof. unfold bind. destruct (m s); try done. eauto. Qed.

Lemma tasks_kept_refl s : tasks_kept s s.
Proof. split; eauto. Qed.

Lemma tasks_kept_trans s1 s2 s3 :
  tasks_kept s1 s2 -> tasks_kept s2 s3 -> tasks_kept s1 s3.
Proof.
  intros [H1 H1'] [H2 H2']. split; [congruence|]. intros p e He.
  destruct (H1' _ _ He) as (e' & He' & Ht).
  destruct (H2' _ _ He') as (e'' & He'' & Ht'). exists e''. split; congruence.
Qed.

Lemma keeps_bind {A B} (m : M A) (f : A -> M B) :
  keeps_tasks m -> (forall a, keeps_tasks (f a)) -> keeps_tasks (bind m f).
Proof.
  intros Hm Hf s b s2 (a & s1 & H1 & H2)%bind_Done.
  eapply tasks_kept_trans; [by eapply Hm|by eapply Hf].
Qed.

Lemma keeps_ret {A} (a : A) : keeps_tasks (ret a).
Proof. intros s ? ? [= _ <-]. apply tasks_kept_refl. Qed.

Lemma keeps_get {A} (f : memory -> A) : keeps_tasks (get f).
Proof. intros s ? ? [= _ <-]. apply tasks_kept_refl. Qed.

Lemma keeps_diverge {A} : keeps_tasks (@diverge A).
Proof. intros s ? ? [=]. Qed.

Lemma keeps_modify f :
  (forall s, local_deps (f s) = local_deps s /\ heap (f s) = heap s) ->
  keeps_tasks (modify f).
Proof.
  intros Hf s ? ? [= _ <-]. destruct (Hf s) as [H1 H2].
  split; [done|]. rewrite H2. eauto.
Qed.

Lemma keeps_send m : keeps_tasks (send m).
Proof. by apply keeps_modify. Qed.

Lemma keeps_read_elem p : keeps_tasks (read_elem p).
Proof.
  intros s e s'. unfold read_elem. destruct (heap s !! p); [|done].
  intros [= _ <-]. apply tasks_kept_refl.
Qed.

Lemma keeps_read_task p : keeps_tasks (read_task p).
Proof.
  intros s e s'. unfold read_task. destruct (tasks s !! p); [|done].
  intros [= _ <-]. apply tasks_kept_refl.
Qed.

Lemma keeps_write_task p f : keeps_tasks (write_task p f).
Proof.
  intros s e s'. unfold write_task. destruct (tasks s !! p); [|done].
  intros [= _ <-]. split; simpl; eauto.
Qed.

Lemma keeps_write_elem p f :
  (forall e, task (f e) = task e) -> keeps_tasks (write_elem p f).
Proof.
  intros Hf s ? s'. unfold write_elem. destruct (heap s !! p) as [e|] eqn:He; [|done].
  intros [= _ <-]. split; [done|]. simpl. intros q e' He'.
  destruct (decide (p = q)) as [<-|Hne].
  - rewrite lookup_insert_eq. simplify_eq. eauto.
  - rewrite lookup_insert_ne by done. eauto.
Qed.

Lemma keeps_inc_unresolved_deps t : keeps_tasks (inc_unresolved_deps t).
Proof.
  unfold inc_unresolved_deps.
  apply keeps_bind; [apply keeps_read_task|]. intros tk.
  apply keeps_bind; [apply keeps_write_task|]. intros _. apply keeps_ret.
Qed.

Lemma keeps_push_task t elem :
  keeps_tasks (DART_STACK_PUSH (lv_remote_successor t) elem).
Proof.
  unfold DART_STACK_PUSH, lv_remote_successor, load, store.
  apply keeps_bind.
  { apply keeps_bind; [apply keeps_read_task|]. intros ?. apply keeps_ret. }
  intros h. apply keeps_bind; [by apply keeps_write_elem|].
  intros _. apply keeps_write_task.
Qed.

Lemma keeps_check_unresolved_loop n t d : forall elem prev,
  keeps_tasks (check_unresolved_loop n t d elem prev).
Proof.
  induction n as [|n IH]; intros elem prev; [apply keeps_diverge|].
  cbn [check_unresolved_loop].
  destruct (elem =? NULL); [apply keeps_ret|].
  apply keeps_bind; [apply keeps_read_elem|]. intros e.
  destruct (_ =? _); [|apply IH].
  apply keeps_bind; [apply keeps_read_task|]. intros tk.
  apply keeps_bind; [|intros _; apply IH].
  destruct (phase e =? task_phase tk).
  { apply keeps_bind; [|intros _; apply keeps_push_task].
    destruct (prev =? NULL); [by apply keeps_modify|by apply keeps_write_elem]. }
  destruct (phase e <? task_phase tk); [|apply keeps_ret].
  apply keeps_bind; [apply keeps_send|]. intros _.
  apply keeps_bind; [apply keeps_inc_unresolved_deps|]. intros _. apply keeps_ret.
Qed.

Lemma keeps_check_unresolved_remote_deps t d :
  keeps_tasks (check_unresolved_remote_deps t d).
Proof.
  unfold check_unresolved_remote_deps, walk_bound.
  apply keeps_bind; [apply keeps_get|]. intros head.
  apply keeps_bind; [|intros _; apply keeps_ret].
  destruct (_ && _); [|apply keeps_ret].
  apply keeps_bind; [apply keeps_get|]. intros n.
  apply keeps_bind; [apply keeps_get|]. intros elem.
  apply keeps_check_unresolved_loop.
Qed.

(** ** Allocation *)

(** An element that [dephash_allocate_elem] returns is not [NULL] and
    holds the task it was given. *)
Lemma post_allocate d t s :
  post (dephash_allocate_elem d t)
       (fun p s' => p <> NULL /\ local_deps s' = local_deps s
                    /\ exists e, heap s' !! p = Some e /\ task e = t) s.
Proof.
  intros p s'.
  unfold dephash_allocate_elem, DART_STACK_POP, lv_freelist_head, load, store,
    calloc_elem, DART_ASSERT, read_elem, write_elem, modify, get, ret, bind.
  intros H.
  repeat (case_match; simplify_eq/=);
    rewrite ?lookup_insert_eq in *; simplify_eq/=;
    (split_and!; [try done; try apply unused_addr_spec|done|
                  rewrite ?lookup_insert_eq; eauto]).
  by apply Z.eqb_neq.
Qed.

(** X14: an element that is recycled is the one the next allocation
    returns.  After [dephash_recycle_elem(p)], [dephash_allocate_elem]
    returns [p] with the task and the dependency it was given, a phase of
    zero and no link, and the free list is as it was before the two
    calls. *)
Theorem recycle_then_allocate p e d t s :
  p <> NULL -> t <> NULL -> heap s !! p = Some e ->
  (dephash_recycle_elem p ;;; dephash_allocate_elem d t) s
  = Done p (set_heap (<[p := mk_elem NULL t d 0]> (heap s)) s).
Proof.
  intros Hp Ht He. unfold bind at 1.
  rewrite (dephash_recycle_elem_eq _ _ _ Hp He).
  unfold dephash_allocate_elem, DART_STACK_POP, lv_freelist_head,
    load, store, DART_ASSERT, read_elem, write_elem, modify, get, ret, bind. simpl.
  apply Z.eqb_neq in Hp as Hp'. apply Z.eqb_neq in Ht as Ht'.
  rewrite ?Hp', ?Ht'. simpl.
  repeat (rewrite ?lookup_insert_eq, ?Hp', ?Ht'; simpl).
  rewrite !insert_insert_eq. by destruct s.
Qed.

Lemma recycle_then_allocate_witness :
  (dephash_recycle_elem 1 ;;;
   dephash_allocate_elem (local_dep DART_DEP_OUT 8192) task_T) parked_requests
  = Done 1 (set_heap (<[1 := mk_elem NULL task_T (local_dep DART_DEP_OUT 8192) 0]>
                        (heap parked_requests)) parked_requests).
Proof.
  refine (recycle_then_allocate 1
            (default zero_elem (heap parked_requests !! 1))
            (local_dep DART_DEP_OUT 8192) task_T parked_requests _ _ _).
  - discriminate.
  - discriminate.
  - vm_compute. reflexivity.
Defined.

Section Unit.

Variable myid : Z.
Variable getoffset : dart_gptr_t -> Z.

Abbreviation handle_task := (dart_tasking_datadeps_handle_task myid getoffset).

(** ** Dependencies on the memory of other units *)

Lemma set_sent_nil s : set_sent (sent s ++ []) s = s.
Proof. rewrite app_nil_r. by destruct s. Qed.

(** X12: [handle_task] on dependencies that all lie on other units sends
    one remote dependency request per dependency, in order, each with the
    absolute offset of its address, and changes nothing else: no element
    is allocated and no list is touched. *)
Theorem handle_task_remote_deps t deps s :
  Forall (fun d => unitid (gptr d) <> myid) deps ->
  handle_task t deps s
  = Done DART_OK
      (set_sent (sent s ++ map (fun d => remote_datadep (absolute getoffset d) t) deps)
                s).
Proof.
  intros Hr. unfold dart_tasking_datadeps_handle_task.
  unfold bind at 1.
  match goal with |- context [for_each deps ?b] => set (body := b) end.
  assert (Hloop : forall s,
            for_each deps body s
            = Done tt (set_sent (sent s ++ map (fun d => remote_datadep
                                                  (absolute getoffset d) t) deps) s)).
  { clear s. induction Hr as [|d deps Hd Hr IH]; intros s.
    - simpl. unfold ret. by rewrite set_sent_nil.
    - cbn [for_each map]. unfold bind at 1. unfold body at 1.
      cbn [unitid gptr set_dep_gptr set_gptr_offset].
      destruct (unitid (gptr d) =? myid) eqn:E; [apply Z.eqb_eq in E; done|].
      cbn [negb]. unfold send, modify. rewrite IH. simpl.
      by rewrite <- app_assoc. }
  by rewrite Hloop.
Qed.

(** ** Two dependencies of a task in one slot *)

Lemma keeps_for_each {A} (l : list A) (body : A -> M unit) :
  (forall x, keeps_tasks (body x)) -> keeps_tasks (for_each l body).
Proof.
  intros Hb. induction l as [|x l IH]; simpl; [apply keeps_ret|].
  apply keeps_bind; [apply Hb|]. intros _. apply IH.
Qed.

(** Once [dephash_add_local] returns, the slot of the dependency starts
    with an element of the task. *)
Lemma post_add_local d t s :
  post (dephash_add_local d t)
       (fun _ s' => exists elem e,
                      local_deps s' (hash_gptr (gptr d)) = elem /\ elem <> NULL
                      /\ heap s' !! elem = Some e /\ task e = t) s.
Proof.
  intros r s'. unfold dephash_add_local.
  intros (elem & s1 & H1 & H)%bind_Done.
  apply post_allocate in H1 as (Hn & _ & e & He & Ht).
  apply bind_Done in H as (tk & s2 & H2 & H).
  unfold read_task in H2. case_match; simplify_eq.
  apply bind_Done in H as ([] & s3 & H3 & H).
  unfold write_elem in H3. rewrite He in H3. simplify_eq.
  apply bind_Done in H as ([] & s4 & H4 & [= _ <-]).
  unfold DART_STACK_PUSH, lv_local_deps, load, store, bind, get, modify,
    write_elem in H4. simpl in H4. rewrite lookup_insert_eq in H4. simplify_eq.
  exists elem. eexists. simpl. rewrite Z.eqb_refl, lookup_insert_eq.
  split_and!; done.
Qed.

(** X13: a task cannot register two local dependencies that fall into
    the same hash slot (two dependencies on one address among them).
    When the first of them is registered, the second stops at the
    assertion that the task is not yet in the dependency hash. *)
Theorem handle_task_same_slot_twice t d1 d2 s r s1 :
  unitid (gptr d1) = myid -> unitid (gptr d2) = myid ->
  hash_gptr (gptr (absolute getoffset d1))
  = hash_gptr (gptr (absolute getoffset d2)) ->
  handle_task t [d1] s = Done r s1 ->
  handle_task t [d1; d2] s = AssertFailed assert_task_not_present.
Proof.
  intros Hu1 Hu2 Hh H1.
  unfold dart_tasking_datadeps_handle_task in *.
  match type of H1 with context [for_each _ ?b] => set (body := b) in * end.
  apply bind_Done in H1 as ([] & s1' & H1 & [= _ <-]).
  cbn [for_each] in H1 |- *.
  apply bind_Done in H1 as ([] & s2 & H1 & [= <-]).
  unfold bind at 1. unfold bind at 1. rewrite H1.
  (* the memory after the first dependency *)
  assert (exists elem e, local_deps s2 (hash_gptr (gptr (absolute getoffset d1))) = elem
                         /\ elem <> NULL /\ heap s2 !! elem = Some e /\ task e = t)
    as (elem & e & Hslot & Hn & He & Ht).
  { unfold body in H1. fold (absolute getoffset d1) in H1.
    assert (unitid (gptr (absolute getoffset d1)) = myid) as Hu by done.
    rewrite Hu, Z.eqb_refl in H1. cbn [negb] in H1.
    apply bind_Done in H1 as (n & sa & [= <- <-] & H1).
    apply bind_Done in H1 as (hd & sb & [= <- <-] & H1).
    apply bind_Done in H1 as ([] & sc & _ & H1).
    apply bind_Done in H1 as (ra & sd & Hadd & H1).
    apply bind_Done in H1 as (rb & se & Hchk & [= <-]).
    apply post_add_local in Hadd as (elem & e & Hslot & Hn & He & Ht).
    apply keeps_check_unresolved_remote_deps in Hchk as [Hld Hh'].
    destruct (Hh' _ _ He) as (e' & He' & Ht').
    exists elem, e'. rewrite Hld. split_and!; [done..|congruence]. }
  (* the walk of the second dependency starts at that element *)
  unfold bind at 1. unfold body at 1. fold (absolute getoffset d2).
  assert (unitid (gptr (absolute getoffset d2)) = myid) as Hu by done.
  rewrite Hu, Z.eqb_refl. cbn [negb].
  unfold walk_bound, lv_local_deps, load. unfold bind at 1. unfold get at 1.
  unfold bind at 1. unfold get at 1. rewrite <- Hh, Hslot.
  unfold bind at 1. cbn [handle_task_walk].
  destruct (elem =? NULL) eqn:E; [apply Z.eqb_eq in E; done|].
  unfold bind at 1. unfold read_elem at 1. rewrite He.
  unfold bind at 1. unfold DART_ASSERT. rewrite Ht, Z.eqb_refl. done.
Qed.

End Unit.

Lemma handle_task_remote_deps_witness :
  dart_tasking_datadeps_handle_task example_myid example_getoffset task_T
    [mk_dep DART_DEP_IN (mk_gptr 1 0 0 8192)] one_task
  = Done DART_OK
      (set_sent (sent one_task
                 ++ map (fun d => remote_datadep (absolute example_getoffset d) task_T)
                        [mk_dep DART_DEP_IN (mk_gptr 1 0 0 8192)])
                one_task).
Proof.
  refine (handle_task_remote_deps example_myid example_getoffset task_T
            [mk_dep DART_DEP_IN (mk_gptr 1 0 0 8192)] one_task _).
  repeat constructor. discriminate.
Defined.

Lemma handle_task_same_slot_twice_witness :
  dart_tasking_datadeps_handle_task example_myid example_getoffset task_T
    [local_dep DART_DEP_IN 8192; local_dep DART_DEP_OUT 8192] one_task
  = AssertFailed assert_task_not_present.
Proof.
  refine (handle_task_same_slot_twice example_myid example_getoffset task_T
            (local_dep DART_DEP_IN 8192) (local_dep DART_DEP_OUT 8192) one_task
            DART_OK
            (match dart_tasking_datadeps_handle_task example_myid example_getoffset
                     task_T [local_dep DART_DEP_IN 8192] one_task with
             | Done _ s => s
             | _ => one_task
             end) _ _ _ _);
    vm_compute; reflexivity.
Defined.

(** ** Releasing the local successors of a task *)

Lemma filter_ready_ext s s' l :
  (forall x, x ∈ l -> tasks s' !! x = tasks s !! x) ->
  List.filter (ready s') l = List.filter (ready s) l.
Proof.
  intros H. apply List.filter_ext_in. intros x Hx%list_elem_of_In.
  unfold ready. by rewrite H.
Qed.

Lemma release_successors_loop thread : forall l s,
  NoDup l ->
  (forall x, x ∈ l -> is_Some (tasks s !! x)) ->
  exists s',
    for_each l (fun succ =>
      v <- dec_unresolved_deps succ ;;
      if v <? 0 then ret tt
      else if v =? 0
           then modify (fun s => set_queued (queued s ++ [(thread, succ)]) s)
           else ret tt) s = Done tt s'
    /\ (forall x, tasks s' !! x
                  = if decide (x ∈ l) then released <$> tasks s !! x
                    else tasks s !! x)
    /\ queued s' = queued s ++ map (pair thread) (List.filter (ready s) l)
    /\ heap s' = heap s /\ sent s' = sent s /\ local_deps s' = local_deps s
    /\ freelist_head s' = freelist_head s
    /\ unhandled_remote_deps s' = unhandled_remote_deps s.
Proof.
  induction l as [|x l IH]; intros s Hnd Hall.
  { exists s. simpl. rewrite app_nil_r. split_and!; try done. }
  apply list.NoDup_cons in Hnd as [Hx Hnd].
  destruct (Hall x ltac:(by left)) as [tkx Htk].
  cbn [for_each]. unfold bind at 1. unfold bind at 1.
  unfold dec_unresolved_deps at 1. unfold bind at 1. unfold read_task at 1.
  rewrite Htk. unfold bind at 1. unfold write_task at 1. rewrite Htk.
  cbv beta iota. unfold ret at 1. cbv beta iota.
  set (v := cast_int (unresolved_deps tkx - 1)).
  set (s1 := set_tasks (<[x:=set_unresolved_deps v tkx]> (tasks s)) s).
  set (s2 := if v =? 0 then set_queued (queued s1 ++ [(thread, x)]) s1 else s1).
  assert (Hstep : (if v <? 0 then ret tt
                   else if v =? 0
                        then modify (fun s => set_queued (queued s ++ [(thread, x)]) s)
                        else ret tt) s1 = Done tt s2).
  { unfold s2. destruct (v <? 0) eqn:E1; destruct (v =? 0) eqn:E2; try done. lia. }
  rewrite Hstep.
  assert (Ht2 : tasks s2 = <[x:=released tkx]> (tasks s)).
  { unfold s2. by destruct (v =? 0). }
  destruct (IH s2 Hnd) as (s' & Hrun & Htasks & Hq & Hh & Hs & Hld & Hfl & Hun).
  { intros y Hy. rewrite Ht2, lookup_insert_ne by (intros ->; done). apply Hall.
    by right. }
  exists s'. split; [done|]. split_and!.
  - intros z. rewrite Htasks, Ht2.
    destruct (decide (z = x)) as [->|Hne].
    + rewrite decide_False by done. rewrite decide_True by (by left).
      by rewrite lookup_insert_eq, Htk.
    + rewrite lookup_insert_ne by done.
      destruct (decide (z ∈ l)).
      * rewrite decide_True by (by right). done.
      * rewrite decide_False; [done|]. by intros [?|?]%elem_of_cons.
  - rewrite Hq. rewrite (filter_ready_ext s s2).
    2:{ intros y Hy. rewrite Ht2, lookup_insert_ne by (intros ->; done). done. }
    cbn [List.filter]. unfold ready at 2. rewrite Htk.
    change (unresolved_deps (released tkx)) with v.
    unfold s2. destruct (v =? 0); simpl; [|done]. by rewrite <- app_assoc.
  - rewrite Hh. unfold s2. by destruct (v =? 0).
  - rewrite Hs. unfold s2. by destruct (v =? 0).
  - rewrite Hld. unfold s2. by destruct (v =? 0).
  - rewrite Hfl. unfold s2. by destruct (v =? 0).
  - rewrite Hun. unfold s2. by destruct (v =? 0).
Qed.

(** Without remote successors [release_remote_dependencies] changes
    nothing. *)
Lemma release_remote_dependencies_none t tk s :
  tasks s !! t = Some tk -> remote_successor tk = NULL ->
  release_remote_dependencies t s = Done DART_OK s.
Proof.
  intros Ht Hrs.
  unfold release_remote_dependencies, walk_bound, lv_remote_successor, load, store.
  unfold bind, get, read_task, write_task, ret. rewrite Ht. simpl.
  rewrite Hrs. simpl. rewrite Ht.
  assert (set_remote_successor NULL tk = tk) as ->.
  { destruct tk. simpl in *. by subst. }
  rewrite insert_id by done. by destruct s.
Qed.

(** X15: [release_local_task] on a task without remote successors whose
    local successors are distinct tasks.  The call returns [DART_OK]; the
    count of unresolved dependencies of every successor is one less; the
    successors whose count is then zero are pushed on the queue of the
    thread, in the order of the successor list; nothing is sent and no
    element or list changes. *)
Theorem release_local_task_successors thread t tk s :
  tasks s !! t = Some tk ->
  remote_successor tk = NULL ->
  NoDup (successor tk) ->
  (forall x, x ∈ successor tk -> is_Some (tasks s !! x)) ->
  exists s',
    dart_tasking_datadeps_release_local_task thread t s = Done DART_OK s'
    /\ (forall x, tasks s' !! x
                  = if decide (x ∈ successor tk) then released <$> tasks s !! x
                    else tasks s !! x)
    /\ queued s' = queued s
                   ++ map (pair thread) (List.filter (ready s) (successor tk))
    /\ heap s' = heap s /\ sent s' = sent s /\ local_deps s' = local_deps s
    /\ freelist_head s' = freelist_head s
    /\ unhandled_remote_deps s' = unhandled_remote_deps s.
Proof.
  intros Ht Hrs Hnd Hall.
  unfold dart_tasking_datadeps_release_local_task.
  unfold bind at 1. rewrite (release_remote_dependencies_none t tk s Ht Hrs).
  unfold bind at 1. unfold read_task at 1. rewrite Ht.
  destruct (release_successors_loop thread (successor tk) s Hnd Hall)
    as (s' & Hrun & H).
  unfold bind at 1. rewrite Hrun. exists s'. split; done.
Qed.

(** ** Reachable memories *)

Lemma reach_inv myid getoffset ops s :
  run_ops myid getoffset ops initial_state = Done tt s -> inv s.
Proof.
  intros Hrun.
  pose proof (wp_run_ops myid getoffset ops initial_state inv_initial) as H.
  unfold wp in H. by rewrite Hrun in H.
Qed.

Lemma wp_Done {A} (m : M A) Q s a s' : wp m Q s -> m s = Done a s' -> Q a s'.
Proof. unfold wp. intros H E. by rewrite E in H. Qed.

(** An address that is not allocated, or is the head of the free list, is
    on no other list. *)
Lemma fresh_not_listed s p o l :
  inv s ->
  heap s !! p = None \/ p = freelist_head s ->
  p <> NULL ->
  o <> own_free ->
  is_list (heap s) (heads s o) l -> p ∉ l.
Proof.
  intros (own & Hc & _) Hp Hn Ho Hl Hin. destruct Hp as [Hp| ->].
  - destruct (is_list_elem _ _ _ _ Hl Hin) as [_ [e He]]. congruence.
  - destruct (Hc own_free) as (lf & Hlf & Hof).
    destruct (Hc o) as (l0 & Hl0 & Ho0).
    rewrite (is_list_functional _ _ _ _ Hl Hl0) in Hin.
    destruct (Ho0 _ Hin) as [H1 _].
    destruct lf as [|y lf]; [done|]. destruct Hlf as (Hy & _).
    simpl in Hy. subst y. destruct (Hof (freelist_head s)) as [H2 _]; [by left|].
    congruence.
Qed.

(** ** Allocation in a reachable memory *)

(** [dephash_allocate_elem] returns: the element it hands out is new or
    was the head of the free list, and holds the task and the dependency,
    no link and phase zero. *)
Lemma allocate_total d t s :
  inv s -> t <> NULL ->
  exists p s',
    dephash_allocate_elem d t s = Done p s'
    /\ p <> NULL
    /\ (heap s !! p = None \/ p = freelist_head s)
    /\ heap s' = <[p := mk_elem NULL t d 0]> (heap s)
    /\ tasks s' = tasks s /\ local_deps s' = local_deps s
    /\ unhandled_remote_deps s' = unhandled_remote_deps s
    /\ sent s' = sent s /\ queued s' = queued s
    /\ unowned p s'.
Proof.
  intros Hi Ht.
  assert (Hrun : exists p s',
    dephash_allocate_elem d t s = Done p s'
    /\ p <> NULL
    /\ (heap s !! p = None \/ p = freelist_head s)
    /\ heap s' = <[p := mk_elem NULL t d 0]> (heap s)
    /\ tasks s' = tasks s /\ local_deps s' = local_deps s
    /\ unhandled_remote_deps s' = unhandled_remote_deps s
    /\ sent s' = sent s /\ queued s' = queued s).
  { apply Z.eqb_neq in Ht as Ht'.
    unfold dephash_allocate_elem, DART_STACK_POP, lv_freelist_head, load, store,
      calloc_elem, DART_ASSERT, read_elem, write_elem, modify, get, ret, bind.
    simpl. destruct (freelist_head s =? NULL) eqn:E; simpl; rewrite ?E; simpl.
    - destruct (unused_addr_spec (heap s)) as [Hf Hn].
      rewrite Ht'. simpl.
      repeat (rewrite ?lookup_insert_eq; simpl).
      eexists _, _. split; [reflexivity|]. simpl.
      rewrite !insert_insert_eq. split_and!; auto.
    - apply Z.eqb_neq in E as Hne. destruct Hi as [own Hi].
      destruct (inv_at_pop own _ _ own_free _ Hi eq_refl Hne)
        as (e & He & Hz & _).
      change (heads s own_free) with (freelist_head s) in *.
      destruct (Hz eq_refl) as (Hz1 & Hz2 & Hz3).
      rewrite He. simpl. rewrite He. simpl. rewrite E.
      rewrite Ht'. simpl.
      repeat (rewrite ?lookup_insert_eq; simpl).
      rewrite Hz1. simpl.
      repeat (rewrite ?lookup_insert_eq; simpl).
      eexists _, _. split; [reflexivity|]. simpl.
      rewrite !insert_insert_eq. split_and!; auto.
      destruct e. simpl in *. by subst. }
  destruct Hrun as (p & s' & Hrun & H). exists p, s'. split; [done|].
  destruct H as (?&?&?&?&?&?&?&?). split_and!; try done.
  exact (wp_Done _ _ _ _ _ (wp_allocate d t s Hi) Hrun).
Qed.

(** ** The walk over the slot of a remote request *)

Lemma handle_remote_walk_none d rt origin l : forall n p s,
  is_list (heap s) p l -> (length l < n)%nat ->
  (forall x e, x ∈ l -> heap s !! x = Some e ->
     writes_to (addr_or_offs (gptr (dep d))) e = false) ->
  handle_remote_walk n d rt origin p s = Done None s.
Proof.
  induction l as [|x l IH]; intros n p s Hl Hn Hw.
  { simpl in Hl. subst p. destruct n; [simpl in Hn; lia|]. done. }
  destruct n as [|n]; [simpl in Hn; lia|].
  destruct Hl as (-> & Hx & e & He & Hl).
  cbn [handle_remote_walk].
  destruct (x =? NULL) eqn:E; [apply Z.eqb_eq in E; done|].
  unfold bind at 1. unfold read_elem at 1. rewrite He.
  pose proof (Hw x e ltac:(by left) He) as Hwx. unfold writes_to in Hwx.
  rewrite Hwx. apply IH; [done|simpl in Hn; lia|].
  intros y ey Hy. apply Hw. by right.
Qed.

Lemma handle_remote_walk_found d rt origin l1 w l2 ew : forall n p s,
  is_list (heap s) p (l1 ++ w :: l2) -> (length l1 < n)%nat ->
  (forall x e, x ∈ l1 -> heap s !! x = Some e ->
     writes_to (addr_or_offs (gptr (dep d))) e = false) ->
  heap s !! w = Some ew ->
  writes_to (addr_or_offs (gptr (dep d))) ew = true ->
  handle_remote_walk n d rt origin p s
  = (tk <- read_task (task ew) ;;
     (if negb (is_finished (state tk)) then
        rs <- dephash_allocate_elem (dep d) rt ;;
        write_elem rs (fun r => set_taskdep
                         (set_dep_gptr (set_gptr_unitid origin (gptr (taskdep r)))
                                       (taskdep r)) r) ;;;
        write_elem rs (set_phase (dep_phase d)) ;;;
        DART_STACK_PUSH (lv_remote_successor (task ew)) rs
      else send (remote_release origin rt (dep d))) ;;;
     ret (Some DART_OK)) s.
Proof.
  induction l1 as [|x l1 IH]; intros n p s Hl Hn Hw Hew Hwr.
  { destruct n as [|n]; [simpl in Hn; lia|].
    destruct Hl as (-> & Hx & e & He & Hl). simplify_eq.
    cbn [handle_remote_walk].
    destruct (w =? NULL) eqn:E; [apply Z.eqb_eq in E; done|].
    unfold bind at 1. unfold read_elem at 1. rewrite He.
    unfold writes_to in Hwr. rewrite Hwr. done. }
  destruct n as [|n]; [simpl in Hn; lia|].
  destruct Hl as (-> & Hx & e & He & Hl).
  cbn [handle_remote_walk].
  destruct (x =? NULL) eqn:E; [apply Z.eqb_eq in E; done|].
  unfold bind at 1. unfold read_elem at 1. rewrite He.
  pose proof (Hw x e ltac:(by left) He) as Hwx. unfold writes_to in Hwx.
  rewrite Hwx. apply IH; [done|simpl in Hn; lia| |done..].
  intros y ey Hy. apply Hw. by right.
Qed.

(** ** A remote request in a reachable memory *)

Lemma remote_request_parked_inv s d rt origin :
  inv s ->
  type (dep d) = DART_DEP_IN -> rt <> NULL ->
  no_local_writer s d ->
  exists p s',
    dart_tasking_datadeps_handle_remote_task d rt origin s = Done DART_OK s'
    /\ unhandled_remote_deps s' = p /\ p <> NULL
    /\ heap s' = <[p := remote_elem d rt origin (unhandled_remote_deps s)]> (heap s)
    /\ (heap s !! p = None \/ p = freelist_head s)
    /\ sent s' = sent s /\ tasks s' = tasks s /\ local_deps s' = local_deps s.
Proof.
  intros Hi Hin Hrt (l & Hl & Hw).
  unfold dart_tasking_datadeps_handle_remote_task, is_in_dep. rewrite Hin.
  cbn [negb]. unfold walk_bound, lv_local_deps, load.
  unfold bind at 1. unfold get at 1. unfold bind at 1. unfold get at 1.
  unfold bind at 1.
  rewrite (handle_remote_walk_none d rt origin l); [|done| |done].
  2:{ pose proof (is_list_length _ _ _ Hl). lia. }
  destruct (allocate_total (dep d) rt s Hi Hrt)
    as (p & s1 & Hrun & Hp & Hfresh & Hh & Htk & Hld & Hun & Hsent & Hq & _).
  unfold bind at 1. rewrite Hrun.
  unfold DART_STACK_PUSH, lv_unhandled_remote_deps, load, store,
    write_elem, modify, get, ret, bind.
  rewrite Hh. simpl. repeat (rewrite ?lookup_insert_eq; simpl).
  eexists _, _. split; [reflexivity|]. simpl. rewrite !insert_insert_eq, Hun.
  split_and!; auto.
Qed.

Lemma remote_request_at_writer_inv s d rt origin w ew tk :
  inv s ->
  type (dep d) = DART_DEP_IN -> rt <> NULL ->
  first_local_writer s d w ew ->
  tasks s !! task ew = Some tk ->
  if is_finished (state tk)
  then dart_tasking_datadeps_handle_remote_task d rt origin s
       = Done DART_OK (set_sent (sent s ++ [remote_release origin rt (dep d)]) s)
  else exists p s',
         dart_tasking_datadeps_handle_remote_task d rt origin s = Done DART_OK s'
         /\ tasks s' = <[task ew := set_remote_successor p tk]> (tasks s)
         /\ p <> NULL
         /\ heap s' = <[p := remote_elem d rt origin (remote_successor tk)]> (heap s)
         /\ (heap s !! p = None \/ p = freelist_head s)
         /\ sent s' = sent s
         /\ unhandled_remote_deps s' = unhandled_remote_deps s
         /\ local_deps s' = local_deps s.
Proof.
  intros Hi Hin Hrt (l1 & l2 & Hl & Hw & Hew & Hwr) Htk.
  assert (Hlen : (length l1 < S (size (heap s)))%nat).
  { pose proof (is_list_length _ _ _ Hl). rewrite length_app in *. simpl in *. lia. }
  assert (Hstart :
    dart_tasking_datadeps_handle_remote_task d rt origin s
    = ((if negb (is_finished (state tk)) then
          rs <- dephash_allocate_elem (dep d) rt ;;
          write_elem rs (fun r => set_taskdep
                           (set_dep_gptr (set_gptr_unitid origin (gptr (taskdep r)))
                                         (taskdep r)) r) ;;;
          write_elem rs (set_phase (dep_phase d)) ;;;
          DART_STACK_PUSH (lv_remote_successor (task ew)) rs
        else send (remote_release origin rt (dep d))) ;;;
       ret DART_OK) s).
  { unfold dart_tasking_datadeps_handle_remote_task, is_in_dep. rewrite Hin.
    cbn [negb]. unfold walk_bound, lv_local_deps, load.
    unfold bind at 1. unfold get at 1. unfold bind at 1. unfold get at 1.
    unfold bind at 1.
    rewrite (handle_remote_walk_found d rt origin l1 w l2 ew); [|done..].
    unfold bind at 1. unfold read_task at 1. rewrite Htk.
    set (X := if negb _ then _ else _). unfold bind. by destruct (X s). }
  rewrite Hstart. clear Hstart.
  destruct (is_finished (state tk)) eqn:Ef; cbn [negb].
  { done. }
  destruct (allocate_total (dep d) rt s Hi Hrt)
    as (p & s1 & Hrun & Hp & Hfresh & Hh & Htk1 & Hld & Hun & Hsent & Hq & _).
  unfold bind at 1. unfold bind at 1. rewrite Hrun.
  unfold DART_STACK_PUSH, lv_remote_successor, load, store,
    read_task, write_task, write_elem, modify, get, ret, bind.
  repeat (rewrite ?Hh, ?Htk1, ?lookup_insert_eq, ?Htk; simpl).
  eexists _, _. split; [reflexivity|]. simpl. rewrite !insert_insert_eq.
  split_and!; auto.
Qed.

Lemma remote_direct_inv s lt tk rt origin :
  inv s -> rt <> NULL -> tasks s !! lt = Some tk ->
  exists p s',
    dart_tasking_datadeps_handle_remote_direct lt rt origin s = Done DART_OK s'
    /\ tasks s' = <[lt := set_remote_successor p tk]> (tasks s)
    /\ p <> NULL
    /\ heap s'
       = <[p := mk_elem (remote_successor tk) rt
                   (mk_dep DART_DEP_DIRECT (set_gptr_unitid origin DART_GPTR_NULL))
                   0]> (heap s)
    /\ (heap s !! p = None \/ p = freelist_head s)
    /\ sent s' = sent s
    /\ unhandled_remote_deps s' = unhandled_remote_deps s
    /\ local_deps s' = local_deps s.
Proof.
  intros Hi Hrt Htk. unfold dart_tasking_datadeps_handle_remote_direct.
  destruct (allocate_total (mk_dep DART_DEP_DIRECT
                              (set_gptr_unitid origin DART_GPTR_NULL)) rt s Hi Hrt)
    as (p & s1 & Hrun & Hp & Hfresh & Hh & Htk1 & Hld & Hun & Hsent & Hq & _).
  unfold bind at 1. rewrite Hrun.
  unfold DART_STACK_PUSH, lv_remote_successor, load, store,
    read_task, write_task, write_elem, modify, get, ret, bind.
  repeat (rewrite ?Hh, ?Htk1, ?lookup_insert_eq, ?Htk; simpl).
  eexists _, _. split; [reflexivity|]. simpl. rewrite !insert_insert_eq.
  split_and!; auto.
Qed.

Section Reachable.

Variable myid : Z.
Variable getoffset : dart_gptr_t -> Z.

Abbreviation reachable ops s :=
  (run_ops myid getoffset ops initial_state = Done tt s).

(** X16: a remote read request for an address that no element of its
    hash slot writes is parked.  In any memory the unit can reach, the
    call returns [DART_OK]; one element, new or taken from the head of the
    free list, holds the remote task, the dependency with the origin as its
    unit, and the phase of the request; it is the new head of the list of
    unhandled remote dependencies, linked to the old head; nothing is sent
    and no task or slot changes. *)
Theorem remote_request_parked ops s d rt origin :
  reachable ops s ->
  type (dep d) = DART_DEP_IN -> rt <> NULL ->
  no_local_writer s d ->
  exists p s',
    dart_tasking_datadeps_handle_remote_task d rt origin s = Done DART_OK s'
    /\ unhandled_remote_deps s' = p /\ p <> NULL
    /\ heap s' = <[p := remote_elem d rt origin (unhandled_remote_deps s)]> (heap s)
    /\ (heap s !! p = None \/ p = freelist_head s)
    /\ sent s' = sent s /\ tasks s' = tasks s /\ local_deps s' = local_deps s.
Proof. intros Hr. apply remote_request_parked_inv. by eapply reach_inv. Qed.

(** X17: a remote read request for an address whose hash slot holds a
    write.  The request goes to the task of the first write of the address
    in the slot: when that task is finished, the release is sent to the
    origin at once and nothing else changes; otherwise an element with the
    remote task, the origin and the phase becomes the head of the remote
    successors of that task, and nothing is sent. *)
Theorem remote_request_at_writer ops s d rt origin w ew tk :
  reachable ops s ->
  type (dep d) = DART_DEP_IN -> rt <> NULL ->
  first_local_writer s d w ew ->
  tasks s !! task ew = Some tk ->
  if is_finished (state tk)
  then dart_tasking_datadeps_handle_remote_task d rt origin s
       = Done DART_OK (set_sent (sent s ++ [remote_release origin rt (dep d)]) s)
  else exists p s',
         dart_tasking_datadeps_handle_remote_task d rt origin s = Done DART_OK s'
         /\ tasks s' = <[task ew := set_remote_successor p tk]> (tasks s)
         /\ p <> NULL
         /\ heap s' = <[p := remote_elem d rt origin (remote_successor tk)]> (heap s)
         /\ (heap s !! p = None \/ p = freelist_head s)
         /\ sent s' = sent s
         /\ unhandled_remote_deps s' = unhandled_remote_deps s
         /\ local_deps s' = local_deps s.
Proof. intros Hr. apply remote_request_at_writer_inv. by eapply reach_inv. Qed.

(** X18: a parked request is answered when the unhandled requests are
    released.  [handle_remote_task] on a request without a local writer
    followed by [release_unhandled_remote] sends the release of the
    request to its origin first, then the releases of the requests that
    were parked before, and leaves the list empty. *)
Theorem parked_request_released ops s d rt origin lu :
  reachable ops s ->
  type (dep d) = DART_DEP_IN -> rt <> NULL ->
  no_local_writer s d ->
  is_list (heap s) (unhandled_remote_deps s) lu ->
  exists s',
    (dart_tasking_datadeps_handle_remote_task d rt origin ;;;
     dart_tasking_datadeps_release_unhandled_remote) s = Done DART_OK s'
    /\ sent s'
       = sent s
         ++ remote_release origin rt (taskdep (remote_elem d rt origin NULL))
            :: map (release_of (heap s)) lu
    /\ unhandled_remote_deps s' = NULL.
Proof.
  intros Hr Hin Hrt Hnw Hlu. pose proof (reach_inv _ _ _ _ Hr) as Hi.
  destruct (remote_request_parked_inv s d rt origin Hi Hin Hrt Hnw)
    as (p & s1 & Hrun & Hun & Hp & Hh & Hfresh & Hsent & _).
  assert (Hpl : p ∉ lu).
  { by apply (fresh_not_listed s p own_unhandled lu). }
  assert (Hl1 : is_list (heap s1) (unhandled_remote_deps s1) (p :: lu)).
  { rewrite Hun, Hh. simpl. split_and!; [done..|].
    eexists. rewrite lookup_insert_eq. split; [done|]. simpl.
    by apply is_list_insert. }
  unfold bind at 1. rewrite Hrun.
  unfold dart_tasking_datadeps_release_unhandled_remote, walk_bound.
  unfold bind at 1. unfold get at 1. unfold bind at 1. unfold get at 1.
  destruct (release_unhandled_loop_spec (p :: lu) (S (size (heap s1)))
              (unhandled_remote_deps s1) s1 Hl1) as (s' & Hrun' & Hsent' & _).
  { pose proof (is_list_length _ _ _ Hl1). lia. }
  unfold bind at 1. rewrite Hrun'. eexists. split; [reflexivity|]. simpl.
  split; [|done]. rewrite Hsent', Hsent. f_equal. simpl. f_equal.
  - unfold release_of. rewrite Hh, lookup_insert_eq. done.
  - apply map_ext_in. intros x Hx%list_elem_of_In. unfold release_of.
    rewrite Hh, lookup_insert_ne; [done|]. by intros ->.
Qed.

(** X19: [handle_remote_direct] registers a direct dependency.  In any
    memory the unit can reach the call returns [DART_OK]; one element,
    new or taken from the head of the free list, holds the remote task and
    a dependency of kind [DART_DEP_DIRECT] with the origin as its unit; it
    is the new head of the remote successors of the local task; nothing is
    sent. *)
Theorem remote_direct_registered ops s lt tk rt origin :
  reachable ops s ->
  rt <> NULL -> tasks s !! lt = Some tk ->
  exists p s',
    dart_tasking_datadeps_handle_remote_direct lt rt origin s = Done DART_OK s'
    /\ tasks s' = <[lt := set_remote_successor p tk]> (tasks s)
    /\ p <> NULL
    /\ heap s'
       = <[p := mk_elem (remote_successor tk) rt
                   (mk_dep DART_DEP_DIRECT (set_gptr_unitid origin DART_GPTR_NULL))
                   0]> (heap s)
    /\ (heap s !! p = None \/ p = freelist_head s)
    /\ sent s' = sent s
    /\ unhandled_remote_deps s' = unhandled_remote_deps s
    /\ local_deps s' = local_deps s.
Proof. intros Hr. apply remote_direct_inv. by eapply reach_inv. Qed.

End Reachable.

(** ** The theorems on the example runs *)

Lemma release_local_task_successors_witness :
  exists s',
    dart_tasking_datadeps_release_local_task 7 task_A registered_A_B_C
    = Done DART_OK s'
    /\ (forall x, tasks s' !! x
                  = if decide (x ∈ [task_C; task_B])
                    then released <$> tasks registered_A_B_C !! x
                    else tasks registered_A_B_C !! x)
    /\ queued s' = queued registered_A_B_C
                   ++ map (pair 7) (List.filter (ready registered_A_B_C)
                                                [task_C; task_B])
    /\ heap s' = heap registered_A_B_C /\ sent s' = sent registered_A_B_C
    /\ local_deps s' = local_deps registered_A_B_C
    /\ freelist_head s' = freelist_head registered_A_B_C
    /\ unhandled_remote_deps s' = unhandled_remote_deps registered_A_B_C.
Proof.
  refine (release_local_task_successors 7 task_A
            (mk_task DART_TASK_CREATED 0 0 [task_C; task_B] NULL)
            registered_A_B_C _ _ _ _).
  - vm_compute. reflexivity.
  - reflexivity.
  - repeat constructor; set_solver.
  - intros x [->|[->|[]%elem_of_nil]%elem_of_cons]%elem_of_cons;
      vm_compute; eauto.
Defined.

Lemma no_writer_one_task d : no_local_writer one_task d.
Proof. exists []. split; [reflexivity|]. by intros x e ?%elem_of_nil. Qed.

Lemma remote_request_parked_witness :
  exists p s',
    dart_tasking_datadeps_handle_remote_task (remote_in 8192 4) 9001 1 one_task
    = Done DART_OK s'
    /\ unhandled_remote_deps s' = p /\ p <> NULL
    /\ heap s' = <[p := remote_elem (remote_in 8192 4) 9001 1
                          (unhandled_remote_deps one_task)]> (heap one_task)
    /\ (heap one_task !! p = None \/ p = freelist_head one_task)
    /\ sent s' = sent one_task /\ tasks s' = tasks one_task
    /\ local_deps s' = local_deps one_task.
Proof.
  refine (remote_request_parked example_myid example_getoffset set_up_T one_task
            (remote_in 8192 4) 9001 1 _ _ _ _).
  - vm_compute. reflexivity.
  - reflexivity.
  - discriminate.
  - apply no_writer_one_task.
Defined.

Lemma remote_request_at_writer_witness :
  exists p s',
    dart_tasking_datadeps_handle_remote_task (remote_in 8192 4) 9001 1
      writer_registered = Done DART_OK s'
    /\ tasks s' = <[task_T := set_remote_successor p (new_task 4)]>
                    (tasks writer_registered)
    /\ p <> NULL
    /\ heap s' = <[p := remote_elem (remote_in 8192 4) 9001 1
                          (remote_successor (new_task 4))]> (heap writer_registered)
    /\ (heap writer_registered !! p = None \/ p = freelist_head writer_registered)
    /\ sent s' = sent writer_registered
    /\ unhandled_remote_deps s' = unhandled_remote_deps writer_registered
    /\ local_deps s' = local_deps writer_registered.
Proof.
  refine (remote_request_at_writer example_myid example_getoffset register_writer
            writer_registered (remote_in 8192 4) 9001 1 1
            (mk_elem NULL task_T (local_dep DART_DEP_OUT 8192) 4) (new_task 4)
            _ _ _ _ _).
  - vm_compute. reflexivity.
  - reflexivity.
  - discriminate.
  - exists [], []. split_and!.
    + vm_compute. split_and!; try done. eexists. split; reflexivity.
    + by intros x e ?%elem_of_nil.
    + vm_compute. reflexivity.
    + reflexivity.
  - vm_compute. reflexivity.
Defined.

Lemma parked_request_released_witness :
  exists s',
    (dart_tasking_datadeps_handle_remote_task (remote_in 8192 5) 9003 2 ;;;
     dart_tasking_datadeps_release_unhandled_remote) parked_requests
    = Done DART_OK s'
    /\ sent s'
       = sent parked_requests
         ++ remote_release 2 9003
              (taskdep (remote_elem (remote_in 8192 5) 9003 2 NULL))
            :: map (release_of (heap parked_requests)) [2; 1]
    /\ unhandled_remote_deps s' = NULL.
Proof.
  refine (parked_request_released example_myid example_getoffset park_requests
            parked_requests (remote_in 8192 5) 9003 2 [2; 1] _ _ _ _ _).
  - vm_compute. reflexivity.
  - reflexivity.
  - discriminate.
  - exists []. split; [vm_compute; reflexivity|]. by intros x e ?%elem_of_nil.
  - vm_compute. repeat split; try discriminate; eexists; (split; [reflexivity|]);
      repeat split; try discriminate; eexists; (split; [reflexivity|]); reflexivity.
Defined.

Lemma remote_direct_registered_witness :
  exists p s',
    dart_tasking_datadeps_handle_remote_direct task_T 9001 1 one_task
    = Done DART_OK s'
    /\ tasks s' = <[task_T := set_remote_successor p (new_task 4)]> (tasks one_task)
    /\ p <> NULL
    /\ heap s'
       = <[p := mk_elem (remote_successor (new_task 4)) 9001
                   (mk_dep DART_DEP_DIRECT (set_gptr_unitid 1 DART_GPTR_NULL))
                   0]> (heap one_task)
    /\ (heap one_task !! p = None \/ p = freelist_head one_task)
    /\ sent s' = sent one_task
    /\ unhandled_remote_deps s' = unhandled_remote_deps one_task
    /\ local_deps s' = local_deps one_task.
Proof.
  refine (remote_direct_registered example_myid example_getoffset set_up_T one_task
            task_T (new_task 4) 9001 1 _ _ _).
  - vm_compute. reflexivity.
  - discriminate.
  - vm_compute. reflexivity.
Defined.

(** ** The walk of [handle_task] over a slot *)

Lemma bind_run {A B} (m : M A) (f : A -> M B) s a s1 :
  m s = Done a s1 -> bind m f s = f a s1.
Proof. unfold bind. by intros ->. Qed.

Lemma add_unresolved_0 k : add_unresolved 0 k = k.
Proof. by destruct k. Qed.

Lemma add_successors_0 t k : add_successors t 0 k = k.
Proof. by destruct k. Qed.

Lemma add_unresolved_add a b k :
  add_unresolved a (add_unresolved b k) = add_unresolved (b + a) k.
Proof.
  unfold add_unresolved, set_unresolved_deps. simpl. f_equal.
  rewrite Nat.add_comm. by rewrite Nat.iter_add.
Qed.

Lemma add_successors_add t a b k :
  add_successors t a (add_successors t b k) = add_successors t (b + a) k.
Proof.
  unfold add_successors, set_successor. simpl. f_equal.
  rewrite Nat.add_comm, repeat_app. by rewrite <- app_assoc.
Qed.

(** One round of the walk on an element of another task. *)
Lemma handle_task_walk_step n t d x e ek k s :
  x <> NULL -> heap s !! x = Some e -> task e <> t ->
  tasks s !! task e = Some ek -> tasks s !! t = Some k ->
  let w := (addr_or_offs (gptr (taskdep e)) =? addr_or_offs (gptr d))
           && negb (is_finished (state ek))
           && (IS_OUT_DEP d || (is_in_dep d && IS_OUT_DEP (taskdep e))) in
  let s1 :=
    if w then
      set_tasks (<[task e := set_successor (t :: successor ek) ek]>
                   (<[t := set_unresolved_deps (cast_int (unresolved_deps k + 1)) k]>
                      (tasks s))) s
    else s in
  handle_task_walk (S n) t d x s
  = if writes_to (addr_or_offs (gptr d)) e then Done tt s1
    else handle_task_walk n t d (next e) s1.
Proof.
  intros Hx He Hne Hek Hk w s1. subst w s1. simpl.
  apply Z.eqb_neq in Hx as Hx'. rewrite Hx'.
  rewrite (bind_run _ _ _ e s) by (unfold read_elem; by rewrite He).
  apply Z.eqb_neq in Hne as Hne'.
  rewrite (bind_run _ _ _ tt s)
    by (unfold DART_ASSERT; by rewrite Hne').
  unfold writes_to.
  destruct (addr_or_offs (gptr (taskdep e)) =? addr_or_offs (gptr d)); simpl;
    [|done].
  rewrite (bind_run _ _ _ ek s) by (unfold read_task; by rewrite Hek).
  destruct (negb (is_finished (state ek))
            && (IS_OUT_DEP d || is_in_dep d && IS_OUT_DEP (taskdep e))) eqn:Ew.
  - erewrite bind_run.
    + by destruct (IS_OUT_DEP (taskdep e)).
    + unfold inc_unresolved_deps, write_task, read_task, bind, ret. simpl.
      rewrite Hk. simpl. rewrite Hk. simpl.
      rewrite lookup_insert_ne by done. rewrite Hek. done.
  - erewrite bind_run; [|done]. by destruct (IS_OUT_DEP (taskdep e)).
Qed.

Lemma predecessors_cons s d x e l :
  heap s !! x = Some e ->
  predecessors s d (x :: l)
  = (if must_wait s d x then [task e] else [])
    ++ (if writes_to (addr_or_offs (gptr d)) e then [] else predecessors s d l).
Proof.
  intros He. unfold predecessors. simpl. rewrite He.
  destruct (writes_to _ e); simpl.
  - destruct (must_wait s d x); simpl; [by rewrite He|done].
  - destruct (must_wait s d x); simpl; [by rewrite He|done].
Qed.

(** The walk adds the new task to the local successors of the tasks the
    dependency waits for, and counts them. *)
Lemma handle_task_walk_spec t d s0 : forall L n p s,
  heap s = heap s0 -> (forall q, unfinished s q = unfinished s0 q) ->
  is_list (heap s0) p L -> (length L < n)%nat ->
  (forall x, x ∈ L ->
     exists e, heap s0 !! x = Some e /\ task e <> t
               /\ is_Some (tasks s !! task e)) ->
  is_Some (tasks s !! t) ->
  exists s',
    handle_task_walk n t d p s = Done tt s'
    /\ heap s' = heap s /\ local_deps s' = local_deps s
    /\ freelist_head s' = freelist_head s
    /\ unhandled_remote_deps s' = unhandled_remote_deps s
    /\ sent s' = sent s /\ queued s' = queued s
    /\ tasks s' !! t
       = add_unresolved (length (predecessors s0 d L)) <$> tasks s !! t
    /\ (forall q, q <> t ->
          tasks s' !! q
          = add_successors t (count_occ Z.eq_dec (predecessors s0 d L) q)
            <$> tasks s !! q).
Proof.
  induction L as [|x L IH]; intros n p s Hh Hu Hl Hn Hex Ht.
  { simpl in Hl. subst p. destruct n; [simpl in Hn; lia|].
    eexists. split; [reflexivity|]. split_and!; try done.
    - simpl. destruct (tasks s !! t); [|done]. simpl. by rewrite add_unresolved_0.
    - intros q _. simpl. destruct (tasks s !! q); [|done]. simpl.
      by rewrite add_successors_0. }
  destruct n as [|n]; [simpl in Hn; lia|].
  destruct Hl as (-> & Hx & e & He & Hl).
  destruct (Hex x) as (e' & He' & Hne & [ek Hek]); [by left|].
  assert (e' = e) as -> by congruence.
  destruct Ht as [k Hk].
  rewrite (handle_task_walk_step n t d x e ek k s); try done; [|by rewrite Hh].
  rewrite (predecessors_cons s0 d x e L He).
  assert (Hw : must_wait s0 d x
               = (addr_or_offs (gptr (taskdep e)) =? addr_or_offs (gptr d))
                 && negb (is_finished (state ek))
                 && (IS_OUT_DEP d || (is_in_dep d && IS_OUT_DEP (taskdep e)))).
  { unfold must_wait. rewrite He, <- Hu. unfold unfinished. by rewrite Hek. }
  rewrite <- Hw.
  set (s1 := if must_wait s0 d x then _ else s).
  set (P1 := if must_wait s0 d x then [task e] else []).
  assert (H1 : heap s1 = heap s /\ local_deps s1 = local_deps s
               /\ freelist_head s1 = freelist_head s
               /\ unhandled_remote_deps s1 = unhandled_remote_deps s
               /\ sent s1 = sent s /\ queued s1 = queued s).
  { subst s1. by destruct (must_wait s0 d x). }
  destruct H1 as (H1h & H1l & H1f & H1u & H1s & H1q).
  assert (H1t : tasks s1 !! t = add_unresolved (length P1) <$> tasks s !! t).
  { subst s1 P1. destruct (must_wait s0 d x); simpl.
    - rewrite lookup_insert_ne by done. rewrite lookup_insert_eq, Hk. done.
    - rewrite Hk. simpl. by rewrite add_unresolved_0. }
  assert (H1o : forall q, q <> t ->
            tasks s1 !! q
            = add_successors t (count_occ Z.eq_dec P1 q) <$> tasks s !! q).
  { intros q Hq. subst s1 P1. destruct (must_wait s0 d x); simpl.
    - destruct (Z.eq_dec (task e) q) as [<-|Hqe].
      + rewrite lookup_insert_eq, Hek. done.
      + rewrite !lookup_insert_ne by done.
        destruct (tasks s !! q); [|done]. simpl. by rewrite add_successors_0.
    - destruct (tasks s !! q); [|done]. simpl. by rewrite add_successors_0. }
  assert (H1u' : forall q, unfinished s1 q = unfinished s0 q).
  { intros q. rewrite <- Hu. subst s1. destruct (must_wait s0 d x); [|done].
    unfold unfinished. simpl.
    destruct (decide (q = task e)) as [->|];
      [by rewrite lookup_insert_eq, Hek|]. rewrite lookup_insert_ne by done.
    destruct (decide (q = t)) as [->|];
      [by rewrite lookup_insert_eq, Hk|by rewrite lookup_insert_ne]. }
  assert (H1s' : forall q, is_Some (tasks s !! q) -> is_Some (tasks s1 !! q)).
  { intros q Hq. subst s1. destruct (must_wait s0 d x); [|done]. simpl.
    rewrite !lookup_insert_is_Some'. auto. }
  assert (Hrest : exists s',
    (if writes_to (addr_or_offs (gptr d)) e then Done tt s1
     else handle_task_walk n t d (next e) s1) = Done tt s'
    /\ heap s' = heap s1 /\ local_deps s' = local_deps s1
    /\ freelist_head s' = freelist_head s1
    /\ unhandled_remote_deps s' = unhandled_remote_deps s1
    /\ sent s' = sent s1 /\ queued s' = queued s1
    /\ tasks s' !! t
       = add_unresolved
           (length (if writes_to (addr_or_offs (gptr d)) e then []
                    else predecessors s0 d L)) <$> tasks s1 !! t
    /\ (forall q, q <> t ->
          tasks s' !! q
          = add_successors t
              (count_occ Z.eq_dec
                 (if writes_to (addr_or_offs (gptr d)) e then []
                  else predecessors s0 d L) q) <$> tasks s1 !! q)).
  { destruct (writes_to (addr_or_offs (gptr d)) e).
    - eexists. split; [reflexivity|]. split_and!; try done.
      + simpl. destruct (tasks s1 !! t); [|done]. simpl.
        by rewrite add_unresolved_0.
      + intros q _. simpl. destruct (tasks s1 !! q); [|done]. simpl.
        by rewrite add_successors_0.
    - apply IH; try done.
      + congruence.
      + simpl in Hn. lia.
      + intros y Hy. destruct (Hex y) as (ey & Hey & Hney & Hsy); [by right|].
        exists ey. split_and!; auto.
      + apply H1s'. by exists k. }
  destruct Hrest as (s' & Hrun & Hh' & Hl' & Hf' & Hu' & Hs' & Hq' & Ht' & Ho').
  exists s'. split; [done|]. split_and!; try congruence.
  - rewrite Ht', H1t, <- option_fmap_compose. rewrite length_app.
    destruct (tasks s !! t); [|done]. simpl. by rewrite add_unresolved_add.
  - intros q Hq. rewrite Ho', H1o, <- option_fmap_compose by done.
    rewrite count_occ_app.
    destruct (tasks s !! q); [|done]. simpl. by rewrite add_successors_add.
Qed.

(** ** Registration of a local dependency *)

(** [dephash_add_local] in a memory with well-formed lists: the element is
    new or the head of the free list, and becomes the head of the slot. *)
Lemma add_local_total d t tk s :
  inv s -> t <> NULL -> tasks s !! t = Some tk ->
  exists p s',
    dephash_add_local d t s = Done DART_OK s'
    /\ p <> NULL /\ (heap s !! p = None \/ p = freelist_head s)
    /\ heap s'
       = <[p := mk_elem (local_deps s (hash_gptr (gptr d))) t d (task_phase tk)]>
           (heap s)
    /\ (forall i, local_deps s' i
                  = if i =? hash_gptr (gptr d) then p else local_deps s i)
    /\ tasks s' = tasks s
    /\ unhandled_remote_deps s' = unhandled_remote_deps s
    /\ sent s' = sent s /\ queued s' = queued s.
Proof.
  intros Hi Ht Htk.
  destruct (allocate_total d t s Hi Ht)
    as (p & s1 & Hrun & Hp & Hfresh & Hh & Hts & Hl & Hu & Hs & Hq & _).
  unfold dephash_add_local. rewrite (bind_run _ _ _ _ _ Hrun).
  rewrite (bind_run _ _ _ tk s1) by (unfold read_task; by rewrite Hts, Htk).
  erewrite bind_run;
    [|unfold write_elem; rewrite Hh, lookup_insert_eq; reflexivity].
  unfold DART_STACK_PUSH, lv_local_deps, load, store, write_elem, get, modify,
    bind, ret. simpl. rewrite lookup_insert_eq. simpl.
  exists p. eexists. split; [reflexivity|]. simpl.
  rewrite Hl, !insert_insert_eq. split_and!; done.
Qed.

Section Unit.

Variable myid : Z.
Variable getoffset : dart_gptr_t -> Z.

Abbreviation handle_task := (dart_tasking_datadeps_handle_task myid getoffset).

(** [handle_task] with one dependency on the calling unit, in a memory
    with well-formed lists. *)
Lemma handle_task_local_inv s t tk d0 d L :
  inv s ->
  d = absolute getoffset d0 -> unitid (gptr d0) = myid ->
  t <> NULL -> tasks s !! t = Some tk ->
  is_list (heap s) (local_deps s (hash_gptr (gptr d))) L ->
  (forall x, x ∈ L ->
     exists e, heap s !! x = Some e /\ task e <> t
               /\ is_Some (tasks s !! task e)) ->
  IS_OUT_DEP d = false \/ unhandled_remote_deps s = NULL ->
  exists p s',
    handle_task t [d0] s = Done DART_OK s'
    /\ p <> NULL /\ (heap s !! p = None \/ p = freelist_head s)
    /\ heap s'
       = <[p := mk_elem (local_deps s (hash_gptr (gptr d))) t d (task_phase tk)]>
           (heap s)
    /\ (forall i, local_deps s' i
                  = if i =? hash_gptr (gptr d) then p else local_deps s i)
    /\ tasks s' !! t = Some (add_unresolved (length (predecessors s d L)) tk)
    /\ (forall q, q <> t ->
          tasks s' !! q
          = add_successors t (count_occ Z.eq_dec (predecessors s d L) q)
            <$> tasks s !! q)
    /\ sent s' = sent s
    /\ unhandled_remote_deps s' = unhandled_remote_deps s
    /\ queued s' = queued s.
Proof.
  intros Hi Hd Hu Ht Htk Hl Hex Hsweep.
  destruct (handle_task_walk_spec t d s L (S (size (heap s)))
              (local_deps s (hash_gptr (gptr d))) s)
    as (s1 & Hw & H1h & H1l & H1f & H1u & H1s & H1q & H1t & H1o); try done.
  { pose proof (is_list_length _ _ _ Hl). lia. }
  rewrite Htk in H1t. simpl in H1t.
  assert (Hi1 : inv s1).
  { apply (same_lists_inv s); [|done]. split; [done|].
    intros [| |i|q]; simpl; try congruence.
    destruct (decide (q = t)) as [->|Hq].
    - by rewrite H1t, Htk.
    - rewrite H1o by done. by destruct (tasks s !! q). }
  destruct (add_local_total d t _ s1 Hi1 Ht H1t)
    as (p & s2 & Hadd & Hp & Hfresh & H2h & H2l & H2t & H2u & H2s & H2q).
  exists p, s2. split.
  - unfold dart_tasking_datadeps_handle_task. cbn [for_each]. cbv zeta.
    fold (absolute getoffset d0). rewrite <- Hd.
    assert (Hm : (unitid (gptr d) =? myid) = true).
    { apply Z.eqb_eq. by rewrite Hd. }
    rewrite Hm. cbn [negb].
    unfold walk_bound, lv_local_deps, load.
    unfold bind at 1. unfold bind at 1. unfold bind at 1. unfold bind at 1.
    unfold get at 1. unfold bind at 1. unfold get at 1.
    unfold bind at 1. rewrite Hw.
    unfold bind at 1. rewrite Hadd.
    unfold check_unresolved_remote_deps, bind, get, ret.
    destruct Hsweep as [Ho|Hn].
    + by rewrite Ho.
    + rewrite H2u, H1u, Hn. simpl. by rewrite andb_false_r.
  - simpl in H2h. rewrite H1h, H1l, H1f in *.
    split_and!; try done; try congruence.
    intros q Hq. rewrite H2t. by apply H1o.
Qed.

(** X20: the dependencies that [handle_task] records for a dependency on
    the calling unit.  Let [L] be the list of the hash slot of the address,
    newest element first, with elements of allocated tasks other than [t].
    The call looks at the elements up to the first write of the address,
    that write included.  Each of them that is on the same address and
    whose task is not finished makes [t] wait, when the new dependency is
    a write, or when it is a read and the element is a write: [t] is put
    at the head of the local successors of that task, and the count of
    unresolved dependencies of [t] is incremented.  Then one element, new or
    taken from the free list, with the task, the dependency with its
    absolute offset and the phase of the task becomes the head of the
    slot.  Nothing is sent.  (The sweep of the unhandled remote requests
    does nothing here: the dependency is a read or there is no such
    request.) *)
Theorem handle_task_local_dependency ops s t tk d0 d L :
  run_ops myid getoffset ops initial_state = Done tt s ->
  d = absolute getoffset d0 -> unitid (gptr d0) = myid ->
  t <> NULL -> tasks s !! t = Some tk ->
  is_list (heap s) (local_deps s (hash_gptr (gptr d))) L ->
  (forall x, x ∈ L ->
     exists e, heap s !! x = Some e /\ task e <> t
               /\ is_Some (tasks s !! task e)) ->
  IS_OUT_DEP d = false \/ unhandled_remote_deps s = NULL ->
  exists p s',
    handle_task t [d0] s = Done DART_OK s'
    /\ p <> NULL /\ (heap s !! p = None \/ p = freelist_head s)
    /\ heap s'
       = <[p := mk_elem (local_deps s (hash_gptr (gptr d))) t d (task_phase tk)]>
           (heap s)
    /\ (forall i, local_deps s' i
                  = if i =? hash_gptr (gptr d) then p else local_deps s i)
    /\ tasks s' !! t = Some (add_unresolved (length (predecessors s d L)) tk)
    /\ (forall q, q <> t ->
          tasks s' !! q
          = add_successors t (count_occ Z.eq_dec (predecessors s d L) q)
            <$> tasks s !! q)
    /\ sent s' = sent s
    /\ unhandled_remote_deps s' = unhandled_remote_deps s
    /\ queued s' = queued s.
Proof. intros Hr. apply handle_task_local_inv. by eapply reach_inv. Qed.

End Unit.

(** ** The sweep of the parked requests *)

Lemma same_fields_refl h : same_fields h h.
Proof. intros x e He. eauto. Qed.

Lemma same_fields_set_next h0 h y ey v :
  same_fields h0 h -> h !! y = Some ey ->
  same_fields h0 (<[y := set_next v ey]> h).
Proof.
  intros Hs Hy x e He. destruct (Hs x e He) as (e' & He' & H1 & H2 & H3).
  destruct (decide (x = y)) as [->|Hne].
  - rewrite lookup_insert_eq. eexists. split; [done|].
    assert (e' = ey) as -> by congruence. done.
  - rewrite lookup_insert_ne by done. eauto.
Qed.

Lemma set_remote_successor_id k : set_remote_successor (remote_successor k) k = k.
Proof. by destruct k. Qed.

(** The rounds of the sweep from an element of the list on.  [pre] are
    the requests that stay, up to the last one on another address;
    [pend] the requests on the address met since; [R] the remote
    successors of the task. *)
Lemma check_unresolved_loop_spec t d h0 : forall l n pre pend R elem s k,
  (length l < n)%nat ->
  same_fields h0 (heap s) ->
  (forall x, x ∈ l -> is_Some (h0 !! x)) ->
  is_list (heap s) (unhandled_remote_deps s) (pre ++ pend ++ l) ->
  is_list (heap s) elem l ->
  tasks s !! t = Some k ->
  is_list (heap s) (remote_successor k) R ->
  (forall x, x ∈ pre ++ pend ++ l -> x ∉ R) ->
  exists s' r,
    check_unresolved_loop n t d elem (default NULL (list.last pre)) s = Done tt s'
    /\ same_fields h0 (heap s')
    /\ is_list (heap s') (unhandled_remote_deps s')
         (pre ++ left_over h0 d (task_phase k) pend l)
    /\ tasks s'
       = <[t := set_remote_successor r
                  (add_unresolved
                     (length (List.filter (earlier_phase h0 d (task_phase k)) l)) k)]>
           (tasks s)
    /\ is_list (heap s') r
         (rev (List.filter (same_phase h0 d (task_phase k)) l) ++ R)
    /\ sent s'
       = sent s ++ map (direct_of h0 t)
                       (List.filter (earlier_phase h0 d (task_phase k)) l)
    /\ local_deps s' = local_deps s /\ freelist_head s' = freelist_head s
    /\ queued s' = queued s
    /\ (forall y, y ∉ pre ++ pend ++ l -> heap s' !! y = heap s !! y).
Proof.
  induction l as [|x l IH]; intros n pre pend R elem s k Hn Hsf Hex Hlu Hle Hk HR Hd.
  { simpl in Hle. subst elem. destruct n; [simpl in Hn; lia|].
    exists s, (remote_successor k). simpl. rewrite app_nil_r in Hlu.
    split_and!; try done.
    - rewrite add_unresolved_0, set_remote_successor_id. by rewrite insert_id.
    - by rewrite app_nil_r. }
  destruct n as [|n]; [simpl in Hn; lia|].
  destruct Hle as (-> & Hx & e & He & Hl).
  destruct (Hex x) as [e0 He0]; [by left|].
  destruct (Hsf x e0 He0) as (e' & He' & Hf1 & Hf2 & Hf3).
  assert (e' = e) as -> by congruence.
  assert (Hoa : on_address h0 d x
                = (addr_or_offs (gptr (taskdep e)) =? addr_or_offs (gptr d))).
  { unfold on_address. by rewrite He0, Hf2. }
  assert (Hph : phase_of h0 x = phase e).
  { unfold phase_of. by rewrite He0. }
  pose proof (is_list_NoDup _ _ _ Hlu) as Hnd.
  assert (Hex' : forall y, y ∈ l -> is_Some (h0 !! y)).
  { intros y Hy. apply Hex. by right. }
  assert (Hxl : x ∉ pre ++ l).
  { rewrite !list.NoDup_app in Hnd. destruct Hnd as (_ & H1 & _ & H2 & H3).
    apply list.NoDup_cons in H3 as [H3 _]. rewrite elem_of_app.
    intros [Hin|Hin]; [|done]. apply (H1 _ Hin). rewrite elem_of_app. right. by left. }
  assert (HxR : x ∉ R).
  { apply Hd. rewrite !elem_of_app. right. right. by left. }
  cbn [check_unresolved_loop].
  apply Z.eqb_neq in Hx as Hx'. rewrite Hx'.
  rewrite (bind_run _ _ _ e s) by (unfold read_elem; by rewrite He).
  cbv zeta. cbn [left_over List.filter]. unfold same_phase, earlier_phase.
  rewrite Hoa, Hph.
  destruct (addr_or_offs (gptr (taskdep e)) =? addr_or_offs (gptr d)) eqn:Ea;
    cbn [andb].
  - rewrite (bind_run _ _ _ k s) by (unfold read_task; by rewrite Hk).
    destruct (phase e =? task_phase k) eqn:Ep.
    + (* the request goes to the task *)
      assert (Hlt : (phase e <? task_phase k) = false).
      { apply Z.eqb_eq in Ep. rewrite Ep. apply Z.ltb_irrefl. }
      rewrite Hlt.
      assert (Hunlink : exists s1,
        (if default NULL (list.last pre) =? NULL
         then modify (set_unhandled_remote_deps (next e))
         else write_elem (default NULL (list.last pre)) (set_next (next e))) s
        = Done tt s1
        /\ same_fields h0 (heap s1)
        /\ is_list (heap s1) (unhandled_remote_deps s1) (pre ++ l)
        /\ is_list (heap s1) (next e) l
        /\ is_list (heap s1) (remote_successor k) R
        /\ heap s1 !! x = Some e
        /\ tasks s1 = tasks s /\ sent s1 = sent s
        /\ local_deps s1 = local_deps s /\ freelist_head s1 = freelist_head s
        /\ queued s1 = queued s
        /\ (forall y, y ∉ pre ++ pend ++ x :: l -> heap s1 !! y = heap s !! y)).
      { destruct (list.last pre) as [a|] eqn:El.
        - apply list.last_Some in El as [A ->]. simpl.
          assert (Ha : a ∈ (A ++ [a]) ++ pend ++ x :: l).
          { rewrite !elem_of_app. left. right. by left. }
          destruct (is_list_elem _ _ _ _ Hlu Ha) as [Ha0 [ea Hea]].
          apply Z.eqb_neq in Ha0 as Ha0'. rewrite Ha0'.
          unfold write_elem. rewrite Hea. eexists. split; [reflexivity|]. simpl.
          assert (Hax : a <> x).
          { intros ->. apply Hxl. rewrite !elem_of_app. left. right. by left. }
          assert (Hal : a ∉ l).
          { rewrite <- !app_assoc in Hnd. apply nodup_parts in Hnd. tauto. }
          split_and!; try done.
          + by apply same_fields_set_next.
          + rewrite <- !app_assoc in Hlu |- *. simpl in *.
            by apply (is_list_unlink _ _ _ _ pend x l ea e).
          + by apply is_list_insert.
          + apply is_list_insert; [done|]. apply Hd.
            rewrite !elem_of_app. left. right. by left.
          + by rewrite lookup_insert_ne.
          + intros y Hy. rewrite lookup_insert_ne; [done|]. intros <-.
            apply Hy. rewrite !elem_of_app. left. right. by left.
        - apply list.last_None in El. subst pre. simpl in *.
          eexists. split; [reflexivity|]. simpl. split_and!; done. }
      destruct Hunlink as (s1 & Hrun1 & Hsf1 & Hlu1 & Hl1 & HR1 & He1 & Ht1 & Hs1
                              & Hld1 & Hfl1 & Hq1 & Hfr1).
      erewrite (bind_run _ _ _ tt).
      2:{ erewrite bind_run; [|exact Hrun1].
          unfold DART_STACK_PUSH, lv_remote_successor, load, store, write_elem,
            write_task, read_task, bind, ret. simpl.
          rewrite Ht1, Hk. simpl. rewrite He1. simpl. rewrite Ht1, Hk.
          reflexivity. }
      set (s2 := set_tasks _ _).
      destruct (IH n pre [] (x :: R) (next e) s2 (set_remote_successor x k))
        as (s' & r & Hrun & Hsf' & Hlu' & Ht' & Hr' & Hs' & Hld' & Hfl' & Hq' & Hfr');
        try done.
      * simpl in Hn. lia.
      * subst s2. simpl. by apply same_fields_set_next.
      * subst s2. simpl. by apply is_list_insert.
      * subst s2. simpl. apply is_list_insert; [done|].
        intros Hin. apply Hxl. rewrite elem_of_app. by right.
      * subst s2. simpl. by rewrite lookup_insert_eq.
      * subst s2. simpl. split_and!; [done..|].
        eexists. rewrite lookup_insert_eq. split; [done|]. simpl.
        by apply is_list_insert.
      * intros y Hy. simpl in Hy. rewrite not_elem_of_cons. split.
        -- intros ->. by apply Hxl.
        -- apply Hd. set_solver.
      * exists s', r. simpl in *. split; [done|]. split_and!; try done.
        -- rewrite Ht'. subst s2. simpl. rewrite ?Ht1, insert_insert_eq. done.
        -- simpl. by rewrite <- app_assoc.
        -- rewrite Hs'. subst s2. simpl. by rewrite Hs1.
        -- rewrite Hld'. subst s2. simpl. done.
        -- rewrite Hfl'. subst s2. simpl. done.
        -- rewrite Hq'. subst s2. simpl. done.
        -- intros y Hy. rewrite Hfr'.
           ++ subst s2. simpl. rewrite lookup_insert_ne.
              ** by apply Hfr1.
              ** intros <-. apply Hy. rewrite !elem_of_app. right. right. by left.
           ++ set_solver.
    + destruct (phase e <? task_phase k) eqn:Eq.
      * (* a direct dependency is sent; the request stays *)
        rewrite (bind_run _ _ _ tt
                   (set_tasks (<[t := add_unresolved 1 k]> (tasks s))
                      (set_sent (sent s ++ [direct_of h0 t x]) s))).
        2:{ unfold inc_unresolved_deps, send, modify, write_task, read_task, bind,
              ret. simpl. rewrite Hk. simpl. rewrite Hk.
            unfold direct_of. rewrite He0. simpl. by rewrite Hf1, Hf2. }
        set (s1 := set_tasks _ _).
        destruct (IH n pre (pend ++ [x]) R (next e) s1 (add_unresolved 1 k))
          as (s' & r & Hrun & Hsf' & Hlu' & Ht' & Hr' & Hs' & Hld' & Hfl' & Hq' & Hfr');
          try done.
        -- simpl in Hn. lia.
        -- subst s1. simpl. by rewrite <- !app_assoc.
        -- subst s1. simpl. by rewrite lookup_insert_eq.
        -- intros y Hy. apply Hd. by rewrite <- !app_assoc in Hy.
        -- exists s', r. simpl in *. split; [done|]. split_and!; try done.
           ++ rewrite Ht'. subst s1. simpl. rewrite insert_insert_eq.
              by rewrite add_unresolved_add.
           ++ rewrite Hs'. subst s1. simpl. by rewrite <- app_assoc.
           ++ intros y Hy. rewrite Hfr'; [done|]. by rewrite <- !app_assoc.
      * (* a request of a later phase stays *)
        rewrite (bind_run _ _ _ tt s) by done.
        destruct (IH n pre (pend ++ [x]) R (next e) s k)
          as (s' & r & Hrun & Hsf' & Hlu' & Ht' & Hr' & Hs' & Hld' & Hfl' & Hq' & Hfr');
          try done.
        -- simpl in Hn. lia.
        -- by rewrite <- !app_assoc.
        -- intros y Hy. apply Hd. by rewrite <- !app_assoc in Hy.
        -- exists s', r. split; [done|]. split_and!; try done.
           intros y Hy. rewrite Hfr'; [done|]. by rewrite <- !app_assoc.
  - (* a request on another address stays, and is the new [prev] *)
    destruct (IH n (pre ++ pend ++ [x]) [] R (next e) s k)
      as (s' & r & Hrun & Hsf' & Hlu' & Ht' & Hr' & Hs' & Hld' & Hfl' & Hq' & Hfr');
      try done.
    + simpl in Hn. lia.
    + by rewrite <- !app_assoc.
    + intros y Hy. apply Hd. by rewrite <- !app_assoc in Hy.
    + exists s', r. rewrite !app_assoc, list.last_snoc in Hrun. simpl in Hrun.
      split; [done|]. split_and!; try done.
      * by rewrite <- !app_assoc in Hlu'.
      * intros y Hy. rewrite Hfr'; [done|]. by rewrite <- !app_assoc.
Qed.

(** X21: what [check_unresolved_remote_deps] does to the parked remote
    requests when task [t] registers a dependency [d].  For a read
    dependency nothing happens.  For a write, with [lu] the list of parked
    requests and [lr] the remote successors of [t]: every request on the
    address of [d] and of the phase of [t] is taken off the list and pushed
    on the remote successors of [t]; for every request on the address and
    of an earlier phase one direct dependency is sent, in list order, and
    the count of unresolved dependencies of [t] is incremented; requests on
    other addresses stay, in order.  A request on the address of another
    phase stays only if no request of the phase of [t] follows it before
    the next request on another address ([left_over]).  No element changes
    its task, dependency or phase, and only links of parked requests are
    written. *)
Theorem sweep_of_parked_requests t tk d lu lr s :
  tasks s !! t = Some tk ->
  is_list (heap s) (unhandled_remote_deps s) lu ->
  is_list (heap s) (remote_successor tk) lr ->
  (forall x, x ∈ lu -> x ∉ lr) ->
  if IS_OUT_DEP d then
    exists s' r,
      check_unresolved_remote_deps t d s = Done DART_OK s'
      /\ is_list (heap s') (unhandled_remote_deps s')
           (left_over (heap s) d (task_phase tk) [] lu)
      /\ tasks s'
         = <[t := set_remote_successor r
                    (add_unresolved
                       (length (List.filter
                                  (earlier_phase (heap s) d (task_phase tk)) lu))
                       tk)]> (tasks s)
      /\ is_list (heap s') r
           (rev (List.filter (same_phase (heap s) d (task_phase tk)) lu) ++ lr)
      /\ sent s'
         = sent s ++ map (direct_of (heap s) t)
                         (List.filter (earlier_phase (heap s) d (task_phase tk)) lu)
      /\ same_fields (heap s) (heap s')
      /\ (forall y, y ∉ lu -> heap s' !! y = heap s !! y)
      /\ local_deps s' = local_deps s /\ freelist_head s' = freelist_head s
      /\ queued s' = queued s
  else check_unresolved_remote_deps t d s = Done DART_OK s.
Proof.
  intros Hk Hlu Hlr Hd. unfold check_unresolved_remote_deps.
  destruct (IS_OUT_DEP d) eqn:Eo; [|done]. simpl.
  unfold bind at 1. unfold get at 1. unfold bind at 1.
  destruct (unhandled_remote_deps s =? NULL) eqn:En; cbn [negb].
  - apply Z.eqb_eq in En. rewrite En in Hlu. destruct lu as [|x lu].
    + exists s, (remote_successor tk). simpl. split_and!; try done.
      * rewrite add_unresolved_0, set_remote_successor_id. by rewrite insert_id.
      * by rewrite app_nil_r.
      * apply same_fields_refl.
    + simpl in Hlu. destruct Hlu as (Hx & Hx0 & _). congruence.
  - destruct (check_unresolved_loop_spec t d (heap s) lu (S (size (heap s)))
                [] [] lr (unhandled_remote_deps s) s tk)
      as (s' & r & Hrun & Hsf & Hlu' & Ht' & Hr' & Hs' & Hld & Hfl & Hq & Hfr);
      try done.
    + pose proof (is_list_length _ _ _ Hlu). lia.
    + apply same_fields_refl.
    + intros x Hx. by destruct (is_list_elem _ _ _ _ Hlu Hx).
    + exists s', r. split; [|done].
      change (default NULL (list.last [])) with NULL in Hrun.
      unfold walk_bound, bind, get. by rewrite Hrun.
Qed.

(** ** Recycling a list *)

Lemma elem_of_rev (l : list Z) x : x ∈ rev l <-> x ∈ l.
Proof. rewrite !list_elem_of_In. symmetry. apply in_rev. Qed.

Lemma recycle_chain_spec : forall l n p s F,
  is_list (heap s) p l -> (length l < n)%nat ->
  is_list (heap s) (freelist_head s) F ->
  (forall x, x ∈ l -> x ∉ F) ->
  exists s',
    recycle_chain n p s = Done tt s'
    /\ is_list (heap s') (freelist_head s') (rev l ++ F)
    /\ (forall x, x ∈ l -> exists e, heap s' !! x = Some e /\ zeroed e)
    /\ (forall y, y ∉ l -> heap s' !! y = heap s !! y)
    /\ tasks s' = tasks s /\ local_deps s' = local_deps s
    /\ unhandled_remote_deps s' = unhandled_remote_deps s
    /\ sent s' = sent s /\ queued s' = queued s.
Proof.
  induction l as [|x l IH]; intros n p s F Hl Hn HF Hd.
  { simpl in Hl. subst p. destruct n; [simpl in Hn; lia|].
    exists s. simpl. split_and!; try done. by intros x ?%elem_of_nil. }
  destruct n as [|n]; [simpl in Hn; lia|].
  pose proof (is_list_NoDup _ _ _ Hl) as Hnd.
  apply list.NoDup_cons in Hnd as [Hxl _].
  destruct Hl as (-> & Hx & e & He & Hl).
  cbn [recycle_chain]. apply Z.eqb_neq in Hx as Hx'. rewrite Hx'.
  rewrite (bind_run _ _ _ e s) by (unfold read_elem; by rewrite He).
  cbv zeta. rewrite (bind_run _ _ _ tt _ (dephash_recycle_elem_eq x e s Hx He)).
  set (s1 := set_freelist_head _ _).
  assert (HxF : x ∉ F) by (apply Hd; by left).
  destruct (IH n (next e) s1 (x :: F))
    as (s' & Hrun & HF' & Hz & Hfr & Ht & Hld & Hu & Hs & Hq).
  - subst s1. simpl. by apply is_list_insert.
  - simpl in Hn. lia.
  - subst s1. simpl. split_and!; [done..|]. eexists.
    rewrite lookup_insert_eq. split; [done|]. simpl. by apply is_list_insert.
  - intros y Hy. rewrite not_elem_of_cons. split.
    + by intros ->.
    + apply Hd. by right.
  - exists s'. split; [done|]. split_and!; try done.
    + simpl. by rewrite <- app_assoc.
    + intros y [->|Hy]%elem_of_cons; [|by apply Hz].
      rewrite Hfr by done. subst s1. simpl. rewrite lookup_insert_eq.
      eexists. split; [done|]. done.
    + intros y [Hyx Hy]%not_elem_of_cons. rewrite Hfr by done.
      subst s1. simpl. by rewrite lookup_insert_ne.
Qed.

(** The loop of [reset] over slots with disjoint lists. *)
Lemma reset_loop_spec (Ls : Z -> list Z) : forall slots s F,
  NoDup slots ->
  (forall i, i ∈ slots -> is_list (heap s) (local_deps s i) (Ls i)) ->
  is_list (heap s) (freelist_head s) F ->
  (forall i j x, i ∈ slots -> j ∈ slots -> x ∈ Ls i -> x ∈ Ls j -> i = j) ->
  (forall i x, i ∈ slots -> x ∈ Ls i -> x ∉ F) ->
  exists s',
    for_each slots (fun i =>
      n <- walk_bound ;;
      elem <- load (lv_local_deps i) ;;
      recycle_chain n elem) s = Done tt s'
    /\ is_list (heap s') (freelist_head s') (rev (concat (map Ls slots)) ++ F)
    /\ (forall x, x ∈ concat (map Ls slots) ->
          exists e, heap s' !! x = Some e /\ zeroed e)
    /\ (forall y, y ∉ concat (map Ls slots) -> heap s' !! y = heap s !! y)
    /\ tasks s' = tasks s /\ local_deps s' = local_deps s
    /\ unhandled_remote_deps s' = unhandled_remote_deps s
    /\ sent s' = sent s /\ queued s' = queued s.
Proof.
  induction slots as [|i slots IH]; intros s F Hnd Hl HF Hij HiF.
  { exists s. simpl. split_and!; try done. by intros x ?%elem_of_nil. }
  apply list.NoDup_cons in Hnd as [Hi Hnd].
  destruct (recycle_chain_spec (Ls i) (S (size (heap s))) (local_deps s i) s F)
    as (s1 & Hrun1 & HF1 & Hz1 & Hfr1 & Ht1 & Hld1 & Hu1 & Hs1 & Hq1).
  { apply Hl. by left. }
  { pose proof (is_list_length _ _ _ (Hl i ltac:(by left))). lia. }
  { done. }
  { intros x Hx. apply (HiF i); [by left|done]. }
  assert (Hother : forall j x, j ∈ slots -> x ∈ Ls j -> x ∉ Ls i).
  { intros j x Hj Hx Hxi. assert (i = j); [|by subst].
    apply (Hij i j x); [by left|by right|done..]. }
  destruct (IH s1 (rev (Ls i) ++ F)) as (s' & Hrun & HF' & Hz & Hfr & Ht & Hld & Hu & Hs & Hq).
  - done.
  - intros j Hj. rewrite Hld1. apply (is_list_agree (heap s)); [apply Hl; by right|].
    intros x Hx. apply Hfr1. by apply (Hother j).
  - done.
  - intros j1 j2 x H1 H2. apply Hij; by right.
  - intros j x Hj Hx. rewrite elem_of_app, elem_of_rev.
    intros [Hxi|HxF]; [by apply (Hother j x)|].
    by apply (HiF j x); [right|..].
  - exists s'. split.
    + cbn [for_each]. unfold walk_bound, lv_local_deps, load.
      unfold bind at 1. unfold bind at 1. unfold get at 1.
      unfold bind at 1. unfold get at 1. unfold bind at 1.
      rewrite Hrun1. done.
    + simpl. split_and!; try congruence.
      * by rewrite rev_app_distr, <- app_assoc.
      * intros x [Hx|Hx]%elem_of_app; [|by apply Hz].
        destruct (decide (x ∈ concat (map Ls slots))) as [Hin|Hnin]; [by apply Hz|].
        rewrite Hfr by done. by apply Hz1.
      * intros y [Hy1 Hy2]%not_elem_of_app. rewrite Hfr by done. by apply Hfr1.
Qed.

(** ** Freeing a list *)

Lemma free_chain_spec : forall l n p s,
  is_list (heap s) p l -> (length l < n)%nat ->
  exists s',
    free_chain n p s = Done tt s'
    /\ (forall y, heap s' !! y = if decide (y ∈ l) then None else heap s !! y)
    /\ tasks s' = tasks s /\ local_deps s' = local_deps s
    /\ freelist_head s' = freelist_head s
    /\ unhandled_remote_deps s' = unhandled_remote_deps s
    /\ sent s' = sent s /\ queued s' = queued s.
Proof.
  induction l as [|x l IH]; intros n p s Hl Hn.
  { simpl in Hl. subst p. destruct n; [simpl in Hn; lia|].
    exists s. simpl. split_and!; try done. }
  destruct n as [|n]; [simpl in Hn; lia|].
  pose proof (is_list_NoDup _ _ _ Hl) as Hnd.
  apply list.NoDup_cons in Hnd as [Hxl _].
  destruct Hl as (-> & Hx & e & He & Hl).
  cbn [free_chain]. apply Z.eqb_neq in Hx as Hx'. rewrite Hx'.
  rewrite (bind_run _ _ _ e s) by (unfold read_elem; by rewrite He).
  cbv zeta.
  rewrite (bind_run _ _ _ tt (set_heap (delete x (heap s)) s))
    by (unfold free_elem; by rewrite He).
  destruct (IH n (next e) (set_heap (delete x (heap s)) s))
    as (s' & Hrun & Hh & Ht & Hld & Hfl & Hu & Hs & Hq).
  - simpl. by apply is_list_delete.
  - simpl in Hn. lia.
  - exists s'. split; [done|]. split_and!; try done.
    intros y. rewrite Hh. simpl.
    destruct (decide (y ∈ l)) as [Hin|Hnin];
      destruct (decide (y ∈ x :: l)) as [Hin2|Hnin2]; try done.
    + exfalso. apply Hnin2. by right.
    + apply elem_of_cons in Hin2 as [->|?]; [|done]. by rewrite lookup_delete_eq.
    + rewrite lookup_delete_ne; [done|]. intros ->. apply Hnin2. by left.
Qed.

(** ** The owner of the elements of a list *)

Lemma inv_at_owner own h hd o l x :
  inv_at own h hd -> is_list h (hd o) l -> x ∈ l -> own x = Some o.
Proof.
  intros [Hc _] Hl Hx. destruct (Hc o) as (l' & Hl' & Ho).
  rewrite (is_list_functional _ _ _ _ Hl Hl') in Hx. by destruct (Ho x Hx).
Qed.

Lemma loop_range_NoDup n : NoDup (loop_range n).
Proof.
  unfold loop_range. apply NoDup_fmap_2; [|apply NoDup_seq].
  intros a b. lia.
Qed.

(** [reset] in a memory with well-formed, disjoint lists. *)
Lemma reset_total s (Ls : Z -> list Z) F :
  inv s ->
  (forall i, is_list (heap s) (local_deps s i) (Ls i)) ->
  is_list (heap s) (freelist_head s) F ->
  exists s',
    dart_tasking_datadeps_reset s = Done DART_OK s'
    /\ (forall i, local_deps s' i = NULL)
    /\ is_list (heap s') (freelist_head s') (rev (slot_elements Ls) ++ F)
    /\ (forall x, x ∈ slot_elements Ls -> exists e, heap s' !! x = Some e /\ zeroed e)
    /\ (forall y, y ∉ slot_elements Ls -> heap s' !! y = heap s !! y)
    /\ tasks s' = tasks s
    /\ unhandled_remote_deps s' = unhandled_remote_deps s
    /\ sent s' = sent s /\ queued s' = queued s.
Proof.
  intros [own Hi] Hl HF.
  destruct (reset_loop_spec Ls (loop_range DART_DEPHASH_SIZE) s F)
    as (s1 & Hrun & HF' & Hz & Hfr & Ht & Hld & Hu & Hs & Hq).
  - apply loop_range_NoDup.
  - intros i _. apply Hl.
  - done.
  - intros i j x _ _ Hxi Hxj.
    pose proof (inv_at_owner own _ _ (own_slot i) _ x Hi (Hl i) Hxi) as H1.
    pose proof (inv_at_owner own _ _ (own_slot j) _ x Hi (Hl j) Hxj) as H2.
    congruence.
  - intros i x _ Hxi HxF.
    pose proof (inv_at_owner own _ _ (own_slot i) _ x Hi (Hl i) Hxi) as H1.
    pose proof (inv_at_owner own _ _ own_free _ x Hi HF HxF) as H2.
    congruence.
  - eexists. unfold dart_tasking_datadeps_reset.
    rewrite (bind_run _ _ _ tt s1 Hrun). split; [reflexivity|]. simpl.
    split_and!; done.
Qed.

Section Reachable.

Variable myid : Z.
Variable getoffset : dart_gptr_t -> Z.

(** X22: [reset] returns every registered dependency to the free list.  In
    a memory the unit can reach, with [Ls i] the list of slot [i] and [F]
    the free list, the call returns [DART_OK]; afterwards every slot is
    [NULL]; the free list holds the elements of the slots
    [0 .. DART_DEPHASH_SIZE - 1], last recycled first, in front of [F]; the
    recycled elements are zeroed; no other element changes; the tasks, the
    parked remote requests and the messages are as before. *)
Theorem reset_recycles_slots ops s (Ls : Z -> list Z) F :
  run_ops myid getoffset ops initial_state = Done tt s ->
  (forall i, is_list (heap s) (local_deps s i) (Ls i)) ->
  is_list (heap s) (freelist_head s) F ->
  exists s',
    dart_tasking_datadeps_reset s = Done DART_OK s'
    /\ (forall i, local_deps s' i = NULL)
    /\ is_list (heap s') (freelist_head s') (rev (slot_elements Ls) ++ F)
    /\ (forall x, x ∈ slot_elements Ls -> exists e, heap s' !! x = Some e /\ zeroed e)
    /\ (forall y, y ∉ slot_elements Ls -> heap s' !! y = heap s !! y)
    /\ tasks s' = tasks s
    /\ unhandled_remote_deps s' = unhandled_remote_deps s
    /\ sent s' = sent s /\ queued s' = queued s.
Proof. intros Hr. apply reset_total. by eapply reach_inv. Qed.

(** X23: [fini] frees the elements of the slots and of the free list, and
    nothing else.  In a memory the unit can reach the call ends, without
    freeing an element twice, with the code of the shut-down of the
    transport, taken to be [DART_OK]; afterwards the slots and the
    free list are [NULL], the elements of the slots
    [0 .. DART_DEPHASH_SIZE - 1] and of the free list are no longer
    allocated, and every other element, the parked remote requests and the
    remote successors of the tasks among them, is as before. *)
Theorem fini_frees_slots_and_free_list ops s (Ls : Z -> list Z) F :
  run_ops myid getoffset ops initial_state = Done tt s ->
  (forall i, is_list (heap s) (local_deps s i) (Ls i)) ->
  is_list (heap s) (freelist_head s) F ->
  exists s',
    dart_tasking_datadeps_fini s = Done DART_OK s'
    /\ (forall i, local_deps s' i = NULL)
    /\ freelist_head s' = NULL
    /\ (forall y, heap s' !! y
                  = if decide (y ∈ slot_elements Ls ++ F) then None
                    else heap s !! y)
    /\ tasks s' = tasks s
    /\ unhandled_remote_deps s' = unhandled_remote_deps s
    /\ sent s' = sent s /\ queued s' = queued s.
Proof.
  intros Hr Hl HF. pose proof (reach_inv _ _ _ _ Hr) as Hi.
  destruct (reset_total s Ls F Hi Hl HF)
    as (s1 & Hrun1 & Hld1 & HF1 & Hz1 & Hfr1 & Ht1 & Hu1 & Hs1 & Hq1).
  destruct (free_chain_spec _ (S (size (heap s1))) _ s1 HF1)
    as (s2 & Hrun2 & Hh2 & Ht2 & Hld2 & Hfl2 & Hu2 & Hs2 & Hq2).
  { pose proof (is_list_length _ _ _ HF1). lia. }
  eexists. unfold dart_tasking_datadeps_fini.
  rewrite (bind_run _ _ _ _ _ Hrun1).
  unfold walk_bound. unfold bind at 1. unfold get at 1.
  unfold bind at 1. unfold get at 1.
  rewrite (bind_run _ _ _ _ _ Hrun2). split; [reflexivity|]. simpl.
  split_and!; try congruence.
  intros y. rewrite Hh2.
  destruct (decide (y ∈ slot_elements Ls ++ F)) as [Hin|Hnin].
  - rewrite decide_True; [done|].
    rewrite elem_of_app, elem_of_rev. by apply elem_of_app.
  - rewrite decide_False.
    + apply Hfr1. intros Hy. apply Hnin. apply elem_of_app. by left.
    + rewrite elem_of_app, elem_of_rev. by rewrite <- elem_of_app.
Qed.

End Reachable.

(** ** The walk of [send_direct_dependencies] *)

Lemma add_count_0 k : add_count 0 k = k.
Proof. unfold add_count. simpl. rewrite Z.add_0_r. by destruct k. Qed.

Lemma add_count_add a b k : add_count a (add_count b k) = add_count (b + a) k.
Proof.
  unfold add_count, set_unresolved_deps. simpl. f_equal. lia.
Qed.

(** The walk agrees on memories with the same elements and the same
    active tasks. *)
Lemma while_active_ext s s' l :
  (forall x, x ∈ l -> active s' x = active s x) ->
  while_active s' l = while_active s l.
Proof.
  induction l as [|x l IH]; intros H; [done|]. simpl.
  rewrite H by (by left). destruct (active s x); [|done].
  f_equal. apply IH. intros y Hy. apply H. by right.
Qed.

Lemma while_active_sub s l x : x ∈ while_active s l -> x ∈ l.
Proof.
  induction l as [|y l IH]; simpl; [done|].
  destruct (active s y); [|by intros ?%elem_of_nil].
  intros [->|H]%elem_of_cons; [by left|]. right. by apply IH.
Qed.

Lemma active_writers_ext s s' addr l :
  (forall x, x ∈ l -> heap s' !! x = heap s !! x) ->
  (forall x, x ∈ l -> active s' x = active s x) ->
  active_writers s' addr l = active_writers s addr l.
Proof.
  intros Hh Ha. unfold active_writers. rewrite (while_active_ext s s' l Ha).
  apply filter_ext_in. intros x Hx%list_elem_of_In%while_active_sub.
  by rewrite Hh.
Qed.

Lemma active_writers_sub s addr l x : x ∈ active_writers s addr l -> x ∈ l.
Proof.
  unfold active_writers. rewrite list_elem_of_In, filter_In, <- list_elem_of_In.
  intros [H _]. by eapply while_active_sub.
Qed.

(** The walk over a slot: a direct dependency for every active writer of
    the address, whose task then waits for one more dependency. *)
Lemma send_direct_walk_spec rd : forall L n p s (b : nat),
  is_list (heap s) p L -> (length L < n)%nat ->
  (forall x, x ∈ L ->
     exists e k, heap s !! x = Some e /\ tasks s !! task e = Some k) ->
  (forall q k, tasks s !! q = Some k ->
     0 <= unresolved_deps k < 2 ^ 31 - Z.of_nat b) ->
  (length (active_writers s (addr_or_offs (gptr (taskdep rd))) L) <= b)%nat ->
  exists s',
    send_direct_walk n rd p s = Done tt s'
    /\ heap s' = heap s /\ local_deps s' = local_deps s
    /\ freelist_head s' = freelist_head s
    /\ unhandled_remote_deps s' = unhandled_remote_deps s
    /\ queued s' = queued s
    /\ sent s'
       = sent s
         ++ map (fun x => remote_direct_taskdep (unitid (gptr (taskdep rd)))
                            (task_of (heap s) x) (task rd))
                (active_writers s (addr_or_offs (gptr (taskdep rd))) L)
    /\ (forall q,
          tasks s' !! q
          = add_count
              (count_occ Z.eq_dec
                 (map (task_of (heap s))
                      (active_writers s (addr_or_offs (gptr (taskdep rd))) L)) q)
            <$> tasks s !! q).
Proof.
  induction L as [|x L IH]; intros n p s b Hl Hn Hex Hrange Hb.
  { simpl in Hl. subst p. destruct n; [simpl in Hn; lia|].
    exists s. simpl. split_and!; try done.
    - by rewrite app_nil_r.
    - intros q. destruct (tasks s !! q); [|done]. simpl. by rewrite add_count_0. }
  destruct n as [|n]; [simpl in Hn; lia|].
  destruct Hl as (-> & Hx & e & He & Hl).
  destruct (Hex x) as (e' & k & He' & Hk); [by left|].
  assert (e' = e) as -> by congruence.
  cbn [send_direct_walk]. apply Z.eqb_neq in Hx as Hx'. rewrite Hx'.
  rewrite (bind_run _ _ _ e s) by (unfold read_elem; by rewrite He).
  rewrite (bind_run _ _ _ k s) by (unfold read_task; by rewrite Hk).
  assert (Htx : task_of (heap s) x = task e).
  { unfold task_of. by rewrite He. }
  assert (Hact : active s x = negb (unresolved_deps k =? 0)).
  { unfold active. by rewrite Htx, Hk. }
  unfold active_writers in *. cbn [while_active] in *. rewrite Hact in *.
  destruct (unresolved_deps k =? 0) eqn:Ec; cbn [negb] in *.
  { exists s. simpl. split_and!; try done.
    - by rewrite app_nil_r.
    - intros q. destruct (tasks s !! q); [|done]. simpl. by rewrite add_count_0. }
  apply Z.eqb_neq in Ec.
  cbn [List.filter] in *. rewrite He in *. cbn [default] in *.
  change (id e) with e in *.
  fold (writes_to (addr_or_offs (gptr (taskdep rd))) e) in *.
  set (W := List.filter _ (while_active s L)) in *.
  pose proof (Hrange _ _ Hk) as Hck. revert Hb.
  destruct (writes_to (addr_or_offs (gptr (taskdep rd))) e) eqn:Ew; intros Hb.
  - (* a writer: one message, one more dependency *)
    simpl in Hb. destruct b as [|b]; [lia|].
    set (k1 := set_unresolved_deps (unresolved_deps k + 1) k).
    set (s1 := set_tasks (<[task e := k1]> (tasks s))
                 (set_sent (sent s ++ [remote_direct_taskdep
                                         (unitid (gptr (taskdep rd))) (task e)
                                         (task rd)]) s)).
    rewrite (bind_run _ _ _ tt s1).
    2:{ unfold inc_unresolved_deps, send, modify, write_task, read_task, bind,
          ret. simpl. rewrite Hk. simpl. rewrite Hk. subst s1 k1.
        rewrite cast_int_id by lia. done. }
    assert (Hact1 : forall y, active s1 y = active s y).
    { intros y. unfold active. subst s1. simpl.
      destruct (decide (task_of (heap s) y = task e)) as [->|Hne].
      - rewrite lookup_insert_eq, Hk. subst k1. simpl.
        f_equal. apply Z.eqb_neq in Ec. rewrite Ec. apply Z.eqb_neq. lia.
      - by rewrite lookup_insert_ne. }
    assert (HW : List.filter
                   (fun y => writes_to (addr_or_offs (gptr (taskdep rd)))
                               (default zero_elem (heap s1 !! y)))
                   (while_active s1 L) = W).
    { subst W. rewrite (while_active_ext s s1 L); [done|]. intros y _. apply Hact1. }
    destruct (IH n (next e) s1 b)
      as (s' & Hrun & Hh & Hld & Hfl & Hu & Hq & Hs & Ht).
    + done.
    + simpl in Hn. lia.
    + intros y Hy. destruct (Hex y) as (ey & ky & Hey & Hky); [by right|].
      exists ey. subst s1. simpl.
      destruct (decide (task ey = task e)) as [Heq|Hne].
      * rewrite Heq, lookup_insert_eq. eauto.
      * rewrite lookup_insert_ne by done. eauto.
    + intros q kq. subst s1. simpl.
      destruct (decide (q = task e)) as [->|Hne].
      * rewrite lookup_insert_eq. intros [= <-]. subst k1. simpl. lia.
      * rewrite lookup_insert_ne by done. intros Hq'.
        pose proof (Hrange _ _ Hq'). lia.
    + rewrite HW. lia.
    + rewrite HW in Hs, Ht. exists s'. split; [done|].
      split_and!; try done.
      * rewrite Hs. subst s1. simpl. rewrite <- app_assoc. simpl.
        by rewrite Htx.
      * intros q. rewrite Ht. subst s1. simpl. rewrite Htx.
        destruct (Z.eq_dec (task e) q) as [<-|Hne].
        -- rewrite lookup_insert_eq, Hk. simpl. subst k1.
           unfold add_count, set_unresolved_deps. simpl. do 2 f_equal. lia.
        -- by rewrite lookup_insert_ne.
  - (* not a writer of the address *)
    rewrite (bind_run _ _ _ tt s) by done.
    destruct (IH n (next e) s b)
      as (s' & Hrun & Hh & Hld & Hfl & Hu & Hq & Hs & Ht); try done.
    + simpl in Hn. lia.
    + intros y Hy. apply Hex. by right.
    + exists s'. split; [done|]. split_and!; done.
Qed.

Lemma while_active_active s l x : x ∈ while_active s l -> active s x = true.
Proof.
  induction l as [|y l IH]; simpl; [by intros ?%elem_of_nil|].
  destruct (active s y) eqn:E; [|by intros ?%elem_of_nil].
  intros [->|H]%elem_of_cons; [done|]. by apply IH.
Qed.

Lemma active_writers_active s addr l x :
  x ∈ active_writers s addr l -> active s x = true.
Proof.
  unfold active_writers. rewrite list_elem_of_In, filter_In, <- list_elem_of_In.
  intros [H _]. by eapply while_active_active.
Qed.

Lemma later_writers_sub s Ls r x :
  x ∈ later_writers s Ls r -> exists i, x ∈ Ls i.
Proof.
  unfold later_writers.
  destruct (type (taskdep (default zero_elem (heap s !! r))));
    try (intros H%active_writers_sub; eauto); by intros ?%elem_of_nil.
Qed.

Lemma later_writers_active s Ls r x :
  x ∈ later_writers s Ls r -> active s x = true.
Proof.
  unfold later_writers.
  destruct (type (taskdep (default zero_elem (heap s !! r))));
    try (by intros H%active_writers_active); by intros ?%elem_of_nil.
Qed.

(** More dependencies on active tasks leave the active tasks active. *)
Lemma active_add_count s s' (W : list Z) :
  heap s' = heap s ->
  (forall x, x ∈ W -> active s x = true) ->
  (forall q k, tasks s !! q = Some k -> 0 <= unresolved_deps k) ->
  (forall q, tasks s' !! q
             = add_count (count_occ Z.eq_dec (map (task_of (heap s)) W) q)
               <$> tasks s !! q) ->
  forall y, active s' y = active s y.
Proof.
  intros Hh HW Hpos Ht y. unfold active. rewrite Hh, Ht.
  destruct (tasks s !! task_of (heap s) y) as [k|] eqn:Ek; [|done]. simpl.
  f_equal.
  destruct (count_occ Z.eq_dec (map (task_of (heap s)) W) (task_of (heap s) y))
    as [|m] eqn:Ec.
  { by rewrite Z.add_0_r. }
  assert (Hin : In (task_of (heap s) y) (map (task_of (heap s)) W)).
  { apply (count_occ_In Z.eq_dec). lia. }
  apply in_map_iff in Hin as (x & Hxy & Hx%list_elem_of_In).
  pose proof (HW x Hx) as Ha. unfold active in Ha. rewrite Hxy, Ek in Ha.
  apply negb_true_iff in Ha. rewrite Ha. apply Z.eqb_neq.
  pose proof (Hpos _ _ Ek). apply Z.eqb_neq in Ha. lia.
Qed.

Lemma later_writers_ext s s' Ls r :
  heap s' !! r = heap s !! r ->
  (forall i x, x ∈ Ls i -> heap s' !! x = heap s !! x) ->
  (forall y, active s' y = active s y) ->
  later_writers s' Ls r = later_writers s Ls r.
Proof.
  intros Hr Hh Ha. unfold later_writers. rewrite Hr.
  destruct (type (taskdep (default zero_elem (heap s !! r)))); try done;
    apply active_writers_ext; eauto.
Qed.

Lemma release_messages_ext s s' Ls r :
  heap s' !! r = heap s !! r ->
  (forall i x, x ∈ Ls i -> heap s' !! x = heap s !! x) ->
  (forall y, active s' y = active s y) ->
  release_messages s' Ls r = release_messages s Ls r.
Proof.
  intros Hr Hh Ha. unfold release_messages, release_of.
  rewrite (later_writers_ext s s' Ls r Hr Hh Ha), Hr. f_equal.
  apply map_ext_in. intros x Hx%list_elem_of_In%later_writers_sub.
  destruct Hx as [i Hx]. unfold task_of. by rewrite (Hh i x Hx).
Qed.

(** [send_direct_dependencies] on a remote successor. *)
Lemma send_direct_dependencies_spec s Ls r er (b : nat) :
  heap s !! r = Some er ->
  (forall i, is_list (heap s) (local_deps s i) (Ls i)) ->
  (forall i x, x ∈ Ls i ->
     exists e k, heap s !! x = Some e /\ tasks s !! task e = Some k) ->
  (forall q k, tasks s !! q = Some k ->
     0 <= unresolved_deps k < 2 ^ 31 - Z.of_nat b) ->
  (length (later_writers s Ls r) <= b)%nat ->
  exists s',
    send_direct_dependencies r s = Done DART_OK s'
    /\ heap s' = heap s /\ local_deps s' = local_deps s
    /\ freelist_head s' = freelist_head s
    /\ unhandled_remote_deps s' = unhandled_remote_deps s
    /\ queued s' = queued s
    /\ sent s'
       = sent s
         ++ map (fun x => remote_direct_taskdep (unitid (gptr (taskdep er)))
                            (task_of (heap s) x) (task er))
                (later_writers s Ls r)
    /\ (forall q,
          tasks s' !! q
          = add_count
              (count_occ Z.eq_dec
                 (map (task_of (heap s)) (later_writers s Ls r)) q)
            <$> tasks s !! q).
Proof.
  intros Hr Hl Hex Hrange Hb. unfold send_direct_dependencies.
  rewrite (bind_run _ _ _ er s) by (unfold read_elem; by rewrite Hr).
  unfold later_writers in *. rewrite Hr in *. cbn [default] in *.
  change (id er) with er in *.
  assert (Hnone : exists s',
    Done DART_OK s = Done DART_OK s'
    /\ heap s' = heap s /\ local_deps s' = local_deps s
    /\ freelist_head s' = freelist_head s
    /\ unhandled_remote_deps s' = unhandled_remote_deps s
    /\ queued s' = queued s
    /\ sent s' = sent s ++ []
    /\ (forall q, tasks s' !! q = add_count 0 <$> tasks s !! q)).
  { exists s. split_and!; try done.
    - by rewrite app_nil_r.
    - intros q. destruct (tasks s !! q); [|done]. simpl. by rewrite add_count_0. }
  destruct (type (taskdep er)) eqn:Et; try exact Hnone;
    (destruct (send_direct_walk_spec er (Ls (hash_gptr (gptr (taskdep er))))
                (S (size (heap s)))
                (local_deps s (hash_gptr (gptr (taskdep er)))) s b)
       as (s' & Hrun & H);
     [apply Hl
     |pose proof (is_list_length _ _ _ (Hl (hash_gptr (gptr (taskdep er))))); lia
     |intros x Hx; by eapply Hex
     |done
     |done
     |exists s'; split; [|exact H];
      unfold walk_bound, lv_local_deps, load;
      unfold bind at 1; unfold get at 1; unfold bind at 1; unfold get at 1;
      unfold bind at 1; by rewrite Hrun]).
Qed.

(** ** The loop of [release_remote_dependencies] *)

Lemma release_remote_loop_spec Ls : forall R n p s F (b : nat),
  is_list (heap s) p R -> (length R < n)%nat ->
  is_list (heap s) (freelist_head s) F ->
  (forall x, x ∈ R -> x ∉ F) ->
  (forall i, is_list (heap s) (local_deps s i) (Ls i)) ->
  (forall i x, x ∈ Ls i -> x ∉ R) ->
  (forall i x, x ∈ Ls i ->
     exists e k, heap s !! x = Some e /\ tasks s !! task e = Some k) ->
  (forall q k, tasks s !! q = Some k ->
     0 <= unresolved_deps k < 2 ^ 31 - Z.of_nat b) ->
  (length (concat (map (later_writers s Ls) R)) <= b)%nat ->
  exists s',
    release_remote_loop n p s = Done tt s'
    /\ sent s' = sent s ++ concat (map (release_messages s Ls) R)
    /\ (forall q,
          tasks s' !! q
          = add_count
              (count_occ Z.eq_dec
                 (map (task_of (heap s)) (concat (map (later_writers s Ls) R))) q)
            <$> tasks s !! q)
    /\ is_list (heap s') (freelist_head s') (rev R ++ F)
    /\ (forall x, x ∈ R -> exists e, heap s' !! x = Some e /\ zeroed e)
    /\ (forall y, y ∉ R -> heap s' !! y = heap s !! y)
    /\ local_deps s' = local_deps s
    /\ unhandled_remote_deps s' = unhandled_remote_deps s
    /\ queued s' = queued s.
Proof.
  induction R as [|r R IH]; intros n p s F b Hl Hn HF HRF HLs HLR Hex Hrange Hb.
  { simpl in Hl. subst p. destruct n; [simpl in Hn; lia|].
    exists s. simpl. split_and!; try done.
    - by rewrite app_nil_r.
    - intros q. destruct (tasks s !! q); [|done]. simpl. by rewrite add_count_0.
    - by intros x ?%elem_of_nil. }
  destruct n as [|n]; [simpl in Hn; lia|].
  pose proof (is_list_NoDup _ _ _ Hl) as Hnd.
  apply list.NoDup_cons in Hnd as [HrR _].
  destruct Hl as (-> & Hr & er & Her & Hl).
  cbn [map concat] in Hb |- *. rewrite length_app in Hb.
  set (W := later_writers s Ls r) in *.
  destruct (send_direct_dependencies_spec s Ls r er b Her HLs Hex Hrange)
    as (s1 & Hrun1 & Hh1 & Hld1 & Hfl1 & Hu1 & Hq1 & Hs1 & Ht1); [fold W; lia|].
  fold W in Hs1, Ht1.
  cbn [release_remote_loop]. apply Z.eqb_neq in Hr as Hr'. rewrite Hr'.
  cbv zeta.
  rewrite (bind_run _ _ _ er s) by (unfold read_elem; by rewrite Her).
  rewrite (bind_run _ _ _ _ _ Hrun1).
  rewrite (bind_run _ _ _ er s1) by (unfold read_elem; by rewrite Hh1, Her).
  set (s2 := set_sent (sent s1 ++ [remote_release (unitid (gptr (taskdep er)))
                                     (task er) (taskdep er)]) s1).
  rewrite (bind_run _ _ _ tt s2) by done.
  assert (Her2 : heap s2 !! r = Some er) by (subst s2; simpl; by rewrite Hh1).
  rewrite (bind_run _ _ _ tt _ (dephash_recycle_elem_eq r er s2 Hr Her2)).
  set (s3 := set_freelist_head _ _).
  assert (Hh3 : forall y, y <> r -> heap s3 !! y = heap s !! y).
  { intros y Hy. subst s3 s2. simpl. rewrite lookup_insert_ne by done.
    by rewrite Hh1. }
  assert (Hslot : forall i x, x ∈ Ls i -> heap s3 !! x = heap s !! x).
  { intros i x Hx. apply Hh3. intros ->. apply (HLR i r Hx). by left. }
  assert (Hpos : forall q k, tasks s !! q = Some k -> 0 <= unresolved_deps k).
  { intros q k Hk. pose proof (Hrange q k Hk). lia. }
  assert (Hact1 : forall y, active s1 y = active s y).
  { apply (active_add_count s s1 W); try done.
    intros x Hx. by eapply later_writers_active. }
  assert (Hact3 : forall i x, x ∈ Ls i -> active s3 x = active s x).
  { intros i x Hx. rewrite <- Hact1. unfold active, task_of.
    subst s3 s2. simpl. rewrite lookup_insert_ne; [by rewrite Hh1|].
    intros <-. apply (HLR i r Hx). by left. }
  assert (Hlw : forall r', r' ∈ R ->
            later_writers s3 Ls r' = later_writers s Ls r'
            /\ release_messages s3 Ls r' = release_messages s Ls r').
  { intros r' Hr'R.
    assert (Hne : r' <> r) by (by intros ->).
    assert (Hlw0 : later_writers s3 Ls r' = later_writers s Ls r').
    { unfold later_writers. rewrite (Hh3 r' Hne).
      destruct (type (taskdep (default zero_elem (heap s !! r')))); try done;
        apply active_writers_ext; eauto. }
    split; [done|].
    unfold release_messages, release_of. rewrite Hlw0, (Hh3 r' Hne). f_equal.
    apply map_ext_in. intros x Hx%list_elem_of_In%later_writers_sub.
    destruct Hx as [i Hx]. unfold task_of. by rewrite (Hslot i x Hx). }
  assert (Hcat : concat (map (later_writers s3 Ls) R)
                 = concat (map (later_writers s Ls) R)).
  { f_equal. apply map_ext_in. intros r' Hr'R%list_elem_of_In.
    by destruct (Hlw r' Hr'R). }
  assert (Hmsg : concat (map (release_messages s3 Ls) R)
                 = concat (map (release_messages s Ls) R)).
  { f_equal. apply map_ext_in. intros r' Hr'R%list_elem_of_In.
    by destruct (Hlw r' Hr'R). }
  assert (Htask : map (task_of (heap s3)) (concat (map (later_writers s Ls) R))
                  = map (task_of (heap s)) (concat (map (later_writers s Ls) R))).
  { apply map_ext_in. intros x Hx. apply in_concat in Hx as (l & Hl' & Hx).
    apply in_map_iff in Hl' as (r' & <- & _).
    apply list_elem_of_In, later_writers_sub in Hx as [i Hx].
    unfold task_of. by rewrite (Hslot i x Hx). }
  destruct (IH n (next er) s3 (r :: F) (b - length W)%nat)
    as (s' & Hrun & Hs' & Ht' & HF' & Hz' & Hfr' & Hld' & Hu' & Hq').
  - subst s3 s2. simpl. apply is_list_insert; [by rewrite Hh1|done].
  - simpl in Hn. lia.
  - subst s3 s2. simpl. split_and!; [done..|]. eexists.
    rewrite lookup_insert_eq. split; [done|]. simpl. rewrite Hfl1, Hh1.
    apply is_list_insert; [done|]. apply HRF. by left.
  - intros y Hy. rewrite not_elem_of_cons. split; [by intros ->|].
    apply HRF. by right.
  - intros i. subst s3 s2. simpl. rewrite Hld1, Hh1.
    apply is_list_insert; [done|]. intros Hin. apply (HLR i r Hin). by left.
  - intros i x Hx HxR. apply (HLR i x Hx). by right.
  - intros i x Hx. destruct (Hex i x Hx) as (e & k & He & Hk).
    exists e. rewrite (Hslot i x Hx). subst s3 s2. simpl. rewrite Ht1, Hk.
    simpl. eauto.
  - intros q k. subst s3 s2. simpl. rewrite Ht1.
    destruct (tasks s !! q) as [k0|] eqn:Ek; [|done]. simpl. intros [= <-].
    unfold add_count. simpl. pose proof (Hrange q k0 Ek).
    pose proof (count_occ_bound Z.eq_dec q (map (task_of (heap s)) W)) as Hcb.
    rewrite length_map in Hcb. lia.
  - rewrite Hcat. lia.
  - exists s'. split; [done|]. rewrite Hmsg in Hs'. rewrite Hcat, Htask in Ht'.
    split_and!.
    + rewrite Hs'. subst s3 s2. simpl. rewrite Hs1.
      unfold release_messages at 2. fold W. unfold release_of. rewrite Her.
      simpl. by rewrite <- !app_assoc.
    + intros q. rewrite Ht'. subst s3 s2. simpl. rewrite Ht1.
      rewrite map_app, count_occ_app.
      destruct (tasks s !! q); [|done]. simpl. by rewrite add_count_add.
    + simpl. by rewrite <- app_assoc.
    + intros y [->|Hy]%elem_of_cons; [|by apply Hz'].
      rewrite Hfr' by done. subst s3. simpl. rewrite lookup_insert_eq.
      eexists. split; [done|]. done.
    + intros y [Hyr Hy]%not_elem_of_cons. rewrite Hfr' by done. by apply Hh3.
    + rewrite Hld'. subst s3 s2. simpl. done.
    + rewrite Hu'. subst s3 s2. simpl. done.
    + rewrite Hq'. subst s3 s2. simpl. done.
Qed.

Section Reachable.

Variable myid : Z.
Variable getoffset : dart_gptr_t -> Z.

(** X24: the release of the remote successors of a task.  In a memory
    the unit can reach, let [R] be the remote successors of [t], [F] the
    free list and [Ls i] the list of slot [i], whose elements belong to
    allocated tasks; the counts of unresolved dependencies are not
    negative and do not overflow.  [release_remote_dependencies] returns
    [DART_OK].  For each remote successor in list order it sends, unless
    the successor is a direct dependency, one direct dependency for every
    write of the address of the successor among the elements of the slot
    of that address up to the first element whose task has no unresolved
    dependency, and increments the count of the task of that write; then it
    sends the release of the successor.  The successors are zeroed and
    pushed on the free list, the task is left without remote successor, and
    no other element, slot or list changes. *)
Theorem release_of_remote_successors ops s t tk R F Ls :
  run_ops myid getoffset ops initial_state = Done tt s ->
  tasks s !! t = Some tk ->
  is_list (heap s) (remote_successor tk) R ->
  is_list (heap s) (freelist_head s) F ->
  (forall i, is_list (heap s) (local_deps s i) (Ls i)) ->
  (forall i x, x ∈ Ls i ->
     exists e k, heap s !! x = Some e /\ tasks s !! task e = Some k) ->
  (forall q k, tasks s !! q = Some k ->
     0 <= unresolved_deps k
     < 2 ^ 31 - Z.of_nat (length (concat (map (later_writers s Ls) R)))) ->
  exists s',
    release_remote_dependencies t s = Done DART_OK s'
    /\ sent s' = sent s ++ concat (map (release_messages s Ls) R)
    /\ tasks s' !! t
       = Some (set_remote_successor NULL
                 (add_count (direct_dependencies s Ls R t) tk))
    /\ (forall q, q <> t ->
          tasks s' !! q
          = add_count (direct_dependencies s Ls R q) <$> tasks s !! q)
    /\ is_list (heap s') (freelist_head s') (rev R ++ F)
    /\ (forall x, x ∈ R -> exists e, heap s' !! x = Some e /\ zeroed e)
    /\ (forall y, y ∉ R -> heap s' !! y = heap s !! y)
    /\ local_deps s' = local_deps s
    /\ unhandled_remote_deps s' = unhandled_remote_deps s
    /\ queued s' = queued s.
Proof.
  intros Hr Htk HR HF HLs Hex Hrange.
  destruct (reach_inv _ _ _ _ Hr) as [own Hi].
  assert (HR' : is_list (heap s) (heads s (own_task t)) R).
  { simpl. by rewrite Htk. }
  destruct (release_remote_loop_spec Ls R (S (size (heap s))) (remote_successor tk)
              s F (length (concat (map (later_writers s Ls) R))))
    as (s1 & Hrun & Hs1 & Ht1 & HF1 & Hz1 & Hfr1 & Hld1 & Hu1 & Hq1); try done.
  - pose proof (is_list_length _ _ _ HR). lia.
  - intros x HxR HxF.
    pose proof (inv_at_owner own _ _ (own_task t) _ x Hi HR' HxR) as H1.
    pose proof (inv_at_owner own _ _ own_free _ x Hi HF HxF) as H2.
    congruence.
  - intros i x Hxi HxR.
    pose proof (inv_at_owner own _ _ (own_task t) _ x Hi HR' HxR) as H1.
    pose proof (inv_at_owner own _ _ (own_slot i) _ x Hi (HLs i) Hxi) as H2.
    congruence.
  - pose proof (Ht1 t) as Ht1t. rewrite Htk in Ht1t. simpl in Ht1t.
    eexists. split.
    + unfold release_remote_dependencies, walk_bound, lv_remote_successor, load,
        store.
      unfold bind at 1. unfold get at 1. unfold bind at 1. unfold bind at 1.
      unfold read_task at 1. rewrite Htk. unfold ret at 1.
      unfold bind at 1. rewrite Hrun.
      unfold bind at 1. unfold write_task. rewrite Ht1t. reflexivity.
    + simpl. split_and!; try done.
      * by rewrite lookup_insert_eq.
      * intros q Hq. rewrite lookup_insert_ne by done. apply Ht1.
Qed.

End Reachable.

(** ** The theorems on further example runs *)

(** B reads the address that A writes: B waits for A. *)
Lemma handle_task_local_dependency_witness :
  exists p s',
    dart_tasking_datadeps_handle_task example_myid example_getoffset task_B
      [local_dep DART_DEP_IN 32768] A_registered = Done DART_OK s'
    /\ p <> NULL
    /\ (heap A_registered !! p = None \/ p = freelist_head A_registered)
    /\ heap s'
       = <[p := mk_elem
                  (local_deps A_registered
                     (hash_gptr (gptr (local_dep DART_DEP_IN 32768))))
                  task_B (local_dep DART_DEP_IN 32768) (task_phase (new_task 0))]>
           (heap A_registered)
    /\ (forall i, local_deps s' i
                  = if i =? hash_gptr (gptr (local_dep DART_DEP_IN 32768))
                    then p else local_deps A_registered i)
    /\ tasks s' !! task_B
       = Some (add_unresolved
                 (length (predecessors A_registered
                            (local_dep DART_DEP_IN 32768) [1]))
                 (new_task 0))
    /\ (forall q, q <> task_B ->
          tasks s' !! q
          = add_successors task_B
              (count_occ Z.eq_dec
                 (predecessors A_registered (local_dep DART_DEP_IN 32768) [1]) q)
            <$> tasks A_registered !! q)
    /\ sent s' = sent A_registered
    /\ unhandled_remote_deps s' = unhandled_remote_deps A_registered
    /\ queued s' = queued A_registered.
Proof.
  refine (handle_task_local_dependency example_myid example_getoffset register_A
            A_registered task_B (new_task 0) (local_dep DART_DEP_IN 32768)
            (local_dep DART_DEP_IN 32768) [1] _ _ _ _ _ _ _ _).
  - vm_compute. reflexivity.
  - reflexivity.
  - reflexivity.
  - discriminate.
  - vm_compute. reflexivity.
  - vm_compute. split_and!; try done. eexists. split; reflexivity.
  - intros x [->|[]%elem_of_nil]%elem_of_cons. eexists. split_and!.
    + vm_compute. reflexivity.
    + discriminate.
    + vm_compute. eauto.
  - left. reflexivity.
Defined.

(** Task T writes the address of the two parked requests. *)
Lemma sweep_of_parked_requests_witness :
  exists s' r,
    check_unresolved_remote_deps task_T (local_dep DART_DEP_OUT 8192)
      parked_requests = Done DART_OK s'
    /\ is_list (heap s') (unhandled_remote_deps s')
         (left_over (heap parked_requests) (local_dep DART_DEP_OUT 8192)
            (task_phase (new_task 4)) [] [2; 1])
    /\ tasks s'
       = <[task_T := set_remote_successor r
                       (add_unresolved
                          (length (List.filter
                                     (earlier_phase (heap parked_requests)
                                        (local_dep DART_DEP_OUT 8192)
                                        (task_phase (new_task 4))) [2; 1]))
                          (new_task 4))]> (tasks parked_requests)
    /\ is_list (heap s') r
         (rev (List.filter (same_phase (heap parked_requests)
                              (local_dep DART_DEP_OUT 8192)
                              (task_phase (new_task 4))) [2; 1]) ++ [])
    /\ sent s'
       = sent parked_requests
         ++ map (direct_of (heap parked_requests) task_T)
                (List.filter (earlier_phase (heap parked_requests)
                                (local_dep DART_DEP_OUT 8192)
                                (task_phase (new_task 4))) [2; 1])
    /\ same_fields (heap parked_requests) (heap s')
    /\ (forall y, y ∉ [2; 1] -> heap s' !! y = heap parked_requests !! y)
    /\ local_deps s' = local_deps parked_requests
    /\ freelist_head s' = freelist_head parked_requests
    /\ queued s' = queued parked_requests.
Proof.
  refine (sweep_of_parked_requests task_T (new_task 4)
            (local_dep DART_DEP_OUT 8192) [2; 1] [] parked_requests _ _ _ _).
  - vm_compute. reflexivity.
  - vm_compute. repeat split; try discriminate; eexists; (split; [reflexivity|]);
      repeat split; try discriminate; eexists; (split; [reflexivity|]); reflexivity.
  - reflexivity.
  - intros x _ []%elem_of_nil.
Defined.


(** The slots of the memory where T is registered. *)
Lemma slots_of_writer_lists i :
  is_list (heap writer_registered) (local_deps writer_registered i)
    (slots_of_writer i).
Proof.
  assert (H : local_deps writer_registered i = if i =? 8 then 1 else NULL)
    by reflexivity.
  rewrite H. unfold slots_of_writer. destruct (i =? 8); [|done].
  vm_compute. split_and!; try done. eexists. split; reflexivity.
Defined.

Lemma reset_recycles_slots_witness :
  exists s',
    dart_tasking_datadeps_reset writer_registered = Done DART_OK s'
    /\ (forall i, local_deps s' i = NULL)
    /\ is_list (heap s') (freelist_head s')
         (rev (slot_elements slots_of_writer) ++ [])
    /\ (forall x, x ∈ slot_elements slots_of_writer ->
          exists e, heap s' !! x = Some e /\ zeroed e)
    /\ (forall y, y ∉ slot_elements slots_of_writer ->
          heap s' !! y = heap writer_registered !! y)
    /\ tasks s' = tasks writer_registered
    /\ unhandled_remote_deps s' = unhandled_remote_deps writer_registered
    /\ sent s' = sent writer_registered /\ queued s' = queued writer_registered.
Proof.
  refine (reset_recycles_slots example_myid example_getoffset register_writer
            writer_registered slots_of_writer [] _ _ _).
  - vm_compute. reflexivity.
  - apply slots_of_writer_lists.
  - reflexivity.
Defined.

Lemma fini_frees_slots_and_free_list_witness :
  exists s',
    dart_tasking_datadeps_fini writer_registered = Done DART_OK s'
    /\ (forall i, local_deps s' i = NULL)
    /\ freelist_head s' = NULL
    /\ (forall y, heap s' !! y
                  = if decide (y ∈ slot_elements slots_of_writer ++ []) then None
                    else heap writer_registered !! y)
    /\ tasks s' = tasks writer_registered
    /\ unhandled_remote_deps s' = unhandled_remote_deps writer_registered
    /\ sent s' = sent writer_registered /\ queued s' = queued writer_registered.
Proof.
  refine (fini_frees_slots_and_free_list example_myid example_getoffset
            register_writer writer_registered slots_of_writer [] _ _ _).
  - vm_compute. reflexivity.
  - apply slots_of_writer_lists.
  - reflexivity.
Defined.

(** T is released: the later writer U gets a direct dependency to the
    remote reader, then the reader is released. *)

Lemma release_of_remote_successors_witness :
  exists s',
    release_remote_dependencies task_T written_read_written = Done DART_OK s'
    /\ sent s'
       = sent written_read_written
         ++ concat (map (release_messages written_read_written slots_of_writers)
                        [2])
    /\ tasks s' !! task_T
       = Some (set_remote_successor NULL
                 (add_count
                    (direct_dependencies written_read_written slots_of_writers
                       [2] task_T)
                    (mk_task DART_TASK_CREATED 4 0 [task_U] 2)))
    /\ (forall q, q <> task_T ->
          tasks s' !! q
          = add_count
              (direct_dependencies written_read_written slots_of_writers [2] q)
            <$> tasks written_read_written !! q)
    /\ is_list (heap s') (freelist_head s') (rev [2] ++ [])
    /\ (forall x, x ∈ [2] -> exists e, heap s' !! x = Some e /\ zeroed e)
    /\ (forall y, y ∉ [2] -> heap s' !! y = heap written_read_written !! y)
    /\ local_deps s' = local_deps written_read_written
    /\ unhandled_remote_deps s' = unhandled_remote_deps written_read_written
    /\ queued s' = queued written_read_written.
Proof.
  refine (release_of_remote_successors example_myid example_getoffset
            write_read_write written_read_written task_T
            (mk_task DART_TASK_CREATED 4 0 [task_U] 2) [2] [] slots_of_writers
            _ _ _ _ _ _ _).
  - vm_compute. reflexivity.
  - vm_compute. reflexivity.
  - vm_compute. split_and!; try done. eexists. split; reflexivity.
  - vm_compute. reflexivity.
  - intros i.
    assert (H : local_deps written_read_written i
                = if i =? 8 then 3 else if i =? 8 then 1 else NULL)
      by (vm_compute; reflexivity).
    rewrite H. unfold slots_of_writers. destruct (i =? 8); [|reflexivity].
    vm_compute. do 2 (split; [reflexivity|]; split; [discriminate|]; eexists;
                      split; [reflexivity|]). reflexivity.
  - intros i x. unfold slots_of_writers. destruct (i =? 8);
      [|by intros ?%elem_of_nil].
    intros [->|[->|[]%elem_of_nil]%elem_of_cons]%elem_of_cons;
      eexists _, _; split; vm_compute; reflexivity.
  - intros q k Hq. apply elem_of_map_to_list in Hq.
    assert (Hl : map_to_list (tasks written_read_written)
                 = [(task_T, mk_task DART_TASK_CREATED 4 0 [task_U] 2);
                    (task_U, mk_task DART_TASK_CREATED 4 1 [] NULL)])
      by (vm_compute; reflexivity).
    revert Hq. rewrite Hl.
    intros [Hq|[Hq|[]%elem_of_nil]%elem_of_cons]%elem_of_cons;
      injection Hq as -> ->; vm_compute.
    all: split; [discriminate|reflexivity].
Defined.

(** ** A dependency that is registered and then released *)




Section Unit.

Variable myid : Z.
Variable getoffset : dart_gptr_t -> Z.


End Unit.


End DatadepsFacts.
